(* ===== verification/_CoqProject ===== *)
-Q . S2P
Prelude.v
PyBytes.v
Utf8.v
PyDict.v
PyStr.v
Wire.v
Properties.v
PropertyRecords.v
Packets.v
Codec.v
CodecFacts.v
CodecSound.v
Reader.v
TopicMatching.v
SubscriptionIndex.v
IndexFacts.v
State.v
Routing.v
Protocol.v
ProtocolFrames.v
ProtocolFacts.v
Pings.v
Inbound.v
InboundFacts.v
InboundInv.v
Delivery.v
Connection.v
ConnectionFacts.v
Answers.v
EndToEnd.v
Replay.v
DrainTasks.v
DrainTasksFacts.v
Transport.v
TransportFacts.v
Keepalive.v
KeepaliveFacts.v
Guards.v
GuardsFacts.v
Requests.v
RequestsFacts.v
Correlation.v
Subscriptions.v
SubscriptionsFacts.v
Ownership.v
Client.v
ClientFacts.v
ClientProps.v
RequestCalls.v
RequestCallsFacts.v
Lifetime.v
