(* ===== verification/Prelude.v ===== *)
(** * zmqtt: a verification development

    This library models the MQTT client [zmqtt] (the sources under [src/src/zmqtt]; the
    paths below are relative to it) and proves what makes it correct.

    ** The program

    A client holds one connection at a time.  The layers, bottom up:
    - the wire format: integers, strings, property blocks, the fifteen packets and the
      buffer that cuts a byte stream into packets;
    - topics and the index of subscriptions that routes a message to its recipient;
    - the protocol engine of one connection: packet identifiers, the QoS 1 and QoS 2
      handshakes in both directions, SUBSCRIBE and UNSUBSCRIBE, ping, teardown, the
      guards that serialize changes of a topic filter, and the read loop that
      dispatches packets;
    - the dispatcher of request/response exchanges, which claims responses before the
      index routes them and outlives connections;
    - the transport, a pair of asyncio streams;
    - the client: checks of the public calls, connecting with retries, the run loop
      that recovers a lost connection and restores subscriptions, and the calls of
      [request], which register, publish, wait and clean up.

    ** Files and sources

    - [Prelude]: exceptions ([errors.py]), results, the state-and-exception monad [ST],
      tactics and hint databases.
    - [PyBytes], [Utf8], [PyDict], [PyStr]: what the code uses of Python's [struct],
      [bytes], strict UTF-8, ordered dictionaries and string methods.
    - [Wire], [Properties], [PropertyRecords], [Packets], [Codec], [Reader]:
      [_internal/packets/].  [CodecFacts], [CodecSound]: lemmas and theorems of the codec.
    - [TopicMatching]: [_internal/topic_matching.py], [_internal/types/topic.py].
      [SubscriptionIndex], [IndexFacts]: [_internal/subscription_index.py].
    - [State]: [_internal/state.py].  [Routing]: [_internal/routing.py], the interface
      (a class with laws) between the inbound flow and the request dispatcher.
    - [Protocol], [ProtocolFacts], [ProtocolFrames], [Pings]: the outbound side of
      [_internal/protocol.py].  [Guards], [GuardsFacts]: its [_SubscriptionGuards].
      [Subscriptions], [SubscriptionsFacts], [Ownership]: [_subscribe], [_unsubscribe]
      and the response observers.  [Connection], [ConnectionFacts]: [connect], the read
      loop, [_dispatch], [disconnect] and the end of [run].  [Keepalive],
      [KeepaliveFacts]: [run] with its two tasks, the ping loop and its timers.
    - [Transport], [TransportFacts]: [_internal/transport/], the default factory of
      [client.py] and [_internal/_compat.py].
    - [Inbound], [InboundFacts], [InboundInv], [Delivery]: [_internal/inbound.py] and
      [Message.ack] of [_internal/types/message.py].  [DrainTasks], [DrainTasksFacts]: its
      [drain] and [expire] as tasks that are suspended in their writes.
    - [EndToEnd]: the whole receiving path, from bytes to the queues of the application
      and the answers on the wire.  [Answers]: the same for the answers to published
      messages, from bytes to the futures of the callers.  [Replay]: the same for the
      messages that a resumed session holds until they have a subscription.
    - [Requests], [RequestsFacts], [Correlation]: [_internal/request_response.py].
    - [Client], [ClientFacts], [ClientProps]: [client.py].  [Lifetime]: its run loop
      with the [run] of the connection it serves.  [RequestCalls], [RequestCallsFacts]:
      [MQTTClient.request], with the dispatcher it uses.

    ** How the code is modelled

    Definitions keep the names of the source.  Pure functions are functions into
    [result]; methods are computations in [ST] over the record of the object's state,
    which keep the state changes made before an exception.  The program runs on one
    event loop, so the code between two suspension points is atomic: a coroutine is
    split at each [await] that can suspend for long ([f_begin]/[f], then [f_end] with the
    outcome of the wait), and a step relation interleaves the parts ([step] of the
    engine, [flow_step], [guards_step], [dispatcher_step], [sys_step], [serving_step],
    [client_step], [requests_step] and [timed_step], [transport_step]).
    Writes on the transport are atomic: they append to [e_wire], or raise [OSError] when
    the link is down.  In [DrainTasks] the writes of a drain suspend it ([drains_step]); it
    may be cancelled in them, on a live connection too.  The timers that bound a wait (of
    the ping loop in [Keepalive], of the wait for a response in [RequestCalls]) are armed
    apart from the state of the coroutine, the clock passes an armed timer by a given
    lateness at most, and nothing else holds it back.  Futures, guards, messages, queues,
    entries, waiters, interests and claims are objects with an identity: they live in
    stores and are named by numbers, so aliasing is explicit.  A [queue.put] on a full
    queue suspends the read loop; that is the field [f_blocked].  An [asyncio.Lock] hands
    itself over to its first waiter.  Floats are binary64 numbers of the Standard Library's [SpecFloat].

    Interfaces: [RequestRouter] with [RouterLaws] (the inbound flow is proved against
    it, [RequestsFacts] discharges it for the dispatcher); [Handshake] with
    [HandshakeLaws] (the client is proved against it, [ClientFacts] discharges it for the
    engine's [connect]).

    Fuel: the loops of variable-length integers make at most four steps, those of the
    decoders and of the packet buffer take at least one byte per step and have the
    length of the buffer as fuel, [skip_used] has the 65535 identifiers; the value
    [NonTermination] that a loop without fuel would return is excluded by theorems
    ([decode_any_bytes], [acquire_least_free], [props_block_any_bytes],
    [read_loop_serves_stream]); the loop of a drain takes the buffer once, nothing being
    appended while it runs ([drain_loop_spec]).

    ** What is proved

    - Codec (C1, C2, C40): round trip, totality on arbitrary bytes with the
      exceptions that malformed input can raise, typed property blocks; also
      [chunking_irrelevant] (how a stream is cut does not matter),
      [decode_verdict_final], [packet_stream] and [varint_exact].
    - The receiving path (C3): bytes in any reads become exactly the messages in the
      queues and the acknowledgements on the wire, in order.
    - The answers to published messages (C4): any stream of them closes exactly the
      exchanges it answers and settles their callers; also [qos2_handshake].
    - Engine (C6-C8, C33): packet identifiers name exactly one open exchange, every
      branch of [publish], no future is left pending by the teardown, pings are answered
      in order; also [acquire_least_free] and [settled_once].
    - Index and topics (C10-C12): the trie refines an ordered dictionary, selecting is a
      linear scan, matching is that of the standard; also [topic_validation_grammar].
    - Inbound flow (C13-C20): no message is put twice; QoS 2 is delivered exactly once,
      with automatic and manual acknowledgement; PUBACK follows delivery; the replay
      buffer is bounded and drains in order, and the replay of a resumed session from
      the bytes to the queues; drains that are interleaved at their writes (C5) hand each
      waiting message over once, keep the others, and put back what they had in hand when
      a write fails or is cancelled, of which only the message of that write can be
      delivered again; without interruption they are the atomic drain of the other
      theorems (C9); also [flow_refines_engine].
    - Requests (C21-C25): permits are conserved, a response reaches only its request,
      every waiter is settled once; calls of [request] give back what they took and
      end, an exception in any wait ending them, and wait for the response no longer than
      their timeout; also [release_failure_outcome], what a failed clean-up does to a call that has
      its response.
    - Guards and ownership (C26-C29): mutual exclusion, no deadlock, what is registered
      was granted by the broker's return codes, subscribing is all or nothing.
    - Connection (C30-C32, C34, C35): the read loop serves the stream in order; whatever
      the broker sends the connection stays in the states the other theorems are about;
      the transport delivers the stream and its end; how long [run] goes on unanswered,
      and that a consumer that is too slow ends it within that bound; also [transport_closes_once] and
      [cancellation_deferred].
    - Client (C36-C39): which ends of a connection are recovered, which failures are
      retried after which sleeps, what a recovery reports, restoration of subscriptions
      with the SUBSCRIBE of each; also [connection_info_current],
      [public_calls_checked], [request_registered_as_sent] and
      [create_client_prefixes].

    ** Not modelled

    The network is a script of events, and [asyncio.open_connection] an interface; of
    the streams the model has what [StreamTransport] uses.  The scheduling of tasks is
    the interleaving of the step relations; before Python 3.11, [defer_cancellation]
    does nothing.  The clock is in the models of [run] with its ping loop and of the calls of
    [request]; other timers (replay expiry, the timeout of a public [ping]) are steps that
    may happen at any time.  The end of
    a connection while a drain is suspended in a write is left out: [drains_step] clears
    the buffer when no drain is on its way.  Logging, [repr] and message texts beyond
    their constant part, the typed views and overloads of [client.py] are left out.  At
    the level of the client, one connection is behind the interface [Handshake]; the
    composition of its run loop with the step relations of the engine
    is by the outcomes they exchange. *)

From Stdlib Require Export ZArith Lia.
From stdpp Require Export base gmap strings numbers option tactics list.

(** ** The exceptions of the modelled code *)

(** Python exceptions raised by the modelled code.  Messages are the constant
    part of the source's text.  [NonTermination] is not a Python exception: it is
    the value a fuelled loop returns when its fuel runs out, and the termination
    theorems show that no operation returns it. *)
Inductive exn :=
| ValueError (msg : string)
| UnicodeEncodeError
| UnicodeDecodeError
| StructError
| IndexError
| KeyError
| TypeError
| RuntimeError (msg : string)
| InvalidStateError
| MQTTInvalidTopicError (msg : string)
| MQTTProtocolError (msg : string)
| MQTTDisconnectedError (msg : string)
| MQTTTimeoutError (msg : string)
| MQTTConnectError (return_code : Z) (reason_string : option (list Z))
    (user_properties : list (list Z * list Z)) (server_reference : option (list Z))
| MQTTQoSExceededError (requested maximum : Z)
| MQTTSubscribeError (failures : list (list Z * Z))
| MQTTPublishError (reason_code : Z) (reason_name : option string)
    (reason_string : option (list Z))
| OSError
| TimeoutError
| CancelledError
| NonTermination.

#[export] Instance exn_eq_dec : EqDecision exn.
Proof. solve_decision. Defined.

(** [UnicodeError] is a subclass of [ValueError] in Python. *)
Definition is_ValueError (e : exn) : bool :=
  match e with
  | ValueError _ | UnicodeEncodeError | UnicodeDecodeError => true
  | _ => false
  end.

(** What decoding malformed bytes can raise: [ValueError] and its subclasses,
    [struct.error] and [IndexError]. *)
Definition decode_error (e : exn) : bool :=
  match e with StructError | IndexError => true | _ => is_ValueError e end.

(** ** Fallible computations *)

Inductive result (A : Type) : Type :=
| Ok (a : A)
| Err (e : exn).
Arguments Ok {A} a.
Arguments Err {A} e.

#[export] Instance result_ret : MRet result := fun A a => Ok a.
#[export] Instance result_bind : MBind result :=
  fun A B f m => match m with Ok a => f a | Err e => Err e end.
#[export] Instance result_fmap : FMap result :=
  fun A B f m => match m with Ok a => Ok (f a) | Err e => Err e end.

#[export] Instance result_eq_dec {A} `{EqDecision A} : EqDecision (result A).
Proof. solve_decision. Defined.

Definition is_Ok {A} (r : result A) : bool :=
  match r with Ok _ => true | Err _ => false end.

(** [mapM] in evaluation order: the first exception wins. *)
Fixpoint res_mapM {A B} (f : A -> result B) (l : list A) : result (list B) :=
  match l with
  | [] => Ok []
  | x :: l' => y ← f x; ys ← res_mapM f l'; Ok (y :: ys)
  end.

(** Length of a list as an integer, Python's [len]. *)
Definition zlen {A} (l : list A) : Z := Z.of_nat (length l).

Section results.
Context {A B : Type}.
Implicit Types (m : result A) (f : A -> result B).

Lemma bind_Ok f m b : m ≫= f = Ok b <-> exists a, m = Ok a /\ f a = Ok b.
Proof.
  split.
  - destruct m as [a|e]; [intros H; by exists a | done].
  - by intros (a & -> & H).
Qed.

Lemma bind_Err f m e :
  m ≫= f = Err e <-> m = Err e \/ exists a, m = Ok a /\ f a = Err e.
Proof.
  split.
  - destruct m as [a|e']; intros H; [right; by exists a | left; by injection H as ->].
  - intros [-> | (a & -> & H)]; done.
Qed.

Lemma fmap_Ok (g : A -> B) m b : g <$> m = Ok b <-> exists a, m = Ok a /\ b = g a.
Proof.
  split.
  - destruct m as [a|e]; [intros [= <-]; by exists a | done].
  - by intros (a & -> & ->).
Qed.

End results.

Lemma res_mapM_Ok {A B} (f : A -> result B) l ys :
  res_mapM f l = Ok ys <-> Forall2 (fun x y => f x = Ok y) l ys.
Proof.
  revert ys; induction l as [|x l IH]; intros ys; simpl.
  - split; [intros [= <-]; constructor | by inversion 1].
  - rewrite bind_Ok. split.
    + intros (y & Hy & H). apply bind_Ok in H as (ys' & Hys & [= <-]).
      constructor; [done | by apply IH].
    + inversion 1 as [|? y ? ys' Hy Hys]; subst. exists y; split; [done|].
      apply bind_Ok. exists ys'; split; [by apply IH | done].
Qed.

(** ** Stateful computations *)

(** A computation over a state: it returns or raises, and keeps the state either
    way, as Python does. *)
Definition ST (S A : Type) : Type := S -> result A * S.

#[export] Instance ST_ret {S} : MRet (ST S) := fun A a s => (Ok a, s).
#[export] Instance ST_bind {S} : MBind (ST S) :=
  fun A B f m s => match m s with (Ok a, s') => f a s' | (Err x, s') => (Err x, s') end.

Section stateful.
Context {S : Type}.

Definition raise {A} (x : exn) : ST S A := fun s => (Err x, s).
Definition gets {A} (f : S -> A) : ST S A := fun s => (Ok (f s), s).
Definition modify (f : S -> S) : ST S unit := fun s => (Ok tt, f s).
Definition lift {A} (r : result A) : ST S A := fun s => (r, s).

(** [try: m finally: cleanup] for a cleanup that does not raise and is not needed
    when [m] returns *)
Definition finally_on_error {A} (m : ST S A) (cleanup : S -> S) : ST S A :=
  fun s => match m s with (Ok a, s') => (Ok a, s') | (Err x, s') => (Err x, cleanup s') end.

(** Running a sequence *)
Lemma run_bind {A B} (m : ST S A) (f : A -> ST S B) s :
  (m ≫= f) s = match m s with (Ok a, s') => f a s' | (Err x, s') => (Err x, s') end.
Proof. done. Qed.

Lemma run_ret {A} (a : A) (s : S) : (mret a : ST S A) s = (Ok a, s).
Proof. done. Qed.

Lemma run_gets {A} (f : S -> A) s : gets f s = (Ok (f s), s).
Proof. done. Qed.

Lemma run_modify (f : S -> S) s : modify f s = (Ok tt, f s).
Proof. done. Qed.

End stateful.

(** Run the head of a sequence. *)
Ltac run := repeat first
  [ rewrite run_bind | rewrite run_gets | rewrite run_modify | rewrite run_ret
  | progress cbn beta iota ].

(** A computation on a part of the state *)
Definition zoom {S T A} (get : S -> T) (put : T -> S -> S) (m : ST T A) : ST S A :=
  fun s => match m (get s) with (r, t) => (r, put t s) end.

(** ** Lengths *)

Section lengths.
Context {A : Type}.
Implicit Types (l k : list A).

Lemma zlen_nil : zlen (@nil A) = 0%Z.
Proof. done. Qed.
Lemma zlen_cons (x : A) l : zlen (x :: l) = (1 + zlen l)%Z.
Proof. unfold zlen; simpl; lia. Qed.
Lemma zlen_app l k : zlen (l ++ k) = (zlen l + zlen k)%Z.
Proof. unfold zlen; rewrite length_app; lia. Qed.
Lemma zlen_nonneg l : (0 <= zlen l)%Z.
Proof. unfold zlen; lia. Qed.

End lengths.

(** ** Automation *)

(** [zlen] normalises lengths of concatenations. *)
Create Rewrite HintDb zlen.
#[export] Hint Rewrite @zlen_nil @zlen_cons @zlen_app : zlen.

(** [res] holds the facts that close goals about results. *)
Create HintDb res.
#[export] Hint Extern 1 (Ok _ = Ok _) => reflexivity : res.

Ltac zlen_pose :=
  repeat match goal with
  | |- context [zlen ?l] =>
      lazymatch goal with
      | _ : (0 <= zlen l)%Z |- _ => fail
      | _ => pose proof (zlen_nonneg l)
      end
  | _ : context [zlen ?l] |- _ =>
      lazymatch goal with
      | _ : (0 <= zlen l)%Z |- _ => fail
      | _ => pose proof (zlen_nonneg l)
      end
  end.

(** Linear arithmetic over lengths. *)
Ltac zlia := autorewrite with zlen in *; zlen_pose; lia.

(** Linear arithmetic with division and modulo by constants. *)
Ltac zdiv_lia := Z.to_euclidean_division_equations; lia.

(** Invert hypotheses that say a computation returned a value. *)
Ltac res_inv :=
  repeat match goal with
  | H : Ok _ = Ok _ |- _ => first [discriminate H | injection H; clear H; intros; subst]
  | H : Err _ = Ok _ |- _ => discriminate H
  | H : Ok _ = Err _ |- _ => discriminate H
  | H : _ ≫= _ = Ok _ |- _ =>
      let a := fresh "v" in let E := fresh "E" in
      apply bind_Ok in H as (a & E & H)
  | H : (match ?x with _ => _ end) = Ok _ |- _ =>
      let E := fresh "Em" in destruct x eqn:E; try discriminate H
  end.

(** Invert hypotheses that say a computation raised. *)
Ltac err_inv :=
  repeat match goal with
  | H : Err _ = Err _ |- _ => injection H; clear H; intros; subst
  | H : Err _ = Ok _ |- _ => discriminate H
  | H : Ok _ = Err _ |- _ => discriminate H
  | H : _ ≫= _ = Err _ |- _ =>
      let a := fresh "v" in let E := fresh "E" in
      apply bind_Err in H as [H | (a & E & H)]
  | H : (match ?x with _ => _ end) = Err _ |- _ =>
      let E := fresh "Em" in destruct x eqn:E
  end.

(** Turn boolean comparisons of the code into propositions. *)
Ltac bool_inv :=
  repeat match goal with
  | H : (_ && _) = true |- _ => apply andb_true_iff in H as [??]
  | H : (_ || _) = false |- _ => apply orb_false_iff in H as [??]
  | H : negb _ = true |- _ => apply negb_true_iff in H
  | H : negb _ = false |- _ => apply negb_false_iff in H
  | H : (_ <? _)%Z = true |- _ => apply Z.ltb_lt in H
  | H : (_ <? _)%Z = false |- _ => apply Z.ltb_ge in H
  | H : (_ <=? _)%Z = true |- _ => apply Z.leb_le in H
  | H : (_ <=? _)%Z = false |- _ => apply Z.leb_gt in H
  | H : (_ =? _)%Z = true |- _ => apply Z.eqb_eq in H
  | H : (_ =? _)%Z = false |- _ => apply Z.eqb_neq in H
  end.
