(* ===== verification/PyBytes.v ===== *)
(** * Bytes, indexing, slicing and [struct]

    The fragment of the Python runtime the packet code uses: [bytes] objects,
    [buf[i]], [buf[i:j]], [bytes([n])], [bytes(seq)] and [struct.pack] /
    [struct.unpack_from] with the formats ["!B"], ["!H"] and ["!I"].
    [at_pos] relates a buffer and a read offset to the bytes still unread; the
    decoders' lemmas are all stated with it. *)

From Stdlib Require Export Strings.Byte.
From S2P Require Import Prelude.
Local Open Scope Z_scope.

Abbreviation bytes := (list byte).

#[export] Instance byte_eq_dec : EqDecision byte := Byte.byte_eq_dec.

(** ** Bytes as integers *)

Definition b2z (b : byte) : Z := Z.of_N (Byte.to_N b).

(** The byte of value [z]; only meaningful for [0 <= z <= 255]. *)
Definition byte_of (z : Z) : byte :=
  match Byte.of_N (Z.to_N z) with Some b => b | None => x00 end.

(** [bytes([z])] and [bytearray.append(z)] *)
Definition z2b (z : Z) : result byte :=
  if (0 <=? z) && (z <=? 255) then Ok (byte_of z)
  else Err (ValueError "bytes must be in range(0, 256)").

(** [bytes(seq)] for a sequence of integers *)
Definition py_bytes (l : list Z) : result bytes := res_mapM z2b l.

(** ** Indexing and slicing (offsets are never negative in the code) *)

Definition buf_get (buf : bytes) (pos : Z) : result byte :=
  match buf !! Z.to_nat pos with
  | Some b => Ok b
  | None => Err IndexError
  end.

(** [buf[i:j]]: out-of-range ends are clamped *)
Definition slice (buf : bytes) (i j : Z) : bytes :=
  take (Z.to_nat (j - i)) (drop (Z.to_nat i) buf).

(** [buf[i:]] *)
Definition slice_from (buf : bytes) (i : Z) : bytes := drop (Z.to_nat i) buf.

(** ** [struct] *)

Definition pack_B (n : Z) : result bytes :=
  if (0 <=? n) && (n <=? 255) then Ok [byte_of n] else Err StructError.

Definition pack_H (n : Z) : result bytes :=
  if (0 <=? n) && (n <=? 65535) then Ok [byte_of (n / 256); byte_of (n mod 256)]
  else Err StructError.

Definition pack_I (n : Z) : result bytes :=
  if (0 <=? n) && (n <=? 4294967295)
  then Ok [byte_of (n / 16777216); byte_of (n / 65536 mod 256);
           byte_of (n / 256 mod 256); byte_of (n mod 256)]
  else Err StructError.

Definition unpack_H (buf : bytes) (pos : Z) : result Z :=
  match drop (Z.to_nat pos) buf with
  | a :: b :: _ => Ok (b2z a * 256 + b2z b)
  | _ => Err StructError
  end.

Definition unpack_I (buf : bytes) (pos : Z) : result Z :=
  match drop (Z.to_nat pos) buf with
  | a :: b :: c :: d :: _ =>
      Ok (b2z a * 16777216 + b2z b * 65536 + b2z c * 256 + b2z d)
  | _ => Err StructError
  end.

(** ** Facts about bytes *)

Lemma b2z_range b : 0 <= b2z b <= 255.
Proof. unfold b2z. pose proof (Byte.to_N_bounded b). lia. Qed.

Lemma byte_of_b2z b : byte_of (b2z b) = b.
Proof. unfold byte_of, b2z. by rewrite N2Z.id, Byte.of_to_N. Qed.

Lemma b2z_byte_of z : 0 <= z <= 255 -> b2z (byte_of z) = z.
Proof.
  intros Hz. unfold byte_of, b2z.
  destruct (Byte.of_N (Z.to_N z)) as [b|] eqn:E.
  - apply Byte.to_of_N in E. rewrite E. lia.
  - apply Byte.of_N_None_iff in E. lia.
Qed.

Lemma b2z_inj a b : b2z a = b2z b -> a = b.
Proof. intros H. by rewrite <- (byte_of_b2z a), <- (byte_of_b2z b), H. Qed.

Lemma z2b_Ok z b : z2b z = Ok b <-> 0 <= z <= 255 /\ b = byte_of z.
Proof.
  unfold z2b. destruct ((0 <=? z) && (z <=? 255)) eqn:E.
  - bool_inv. split; [intros [= <-]; auto | by intros [_ ->]].
  - split; [done|]. intros [H _]. lia.
Qed.

Lemma z2b_b2z z b : z2b z = Ok b -> b2z b = z.
Proof. intros [H ->]%z2b_Ok. by apply b2z_byte_of. Qed.

Lemma py_bytes_b2z l bs : py_bytes l = Ok bs -> b2z <$> bs = l.
Proof.
  intros H%res_mapM_Ok.
  induction H as [|x y l bs Hy _ IH]; [done|].
  by rewrite fmap_cons, IH, (z2b_b2z _ _ Hy).
Qed.

Lemma zlen_fmap {A B} (f : A -> B) (l : list A) : zlen (f <$> l) = zlen l.
Proof. unfold zlen. by rewrite length_fmap. Qed.

(** Statements about one byte value are checked on the 256 bytes. *)
Lemma byte_cases (P : Z -> Prop) :
  (forall b, P (b2z b)) -> forall z, 0 <= z <= 255 -> P z.
Proof. intros H z Hz. rewrite <- (b2z_byte_of z Hz). apply H. Qed.

Lemma land_128 b : (Z.land (b2z b) 128 =? 0) = (b2z b <? 128).
Proof. destruct b; reflexivity. Qed.

Lemma land_127 z : Z.land z 127 = z mod 128.
Proof. apply (Z.land_ones z 7). lia. Qed.

Lemma lor_128 z : 0 <= z < 128 -> Z.lor z 128 = z + 128.
Proof.
  intros Hz. assert (H : z < 128 -> Z.lor z 128 = z + 128); [|apply H; lia].
  pattern z. apply byte_cases; [|lia]. intros b H. destruct b; first [reflexivity | discriminate H].
Qed.

(** ** Read positions *)

(** [rest] is what remains of [buf] at offset [pos]. *)
Definition at_pos (buf : bytes) (pos : Z) (rest : bytes) : Prop :=
  exists pre, buf = pre ++ rest /\ pos = zlen pre.

Section at_pos.
Implicit Types (buf rest a b : bytes) (pos : Z).

Lemma at_pos_0 buf : at_pos buf 0 buf.
Proof. by exists []. Qed.

Lemma at_pos_app buf pos a b : at_pos buf pos (a ++ b) -> at_pos buf (pos + zlen a) b.
Proof. intros (pre & -> & ->). exists (pre ++ a). split; [by rewrite app_assoc | zlia]. Qed.

Lemma at_pos_cons buf pos x b : at_pos buf pos (x :: b) -> at_pos buf (pos + 1) b.
Proof. apply (at_pos_app _ _ [x]). Qed.

Lemma at_pos_len buf pos rest : at_pos buf pos rest -> zlen buf = pos + zlen rest /\ 0 <= pos.
Proof. intros (pre & -> & ->). zlia. Qed.

Lemma at_pos_drop buf pos rest : at_pos buf pos rest -> drop (Z.to_nat pos) buf = rest.
Proof.
  intros (pre & -> & ->). unfold zlen. rewrite Nat2Z.id. apply drop_app_length.
Qed.

Lemma at_pos_drop_inv buf pos :
  0 <= pos <= zlen buf -> at_pos buf pos (drop (Z.to_nat pos) buf).
Proof.
  intros H. exists (take (Z.to_nat pos) buf). split; [by rewrite take_drop|].
  unfold zlen in *. rewrite length_take. lia.
Qed.

Lemma at_pos_get buf pos x rest : at_pos buf pos (x :: rest) -> buf_get buf pos = Ok x.
Proof.
  intros (pre & -> & ->). unfold buf_get, zlen. rewrite Nat2Z.id.
  by rewrite list_lookup_middle.
Qed.

Lemma at_pos_slice buf pos a b : at_pos buf pos (a ++ b) -> slice buf pos (pos + zlen a) = a.
Proof.
  intros H. unfold slice. rewrite (at_pos_drop _ _ _ H).
  replace (Z.to_nat (pos + zlen a - pos)) with (length a) by (unfold zlen; lia).
  apply take_app_length.
Qed.

Lemma at_pos_slice_from buf pos a : at_pos buf pos a -> slice_from buf pos = a.
Proof. apply at_pos_drop. Qed.

Lemma at_pos_unpack_H buf pos n bs rest :
  pack_H n = Ok bs -> at_pos buf pos (bs ++ rest) -> unpack_H buf pos = Ok n.
Proof.
  unfold pack_H, unpack_H. intros H Hat. res_inv. bool_inv.
  rewrite (at_pos_drop _ _ _ Hat). simpl.
  rewrite !b2z_byte_of by zdiv_lia. f_equal. zdiv_lia.
Qed.

Lemma at_pos_unpack_I buf pos n bs rest :
  pack_I n = Ok bs -> at_pos buf pos (bs ++ rest) -> unpack_I buf pos = Ok n.
Proof.
  unfold pack_I, unpack_I. intros H Hat. res_inv. bool_inv.
  rewrite (at_pos_drop _ _ _ Hat). simpl.
  rewrite !b2z_byte_of by zdiv_lia. f_equal. zdiv_lia.
Qed.

Lemma at_pos_pack_B buf pos n bs rest :
  pack_B n = Ok bs -> at_pos buf pos (bs ++ rest) ->
  exists c, buf_get buf pos = Ok c /\ b2z c = n.
Proof.
  unfold pack_B. intros H Hat. res_inv. bool_inv.
  exists (byte_of n). split; [by eapply at_pos_get | by apply b2z_byte_of].
Qed.

End at_pos.

Lemma pack_B_len n bs : pack_B n = Ok bs -> zlen bs = 1.
Proof. unfold pack_B. intros H. by res_inv. Qed.
Lemma pack_H_len n bs : pack_H n = Ok bs -> zlen bs = 2.
Proof. unfold pack_H. intros H. by res_inv. Qed.
Lemma pack_I_len n bs : pack_I n = Ok bs -> zlen bs = 4.
Proof. unfold pack_I. intros H. by res_inv. Qed.

Lemma pack_H_range n : is_Ok (pack_H n) = true <-> 0 <= n <= 65535.
Proof. unfold pack_H. destruct ((0 <=? n) && (n <=? 65535)) eqn:E; simpl; lia. Qed.

(** Follow a read: the position after what was read. *)
Create HintDb pos.
#[export] Hint Resolve at_pos_0 at_pos_app at_pos_cons at_pos_get at_pos_slice_from : pos.
