(* ===== verification/Utf8.v ===== *)
(** * Python [str] and its UTF-8 codec

    A [str] is the list of its code points.  [encode_utf8] is [s.encode("utf-8")]
    and [decode_utf8] is [b.decode("utf-8")], both strict: surrogates are refused
    when encoding, and truncated sequences, stray continuation bytes, overlong
    forms, surrogates and values above 0x10FFFF are refused when decoding. *)

From S2P Require Import Prelude PyBytes.
From Stdlib Require Import Ascii.
Local Open Scope Z_scope.

Abbreviation str := (list Z).

(** A Rocq string literal (ASCII) as a [str]. *)
Definition lit (s : string) : str :=
  (fun a => Z.of_N (N_of_ascii a)) <$> String.list_ascii_of_string s.

Definition is_surrogate (c : Z) : bool := (55296 <=? c) && (c <=? 57343).

Definition encode_cp (c : Z) : result bytes :=
  if (c <? 0) || (1114111 <? c) || is_surrogate c then Err UnicodeEncodeError
  else if c <? 128 then Ok [byte_of c]
  else if c <? 2048 then Ok [byte_of (192 + c / 64); byte_of (128 + c mod 64)]
  else if c <? 65536 then
    Ok [byte_of (224 + c / 4096); byte_of (128 + c / 64 mod 64); byte_of (128 + c mod 64)]
  else
    Ok [byte_of (240 + c / 262144); byte_of (128 + c / 4096 mod 64);
        byte_of (128 + c / 64 mod 64); byte_of (128 + c mod 64)].

Definition encode_utf8 (s : str) : result bytes :=
  bss ← res_mapM encode_cp s; Ok (concat bss).

Definition is_cont (b : byte) : bool := (128 <=? b2z b) && (b2z b <=? 191).

(** The low six bits of a continuation byte. *)
Definition low6 (b : byte) : Z := b2z b - 128.

Fixpoint decode_utf8 (bs : bytes) : result str :=
  match bs with
  | [] => Ok []
  | b0 :: t0 =>
    if b2z b0 <? 128 then cs ← decode_utf8 t0; Ok (b2z b0 :: cs)
    else if b2z b0 <? 194 then Err UnicodeDecodeError
    else if b2z b0 <? 224 then
      match t0 with
      | b1 :: t1 =>
        if is_cont b1
        then cs ← decode_utf8 t1; Ok ((b2z b0 - 192) * 64 + low6 b1 :: cs)
        else Err UnicodeDecodeError
      | _ => Err UnicodeDecodeError
      end
    else if b2z b0 <? 240 then
      match t0 with
      | b1 :: b2 :: t2 =>
        let c := (b2z b0 - 224) * 4096 + low6 b1 * 64 + low6 b2 in
        if is_cont b1 && is_cont b2 && (2048 <=? c) && negb (is_surrogate c)
        then cs ← decode_utf8 t2; Ok (c :: cs)
        else Err UnicodeDecodeError
      | _ => Err UnicodeDecodeError
      end
    else
      match t0 with
      | b1 :: b2 :: b3 :: t3 =>
        let c := (b2z b0 - 240) * 262144 + low6 b1 * 4096 + low6 b2 * 64 + low6 b3 in
        if is_cont b1 && is_cont b2 && is_cont b3 && (65536 <=? c) && (c <=? 1114111)
        then cs ← decode_utf8 t3; Ok (c :: cs)
        else Err UnicodeDecodeError
      | _ => Err UnicodeDecodeError
      end
  end.

(** ** Round trips *)

(** Decide the conditionals that arithmetic settles. *)
Ltac decide_ifs :=
  repeat match goal with
  | |- context [if ?c then _ else _] =>
      first [replace c with true by zdiv_lia | replace c with false by zdiv_lia]
  end.

Lemma decode_encode_cp c bs rest :
  encode_cp c = Ok bs ->
  decode_utf8 (bs ++ rest) = (cs ← decode_utf8 rest; Ok (c :: cs)).
Proof.
  unfold encode_cp, is_surrogate. intros H. res_inv; bool_inv; simpl;
  unfold is_cont, low6, is_surrogate; rewrite !b2z_byte_of by zdiv_lia;
  decide_ifs; [done|..]; destruct (decode_utf8 rest); simpl; do 2 f_equal; zdiv_lia.
Qed.

Theorem decode_encode_utf8 s bs : encode_utf8 s = Ok bs -> decode_utf8 bs = Ok s.
Proof.
  unfold encode_utf8. intros H. res_inv. apply res_mapM_Ok in E.
  induction E as [|c b s bss Hc _ IH]; [done|]. simpl.
  by rewrite (decode_encode_cp _ _ _ Hc), IH.
Qed.

Lemma encode_utf8_cons c s bc bs :
  encode_cp c = Ok bc -> encode_utf8 s = Ok bs -> encode_utf8 (c :: s) = Ok (bc ++ bs).
Proof.
  unfold encode_utf8. intros Hc Hs. simpl. rewrite Hc. simpl.
  destruct (res_mapM encode_cp s) as [bss|]; [|done]. simpl in *. by injection Hs as ->.
Qed.

Lemma byte_of_eq z b : z = b2z b -> byte_of z = b.
Proof. intros ->. apply byte_of_b2z. Qed.

Ltac utf8_seq :=
  unfold encode_cp, is_surrogate, low6 in *; decide_ifs;
  repeat f_equal; apply byte_of_eq; zdiv_lia.

(** Strictness: the decoder accepts exactly the encoder's image. *)
Theorem encode_decode_utf8 bs s : decode_utf8 bs = Ok s -> encode_utf8 s = Ok bs.
Proof.
  remember (length bs) as n eqn:Hn. assert (Hle : (length bs <= n)%nat) by lia. clear Hn.
  revert bs s Hle. induction n as [|n IH]; intros [|b0 t0] s Hle H; simpl in *;
    try (by res_inv); try lia.
  pose proof (b2z_range b0) as R0.
  unfold is_cont, is_surrogate in H. res_inv; bool_inv; simpl in *.
  - apply (encode_utf8_cons _ _ [b0]); [utf8_seq | apply IH; [lia|done]].
  - apply (encode_utf8_cons _ _ [b0; _]); [utf8_seq | apply IH; [lia|done]].
  - apply (encode_utf8_cons _ _ [b0; _; _]); [|apply IH; [lia|done]].
    utf8_seq.
  - apply (encode_utf8_cons _ _ [b0; _; _; _]); [utf8_seq|apply IH; [lia|done]].
Qed.

(** ** Properties *)

(** The strict UTF-8 codec is a bijection: what [str.encode] returns decodes to
    the string, and what [bytes.decode] accepts is what encoding its result gives
    back. *)
Theorem utf8_bijection s bs : encode_utf8 s = Ok bs <-> decode_utf8 bs = Ok s.
Proof. split; [apply decode_encode_utf8 | apply encode_decode_utf8]. Qed.
