(* ===== verification/PyDict.v ===== *)
(** * Python dictionaries

    A [dict] keeps its insertion order, and the code iterates over dictionaries
    ([encode_props], [add_many], [by_identifier]): it is the list of its items.
    Assigning to a present key replaces the value in place, assigning to a new
    key appends, deleting removes the item. *)

From S2P Require Import Prelude.

Abbreviation dict K V := (list (K * V)).

Section defs.
Context {K V : Type} `{EqDecision K}.
Implicit Types (d : dict K V) (k : K) (v : V).

(** [d.get(k)] *)
Fixpoint dict_get d k : option V :=
  match d with
  | [] => None
  | (k', v) :: d' => if decide (k = k') then Some v else dict_get d' k
  end.

(** [k in d] *)
Definition dict_in k d : bool :=
  match dict_get d k with Some _ => true | None => false end.

(** [d[k] = v] *)
Fixpoint dict_set d k v : dict K V :=
  match d with
  | [] => [(k, v)]
  | (k', v') :: d' =>
      if decide (k = k') then (k', v) :: d' else (k', v') :: dict_set d' k v
  end.

(** [d.pop(k, None)], the dictionary left *)
Definition dict_del d k : dict K V := filter (fun p => p.1 <> k) d.

(** [d1.update(d2)] *)
Definition dict_update d1 d2 : dict K V := foldl (fun d p => dict_set d p.1 p.2) d1 d2.

(** Keys are distinct: the invariant of every dictionary. *)
Definition dict_wf d : Prop := NoDup d.*1.

End defs.

Section facts.
Context {K V : Type} `{EqDecision K}.
Implicit Types (d : dict K V) (k : K) (v : V).

Lemma dict_get_set_eq d k v : dict_get (dict_set d k v) k = Some v.
Proof. induction d as [|[k' v'] d IH]; simpl; repeat (case_decide; simpl); congruence. Qed.

Lemma dict_get_set_ne d k k' v : k <> k' -> dict_get (dict_set d k v) k' = dict_get d k'.
Proof.
  intros Hne. induction d as [|[k'' v''] d IH]; simpl; repeat (case_decide; simpl); congruence.
Qed.

Lemma dict_set_set d k v w : dict_set (dict_set d k v) k w = dict_set d k w.
Proof. induction d as [|[k' v'] d IH]; simpl; repeat (case_decide; simpl); congruence. Qed.

Lemma dict_get_del_eq d k : dict_get (dict_del d k) k = None.
Proof.
  unfold dict_del. induction d as [|[k' v'] d IH]; [done|].
  rewrite filter_cons; simpl. case_decide; simpl; [case_decide; congruence | done].
Qed.

Lemma dict_get_del_ne d k k' : k <> k' -> dict_get (dict_del d k) k' = dict_get d k'.
Proof.
  intros Hne. unfold dict_del. induction d as [|[k'' v''] d IH]; [done|].
  rewrite filter_cons; simpl. repeat (case_decide; simpl); congruence.
Qed.

Lemma dict_get_app d1 d2 k :
  dict_get (d1 ++ d2) k = match dict_get d1 k with Some v => Some v | None => dict_get d2 k end.
Proof. induction d1 as [|[k' v'] d1 IH]; simpl; [done|]. by case_decide. Qed.

Lemma dict_get_None d k : dict_get d k = None <-> k ∉ d.*1.
Proof.
  induction d as [|[k' v'] d IH]; simpl; [split; [intros _; apply not_elem_of_nil|done]|].
  rewrite not_elem_of_cons. case_decide; [split; [done|tauto]|]. rewrite IH. tauto.
Qed.

Lemma dict_get_elem_of d k v : dict_wf d -> dict_get d k = Some v <-> (k, v) ∈ d.
Proof.
  unfold dict_wf. induction d as [|[k' v'] d IH]; simpl; intros Hnd.
  { split; [done | intros H; inversion H]. }
  apply NoDup_cons in Hnd as [Hni Hnd]. rewrite elem_of_cons, <- IH by done.
  case_decide as Hk; subst.
  - split; [intros [= <-]; by left | intros [[= ->]|H]; [done|]].
    apply IH in H; [|done]. destruct Hni. by apply (list_elem_of_fmap_2 fst _ _ H).
  - split; [by right | intros [[= -> ->]|H]; done].
Qed.

Lemma dict_get_Some_elem d k v : dict_get d k = Some v -> (k, v) ∈ d.
Proof.
  induction d as [|[k' v'] d IH]; simpl; [done|].
  case_decide; [intros [= ->]; subst; by left | right; auto].
Qed.

Lemma dict_set_fresh d k v : k ∉ d.*1 -> dict_set d k v = d ++ [(k, v)].
Proof.
  induction d as [|[k' v'] d IH]; simpl; [done|]. rewrite not_elem_of_cons.
  intros [? ?]. case_decide; [done|]. by rewrite IH.
Qed.

Lemma dict_set_keys d k v : (dict_set d k v).*1 = if decide (k ∈ d.*1) then d.*1 else d.*1 ++ [k].
Proof.
  induction d as [|[k' v'] d IH]; [done|]. rewrite fmap_cons. cbn [dict_set fst].
  destruct (decide (k = k')) as [->|Hne]; rewrite fmap_cons; cbn [fst].
  - by rewrite decide_True by (by left).
  - rewrite IH. destruct (decide (k ∈ d.*1)).
    + by rewrite decide_True by (by right).
    + by rewrite decide_False by (rewrite elem_of_cons; tauto).
Qed.

Lemma dict_wf_set d k v : dict_wf d -> dict_wf (dict_set d k v).
Proof.
  unfold dict_wf. intros H. rewrite dict_set_keys. case_decide; [done|].
  apply NoDup_app. split; [done|]. split; [|apply NoDup_singleton].
  intros x Hx ->%list_elem_of_singleton. done.
Qed.

Lemma dict_wf_del d k : dict_wf d -> dict_wf (dict_del d k).
Proof.
  unfold dict_wf, dict_del. induction d as [|[k' v'] d IH]; [done|].
  rewrite filter_cons; simpl. intros [Hni Hnd]%NoDup_cons. case_decide; simpl; [|auto].
  apply NoDup_cons. split; [|auto]. contradict Hni.
  apply list_elem_of_fmap in Hni as (p & -> & [_ Hp]%list_elem_of_filter).
  by apply list_elem_of_fmap_2.
Qed.

Lemma elem_of_dict_del d k p : p ∈ dict_del d k <-> p ∈ d /\ p.1 <> k.
Proof. unfold dict_del. rewrite list_elem_of_filter. tauto. Qed.

Lemma dict_del_fresh d k : k ∉ d.*1 -> dict_del d k = d.
Proof.
  unfold dict_del. induction d as [|[k' v'] d IH]; [done|]. simpl.
  rewrite not_elem_of_cons, filter_cons. intros [? ?]. simpl.
  rewrite decide_True by congruence. by rewrite IH.
Qed.

Lemma dict_update_fresh d1 d2 : dict_wf (d1 ++ d2) -> dict_update d1 d2 = d1 ++ d2.
Proof.
  revert d1; induction d2 as [|[k v] d2 IH]; intros d1 H; [by rewrite app_nil_r|].
  unfold dict_wf in H. simpl.
  assert (Hk : k ∉ d1.*1).
  { rewrite fmap_app in H. apply NoDup_app in H as (_ & H & _).
    intros Hin. apply (H _ Hin). by left. }
  rewrite (dict_set_fresh _ _ _ Hk), (cons_middle (k, v) d1 d2), app_assoc.
  apply IH. unfold dict_wf. by rewrite <- app_assoc.
Qed.

End facts.
