(* ===== verification/PyStr.v ===== *)
(** * Python string methods

    The methods of [str] the topic code uses, on code points, with the laws of
    [split] that the matching theorems need. *)

From S2P Require Import Prelude Utf8.
Local Open Scope Z_scope.

Definition slash : Z := 47.
Definition hash_char : Z := 35.
Definition plus_char : Z := 43.
Definition dollar : Z := 36.

(** [c in s] for one character *)
Definition char_in (c : Z) (s : str) : bool := bool_decide (c ∈ s).

(** [s.startswith(prefix)] *)
Fixpoint startswith (s prefix : str) {struct prefix} : bool :=
  match prefix, s with
  | [], _ => true
  | _ :: _, [] => false
  | p :: prefix', c :: s' => (c =? p) && startswith s' prefix'
  end.

(** [s.removeprefix(prefix)] *)
Definition removeprefix (s prefix : str) : str :=
  if startswith s prefix then drop (length prefix) s else s.

(** [s.partition("/")]: head, whether the separator was found, tail *)
Fixpoint partition_slash (s : str) : str * bool * str :=
  match s with
  | [] => ([], false, [])
  | c :: s' =>
      if c =? slash then ([], true, s')
      else let '(h, found, t) := partition_slash s' in (c :: h, found, t)
  end.

(** [s.split("/")] *)
Fixpoint split_slash (s : str) : list str :=
  match s with
  | [] => [[]]
  | c :: s' =>
      if c =? slash then [] :: split_slash s'
      else match split_slash s' with
           | seg :: segs => (c :: seg) :: segs
           | [] => [[c]]
           end
  end.

(** [s.split("/", 1)[1]], which raises on a string without a slash *)
Definition split_once_tail (s : str) : result str :=
  let '(_, found, t) := partition_slash s in if found then Ok t else Err IndexError.

(** [s.index(c)] *)
Fixpoint str_index (c : Z) (s : str) : result Z :=
  match s with
  | [] => Err (ValueError "substring not found")
  | x :: s' => if x =? c then Ok 0 else i ← str_index c s'; Ok (i + 1)
  end.

(** ** Prefixes *)

Lemma startswith_spec s p : startswith s p = true <-> exists t, s = p ++ t.
Proof.
  revert s; induction p as [|c p IH]; intros s; simpl.
  { split; [intros _; by exists s|done]. }
  destruct s as [|x s]; [split; [done|by intros (t & ?)]|].
  rewrite andb_true_iff, IH, Z.eqb_eq. split.
  - intros (-> & t & ->). by exists t.
  - intros (t & [= -> ->]). split; [done|by exists t].
Qed.

Lemma startswith_app p t : startswith (p ++ t) p = true.
Proof. apply startswith_spec. by exists t. Qed.

Lemma removeprefix_app p t : removeprefix (p ++ t) p = t.
Proof. unfold removeprefix. by rewrite startswith_app, drop_app_length. Qed.

(** ** Partition and split *)

Lemma partition_slash_app h t :
  slash ∉ h -> partition_slash (h ++ slash :: t) = (h, true, t).
Proof.
  induction h as [|c h IH]; simpl; [done|]. rewrite not_elem_of_cons. intros [Hc Hh].
  replace (c =? slash) with false by lia. by rewrite IH.
Qed.

Lemma partition_slash_found s h t : partition_slash s = (h, true, t) -> s = h ++ slash :: t.
Proof.
  revert h; induction s as [|c s IH]; intros h; simpl; [done|].
  destruct (c =? slash) eqn:Hc; [intros [= <- <-]; simpl; f_equal; lia|].
  destruct (partition_slash s) as [[h' f] t'] eqn:Hp. intros [= <- -> ->]. simpl.
  by rewrite <- (IH h').
Qed.

Lemma partition_slash_not_found s h t : partition_slash s = (h, false, t) -> slash ∉ s.
Proof.
  revert h; induction s as [|c s IH]; intros h; simpl; [intros _; apply not_elem_of_nil|].
  destruct (c =? slash) eqn:Hc; [done|].
  destruct (partition_slash s) as [[h' f] t'] eqn:Hp. intros [= <- -> ->].
  rewrite not_elem_of_cons. split; [lia|by eapply IH].
Qed.

Lemma split_slash_cons s : exists seg segs, split_slash s = seg :: segs.
Proof.
  destruct s as [|c s]; simpl; [by eexists _, _|].
  destruct (c =? slash); [by eexists _, _|]. destruct (split_slash s); by eexists _, _.
Qed.

Lemma split_slash_not_nil s : split_slash s <> [].
Proof. destruct (split_slash_cons s) as (? & ? & ->). done. Qed.

Lemma split_slash_no_slash s : slash ∉ s -> split_slash s = [s].
Proof.
  induction s as [|c s IH]; simpl; [done|]. rewrite not_elem_of_cons. intros [Hc Hs].
  replace (c =? slash) with false by lia. by rewrite IH.
Qed.

Lemma split_slash_app s t : slash ∉ s -> split_slash (s ++ slash :: t) = s :: split_slash t.
Proof.
  induction s as [|c s IH]; simpl; [done|]. rewrite not_elem_of_cons. intros [Hc Hs].
  replace (c =? slash) with false by lia. by rewrite IH.
Qed.

(** [split] loses nothing: ["/".join(s.split("/")) == s]. *)
Fixpoint join_slash (l : list str) : str :=
  match l with
  | [] => []
  | [s] => s
  | s :: l' => s ++ slash :: join_slash l'
  end.

Lemma join_split s : join_slash (split_slash s) = s.
Proof.
  induction s as [|c s IH]; [done|]. simpl.
  destruct (split_slash_cons s) as (seg & segs & E).
  destruct (c =? slash) eqn:Hc; rewrite E in *.
  - apply Z.eqb_eq in Hc as ->. simpl in *. by rewrite IH.
  - destruct segs; simpl in *; by rewrite <- IH.
Qed.

Lemma split_slash_inj s t : split_slash s = split_slash t -> s = t.
Proof. intros H. by rewrite <- (join_split s), H, join_split. Qed.

(** ** Search *)

Lemma str_index_Ok c s i :
  str_index c s = Ok i -> exists a b, s = a ++ (c :: b) /\ (c ∉ a) /\ zlen a = i.
Proof.
  revert i; induction s as [|x s IH]; intros i H; simpl in H; [done|].
  destruct (x =? c) eqn:Hx; [simplify_eq; apply Z.eqb_eq in Hx as ->|].
  { exists [], s. split; [done|]. split; [apply not_elem_of_nil|done]. }
  res_inv. destruct (IH _ E) as (a & b & -> & Ha & <-).
  exists (x :: a), b. split; [done|]. split; [rewrite not_elem_of_cons; split; [lia|done]|zlia].
Qed.

Lemma str_index_in c s : c ∈ s -> is_Ok (str_index c s) = true.
Proof.
  induction s as [|x s IH]; simpl; [intros H; inversion H|].
  rewrite elem_of_cons. intros [->|H]; [by rewrite Z.eqb_refl|].
  destruct (x =? c); [done|]. apply IH in H. by destruct (str_index c s).
Qed.
