(* ===== verification/Wire.v ===== *)
(** * Wire-format helpers ([packets/_wire.py])

    Variable-length integers, length-prefixed UTF-8 strings and binary data. *)

From S2P Require Import Prelude PyBytes Utf8.
Local Open Scope Z_scope.

Definition _MAX_MQTT_VARINT : Z := 268435455.

(** The [while True] loop of [encode_varint]; [fuel] bounds its iterations. *)
Fixpoint encode_varint_loop (fuel : nat) (value : Z) : result bytes :=
  match fuel with
  | O => Err NonTermination
  | S fuel' =>
      let byte := Z.land value 127 in
      let value := Z.shiftr value 7 in
      let byte := if value =? 0 then byte else Z.lor byte 128 in
      b ← z2b byte;
      if value =? 0 then Ok [b]
      else rest ← encode_varint_loop fuel' value; Ok (b :: rest)
  end.

(** Four iterations consume 28 bits, the size of [_MAX_MQTT_VARINT]. *)
Definition encode_varint (value : Z) : result bytes :=
  if (value <? 0) || (_MAX_MQTT_VARINT <? value)
  then Err (ValueError "Value out of varint range")
  else encode_varint_loop 4 value.

(** The [for i in range(4)] loop of [decode_varint] with [n] iterations left. *)
Fixpoint decode_varint_loop (n : nat) (buf : bytes) (offset i multiplier value : Z)
    : result (Z * Z) :=
  match n with
  | O => Err (ValueError "Varint exceeds 4 bytes")
  | S n' =>
      let pos := offset + i in
      if zlen buf <=? pos then Err (ValueError "Buffer too short for varint")
      else
        byte ← buf_get buf pos;
        let value := value + Z.land (b2z byte) 127 * multiplier in
        if Z.land (b2z byte) 128 =? 0 then Ok (value, i + 1)
        else decode_varint_loop n' buf offset (i + 1) (multiplier * 128) value
  end.

Definition decode_varint (buf : bytes) (offset : Z) : result (Z * Z) :=
  decode_varint_loop 4 buf offset 0 1 0.

Definition encode_bytes_field (data : bytes) : result bytes :=
  len ← pack_H (zlen data); Ok (len ++ data).

Definition decode_bytes_field (buf : bytes) (offset : Z) : result (bytes * Z) :=
  if zlen buf <? offset + 2
  then Err (ValueError "Buffer too short for bytes length prefix")
  else
    length ← unpack_H buf offset;
    let end_ := offset + 2 + length in
    if zlen buf <? end_ then Err (ValueError "Buffer too short for bytes data")
    else Ok (slice buf (offset + 2) end_, 2 + length).

Definition encode_str (s : str) : result bytes :=
  encoded ← encode_utf8 s;
  len ← pack_H (zlen encoded);
  Ok (len ++ encoded).

Definition decode_str (buf : bytes) (offset : Z) : result (str * Z) :=
  if zlen buf <? offset + 2
  then Err (ValueError "Buffer too short for string length prefix")
  else
    length ← unpack_H buf offset;
    let end_ := offset + 2 + length in
    if zlen buf <? end_ then Err (ValueError "Buffer too short for string data")
    else
      s ← decode_utf8 (slice buf (offset + 2) end_);
      Ok (s, 2 + length).

(** ** Variable-length integers *)

Lemma encode_varint_loop_total fuel v :
  0 <= v < 128 ^ Z.of_nat (S fuel) ->
  exists bs, encode_varint_loop (S fuel) v = Ok bs /\ 1 <= zlen bs <= Z.of_nat (S fuel).
Proof.
  revert v; induction fuel as [|fuel IH]; intros v Hv.
  - assert (Hs : Z.shiftr v 7 = 0) by (rewrite Z.shiftr_div_pow2 by lia; zdiv_lia).
    assert (Hl : 0 <= Z.land v 127 <= 255) by (rewrite land_127; zdiv_lia).
    eexists. simpl. rewrite Hs. simpl. rewrite (proj2 (z2b_Ok _ _) (conj Hl eq_refl)).
    simpl. split; [done|]. zlia.
  - assert (Hb : 0 <= Z.shiftr v 7 < 128 ^ Z.of_nat (S fuel)).
    { rewrite Z.shiftr_div_pow2 by lia. rewrite (Nat2Z.inj_succ (S fuel)), Z.pow_succ_r in Hv by lia.
      split; [apply Z.div_pos; lia|]. apply Z.div_lt_upper_bound; lia. }
    destruct (IH _ Hb) as (bs & Hbs & Hlen).
    remember (S fuel) as n eqn:En. simpl. rewrite land_127.
    destruct (Z.shiftr v 7 =? 0) eqn:Hz.
    + rewrite (proj2 (z2b_Ok (v mod 128) (byte_of (v mod 128)))) by (split; [zdiv_lia|done]).
      simpl. eexists; split; [done|]. zlia.
    + rewrite lor_128 by zdiv_lia.
      rewrite (proj2 (z2b_Ok _ (byte_of (v mod 128 + 128)))) by (split; [zdiv_lia|done]).
      simpl. rewrite Hbs. simpl. eexists; split; [done|]. zlia.
Qed.

Lemma encode_varint_Ok v :
  0 <= v <= _MAX_MQTT_VARINT ->
  exists bs, encode_varint v = Ok bs /\ 1 <= zlen bs <= 4.
Proof.
  unfold encode_varint, _MAX_MQTT_VARINT. intros Hv.
  replace ((v <? 0) || (268435455 <? v)) with false by lia.
  apply (encode_varint_loop_total 3). lia.
Qed.

Lemma encode_varint_range v bs : encode_varint v = Ok bs -> 0 <= v <= _MAX_MQTT_VARINT.
Proof. unfold encode_varint. intros H. res_inv. bool_inv. lia. Qed.

Lemma encode_varint_len v bs : encode_varint v = Ok bs -> 1 <= zlen bs <= 4.
Proof.
  intros H. destruct (encode_varint_Ok v) as (bs' & H' & Hl); [by eapply encode_varint_range|].
  congruence.
Qed.

(** The value and continuation bit of one emitted byte. *)
Lemma varint_byte fuel v b bs :
  0 <= v -> encode_varint_loop (S fuel) v = Ok (b :: bs) ->
  (v < 128 /\ b2z b = v /\ bs = [])
  \/ (128 <= b2z b /\ b2z b mod 128 = v mod 128 /\ encode_varint_loop fuel (v / 128) = Ok bs).
Proof.
  intros Hv. simpl. rewrite land_127, Z.shiftr_div_pow2 by lia.
  change (2 ^ 7) with 128. intros H. destruct (v / 128 =? 0) eqn:Hz; bool_inv; res_inv.
  - left. rewrite (z2b_b2z _ _ E). repeat split; zdiv_lia.
  - right. rewrite lor_128 in E by zdiv_lia. rewrite (z2b_b2z _ _ E).
    repeat split; [zdiv_lia..|done].
Qed.

Lemma decode_varint_loop_encode fuel n v bs buf offset i m acc rest :
  (fuel <= n)%nat -> 0 <= v -> encode_varint_loop fuel v = Ok bs ->
  at_pos buf (offset + i) (bs ++ rest) ->
  decode_varint_loop n buf offset i m acc = Ok (acc + v * m, i + zlen bs).
Proof.
  revert n v bs i m acc; induction fuel as [|fuel IH]; intros n v bs i m acc Hn Hv H Hat;
    [done|].
  destruct n as [|n]; [lia|].
  destruct bs as [|b bs]; [simpl in H; res_inv|].
  pose proof (b2z_range b). pose proof (at_pos_len _ _ _ Hat).
  assert (Hlt : (zlen buf <=? offset + i) = false) by zlia.
  simpl. rewrite Hlt, (at_pos_get _ _ _ _ Hat). simpl.
  rewrite land_127, land_128.
  destruct (varint_byte _ _ _ _ Hv H) as [(Hs & Hb & ->) | (Hs & Hb & Hr)].
  - replace (b2z b <? 128) with true by lia.
    rewrite Hb, Z.mod_small by lia. done.
  - replace (b2z b <? 128) with false by lia.
    rewrite (IH n (v / 128) bs); [|lia|zdiv_lia|done|].
    + f_equal. f_equal; [rewrite Hb; zdiv_lia | zlia].
    + replace (offset + (i + 1)) with (offset + i + 1) by lia.
      by apply (at_pos_cons _ _ b).
Qed.

Theorem decode_encode_varint v bs buf pos rest :
  encode_varint v = Ok bs -> at_pos buf pos (bs ++ rest) ->
  decode_varint buf pos = Ok (v, zlen bs).
Proof.
  intros H Hat. pose proof (encode_varint_range _ _ H).
  unfold encode_varint in H. res_inv.
  unfold decode_varint. rewrite (decode_varint_loop_encode 4 4 v bs _ _ _ _ _ rest); try done; try lia.
  - f_equal. f_equal; lia.
  - by rewrite Z.add_0_r.
Qed.

(** ** Length-prefixed fields *)

Lemma decode_encode_bytes_field d bs buf pos rest :
  encode_bytes_field d = Ok bs -> at_pos buf pos (bs ++ rest) ->
  decode_bytes_field buf pos = Ok (d, zlen bs).
Proof.
  unfold encode_bytes_field, decode_bytes_field. intros H Hat. res_inv.
  pose proof (pack_H_len _ _ E). pose proof (at_pos_len _ _ _ Hat).
  rewrite <- app_assoc in Hat.
  rewrite (at_pos_unpack_H _ _ _ _ _ E Hat). simpl.
  replace (zlen buf <? pos + 2) with false by zlia.
  replace (zlen buf <? pos + 2 + zlen d) with false by zlia.
  apply at_pos_app in Hat. rewrite H in Hat.
  rewrite (at_pos_slice _ _ _ _ Hat). do 2 f_equal. zlia.
Qed.

Lemma decode_encode_str s bs buf pos rest :
  encode_str s = Ok bs -> at_pos buf pos (bs ++ rest) ->
  decode_str buf pos = Ok (s, zlen bs).
Proof.
  unfold encode_str, decode_str. intros H Hat. res_inv.
  rename v into enc. pose proof (pack_H_len _ _ E0). pose proof (at_pos_len _ _ _ Hat).
  rewrite <- app_assoc in Hat.
  rewrite (at_pos_unpack_H _ _ _ _ _ E0 Hat). simpl.
  replace (zlen buf <? pos + 2) with false by zlia.
  replace (zlen buf <? pos + 2 + zlen enc) with false by zlia.
  apply at_pos_app in Hat. rewrite H in Hat.
  rewrite (at_pos_slice _ _ _ _ Hat), (decode_encode_utf8 _ _ E). simpl.
  do 2 f_equal. zlia.
Qed.

Lemma encode_str_len s bs : encode_str s = Ok bs -> 2 <= zlen bs <= 65537.
Proof.
  unfold encode_str, pack_H. intros H. res_inv. bool_inv. zlia.
Qed.

Lemma encode_bytes_field_len d bs : encode_bytes_field d = Ok bs -> zlen bs = 2 + zlen d.
Proof. unfold encode_bytes_field, pack_H. intros H. res_inv. zlia. Qed.

(** ** Behaviour on arbitrary bytes *)

Lemma buf_get_err buf pos e : buf_get buf pos = Err e -> e = IndexError.
Proof. unfold buf_get. intros H. by err_inv. Qed.

Lemma unpack_H_err buf pos e : unpack_H buf pos = Err e -> e = StructError.
Proof. unfold unpack_H. intros H. by err_inv. Qed.

Lemma unpack_I_err buf pos e : unpack_I buf pos = Err e -> e = StructError.
Proof. unfold unpack_I. intros H. by err_inv. Qed.

Lemma unpack_H_range buf pos n : unpack_H buf pos = Ok n -> 0 <= n <= 65535.
Proof.
  unfold unpack_H. intros H. res_inv. pose proof (b2z_range b). pose proof (b2z_range b0). lia.
Qed.

Lemma buf_get_Ok buf pos b : 0 <= pos -> buf_get buf pos = Ok b -> pos + 1 <= zlen buf.
Proof.
  unfold buf_get. intros Hp H. res_inv. apply lookup_lt_Some in Em. unfold zlen. lia.
Qed.

Lemma unpack_H_Ok buf pos n : 0 <= pos -> unpack_H buf pos = Ok n -> pos + 2 <= zlen buf.
Proof.
  unfold unpack_H. intros Hp H. res_inv.
  apply (f_equal length) in Em. rewrite length_drop in Em. simpl in Em. unfold zlen. lia.
Qed.

Lemma unpack_I_Ok buf pos n : 0 <= pos -> unpack_I buf pos = Ok n -> pos + 4 <= zlen buf.
Proof.
  unfold unpack_I. intros Hp H. res_inv.
  apply (f_equal length) in Em. rewrite length_drop in Em. simpl in Em. unfold zlen. lia.
Qed.

Lemma decode_utf8_err bs e : decode_utf8 bs = Err e -> e = UnicodeDecodeError.
Proof.
  remember (length bs) as n eqn:Hn. assert (Hle : (length bs <= n)%nat) by lia. clear Hn.
  revert bs Hle. induction n as [|n IH]; intros [|b0 t0] Hle H; simpl in *; try done; try lia.
  err_inv; simpl in *; try done; (eapply IH; [|eassumption]; lia).
Qed.

(** [decode_varint] either raises [ValueError], as documented, or consumes one to
    four bytes that are all in the buffer. *)
Lemma decode_varint_loop_sound n buf offset i m acc :
  0 <= offset + i -> 0 <= i -> 0 <= m -> 0 <= acc ->
  match decode_varint_loop n buf offset i m acc with
  | Ok (v, k) => acc <= v <= acc + m * (128 ^ Z.of_nat n - 1) /\ i < k <= i + Z.of_nat n
                 /\ offset + k <= zlen buf
  | Err e => exists msg, e = ValueError msg
  end.
Proof.
  revert i m acc. induction n as [|n IH]; intros i m acc Hp Hi Hm Hacc; cbn [decode_varint_loop];
    [by eexists|].
  destruct (zlen buf <=? offset + i) eqn:Hlt; [by eexists|]. bool_inv.
  destruct (buf_get buf (offset + i)) as [b|] eqn:Hb.
  2: { unfold buf_get in Hb. destruct (buf !! _) eqn:Hl; [done|].
       apply lookup_ge_None in Hl. unfold zlen in Hlt. lia. }
  simpl. rewrite land_127, land_128. pose proof (b2z_range b).
  assert (Hpow : 1 <= 128 ^ Z.of_nat n) by (apply (Z.pow_le_mono_r 128 0); lia).
  rewrite Nat2Z.inj_succ, Z.pow_succ_r by lia.
  assert (0 <= b2z b mod 128 <= 127) by zdiv_lia.
  destruct (b2z b <? 128).
  - repeat split; nia.
  - specialize (IH (i + 1) (m * 128) (acc + b2z b mod 128 * m)
                  ltac:(lia) ltac:(lia) ltac:(lia) ltac:(nia)).
    destruct (decode_varint_loop _ _ _ _ _ _) as [[v k]|]; [|done].
    destruct IH as (IH1 & IH2 & IH3). repeat split; nia.
Qed.

Lemma decode_varint_Ok buf offset v k :
  0 <= offset -> decode_varint buf offset = Ok (v, k) ->
  0 <= v <= _MAX_MQTT_VARINT /\ 1 <= k <= 4 /\ offset + k <= zlen buf.
Proof.
  intros Ho H. unfold decode_varint in H.
  pose proof (decode_varint_loop_sound 4 buf offset 0 1 0 ltac:(lia) ltac:(lia) ltac:(lia)
                ltac:(lia)) as HS.
  rewrite H in HS. unfold _MAX_MQTT_VARINT. lia.
Qed.

Lemma decode_varint_err buf offset e :
  0 <= offset -> decode_varint buf offset = Err e -> exists msg, e = ValueError msg.
Proof.
  intros Ho H. unfold decode_varint in H.
  pose proof (decode_varint_loop_sound 4 buf offset 0 1 0 ltac:(lia) ltac:(lia) ltac:(lia)
                ltac:(lia)) as HS.
  by rewrite H in HS.
Qed.

Lemma decode_str_err buf offset e : decode_str buf offset = Err e -> decode_error e = true.
Proof.
  unfold decode_str. intros H. err_inv; try done.
  - by apply unpack_H_err in H as ->.
  - by apply decode_utf8_err in H as ->.
Qed.

Lemma decode_bytes_field_err buf offset e :
  decode_bytes_field buf offset = Err e -> decode_error e = true.
Proof. unfold decode_bytes_field. intros H. err_inv; try done. by apply unpack_H_err in H as ->. Qed.

(** A decoded field lies inside the buffer. *)
Lemma decode_str_Ok buf offset s n :
  decode_str buf offset = Ok (s, n) -> 2 <= n /\ offset + n <= zlen buf.
Proof.
  unfold decode_str. intros H. res_inv. bool_inv. apply unpack_H_range in E. lia.
Qed.

Lemma decode_bytes_field_Ok buf offset d n :
  decode_bytes_field buf offset = Ok (d, n) -> 2 <= n /\ offset + n <= zlen buf.
Proof.
  unfold decode_bytes_field. intros H. res_inv. bool_inv. apply unpack_H_range in E. lia.
Qed.

(** The codecs of the layers above treat these as primitives. *)
#[global] Arguments encode_varint : simpl never.
#[global] Arguments decode_varint : simpl never.
#[global] Arguments encode_str : simpl never.
#[global] Arguments decode_str : simpl never.
#[global] Arguments encode_bytes_field : simpl never.
#[global] Arguments decode_bytes_field : simpl never.
#[global] Arguments pack_B : simpl never.
#[global] Arguments pack_H : simpl never.
#[global] Arguments pack_I : simpl never.
#[global] Arguments unpack_H : simpl never.
#[global] Arguments unpack_I : simpl never.
#[global] Arguments buf_get : simpl never.

(** ** Properties *)

(** [encode_varint] succeeds exactly on 0..268435455 and raises [ValueError]
    outside; its one to four bytes are read back by [decode_varint] wherever they
    stand in a buffer. *)
Theorem varint_exact v :
  match encode_varint v with
  | Ok bs =>
      0 <= v <= _MAX_MQTT_VARINT /\ 1 <= zlen bs <= 4 /\
      forall pre rest, decode_varint (pre ++ bs ++ rest) (zlen pre) = Ok (v, zlen bs)
  | Err e => ~ 0 <= v <= _MAX_MQTT_VARINT /\ is_ValueError e = true
  end.
Proof.
  destruct (encode_varint v) as [bs|e] eqn:H.
  - split; [by eapply encode_varint_range|]. split; [by eapply encode_varint_len|].
    intros pre rest. apply (decode_encode_varint _ _ _ _ rest H). by exists pre.
  - assert (Hr : ~ 0 <= v <= _MAX_MQTT_VARINT)
      by (intros Hr; destruct (encode_varint_Ok v Hr) as (bs & Hbs & _); congruence).
    split; [done|]. unfold encode_varint, _MAX_MQTT_VARINT in *.
    replace ((v <? 0) || (268435455 <? v)) with true in H by lia. by injection H as <-.
Qed.
