(* ===== verification/Properties.v ===== *)
(** * MQTT 5.0 properties ([packets/properties.py])

    The property identifiers with their wire categories, the generic block codec
    ([encode_props], [encode_props_block], [decode_props_block]) and the eleven
    property records with their encoders and decoders.

    A Python property dict maps identifiers to [Any]; a value is a [propval].  A
    value whose type does not fit its identifier cannot come from the annotated
    dataclasses; encoding one is the exception [TypeError] here. *)

From S2P Require Import Prelude PyBytes Utf8 PyDict Wire.
Local Open Scope Z_scope.

(** ** Property identifiers *)

Inductive PropertyID :=
| PAYLOAD_FORMAT_INDICATOR | MESSAGE_EXPIRY_INTERVAL | CONTENT_TYPE | RESPONSE_TOPIC
| CORRELATION_DATA | SUBSCRIPTION_IDENTIFIER | SESSION_EXPIRY_INTERVAL
| ASSIGNED_CLIENT_IDENTIFIER | SERVER_KEEP_ALIVE | AUTHENTICATION_METHOD
| AUTHENTICATION_DATA | REQUEST_PROBLEM_INFORMATION | WILL_DELAY_INTERVAL
| REQUEST_RESPONSE_INFORMATION | RESPONSE_INFORMATION | SERVER_REFERENCE | REASON_STRING
| RECEIVE_MAXIMUM | TOPIC_ALIAS_MAXIMUM | TOPIC_ALIAS | MAXIMUM_QOS | RETAIN_AVAILABLE
| USER_PROPERTY | MAXIMUM_PACKET_SIZE | WILDCARD_SUBSCRIPTION_AVAILABLE
| SUBSCRIPTION_IDENTIFIER_AVAILABLE | SHARED_SUBSCRIPTION_AVAILABLE.

#[export] Instance PropertyID_eq_dec : EqDecision PropertyID.
Proof. solve_decision. Defined.

(** The enumeration's values *)
Definition pid_value (p : PropertyID) : Z :=
  match p with
  | PAYLOAD_FORMAT_INDICATOR => 0x01 | MESSAGE_EXPIRY_INTERVAL => 0x02
  | CONTENT_TYPE => 0x03 | RESPONSE_TOPIC => 0x08 | CORRELATION_DATA => 0x09
  | SUBSCRIPTION_IDENTIFIER => 0x0B | SESSION_EXPIRY_INTERVAL => 0x11
  | ASSIGNED_CLIENT_IDENTIFIER => 0x12 | SERVER_KEEP_ALIVE => 0x13
  | AUTHENTICATION_METHOD => 0x15 | AUTHENTICATION_DATA => 0x16
  | REQUEST_PROBLEM_INFORMATION => 0x17 | WILL_DELAY_INTERVAL => 0x18
  | REQUEST_RESPONSE_INFORMATION => 0x19 | RESPONSE_INFORMATION => 0x1A
  | SERVER_REFERENCE => 0x1C | REASON_STRING => 0x1F | RECEIVE_MAXIMUM => 0x21
  | TOPIC_ALIAS_MAXIMUM => 0x22 | TOPIC_ALIAS => 0x23 | MAXIMUM_QOS => 0x24
  | RETAIN_AVAILABLE => 0x25 | USER_PROPERTY => 0x26 | MAXIMUM_PACKET_SIZE => 0x27
  | WILDCARD_SUBSCRIPTION_AVAILABLE => 0x28 | SUBSCRIPTION_IDENTIFIER_AVAILABLE => 0x29
  | SHARED_SUBSCRIPTION_AVAILABLE => 0x2A
  end.

Definition all_pids : list PropertyID :=
  [PAYLOAD_FORMAT_INDICATOR; MESSAGE_EXPIRY_INTERVAL; CONTENT_TYPE; RESPONSE_TOPIC;
   CORRELATION_DATA; SUBSCRIPTION_IDENTIFIER; SESSION_EXPIRY_INTERVAL;
   ASSIGNED_CLIENT_IDENTIFIER; SERVER_KEEP_ALIVE; AUTHENTICATION_METHOD;
   AUTHENTICATION_DATA; REQUEST_PROBLEM_INFORMATION; WILL_DELAY_INTERVAL;
   REQUEST_RESPONSE_INFORMATION; RESPONSE_INFORMATION; SERVER_REFERENCE; REASON_STRING;
   RECEIVE_MAXIMUM; TOPIC_ALIAS_MAXIMUM; TOPIC_ALIAS; MAXIMUM_QOS; RETAIN_AVAILABLE;
   USER_PROPERTY; MAXIMUM_PACKET_SIZE; WILDCARD_SUBSCRIPTION_AVAILABLE;
   SUBSCRIPTION_IDENTIFIER_AVAILABLE; SHARED_SUBSCRIPTION_AVAILABLE].

(** [PropertyID(n)]: [None] when Python raises [ValueError] *)
Definition pid_of (n : Z) : option PropertyID :=
  List.find (fun p => pid_value p =? n) all_pids.

(** [IntEnum] members compare by value. *)
Definition pid_eqb (p q : PropertyID) : bool := pid_value p =? pid_value q.

Definition in_set (p : PropertyID) (l : list PropertyID) : bool := existsb (pid_eqb p) l.

Definition _WIRE_BYTE :=
  [PAYLOAD_FORMAT_INDICATOR; REQUEST_PROBLEM_INFORMATION; REQUEST_RESPONSE_INFORMATION;
   MAXIMUM_QOS; RETAIN_AVAILABLE; WILDCARD_SUBSCRIPTION_AVAILABLE;
   SUBSCRIPTION_IDENTIFIER_AVAILABLE; SHARED_SUBSCRIPTION_AVAILABLE].
Definition _WIRE_UINT16 :=
  [SERVER_KEEP_ALIVE; RECEIVE_MAXIMUM; TOPIC_ALIAS_MAXIMUM; TOPIC_ALIAS].
Definition _WIRE_UINT32 :=
  [MESSAGE_EXPIRY_INTERVAL; SESSION_EXPIRY_INTERVAL; WILL_DELAY_INTERVAL;
   MAXIMUM_PACKET_SIZE].
Definition _WIRE_VARINT := [SUBSCRIPTION_IDENTIFIER].
Definition _WIRE_STR :=
  [CONTENT_TYPE; RESPONSE_TOPIC; ASSIGNED_CLIENT_IDENTIFIER; AUTHENTICATION_METHOD;
   REASON_STRING; RESPONSE_INFORMATION; SERVER_REFERENCE].
Definition _WIRE_BYTES_DATA := [CORRELATION_DATA; AUTHENTICATION_DATA].

(** ** Property values and dictionaries *)

Inductive propval :=
| PInt (n : Z)
| PBool (b : bool)
| PStr (s : str)
| PBytes (d : bytes)
| PPairs (l : list (str * str)).

#[export] Instance propval_eq_dec : EqDecision propval.
Proof. solve_decision. Defined.

Abbreviation props := (dict PropertyID propval).

(** A Python [bool] is an [int]. *)
Definition as_int (v : propval) : result Z :=
  match v with PInt n => Ok n | PBool b => Ok (Z.b2z b) | _ => Err TypeError end.
Definition as_str (v : propval) : result str :=
  match v with PStr s => Ok s | _ => Err TypeError end.
Definition as_bytes (v : propval) : result bytes :=
  match v with PBytes d => Ok d | _ => Err TypeError end.
Definition as_pairs (v : propval) : result (list (str * str)) :=
  match v with PPairs l => Ok l | _ => Err TypeError end.

(** [bool(v)] *)
Definition truthy (v : propval) : bool :=
  match v with
  | PInt n => negb (n =? 0)
  | PBool b => b
  | PStr s => bool_decide (s <> [])
  | PBytes d => bool_decide (d <> [])
  | PPairs l => bool_decide (l <> [])
  end.

(** [bytes([pid])] *)
Definition pid_byte (p : PropertyID) : byte := byte_of (pid_value p).

(** The [for k, v in value] loop of the user-property case *)
Fixpoint encode_pairs (l : list (str * str)) : result bytes :=
  match l with
  | [] => Ok []
  | (k, v) :: l' =>
      kb ← encode_str k; vb ← encode_str v;
      rest ← encode_pairs l';
      Ok (pid_byte USER_PROPERTY :: kb ++ vb ++ rest)
  end.

(** One iteration of the loop of [encode_props]: the bytes it appends *)
Definition encode_prop (pid : PropertyID) (value : propval) : result bytes :=
  if in_set pid _WIRE_BYTE then n ← as_int value; b ← pack_B n; Ok (pid_byte pid :: b)
  else if in_set pid _WIRE_UINT16 then n ← as_int value; b ← pack_H n; Ok (pid_byte pid :: b)
  else if in_set pid _WIRE_UINT32 then n ← as_int value; b ← pack_I n; Ok (pid_byte pid :: b)
  else if in_set pid _WIRE_VARINT then
    n ← as_int value; b ← encode_varint n; Ok (pid_byte pid :: b)
  else if in_set pid _WIRE_STR then
    s ← as_str value; b ← encode_str s; Ok (pid_byte pid :: b)
  else if in_set pid _WIRE_BYTES_DATA then
    d ← as_bytes value; b ← encode_bytes_field d; Ok (pid_byte pid :: b)
  else if pid_eqb pid USER_PROPERTY then l ← as_pairs value; encode_pairs l
  else Ok [].

Fixpoint encode_props (d : props) : result bytes :=
  match d with
  | [] => Ok []
  | (pid, value) :: d' =>
      b ← encode_prop pid value; rest ← encode_props d'; Ok (b ++ rest)
  end.

(** [not d] holds for [None] and for the empty dictionary. *)
Definition encode_props_block (d : props) : result bytes :=
  match d with
  | [] => encode_varint 0
  | _ => raw ← encode_props d; len ← encode_varint (zlen raw); Ok (len ++ raw)
  end.

(** The body of the decoding loop after the identifier has been read: the new
    dictionary and position. *)
Definition decode_prop (pid : PropertyID) (buf : bytes) (pos : Z) (d : props)
    : result (props * Z) :=
  if in_set pid _WIRE_BYTE then
    b ← buf_get buf pos; Ok (dict_set d pid (PInt (b2z b)), pos + 1)
  else if in_set pid _WIRE_UINT16 then
    n ← unpack_H buf pos; Ok (dict_set d pid (PInt n), pos + 2)
  else if in_set pid _WIRE_UINT32 then
    n ← unpack_I buf pos; Ok (dict_set d pid (PInt n), pos + 4)
  else if in_set pid _WIRE_VARINT then
    '(val, vn) ← decode_varint buf pos; Ok (dict_set d pid (PInt val), pos + vn)
  else if in_set pid _WIRE_STR then
    '(val, sn) ← decode_str buf pos; Ok (dict_set d pid (PStr val), pos + sn)
  else if in_set pid _WIRE_BYTES_DATA then
    '(val, bn) ← decode_bytes_field buf pos; Ok (dict_set d pid (PBytes val), pos + bn)
  else if pid_eqb pid USER_PROPERTY then
    '(k, kn) ← decode_str buf pos;
    let pos := pos + kn in
    '(v, vn) ← decode_str buf pos;
    let pos := pos + vn in
    pairs ← match dict_get d pid with None => Ok [] | Some v => as_pairs v end;
    Ok (dict_set d pid (PPairs (pairs ++ [(k, v)])), pos)
  else Ok (d, pos).

(** The [while pos < end] loop.  Every iteration reads at least one byte. *)
Fixpoint decode_props_loop (fuel : nat) (buf : bytes) (pos end_ : Z) (d : props)
    : result props :=
  if end_ <=? pos then Ok d
  else match fuel with
  | O => Err NonTermination
  | S fuel' =>
      b ← buf_get buf pos;
      match pid_of (b2z b) with
      | None => Err (ValueError "Unknown property ID")
      | Some pid =>
          '(d', pos') ← decode_prop pid buf (pos + 1) d;
          decode_props_loop fuel' buf pos' end_ d'
      end
  end.

Definition decode_props_block (buf : bytes) (offset : Z) : result (props * Z) :=
  '(props_len, n) ← decode_varint buf offset;
  let pos := offset + n in
  let end_ := pos + props_len in
  d ← decode_props_loop (S (length buf)) buf pos end_ [];
  Ok (d, n + props_len).

Lemma decode_props_loop_end fuel buf pos end_ d :
  end_ <= pos -> decode_props_loop fuel buf pos end_ d = Ok d.
Proof. intros H. destruct fuel; simpl; by replace (end_ <=? pos) with true by lia. Qed.

Lemma decode_props_loop_next fuel buf pos end_ d :
  pos < end_ ->
  decode_props_loop (S fuel) buf pos end_ d =
    (b ← buf_get buf pos;
     match pid_of (b2z b) with
     | None => Err (ValueError "Unknown property ID")
     | Some pid =>
         '(d', pos') ← decode_prop pid buf (pos + 1) d;
         decode_props_loop fuel buf pos' end_ d'
     end).
Proof. intros H. simpl. by replace (end_ <=? pos) with false by lia. Qed.

#[global] Arguments decode_props_loop : simpl never.

(** ** Well-formed dictionaries *)

(** The type of values an identifier carries. *)
Definition well_typed (pid : PropertyID) (v : propval) : Prop :=
  if in_set pid _WIRE_STR then exists s, v = PStr s
  else if in_set pid _WIRE_BYTES_DATA then exists d, v = PBytes d
  else if pid_eqb pid USER_PROPERTY then exists l, v = PPairs l
  else (exists n, v = PInt n) \/ (exists b, v = PBool b).

Definition dict_typed (d : props) : Prop := Forall (fun p => well_typed p.1 p.2) d.

(** What the record encoders build: distinct keys, no empty list of pairs. *)
Record dict_ok (d : props) : Prop := {
  ok_keys : dict_wf d;
  ok_pairs : Forall (fun p => p.2 <> PPairs []) d;
}.

(** What a value becomes on the wire: booleans are sent as 0 and 1. *)
Definition norm (v : propval) : propval :=
  match v with PBool b => PInt (Z.b2z b) | _ => v end.

Definition norm_dict (d : props) : props := prod_map id norm <$> d.

Lemma dict_get_norm d pid : dict_get (norm_dict d) pid = norm <$> dict_get d pid.
Proof. induction d as [|[k v] d IH]; simpl; [done|]. by case_decide. Qed.

Lemma norm_dict_keys d : (norm_dict d).*1 = d.*1.
Proof. induction d as [|[k v] d IH]; [done|]. cbn. by f_equal. Qed.

(** ** Identifiers *)

Lemma pid_of_value p : pid_of (pid_value p) = Some p.
Proof. by destruct p. Qed.

Lemma pid_of_Some n p : pid_of n = Some p -> pid_value p = n.
Proof. intros H%List.find_some. destruct H as [_ H]. by apply Z.eqb_eq. Qed.

Lemma b2z_pid_byte p : b2z (pid_byte p) = pid_value p.
Proof. by destruct p. Qed.

(** The wire categories partition the identifiers: every identifier takes exactly
    one branch of the codecs. *)
Lemma wire_categories_partition p :
  length (List.filter (in_set p)
    [_WIRE_BYTE; _WIRE_UINT16; _WIRE_UINT32; _WIRE_VARINT; _WIRE_STR; _WIRE_BYTES_DATA;
     [USER_PROPERTY]]) = 1%nat.
Proof. by destruct p. Qed.

(** ** The decoding loop *)

(** The loop, started at [pos] with [d], gets to [pos'] with [d'] with fuel left. *)
Definition reaches (buf : bytes) (end_ pos : Z) (d : props) (pos' : Z) (d' : props) : Prop :=
  forall fuel, zlen buf - pos < Z.of_nat fuel ->
  exists fuel', zlen buf - pos' < Z.of_nat fuel' /\
    decode_props_loop fuel buf pos end_ d = decode_props_loop fuel' buf pos' end_ d'.

Lemma reaches_refl buf end_ pos d : reaches buf end_ pos d pos d.
Proof. intros fuel H. by exists fuel. Qed.

Lemma reaches_trans buf end_ p1 d1 p2 d2 p3 d3 :
  reaches buf end_ p1 d1 p2 d2 -> reaches buf end_ p2 d2 p3 d3 -> reaches buf end_ p1 d1 p3 d3.
Proof.
  intros H1 H2 fuel Hf. destruct (H1 _ Hf) as (f2 & Hf2 & ->).
  destruct (H2 _ Hf2) as (f3 & Hf3 & ->). by exists f3.
Qed.

(** One iteration. *)
Lemma reaches_step buf end_ pos pid item rest d d' pos' :
  at_pos buf pos (pid_byte pid :: item ++ rest) -> pos < end_ -> pos < pos' ->
  decode_prop pid buf (pos + 1) d = Ok (d', pos') ->
  reaches buf end_ pos d pos' d'.
Proof.
  intros Hat Hend Hlt H fuel Hf. pose proof (at_pos_len _ _ _ Hat).
  destruct fuel as [|fuel]; [zlia|]. exists fuel. split; [lia|].
  rewrite decode_props_loop_next, (at_pos_get _ _ _ _ Hat) by done. simpl.
  rewrite b2z_pid_byte, pid_of_value, H. done.
Qed.

(** ** Round trip of the block codec *)

(** An identifier other than the user property is sent once and read back. *)
Lemma decode_encode_prop pid v bs buf pos rest acc :
  pid <> USER_PROPERTY -> encode_prop pid v = Ok bs -> at_pos buf pos (bs ++ rest) ->
  exists item, bs = pid_byte pid :: item /\
    decode_prop pid buf (pos + 1) acc = Ok (dict_set acc pid (norm v), pos + zlen bs).
Proof.
  intros Hne H Hat. unfold encode_prop, decode_prop in *.
  destruct pid; cbn in H |- *; try done; res_inv;
    (eexists; split; [reflexivity|]); apply at_pos_cons in Hat;
    destruct v; simplify_eq/=;
    repeat match goal with
    | E : pack_B _ = Ok _ |- _ =>
        destruct (at_pos_pack_B _ _ _ _ _ E Hat) as (? & -> & <-);
        apply pack_B_len in E
    | E : pack_H _ = Ok _ |- _ =>
        rewrite (at_pos_unpack_H _ _ _ _ _ E Hat); apply pack_H_len in E
    | E : pack_I _ = Ok _ |- _ =>
        rewrite (at_pos_unpack_I _ _ _ _ _ E Hat); apply pack_I_len in E
    | E : encode_varint _ = Ok _ |- _ =>
        rewrite (decode_encode_varint _ _ _ _ _ E Hat); clear E
    | E : encode_str _ = Ok _ |- _ =>
        rewrite (decode_encode_str _ _ _ _ _ E Hat); clear E
    | E : encode_bytes_field _ = Ok _ |- _ =>
        rewrite (decode_encode_bytes_field _ _ _ _ _ E Hat); clear E
    end; cbn; do 2 f_equal; zlia.
Qed.

(** The pairs read so far. *)
Definition pairs_of (d : props) : list (str * str) :=
  match dict_get d USER_PROPERTY with Some (PPairs l) => l | _ => [] end.

(** The user-property slot is free or holds pairs, as in every dictionary the
    decoder builds. *)
Definition pairs_slot (d : props) : Prop :=
  match dict_get d USER_PROPERTY with None | Some (PPairs _) => True | _ => False end.

Lemma pairs_slot_set d l : pairs_slot (dict_set d USER_PROPERTY (PPairs l)).
Proof. unfold pairs_slot. by rewrite dict_get_set_eq. Qed.

Lemma pairs_of_set d l : pairs_of (dict_set d USER_PROPERTY (PPairs l)) = l.
Proof. unfold pairs_of. by rewrite dict_get_set_eq. Qed.

(** One string pair. *)
Lemma decode_pair k v kb vb buf pos rest acc :
  encode_str k = Ok kb -> encode_str v = Ok vb -> pairs_slot acc ->
  at_pos buf pos (kb ++ vb ++ rest) ->
  decode_prop USER_PROPERTY buf pos acc =
    Ok (dict_set acc USER_PROPERTY (PPairs (pairs_of acc ++ [(k, v)])), pos + zlen kb + zlen vb).
Proof.
  intros Hk Hv Hs Hat. unfold decode_prop. cbn.
  rewrite (decode_encode_str _ _ _ _ _ Hk Hat). simpl.
  apply at_pos_app in Hat. rewrite (decode_encode_str _ _ _ _ _ Hv Hat). simpl.
  unfold pairs_slot, pairs_of in *.
  by destruct (dict_get acc USER_PROPERTY) as [[]|].
Qed.

Lemma reaches_pairs l bs buf end_ pos rest acc :
  encode_pairs l = Ok bs -> l <> [] -> pairs_slot acc ->
  at_pos buf pos (bs ++ rest) -> pos + zlen bs <= end_ ->
  reaches buf end_ pos acc (pos + zlen bs)
    (dict_set acc USER_PROPERTY (PPairs (pairs_of acc ++ l))).
Proof.
  revert bs pos acc; induction l as [|[k v] l IH]; intros bs pos acc H Hne Hs Hat Hend; [done|].
  simpl in H. res_inv. rename v0 into kb, v1 into vb, v2 into tl.
  pose proof (encode_str_len _ _ E). pose proof (encode_str_len _ _ E0).
  assert (Hat' : at_pos buf pos (pid_byte USER_PROPERTY :: (kb ++ vb) ++ (tl ++ rest))).
  { revert Hat. simpl. by rewrite <- !app_assoc. }
  assert (Hdec : decode_prop USER_PROPERTY buf (pos + 1) acc =
    Ok (dict_set acc USER_PROPERTY (PPairs (pairs_of acc ++ [(k, v)])),
        pos + 1 + zlen kb + zlen vb)).
  { apply (decode_pair _ _ _ _ _ _ (tl ++ rest)); try done.
    rewrite <- app_assoc in Hat'. by apply at_pos_cons in Hat'. }
  assert (Hstep : reaches buf end_ pos acc (pos + 1 + zlen kb + zlen vb)
    (dict_set acc USER_PROPERTY (PPairs (pairs_of acc ++ [(k, v)])))).
  { eapply reaches_step; [exact Hat' | zlia | zlia | exact Hdec]. }
  destruct l as [|p l].
  - simpl in E1. res_inv. eapply reaches_trans; [exact Hstep|].
    replace (pos + 1 + zlen kb + zlen vb) with (pos + zlen (pid_byte USER_PROPERTY :: kb ++ vb ++ []))
      by zlia.
    apply reaches_refl.
  - eapply reaches_trans; [exact Hstep|].
    specialize (IH tl (pos + 1 + zlen kb + zlen vb)
      (dict_set acc USER_PROPERTY (PPairs (pairs_of acc ++ [(k, v)]))) E1 ltac:(done)
      (pairs_slot_set _ _)).
    rewrite pairs_of_set, dict_set_set, <- app_assoc in IH. simpl in IH.
    replace (pos + zlen (pid_byte USER_PROPERTY :: kb ++ vb ++ tl))
      with (pos + 1 + zlen kb + zlen vb + zlen tl) by zlia.
    apply IH; [|zlia].
    apply at_pos_cons in Hat'. rewrite <- app_assoc in Hat'.
    by do 2 apply at_pos_app in Hat'.
Qed.

Lemma encode_prop_len pid v bs :
  encode_prop pid v = Ok bs -> v <> PPairs [] -> 1 <= zlen bs.
Proof.
  unfold encode_prop. intros H Hv.
  destruct pid; cbn in H; res_inv; try zlia.
  destruct v as [| | | |[|[k v] l]]; simplify_eq/=. res_inv. zlia.
Qed.

Lemma reaches_prop pid v bs buf end_ pos rest acc :
  encode_prop pid v = Ok bs -> v <> PPairs [] -> pid ∉ acc.*1 ->
  at_pos buf pos (bs ++ rest) -> pos + zlen bs <= end_ ->
  reaches buf end_ pos acc (pos + zlen bs) (acc ++ [(pid, norm v)]).
Proof.
  intros H Hv Hfresh Hat Hend. rewrite <- dict_set_fresh by done.
  pose proof (encode_prop_len _ _ _ H Hv).
  destruct (decide (pid = USER_PROPERTY)) as [->|Hne].
  - unfold encode_prop in H. cbn in H. res_inv.
    destruct v as [| | | |l]; simplify_eq/=. rename v0 into l.
    apply dict_get_None in Hfresh.
    assert (Hp : pairs_of acc = []) by (unfold pairs_of; by rewrite Hfresh).
    pose proof (reaches_pairs l bs buf end_ pos rest acc H ltac:(congruence)) as HR.
    rewrite Hp in HR. apply HR; [unfold pairs_slot; by rewrite Hfresh | done..].
  - destruct (decode_encode_prop _ _ _ _ _ _ acc Hne H Hat) as (item & -> & Hdec).
    eapply reaches_step; [exact Hat | lia | lia | exact Hdec].
Qed.

Lemma reaches_props d bs buf end_ pos rest acc :
  encode_props d = Ok bs -> dict_wf (acc ++ d) -> Forall (fun p => p.2 <> PPairs []) d ->
  at_pos buf pos (bs ++ rest) -> pos + zlen bs <= end_ ->
  reaches buf end_ pos acc (pos + zlen bs) (acc ++ norm_dict d).
Proof.
  revert bs pos acc; induction d as [|[pid v] d IH]; intros bs pos acc H Hwf Hp Hat Hend.
  { simpl in H. res_inv. rewrite app_nil_r, zlen_nil, Z.add_0_r. apply reaches_refl. }
  simpl in H. res_inv. apply Forall_cons in Hp as [Hv Hp].
  assert (Hfresh : pid ∉ acc.*1).
  { unfold dict_wf in Hwf. rewrite fmap_app in Hwf. apply NoDup_app in Hwf as (_ & Hd & _).
    intros Hin. apply (Hd _ Hin). by left. }
  rewrite <- app_assoc in Hat. pose proof (zlen_nonneg v1). rewrite zlen_app in *.
  eapply reaches_trans; [by eapply (reaches_prop pid v v0); try done; lia|].
  change (norm_dict ((pid, v) :: d)) with ([(pid, norm v)] ++ norm_dict d).
  rewrite app_assoc, Z.add_assoc.
  apply IH; [done| |done|by apply at_pos_app in Hat|lia].
  unfold dict_wf in *. rewrite !fmap_app in *. simpl in *. by rewrite <- app_assoc.
Qed.

(** The block codec: what is decoded is what was encoded, booleans as integers. *)
Theorem decode_encode_props_block d bs buf pos rest :
  dict_ok d -> encode_props_block d = Ok bs -> at_pos buf pos (bs ++ rest) ->
  decode_props_block buf pos = Ok (norm_dict d, zlen bs).
Proof.
  intros [Hk Hp] H Hat. unfold decode_props_block.
  assert (Hraw : exists raw len, encode_props d = Ok raw /\ encode_varint (zlen raw) = Ok len
                                 /\ bs = len ++ raw).
  { destruct d as [|p d]; unfold encode_props_block in H.
    - exists [], bs. by rewrite app_nil_r.
    - apply bind_Ok in H as (raw & Hr & H). apply bind_Ok in H as (len & Hl & [= <-]).
      by exists raw, len. }
  destruct Hraw as (raw & len & Hraw & Hlen & ->). rewrite <- app_assoc in Hat.
  rewrite (decode_encode_varint _ _ _ _ _ Hlen Hat). simpl.
  apply at_pos_app in Hat. pose proof (at_pos_len _ _ _ Hat).
  destruct (reaches_props d raw buf (pos + zlen len + zlen raw) (pos + zlen len) rest []
              Hraw Hk Hp Hat ltac:(lia) (S (length buf))) as (fuel & _ & ->).
  { unfold zlen in *. lia. }
  rewrite decode_props_loop_end by done. simpl. by rewrite zlen_app.
Qed.

(** ** Behaviour on arbitrary bytes *)

(** What every dictionary of the decoding loop satisfies. *)
Record dec_inv (d : props) : Prop := {
  dec_wf : dict_wf d;
  dec_typed : dict_typed d;
}.

Lemma dec_inv_nil : dec_inv [].
Proof. split; constructor. Qed.

Lemma dec_inv_set d pid v : dec_inv d -> well_typed pid v -> dec_inv (dict_set d pid v).
Proof.
  intros [Hw Ht] Hv. split; [by apply dict_wf_set|]. clear Hw.
  unfold dict_typed in *. induction Ht as [|[k x] d Hx Ht IH]; simpl; [by repeat constructor|].
  case_decide; subst; by constructor.
Qed.

Lemma dec_inv_get d pid v : dec_inv d -> dict_get d pid = Some v -> well_typed pid v.
Proof.
  intros [_ Ht] H%dict_get_Some_elem. unfold dict_typed in Ht. rewrite Forall_forall in Ht.
  by apply (Ht _ H).
Qed.

(** A property is read forwards and inside the buffer, and leaves a well-typed
    dictionary. *)
Lemma decode_prop_Ok pid buf pos d d' pos' :
  decode_prop pid buf pos d = Ok (d', pos') -> 0 <= pos -> dec_inv d ->
  dec_inv d' /\ pos < pos' <= zlen buf.
Proof.
  intros H Hpos Hd. unfold decode_prop in H.
  destruct pid; cbn in H; res_inv;
    repeat match goal with
    | E : decode_str _ _ = Ok _ |- _ => apply decode_str_Ok in E
    | E : decode_bytes_field _ _ = Ok _ |- _ => apply decode_bytes_field_Ok in E
    | E : decode_varint _ _ = Ok _ |- _ => apply decode_varint_Ok in E; [|lia]
    | E : buf_get _ _ = Ok _ |- _ => apply buf_get_Ok in E; [|lia]
    | E : unpack_H _ _ = Ok _ |- _ => apply unpack_H_Ok in E; [|lia]
    | E : unpack_I _ _ = Ok _ |- _ => apply unpack_I_Ok in E; [|lia]
    end;
    (split; [apply dec_inv_set; [done|]; unfold well_typed; cbn; eauto | lia]).
Qed.

Lemma decode_prop_err pid buf pos d e :
  decode_prop pid buf pos d = Err e -> 0 <= pos -> dec_inv d -> decode_error e = true.
Proof.
  intros H Hpos Hd. unfold decode_prop in H.
  destruct pid; cbn in H; err_inv; try done;
    try (by eapply decode_str_err); try (by eapply decode_bytes_field_err);
    repeat match goal with
    | E : buf_get _ _ = Err _ |- _ => by apply buf_get_err in E as ->
    | E : unpack_H _ _ = Err _ |- _ => by apply unpack_H_err in E as ->
    | E : unpack_I _ _ = Err _ |- _ => by apply unpack_I_err in E as ->
    | E : decode_varint _ _ = Err _ |- _ => apply decode_varint_err in E as [? ->]; [done|lia]
    | E : dict_get d _ = Some ?v |- _ =>
        destruct (dec_inv_get _ _ _ Hd E) as [? ->]; done
    end.
Qed.

(** Termination: the fuel of [decode_props_block] is never exhausted. *)
Lemma decode_props_loop_sound fuel buf pos end_ d :
  zlen buf - pos < Z.of_nat fuel -> 0 <= pos <= zlen buf -> dec_inv d ->
  match decode_props_loop fuel buf pos end_ d with
  | Ok d' => dec_inv d'
  | Err e => decode_error e = true
  end.
Proof.
  revert pos d; induction fuel as [|fuel IH]; intros pos d Hf Hpos Hd; [lia|].
  destruct (decide (end_ <= pos)); [by rewrite decode_props_loop_end|].
  rewrite decode_props_loop_next by lia.
  destruct (buf_get buf pos) as [b|e] eqn:Hb; simpl; [|by apply buf_get_err in Hb as ->].
  destruct (pid_of (b2z b)) as [pid|]; [|done]. apply buf_get_Ok in Hb; [|lia].
  destruct (decode_prop pid buf (pos + 1) d) as [[d' pos']|e] eqn:Hp; simpl.
  - apply decode_prop_Ok in Hp as [Hd' Hlt]; [|lia|done]. apply IH; [lia..|done].
  - by eapply decode_prop_err; [exact Hp|lia|].
Qed.

Theorem decode_props_block_sound buf offset :
  0 <= offset ->
  match decode_props_block buf offset with
  | Ok (d, n) => dec_inv d /\ 1 <= n
  | Err e => decode_error e = true
  end.
Proof.
  intros Ho. unfold decode_props_block.
  destruct (decode_varint buf offset) as [[len n]|e] eqn:Hv; simpl.
  2: { by apply decode_varint_err in Hv as [? ->]. }
  apply decode_varint_Ok in Hv; [|lia].
  pose proof (decode_props_loop_sound (S (length buf)) buf (offset + n) (offset + n + len) []) as HS.
  destruct (decode_props_loop _ _ _ _ _); simpl.
  - split; [apply HS; [unfold zlen in *; lia..|apply dec_inv_nil] | lia].
  - apply HS; [unfold zlen in *; lia..|apply dec_inv_nil].
Qed.

(** ** Properties *)

(** C40: on any bytes whatever, decoding a property block terminates; it raises only
    [ValueError], [struct.error] or [IndexError], and a dictionary it returns has
    distinct keys, every value of the type of its property. *)
Theorem props_block_any_bytes buf offset :
  0 <= offset ->
  match decode_props_block buf offset with
  | Ok (d, n) => dict_wf d /\ dict_typed d /\ 1 <= n
  | Err e => decode_error e = true
  end.
Proof.
  intros Ho. pose proof (decode_props_block_sound buf offset Ho) as HS.
  destruct (decode_props_block buf offset) as [[d n]|]; [|done].
  destruct HS as [[H1 H2] H3]. by split.
Qed.

Lemma props_block_any_bytes_witness :
  match decode_props_block [x02; x01; x01] 0 with
  | Ok (d, n) => dict_wf d /\ dict_typed d /\ 1 <= n
  | Err e => decode_error e = true
  end.
Proof. apply (props_block_any_bytes [x02; x01; x01] 0). lia. Defined.

(** A property that crosses the end of its block is read to its own end, but only
    the declared length is consumed: its bytes are read again as what follows. *)
Lemma props_block_overrun :
  decode_props_block [x01; x11; x00; x00; x00; x05] 0 = Ok ([(SESSION_EXPIRY_INTERVAL, PInt 5)], 2).
Proof. vm_compute. reflexivity. Qed.
