(* ===== verification/PropertyRecords.v ===== *)
(** * The eleven property records ([packets/properties.py], from line 182)

    One record per dataclass (field names carry a prefix per record), the
    dictionary each encoder builds, and the encoders and decoders.  The class
    [RecordCodec] is what a record promises to the packet codec: its dictionary is
    well formed and reading the decoded dictionary gives the record back. *)

From S2P Require Import Prelude PyBytes Utf8 PyDict Wire Properties.
Local Open Scope Z_scope.

(** ** Shared shapes *)

Abbreviation items := (list (PropertyID * option propval)).

(** [{pid: val for pid, val in items if val is not None}] *)
Definition dict_of_items (l : items) : props :=
  foldl (fun d p => match p.2 with Some v => dict_set d p.1 v | None => d end) [] l.

Definition _up (user_properties : list (str * str)) : props :=
  match user_properties with [] => [] | _ => [(USER_PROPERTY, PPairs user_properties)] end.

Definition _up_tuple (d : props) : list (str * str) :=
  match dict_get d USER_PROPERTY with Some (PPairs l) => l | _ => [] end.

(** [d.get(pid)], for an identifier of the given wire type *)
Definition get_int (d : props) (pid : PropertyID) : option Z :=
  match dict_get d pid with Some (PInt n) => Some n | _ => None end.
Definition get_str (d : props) (pid : PropertyID) : option str :=
  match dict_get d pid with Some (PStr s) => Some s | _ => None end.
Definition get_bytes (d : props) (pid : PropertyID) : option bytes :=
  match dict_get d pid with Some (PBytes b) => Some b | _ => None end.
(** [bool(d[pid]) if pid in d else None] *)
Definition get_bool (d : props) (pid : PropertyID) : option bool := truthy <$> dict_get d pid.

(** The common shape of the encoders: [None] is an empty block. *)
Definition encode_record {R} (to_dict : R -> props) (p : option R) : result bytes :=
  match p with
  | None => encode_varint 0
  | Some r => encode_props_block (to_dict r)
  end.

(** The common shape of the decoders: an empty block is [None]. *)
Definition decode_record {R} (of_dict : props -> R) (buf : bytes) (offset : Z)
    : result (option R * Z) :=
  '(d, n) ← decode_props_block buf offset;
  match d with
  | [] => Ok (None, n)
  | _ => Ok (Some (of_dict d), n)
  end.

(** ** The records *)

Record ConnectProperties := mkConnectProperties {
  cnp_session_expiry_interval : option Z;
  cnp_receive_maximum : option Z;
  cnp_maximum_packet_size : option Z;
  cnp_topic_alias_maximum : option Z;
  cnp_request_response_information : option bool;
  cnp_request_problem_information : option bool;
  cnp_authentication_method : option str;
  cnp_authentication_data : option bytes;
  cnp_user_properties : list (str * str);
}.

#[export] Instance ConnectProperties_eq_dec : EqDecision ConnectProperties.
Proof. solve_decision. Defined.

Record WillProperties := mkWillProperties {
  wlp_will_delay_interval : option Z;
  wlp_payload_format_indicator : option Z;
  wlp_message_expiry_interval : option Z;
  wlp_content_type : option str;
  wlp_response_topic : option str;
  wlp_correlation_data : option bytes;
  wlp_user_properties : list (str * str);
}.

#[export] Instance WillProperties_eq_dec : EqDecision WillProperties.
Proof. solve_decision. Defined.

Record ConnAckProperties := mkConnAckProperties {
  cap_session_expiry_interval : option Z;
  cap_receive_maximum : option Z;
  cap_maximum_qos : option Z;
  cap_retain_available : option bool;
  cap_maximum_packet_size : option Z;
  cap_assigned_client_identifier : option str;
  cap_topic_alias_maximum : option Z;
  cap_reason_string : option str;
  cap_wildcard_subscription_available : option bool;
  cap_subscription_identifier_available : option bool;
  cap_shared_subscription_available : option bool;
  cap_server_keep_alive : option Z;
  cap_response_information : option str;
  cap_server_reference : option str;
  cap_authentication_method : option str;
  cap_authentication_data : option bytes;
  cap_user_properties : list (str * str);
}.

#[export] Instance ConnAckProperties_eq_dec : EqDecision ConnAckProperties.
Proof. solve_decision. Defined.

Record PublishProperties := mkPublishProperties {
  pbp_payload_format_indicator : option Z;
  pbp_message_expiry_interval : option Z;
  pbp_topic_alias : option Z;
  pbp_response_topic : option str;
  pbp_correlation_data : option bytes;
  pbp_subscription_identifier : option Z;
  pbp_content_type : option str;
  pbp_user_properties : list (str * str);
}.

#[export] Instance PublishProperties_eq_dec : EqDecision PublishProperties.
Proof. solve_decision. Defined.

Record PubAckProperties := mkPubAckProperties {
  pap_reason_string : option str;
  pap_user_properties : list (str * str);
}.

#[export] Instance PubAckProperties_eq_dec : EqDecision PubAckProperties.
Proof. solve_decision. Defined.

Record SubscribeProperties := mkSubscribeProperties {
  sbp_subscription_identifier : option Z;
  sbp_user_properties : list (str * str);
}.

#[export] Instance SubscribeProperties_eq_dec : EqDecision SubscribeProperties.
Proof. solve_decision. Defined.

Record SubAckProperties := mkSubAckProperties {
  sap_reason_string : option str;
  sap_user_properties : list (str * str);
}.

#[export] Instance SubAckProperties_eq_dec : EqDecision SubAckProperties.
Proof. solve_decision. Defined.

Record UnsubscribeProperties := mkUnsubscribeProperties {
  usp_user_properties : list (str * str);
}.

#[export] Instance UnsubscribeProperties_eq_dec : EqDecision UnsubscribeProperties.
Proof. solve_decision. Defined.

Record UnsubAckProperties := mkUnsubAckProperties {
  uap_reason_string : option str;
  uap_user_properties : list (str * str);
}.

#[export] Instance UnsubAckProperties_eq_dec : EqDecision UnsubAckProperties.
Proof. solve_decision. Defined.

Record DisconnectProperties := mkDisconnectProperties {
  dcp_session_expiry_interval : option Z;
  dcp_reason_string : option str;
  dcp_server_reference : option str;
  dcp_user_properties : list (str * str);
}.

#[export] Instance DisconnectProperties_eq_dec : EqDecision DisconnectProperties.
Proof. solve_decision. Defined.

Record AuthProperties := mkAuthProperties {
  aup_authentication_method : option str;
  aup_authentication_data : option bytes;
  aup_reason_string : option str;
  aup_user_properties : list (str * str);
}.

#[export] Instance AuthProperties_eq_dec : EqDecision AuthProperties.
Proof. solve_decision. Defined.

(** ** Encoders *)

(** The dictionaries the encoders build. *)

Definition connect_dict (p : ConnectProperties) : props :=
  dict_update
    (dict_of_items
    [(SESSION_EXPIRY_INTERVAL, PInt <$> cnp_session_expiry_interval p);
     (RECEIVE_MAXIMUM, PInt <$> cnp_receive_maximum p);
     (MAXIMUM_PACKET_SIZE, PInt <$> cnp_maximum_packet_size p);
     (TOPIC_ALIAS_MAXIMUM, PInt <$> cnp_topic_alias_maximum p);
     (REQUEST_RESPONSE_INFORMATION, PBool <$> cnp_request_response_information p);
     (REQUEST_PROBLEM_INFORMATION, PBool <$> cnp_request_problem_information p);
     (AUTHENTICATION_METHOD, PStr <$> cnp_authentication_method p);
     (AUTHENTICATION_DATA, PBytes <$> cnp_authentication_data p)])
    (_up (cnp_user_properties p)).

Definition will_dict (p : WillProperties) : props :=
  dict_update
    (dict_of_items
    [(WILL_DELAY_INTERVAL, PInt <$> wlp_will_delay_interval p);
     (PAYLOAD_FORMAT_INDICATOR, PInt <$> wlp_payload_format_indicator p);
     (MESSAGE_EXPIRY_INTERVAL, PInt <$> wlp_message_expiry_interval p);
     (CONTENT_TYPE, PStr <$> wlp_content_type p);
     (RESPONSE_TOPIC, PStr <$> wlp_response_topic p);
     (CORRELATION_DATA, PBytes <$> wlp_correlation_data p)])
    (_up (wlp_user_properties p)).

Definition connack_dict (p : ConnAckProperties) : props :=
  dict_update
    (dict_of_items
    [(SESSION_EXPIRY_INTERVAL, PInt <$> cap_session_expiry_interval p);
     (RECEIVE_MAXIMUM, PInt <$> cap_receive_maximum p);
     (MAXIMUM_QOS, PInt <$> cap_maximum_qos p);
     (RETAIN_AVAILABLE, PBool <$> cap_retain_available p);
     (MAXIMUM_PACKET_SIZE, PInt <$> cap_maximum_packet_size p);
     (ASSIGNED_CLIENT_IDENTIFIER, PStr <$> cap_assigned_client_identifier p);
     (TOPIC_ALIAS_MAXIMUM, PInt <$> cap_topic_alias_maximum p);
     (REASON_STRING, PStr <$> cap_reason_string p);
     (WILDCARD_SUBSCRIPTION_AVAILABLE, PBool <$> cap_wildcard_subscription_available p);
     (SUBSCRIPTION_IDENTIFIER_AVAILABLE, PBool <$> cap_subscription_identifier_available p);
     (SHARED_SUBSCRIPTION_AVAILABLE, PBool <$> cap_shared_subscription_available p);
     (SERVER_KEEP_ALIVE, PInt <$> cap_server_keep_alive p);
     (RESPONSE_INFORMATION, PStr <$> cap_response_information p);
     (SERVER_REFERENCE, PStr <$> cap_server_reference p);
     (AUTHENTICATION_METHOD, PStr <$> cap_authentication_method p);
     (AUTHENTICATION_DATA, PBytes <$> cap_authentication_data p)])
    (_up (cap_user_properties p)).

Definition publish_dict (p : PublishProperties) : props :=
  dict_update
    (dict_of_items
    [(PAYLOAD_FORMAT_INDICATOR, PInt <$> pbp_payload_format_indicator p);
     (MESSAGE_EXPIRY_INTERVAL, PInt <$> pbp_message_expiry_interval p);
     (TOPIC_ALIAS, PInt <$> pbp_topic_alias p);
     (RESPONSE_TOPIC, PStr <$> pbp_response_topic p);
     (CORRELATION_DATA, PBytes <$> pbp_correlation_data p);
     (SUBSCRIPTION_IDENTIFIER, PInt <$> pbp_subscription_identifier p);
     (CONTENT_TYPE, PStr <$> pbp_content_type p)])
    (_up (pbp_user_properties p)).

Definition puback_dict (p : PubAckProperties) : props :=
  let d := match pap_reason_string p with Some v => dict_set [] REASON_STRING (PStr v) | None => [] end in
  dict_update d (_up (pap_user_properties p)).

Definition subscribe_dict (p : SubscribeProperties) : props :=
  let d := match sbp_subscription_identifier p with Some v => dict_set [] SUBSCRIPTION_IDENTIFIER (PInt v) | None => [] end in
  dict_update d (_up (sbp_user_properties p)).

Definition suback_dict (p : SubAckProperties) : props :=
  let d := match sap_reason_string p with Some v => dict_set [] REASON_STRING (PStr v) | None => [] end in
  dict_update d (_up (sap_user_properties p)).

Definition unsubscribe_dict (p : UnsubscribeProperties) : props := _up (usp_user_properties p).

Definition unsuback_dict (p : UnsubAckProperties) : props :=
  let d := match uap_reason_string p with Some v => dict_set [] REASON_STRING (PStr v) | None => [] end in
  dict_update d (_up (uap_user_properties p)).

Definition disconnect_dict (p : DisconnectProperties) : props :=
  dict_update
    (dict_of_items
    [(SESSION_EXPIRY_INTERVAL, PInt <$> dcp_session_expiry_interval p);
     (REASON_STRING, PStr <$> dcp_reason_string p);
     (SERVER_REFERENCE, PStr <$> dcp_server_reference p)])
    (_up (dcp_user_properties p)).

Definition auth_dict (p : AuthProperties) : props :=
  dict_update
    (dict_of_items
    [(AUTHENTICATION_METHOD, PStr <$> aup_authentication_method p);
     (AUTHENTICATION_DATA, PBytes <$> aup_authentication_data p);
     (REASON_STRING, PStr <$> aup_reason_string p)])
    (_up (aup_user_properties p)).

Definition encode_connect_properties (props : option ConnectProperties) : result bytes :=
  encode_record connect_dict props.

Definition encode_will_properties (props : option WillProperties) : result bytes :=
  encode_record will_dict props.

Definition encode_connack_properties (props : option ConnAckProperties) : result bytes :=
  encode_record connack_dict props.

Definition encode_publish_properties (props : option PublishProperties) : result bytes :=
  encode_record publish_dict props.

Definition encode_puback_properties (props : option PubAckProperties) : result bytes :=
  encode_record puback_dict props.

Definition encode_subscribe_properties (props : option SubscribeProperties) : result bytes :=
  encode_record subscribe_dict props.

Definition encode_suback_properties (props : option SubAckProperties) : result bytes :=
  encode_record suback_dict props.

Definition encode_unsubscribe_properties (props : option UnsubscribeProperties) : result bytes :=
  encode_record unsubscribe_dict props.

Definition encode_unsuback_properties (props : option UnsubAckProperties) : result bytes :=
  encode_record unsuback_dict props.

Definition encode_disconnect_properties (props : option DisconnectProperties) : result bytes :=
  encode_record disconnect_dict props.

Definition encode_auth_properties (props : option AuthProperties) : result bytes :=
  encode_record auth_dict props.

(** ** Decoders *)

Definition connect_of_dict (d : props) : ConnectProperties := {|
  cnp_session_expiry_interval := get_int d SESSION_EXPIRY_INTERVAL;
  cnp_receive_maximum := get_int d RECEIVE_MAXIMUM;
  cnp_maximum_packet_size := get_int d MAXIMUM_PACKET_SIZE;
  cnp_topic_alias_maximum := get_int d TOPIC_ALIAS_MAXIMUM;
  cnp_request_response_information := get_bool d REQUEST_RESPONSE_INFORMATION;
  cnp_request_problem_information := get_bool d REQUEST_PROBLEM_INFORMATION;
  cnp_authentication_method := get_str d AUTHENTICATION_METHOD;
  cnp_authentication_data := get_bytes d AUTHENTICATION_DATA;
  cnp_user_properties := _up_tuple d;
|}.

Definition will_of_dict (d : props) : WillProperties := {|
  wlp_will_delay_interval := get_int d WILL_DELAY_INTERVAL;
  wlp_payload_format_indicator := get_int d PAYLOAD_FORMAT_INDICATOR;
  wlp_message_expiry_interval := get_int d MESSAGE_EXPIRY_INTERVAL;
  wlp_content_type := get_str d CONTENT_TYPE;
  wlp_response_topic := get_str d RESPONSE_TOPIC;
  wlp_correlation_data := get_bytes d CORRELATION_DATA;
  wlp_user_properties := _up_tuple d;
|}.

Definition connack_of_dict (d : props) : ConnAckProperties := {|
  cap_session_expiry_interval := get_int d SESSION_EXPIRY_INTERVAL;
  cap_receive_maximum := get_int d RECEIVE_MAXIMUM;
  cap_maximum_qos := get_int d MAXIMUM_QOS;
  cap_retain_available := get_bool d RETAIN_AVAILABLE;
  cap_maximum_packet_size := get_int d MAXIMUM_PACKET_SIZE;
  cap_assigned_client_identifier := get_str d ASSIGNED_CLIENT_IDENTIFIER;
  cap_topic_alias_maximum := get_int d TOPIC_ALIAS_MAXIMUM;
  cap_reason_string := get_str d REASON_STRING;
  cap_wildcard_subscription_available := get_bool d WILDCARD_SUBSCRIPTION_AVAILABLE;
  cap_subscription_identifier_available := get_bool d SUBSCRIPTION_IDENTIFIER_AVAILABLE;
  cap_shared_subscription_available := get_bool d SHARED_SUBSCRIPTION_AVAILABLE;
  cap_server_keep_alive := get_int d SERVER_KEEP_ALIVE;
  cap_response_information := get_str d RESPONSE_INFORMATION;
  cap_server_reference := get_str d SERVER_REFERENCE;
  cap_authentication_method := get_str d AUTHENTICATION_METHOD;
  cap_authentication_data := get_bytes d AUTHENTICATION_DATA;
  cap_user_properties := _up_tuple d;
|}.

Definition publish_of_dict (d : props) : PublishProperties := {|
  pbp_payload_format_indicator := get_int d PAYLOAD_FORMAT_INDICATOR;
  pbp_message_expiry_interval := get_int d MESSAGE_EXPIRY_INTERVAL;
  pbp_topic_alias := get_int d TOPIC_ALIAS;
  pbp_response_topic := get_str d RESPONSE_TOPIC;
  pbp_correlation_data := get_bytes d CORRELATION_DATA;
  pbp_subscription_identifier := get_int d SUBSCRIPTION_IDENTIFIER;
  pbp_content_type := get_str d CONTENT_TYPE;
  pbp_user_properties := _up_tuple d;
|}.

Definition puback_of_dict (d : props) : PubAckProperties := {|
  pap_reason_string := get_str d REASON_STRING;
  pap_user_properties := _up_tuple d;
|}.

Definition subscribe_of_dict (d : props) : SubscribeProperties := {|
  sbp_subscription_identifier := get_int d SUBSCRIPTION_IDENTIFIER;
  sbp_user_properties := _up_tuple d;
|}.

Definition suback_of_dict (d : props) : SubAckProperties := {|
  sap_reason_string := get_str d REASON_STRING;
  sap_user_properties := _up_tuple d;
|}.

Definition unsubscribe_of_dict (d : props) : UnsubscribeProperties := {|
  usp_user_properties := _up_tuple d;
|}.

Definition unsuback_of_dict (d : props) : UnsubAckProperties := {|
  uap_reason_string := get_str d REASON_STRING;
  uap_user_properties := _up_tuple d;
|}.

Definition disconnect_of_dict (d : props) : DisconnectProperties := {|
  dcp_session_expiry_interval := get_int d SESSION_EXPIRY_INTERVAL;
  dcp_reason_string := get_str d REASON_STRING;
  dcp_server_reference := get_str d SERVER_REFERENCE;
  dcp_user_properties := _up_tuple d;
|}.

Definition auth_of_dict (d : props) : AuthProperties := {|
  aup_authentication_method := get_str d AUTHENTICATION_METHOD;
  aup_authentication_data := get_bytes d AUTHENTICATION_DATA;
  aup_reason_string := get_str d REASON_STRING;
  aup_user_properties := _up_tuple d;
|}.

Definition decode_connect_properties (buf : bytes) (offset : Z)
    : result (option ConnectProperties * Z) :=
  decode_record connect_of_dict buf offset.

Definition decode_will_properties (buf : bytes) (offset : Z)
    : result (option WillProperties * Z) :=
  decode_record will_of_dict buf offset.

Definition decode_connack_properties (buf : bytes) (offset : Z)
    : result (option ConnAckProperties * Z) :=
  decode_record connack_of_dict buf offset.

Definition decode_publish_properties (buf : bytes) (offset : Z)
    : result (option PublishProperties * Z) :=
  decode_record publish_of_dict buf offset.

Definition decode_puback_properties (buf : bytes) (offset : Z)
    : result (option PubAckProperties * Z) :=
  decode_record puback_of_dict buf offset.

Definition decode_subscribe_properties (buf : bytes) (offset : Z)
    : result (option SubscribeProperties * Z) :=
  decode_record subscribe_of_dict buf offset.

Definition decode_suback_properties (buf : bytes) (offset : Z)
    : result (option SubAckProperties * Z) :=
  decode_record suback_of_dict buf offset.

Definition decode_unsubscribe_properties (buf : bytes) (offset : Z)
    : result (option UnsubscribeProperties * Z) :=
  decode_record unsubscribe_of_dict buf offset.

Definition decode_unsuback_properties (buf : bytes) (offset : Z)
    : result (option UnsubAckProperties * Z) :=
  decode_record unsuback_of_dict buf offset.

Definition decode_disconnect_properties (buf : bytes) (offset : Z)
    : result (option DisconnectProperties * Z) :=
  decode_record disconnect_of_dict buf offset.

Definition decode_auth_properties (buf : bytes) (offset : Z)
    : result (option AuthProperties * Z) :=
  decode_record auth_of_dict buf offset.

(** ** Dictionaries of items *)

Definition kept (l : items) : props := omap (fun p => (p.1,.) <$> p.2) l.

Lemma kept_keys (l : items) pid : pid ∈ (kept l).*1 -> pid ∈ l.*1.
Proof.
  induction l as [|[k [v|]] l IH]; simpl; [done|..]; intros H.
  - apply elem_of_cons in H as [->|H]; [by left | right; auto].
  - right; auto.
Qed.

Lemma kept_wf (l : items) : NoDup l.*1 -> dict_wf (kept l).
Proof.
  unfold dict_wf. induction l as [|[k [v|]] l IH]; simpl; [constructor|..];
    intros [Hni Hnd]%NoDup_cons; auto.
  apply NoDup_cons. split; [|auto]. contradict Hni. by apply kept_keys.
Qed.

Lemma dict_of_items_kept (l : items) : NoDup l.*1 -> dict_of_items l = kept l.
Proof.
  intros Hnd. unfold dict_of_items.
  enough (forall acc : props, (forall k, k ∈ acc.*1 -> k ∉ l.*1) ->
    foldl (fun d p => match p.2 with Some v => dict_set d p.1 v | None => d end) acc l
      = acc ++ kept l) as H.
  { apply H. intros k Hk. inversion Hk. }
  induction l as [|[k [v|]] l IH]; intros acc Hacc; simpl in *;
    [by rewrite app_nil_r|..]; apply NoDup_cons in Hnd as [Hni Hnd].
  - rewrite dict_set_fresh by (intros Hk; apply (Hacc _ Hk); by left).
    rewrite IH; [by rewrite <- app_assoc|done|].
    intros k' Hk'. rewrite fmap_app, elem_of_app in Hk'. destruct Hk' as [Hk'|Hk'].
    + intros ?. apply (Hacc _ Hk'). by right.
    + apply list_elem_of_singleton in Hk'. by subst.
  - apply IH; [done|]. intros k' Hk' ?. apply (Hacc _ Hk'). by right.
Qed.

Lemma dict_get_kept (l : items) pid : NoDup l.*1 -> dict_get (kept l) pid = mjoin (dict_get l pid).
Proof.
  induction l as [|[k [v|]] l IH]; simpl; [done|..]; intros [Hni Hnd]%NoDup_cons.
  - case_decide; [done|auto].
  - case_decide; [|auto]. subst. apply dict_get_None. intros H. by apply Hni, kept_keys.
Qed.

(** What the encoders build from a list of items and the user properties. *)
Section record_dict.
Context (l : items) (ups : list (str * str)).
Context (Hnd : NoDup (l.*1 ++ [USER_PROPERTY])) (Hpairs : Forall (fun v => v <> Some (PPairs [])) l.*2).

Lemma up_keys k : k ∈ (_up ups).*1 -> k = USER_PROPERTY.
Proof. destruct ups; intros H; [inversion H | by apply list_elem_of_singleton in H]. Qed.

Lemma kept_up_wf : dict_wf (kept l ++ _up ups).
Proof.
  apply NoDup_app in Hnd as (Hl & Hd & _). unfold dict_wf. rewrite fmap_app.
  apply NoDup_app. split; [by apply kept_wf|]. split.
  - intros x Hx ->%up_keys. apply kept_keys in Hx. apply (Hd _ Hx). by left.
  - destruct ups; [constructor | apply NoDup_singleton].
Qed.

Lemma record_dict_app : dict_update (dict_of_items l) (_up ups) = kept l ++ _up ups.
Proof.
  rewrite dict_of_items_kept by (by apply NoDup_app in Hnd as (Hl & _)).
  apply dict_update_fresh, kept_up_wf.
Qed.

Lemma record_dict_ok : dict_ok (dict_update (dict_of_items l) (_up ups)).
Proof.
  rewrite record_dict_app. split; [apply kept_up_wf|]. apply Forall_app. split.
  - clear Hnd. induction l as [|[k [v|]] l' IH]; [constructor|..];
      rewrite fmap_cons, Forall_cons in Hpairs; destruct Hpairs as [Hv Hp]; cbn; [|auto].
    constructor; [|auto]. cbn. intros ->. by apply Hv.
  - destruct ups; repeat constructor. done.
Qed.

Lemma record_dict_get pid :
  dict_get (dict_update (dict_of_items l) (_up ups)) pid =
    match mjoin (dict_get l pid) with
    | Some v => Some v
    | None => dict_get (_up ups) pid
    end.
Proof.
  rewrite record_dict_app, dict_get_app, dict_get_kept; [done|].
  by apply NoDup_app in Hnd as (Hl & _).
Qed.

End record_dict.

(** ** The codec of one record *)

Class RecordCodec {R} (to_dict : R -> props) (of_dict : props -> R) : Prop := {
  to_dict_ok : forall r, dict_ok (to_dict r);
  of_to_dict : forall r, of_dict (norm_dict (to_dict r)) = r;
}.

Lemma dict_ok_nil : dict_ok [].
Proof. split; constructor. Qed.

(** A record whose dictionary is empty is decoded as [None]. *)
Definition canon_record {R} (to_dict : R -> props) (p : option R) : option R :=
  match p with
  | Some r => match to_dict r with [] => None | _ => Some r end
  | None => None
  end.

Theorem decode_encode_record {R} (to_dict : R -> props) (of_dict : props -> R)
    `{!RecordCodec to_dict of_dict} p bs buf pos rest :
  encode_record to_dict p = Ok bs -> at_pos buf pos (bs ++ rest) ->
  decode_record of_dict buf pos = Ok (canon_record to_dict p, zlen bs).
Proof.
  intros H Hat. unfold decode_record. destruct p as [r|]; simpl in *.
  - rewrite (decode_encode_props_block _ _ _ _ _ (to_dict_ok r) H Hat). simpl.
    pose proof (of_to_dict r) as Ho. destruct (to_dict r) as [|[k v] d]; [done|].
    simpl in *. by rewrite Ho.
  - assert (Hb : encode_props_block [] = Ok bs) by done.
    by rewrite (decode_encode_props_block _ _ _ _ _ dict_ok_nil Hb Hat).
Qed.

Lemma encode_record_len {R} (to_dict : R -> props) p bs :
  encode_record to_dict p = Ok bs -> 1 <= zlen bs.
Proof.
  unfold encode_record, encode_props_block. intros H.
  repeat case_match; res_inv;
    repeat match goal with E : encode_varint _ = Ok _ |- _ => apply encode_varint_len in E end;
    zlia.
Qed.

Lemma decode_record_err {R} (of_dict : props -> R) buf pos e :
  0 <= pos -> decode_record of_dict buf pos = Err e -> decode_error e = true.
Proof.
  intros Hp H. unfold decode_record in H. pose proof (decode_props_block_sound buf pos Hp) as HS.
  destruct (decode_props_block buf pos) as [[[|] n]|]; simpl in *; congruence.
Qed.

Lemma decode_record_pos {R} (of_dict : props -> R) buf pos p n :
  0 <= pos -> decode_record of_dict buf pos = Ok (p, n) -> 1 <= n.
Proof.
  intros Hp H. unfold decode_record in H. pose proof (decode_props_block_sound buf pos Hp) as HS.
  destruct (decode_props_block buf pos) as [[[|] n']|]; simpl in *; simplify_eq; tauto.
Qed.

(** ** The eleven instances *)

(** The instances differ in their list of items and their user properties only: the
    dictionary is the dictionary of the items, the keys are distinct, no item is a
    list of pairs, and each field is read back from its item. *)
Ltac solve_field :=
  match goal with |- _ = ?x => destruct x end; try reflexivity;
  match goal with
  | b : bool |- _ => by destruct b
  | ups : list (str * str) |- _ => by destruct ups
  end.

Ltac solve_codec to_items ups :=
  match goal with
  | |- RecordCodec ?to_dict ?of_dict =>
      assert (Hd : forall p, to_dict p = dict_update (dict_of_items (to_items p)) (_up (ups p)))
        by (intros p; unfold to_dict; try reflexivity; destruct p; simpl;
            first [by repeat case_match | by case_match | unfold _up; by case_match]);
      assert (Hk : forall p, NoDup ((to_items p).*1 ++ [USER_PROPERTY]))
        by (intros p; apply (bool_decide_unpack _); vm_compute; exact I);
      assert (Hp : forall p, Forall (fun v => v <> Some (PPairs [])) (to_items p).*2)
        by (intros p; simpl; repeat first [apply Forall_nil_2 | apply Forall_cons_2];
            match goal with |- context [_ <$> ?o] => destruct o end; done);
      split; intros p;
      [ rewrite Hd; exact (record_dict_ok _ (ups p) (Hk p) (Hp p))
      | unfold of_dict, get_int, get_str, get_bytes, get_bool, _up_tuple;
        rewrite !dict_get_norm, Hd, !(record_dict_get _ (ups p) (Hk p));
        destruct p; simpl; f_equal; solve_field ]
  end.
#[export] Instance connect_codec : RecordCodec connect_dict connect_of_dict.
Proof. solve_codec (fun p : ConnectProperties =>
   [(SESSION_EXPIRY_INTERVAL, PInt <$> cnp_session_expiry_interval p);
    (RECEIVE_MAXIMUM, PInt <$> cnp_receive_maximum p);
    (MAXIMUM_PACKET_SIZE, PInt <$> cnp_maximum_packet_size p);
    (TOPIC_ALIAS_MAXIMUM, PInt <$> cnp_topic_alias_maximum p);
    (REQUEST_RESPONSE_INFORMATION, PBool <$> cnp_request_response_information p);
    (REQUEST_PROBLEM_INFORMATION, PBool <$> cnp_request_problem_information p);
    (AUTHENTICATION_METHOD, PStr <$> cnp_authentication_method p);
    (AUTHENTICATION_DATA, PBytes <$> cnp_authentication_data p)] : items)
  cnp_user_properties. Qed.

#[export] Instance will_codec : RecordCodec will_dict will_of_dict.
Proof. solve_codec (fun p : WillProperties =>
   [(WILL_DELAY_INTERVAL, PInt <$> wlp_will_delay_interval p);
    (PAYLOAD_FORMAT_INDICATOR, PInt <$> wlp_payload_format_indicator p);
    (MESSAGE_EXPIRY_INTERVAL, PInt <$> wlp_message_expiry_interval p);
    (CONTENT_TYPE, PStr <$> wlp_content_type p);
    (RESPONSE_TOPIC, PStr <$> wlp_response_topic p);
    (CORRELATION_DATA, PBytes <$> wlp_correlation_data p)] : items)
  wlp_user_properties. Qed.

#[export] Instance connack_codec : RecordCodec connack_dict connack_of_dict.
Proof. solve_codec (fun p : ConnAckProperties =>
   [(SESSION_EXPIRY_INTERVAL, PInt <$> cap_session_expiry_interval p);
    (RECEIVE_MAXIMUM, PInt <$> cap_receive_maximum p);
    (MAXIMUM_QOS, PInt <$> cap_maximum_qos p);
    (RETAIN_AVAILABLE, PBool <$> cap_retain_available p);
    (MAXIMUM_PACKET_SIZE, PInt <$> cap_maximum_packet_size p);
    (ASSIGNED_CLIENT_IDENTIFIER, PStr <$> cap_assigned_client_identifier p);
    (TOPIC_ALIAS_MAXIMUM, PInt <$> cap_topic_alias_maximum p);
    (REASON_STRING, PStr <$> cap_reason_string p);
    (WILDCARD_SUBSCRIPTION_AVAILABLE, PBool <$> cap_wildcard_subscription_available p);
    (SUBSCRIPTION_IDENTIFIER_AVAILABLE, PBool <$> cap_subscription_identifier_available p);
    (SHARED_SUBSCRIPTION_AVAILABLE, PBool <$> cap_shared_subscription_available p);
    (SERVER_KEEP_ALIVE, PInt <$> cap_server_keep_alive p);
    (RESPONSE_INFORMATION, PStr <$> cap_response_information p);
    (SERVER_REFERENCE, PStr <$> cap_server_reference p);
    (AUTHENTICATION_METHOD, PStr <$> cap_authentication_method p);
    (AUTHENTICATION_DATA, PBytes <$> cap_authentication_data p)] : items)
  cap_user_properties. Qed.

#[export] Instance publish_codec : RecordCodec publish_dict publish_of_dict.
Proof. solve_codec (fun p : PublishProperties =>
   [(PAYLOAD_FORMAT_INDICATOR, PInt <$> pbp_payload_format_indicator p);
    (MESSAGE_EXPIRY_INTERVAL, PInt <$> pbp_message_expiry_interval p);
    (TOPIC_ALIAS, PInt <$> pbp_topic_alias p);
    (RESPONSE_TOPIC, PStr <$> pbp_response_topic p);
    (CORRELATION_DATA, PBytes <$> pbp_correlation_data p);
    (SUBSCRIPTION_IDENTIFIER, PInt <$> pbp_subscription_identifier p);
    (CONTENT_TYPE, PStr <$> pbp_content_type p)] : items)
  pbp_user_properties. Qed.

#[export] Instance puback_codec : RecordCodec puback_dict puback_of_dict.
Proof. solve_codec (fun p : PubAckProperties =>
   [(REASON_STRING, PStr <$> pap_reason_string p)] : items)
  pap_user_properties. Qed.

#[export] Instance subscribe_codec : RecordCodec subscribe_dict subscribe_of_dict.
Proof. solve_codec (fun p : SubscribeProperties =>
   [(SUBSCRIPTION_IDENTIFIER, PInt <$> sbp_subscription_identifier p)] : items)
  sbp_user_properties. Qed.

#[export] Instance suback_codec : RecordCodec suback_dict suback_of_dict.
Proof. solve_codec (fun p : SubAckProperties =>
   [(REASON_STRING, PStr <$> sap_reason_string p)] : items)
  sap_user_properties. Qed.

#[export] Instance unsubscribe_codec : RecordCodec unsubscribe_dict unsubscribe_of_dict.
Proof. solve_codec (fun p : UnsubscribeProperties =>
   [] : items)
  usp_user_properties. Qed.

#[export] Instance unsuback_codec : RecordCodec unsuback_dict unsuback_of_dict.
Proof. solve_codec (fun p : UnsubAckProperties =>
   [(REASON_STRING, PStr <$> uap_reason_string p)] : items)
  uap_user_properties. Qed.

#[export] Instance disconnect_codec : RecordCodec disconnect_dict disconnect_of_dict.
Proof. solve_codec (fun p : DisconnectProperties =>
   [(SESSION_EXPIRY_INTERVAL, PInt <$> dcp_session_expiry_interval p);
    (REASON_STRING, PStr <$> dcp_reason_string p);
    (SERVER_REFERENCE, PStr <$> dcp_server_reference p)] : items)
  dcp_user_properties. Qed.

#[export] Instance auth_codec : RecordCodec auth_dict auth_of_dict.
Proof. solve_codec (fun p : AuthProperties =>
   [(AUTHENTICATION_METHOD, PStr <$> aup_authentication_method p);
    (AUTHENTICATION_DATA, PBytes <$> aup_authentication_data p);
    (REASON_STRING, PStr <$> aup_reason_string p)] : items)
  aup_user_properties. Qed.

(** ** Properties *)

(** Each of the eleven property records of MQTT 5.0 survives the wire: the bytes
    of its block are read back, wherever they stand in a buffer, as the same record,
    and a record that holds nothing as no properties at all. *)
Theorem record_roundtrip {R} (to_dict : R -> props) (of_dict : props -> R)
    `{!RecordCodec to_dict of_dict} p bs pre rest :
  encode_record to_dict p = Ok bs ->
  decode_record of_dict (pre ++ bs ++ rest) (zlen pre) = Ok (canon_record to_dict p, zlen bs).
Proof. intros H. apply (decode_encode_record _ _ _ _ _ _ rest H). by exists pre. Qed.

Lemma record_roundtrip_witness :
  decode_publish_properties ([x30] ++ [x09; x23; x00; x07; x26; x00; x01; x6b; x00; x00] ++ [x2a]) 1
  = Ok (Some (mkPublishProperties None None (Some 7) None None None None [(lit "k", [])]), 10).
Proof.
  apply (record_roundtrip publish_dict publish_of_dict
    (Some (mkPublishProperties None None (Some 7) None None None None [(lit "k", [])]))
    [x09; x23; x00; x07; x26; x00; x01; x6b; x00; x00] [x30] [x2a]).
  vm_compute. reflexivity.
Defined.
