(* ===== verification/Packets.v ===== *)
(** * Packet data ([packets/{types,connect,publish,subscribe,ping,auth,disconnect}.py],
    [types/qos.py], [types/retain_handling.py])

    One record per packet dataclass; [packet] is the union [AnyPacket]. *)

From S2P Require Import Prelude PyBytes Utf8 Properties PropertyRecords.
Local Open Scope Z_scope.

Inductive MQTTVersion := V311 | V5.

Inductive QoS := AT_MOST_ONCE | AT_LEAST_ONCE | EXACTLY_ONCE.

Definition qos_value (q : QoS) : Z :=
  match q with AT_MOST_ONCE => 0 | AT_LEAST_ONCE => 1 | EXACTLY_ONCE => 2 end.

(** [QoS(n)] *)
Definition qos_of (n : Z) : result QoS :=
  match n with
  | 0 => Ok AT_MOST_ONCE | 1 => Ok AT_LEAST_ONCE | 2 => Ok EXACTLY_ONCE
  | _ => Err (ValueError "not a valid QoS")
  end.

Inductive RetainHandling := SEND_ON_SUBSCRIBE | SEND_IF_NOT_EXISTS | DO_NOT_SEND.

Definition retain_handling_value (r : RetainHandling) : Z :=
  match r with SEND_ON_SUBSCRIBE => 0 | SEND_IF_NOT_EXISTS => 1 | DO_NOT_SEND => 2 end.

(** [RetainHandling(n)] *)
Definition retain_handling_of (n : Z) : result RetainHandling :=
  match n with
  | 0 => Ok SEND_ON_SUBSCRIBE | 1 => Ok SEND_IF_NOT_EXISTS | 2 => Ok DO_NOT_SEND
  | _ => Err (ValueError "not a valid RetainHandling")
  end.

Inductive PacketType :=
| CONNECT | CONNACK | PUBLISH | PUBACK | PUBREC | PUBREL | PUBCOMP | SUBSCRIBE | SUBACK
| UNSUBSCRIBE | UNSUBACK | PINGREQ | PINGRESP | DISCONNECT | AUTH.

Definition packet_type_value (t : PacketType) : Z :=
  match t with
  | CONNECT => 1 | CONNACK => 2 | PUBLISH => 3 | PUBACK => 4 | PUBREC => 5 | PUBREL => 6
  | PUBCOMP => 7 | SUBSCRIBE => 8 | SUBACK => 9 | UNSUBSCRIBE => 10 | UNSUBACK => 11
  | PINGREQ => 12 | PINGRESP => 13 | DISCONNECT => 14 | AUTH => 15
  end.

(** [PacketType(n)] *)
Definition packet_type_of (n : Z) : result PacketType :=
  match n with
  | 1 => Ok CONNECT | 2 => Ok CONNACK | 3 => Ok PUBLISH | 4 => Ok PUBACK | 5 => Ok PUBREC
  | 6 => Ok PUBREL | 7 => Ok PUBCOMP | 8 => Ok SUBSCRIBE | 9 => Ok SUBACK
  | 10 => Ok UNSUBSCRIBE | 11 => Ok UNSUBACK | 12 => Ok PINGREQ | 13 => Ok PINGRESP
  | 14 => Ok DISCONNECT | 15 => Ok AUTH
  | _ => Err (ValueError "Unknown MQTT packet type")
  end.

Record Will := mkWill {
  will_topic : str;
  will_payload : bytes;
  will_qos : QoS;
  will_retain : bool;
  will_properties : option WillProperties;
}.

Record Connect := mkConnect {
  co_client_id : str;
  co_clean_session : bool;
  co_keepalive : Z;
  co_username : option str;
  co_password : option bytes;
  co_will : option Will;
  co_properties : option ConnectProperties;
}.

Record ConnAck := mkConnAck {
  ca_session_present : bool;
  ca_return_code : Z;
  ca_properties : option ConnAckProperties;
}.

Record Publish := mkPublish {
  pb_topic : str;
  pb_payload : bytes;
  pb_qos : QoS;
  pb_retain : bool;
  pb_dup : bool;
  pb_packet_id : option Z;
  pb_properties : option PublishProperties;
}.

(** PUBACK; the other acknowledgements are equal to it in their fields. *)
Record PubAck := mkPubAck {
  pa_packet_id : Z;
  pa_reason_code : Z;
  pa_properties : option PubAckProperties;
}.

(** The constructors of [packet] keep the four apart. *)
Definition PubRec : Type := PubAck.

Definition PubRel : Type := PubAck.

Definition PubComp : Type := PubAck.

Record SubscriptionRequest := mkSubscriptionRequest {
  sr_topic_filter : str;
  sr_qos : QoS;
  sr_no_local : bool;
  sr_retain_as_published : bool;
  sr_retain_handling : RetainHandling;
}.

Record Subscribe := mkSubscribe {
  sb_packet_id : Z;
  sb_subscriptions : list SubscriptionRequest;
  sb_properties : option SubscribeProperties;
}.

Record SubAck := mkSubAck {
  sa_packet_id : Z;
  sa_return_codes : list Z;
  sa_properties : option SubAckProperties;
}.

Record Unsubscribe := mkUnsubscribe {
  us_packet_id : Z;
  us_topic_filters : list str;
  us_properties : option UnsubscribeProperties;
}.

Record UnsubAck := mkUnsubAck {
  ua_packet_id : Z;
  ua_reason_codes : list Z;
  ua_properties : option UnsubAckProperties;
}.

Record Disconnect := mkDisconnect {
  dc_reason_code : Z;
  dc_properties : option DisconnectProperties;
}.

Record Auth := mkAuth {
  au_reason_code : Z;
  au_properties : option AuthProperties;
}.

Inductive packet :=
| PConnect (p : Connect)
| PConnAck (p : ConnAck)
| PPublish (p : Publish)
| PPubAck (p : PubAck)
| PPubRec (p : PubRec)
| PPubRel (p : PubRel)
| PPubComp (p : PubComp)
| PSubscribe (p : Subscribe)
| PSubAck (p : SubAck)
| PUnsubscribe (p : Unsubscribe)
| PUnsubAck (p : UnsubAck)
| PPingReq
| PPingResp
| PDisconnect (p : Disconnect)
| PAuth (p : Auth).

Definition type_of_packet (p : packet) : PacketType :=
  match p with
  | PConnect _ => CONNECT | PConnAck _ => CONNACK | PPublish _ => PUBLISH
  | PPubAck _ => PUBACK | PPubRec _ => PUBREC | PPubRel _ => PUBREL | PPubComp _ => PUBCOMP
  | PSubscribe _ => SUBSCRIBE | PSubAck _ => SUBACK | PUnsubscribe _ => UNSUBSCRIBE
  | PUnsubAck _ => UNSUBACK | PPingReq => PINGREQ | PPingResp => PINGRESP
  | PDisconnect _ => DISCONNECT | PAuth _ => AUTH
  end.

(** ** Decidable equality *)

#[export] Instance MQTTVersion_eq_dec : EqDecision MQTTVersion.
Proof. solve_decision. Defined.
#[export] Instance QoS_eq_dec : EqDecision QoS.
Proof. solve_decision. Defined.
#[export] Instance RetainHandling_eq_dec : EqDecision RetainHandling.
Proof. solve_decision. Defined.
#[export] Instance PacketType_eq_dec : EqDecision PacketType.
Proof. solve_decision. Defined.
#[export] Instance Will_eq_dec : EqDecision Will.
Proof. solve_decision. Defined.
#[export] Instance Connect_eq_dec : EqDecision Connect.
Proof. solve_decision. Defined.
#[export] Instance ConnAck_eq_dec : EqDecision ConnAck.
Proof. solve_decision. Defined.
#[export] Instance Publish_eq_dec : EqDecision Publish.
Proof. solve_decision. Defined.
#[export] Instance PubAck_eq_dec : EqDecision PubAck.
Proof. solve_decision. Defined.
#[export] Instance SubscriptionRequest_eq_dec : EqDecision SubscriptionRequest.
Proof. solve_decision. Defined.
#[export] Instance Subscribe_eq_dec : EqDecision Subscribe.
Proof. solve_decision. Defined.
#[export] Instance SubAck_eq_dec : EqDecision SubAck.
Proof. solve_decision. Defined.
#[export] Instance Unsubscribe_eq_dec : EqDecision Unsubscribe.
Proof. solve_decision. Defined.
#[export] Instance UnsubAck_eq_dec : EqDecision UnsubAck.
Proof. solve_decision. Defined.
#[export] Instance Disconnect_eq_dec : EqDecision Disconnect.
Proof. solve_decision. Defined.
#[export] Instance Auth_eq_dec : EqDecision Auth.
Proof. solve_decision. Defined.
#[export] Instance packet_eq_dec : EqDecision packet.
Proof. solve_decision. Defined.

(** ** Enumerations and their integers *)

Lemma qos_of_value q : qos_of (qos_value q) = Ok q.
Proof. by destruct q. Qed.

Lemma qos_of_Ok n q : qos_of n = Ok q <-> n = qos_value q.
Proof.
  split; [|intros ->; apply qos_of_value]. unfold qos_of. intros H. res_inv; done.
Qed.

Lemma retain_handling_of_value r : retain_handling_of (retain_handling_value r) = Ok r.
Proof. by destruct r. Qed.

Lemma packet_type_of_value t : packet_type_of (packet_type_value t) = Ok t.
Proof. by destruct t. Qed.

Lemma packet_type_of_Ok n t : packet_type_of n = Ok t -> n = packet_type_value t.
Proof. unfold packet_type_of. intros H. by res_inv. Qed.
