(* ===== verification/Codec.v ===== *)
(** * The packet codec ([packets/codec.py])

    [encode] and [decode] for all fifteen packet types in both protocol versions,
    function by function.  [Err] is the exception the Python function raises;
    [decode] returns [Ok None] when the buffer does not hold a complete packet. *)

From S2P Require Import Prelude PyBytes Utf8 PyDict Wire Properties PropertyRecords Packets.
Local Open Scope Z_scope.

(** [bool(n)] of an integer *)
Definition z2bool (n : Z) : bool := negb (n =? 0).

Definition is_v5 (v : MQTTVersion) : bool := match v with V5 => true | V311 => false end.

(** ** Encoding *)

Definition _build_packet (packet_type : PacketType) (flags : Z) (body : bytes) : result bytes :=
  let first_byte := Z.lor (Z.shiftl (packet_type_value packet_type) 4) (Z.land flags 0x0F) in
  b ← z2b first_byte;
  len ← encode_varint (zlen body);
  Ok ([b] ++ len ++ body).

Definition _packet_id_only (packet_type : PacketType) (flags packet_id : Z) : result bytes :=
  pid ← pack_H packet_id; _build_packet packet_type flags pid.

Definition connect_flags (p : Connect) : Z :=
  let flags := 0 in
  let flags := if co_clean_session p then Z.lor flags 0x02 else flags in
  let flags :=
    match co_will p with
    | Some w =>
        let flags := Z.lor flags 0x04 in
        let flags := Z.lor flags (Z.shiftl (qos_value (will_qos w)) 3) in
        if will_retain w then Z.lor flags 0x20 else flags
    | None => flags
    end in
  let flags := match co_username p with Some _ => Z.lor flags 0x80 | None => flags end in
  match co_password p with Some _ => Z.lor flags 0x40 | None => flags end.

Definition _encode_connect (p : Connect) (version : MQTTVersion) : result bytes :=
  let flags := connect_flags p in
  let proto_level := if is_v5 version then 0x05 else 0x04 in
  name ← encode_str (lit "MQTT");
  lf ← py_bytes [proto_level; flags];
  ka ← pack_H (co_keepalive p);
  cprops ← (if is_v5 version then encode_connect_properties (co_properties p) else Ok []);
  client ← encode_str (co_client_id p);
  will ← match co_will p with
         | Some w =>
             wprops ← (if is_v5 version then encode_will_properties (will_properties w) else Ok []);
             t ← encode_str (will_topic w);
             d ← encode_bytes_field (will_payload w);
             Ok (wprops ++ t ++ d)
         | None => Ok []
         end;
  user ← match co_username p with Some u => encode_str u | None => Ok [] end;
  pass ← match co_password p with Some d => encode_bytes_field d | None => Ok [] end;
  _build_packet CONNECT 0 (name ++ lf ++ ka ++ cprops ++ client ++ will ++ user ++ pass).

Definition _encode_connack (p : ConnAck) (version : MQTTVersion) : result bytes :=
  let sp := if ca_session_present p then 0x01 else 0x00 in
  body ← py_bytes [sp; ca_return_code p];
  cprops ← (if is_v5 version then encode_connack_properties (ca_properties p) else Ok []);
  _build_packet CONNACK 0 (body ++ cprops).

Definition publish_flags (p : Publish) : Z :=
  Z.lor (Z.lor (Z.shiftl (Z.b2z (pb_dup p)) 3) (Z.shiftl (qos_value (pb_qos p)) 1))
    (Z.b2z (pb_retain p)).

Definition _encode_publish (p : Publish) (version : MQTTVersion) : result bytes :=
  let flags := publish_flags p in
  topic ← encode_str (pb_topic p);
  pid ← (if bool_decide (pb_qos p <> AT_MOST_ONCE) then
           match pb_packet_id p with
           | None => Err (ValueError "Cannot publish without packet id")
           | Some i => pack_H i
           end
         else Ok []);
  pprops ← (if is_v5 version then encode_publish_properties (pb_properties p) else Ok []);
  _build_packet PUBLISH flags (topic ++ pid ++ pprops ++ pb_payload p).

Definition _encode_pub_ack_variant (packet_type : PacketType) (flags : Z) (p : PubAck)
    (version : MQTTVersion) : result bytes :=
  if is_v5 version && (negb (pa_reason_code p =? 0) || bool_decide (pa_properties p <> None))
  then
    pid ← pack_H (pa_packet_id p);
    rc ← pack_B (pa_reason_code p);
    pprops ← encode_puback_properties (pa_properties p);
    _build_packet packet_type flags (pid ++ rc ++ pprops)
  else _packet_id_only packet_type flags (pa_packet_id p).

(** The options byte of one subscription *)
Definition subscription_options (s : SubscriptionRequest) (version : MQTTVersion) : Z :=
  if is_v5 version then
    Z.lor (Z.lor (Z.lor (qos_value (sr_qos s)) (Z.shiftl (Z.b2z (sr_no_local s)) 2))
             (Z.shiftl (Z.b2z (sr_retain_as_published s)) 3))
      (Z.shiftl (retain_handling_value (sr_retain_handling s)) 4)
  else qos_value (sr_qos s).

Fixpoint encode_subscriptions (l : list SubscriptionRequest) (version : MQTTVersion)
    : result bytes :=
  match l with
  | [] => Ok []
  | s :: l' =>
      t ← encode_str (sr_topic_filter s);
      o ← z2b (subscription_options s version);
      rest ← encode_subscriptions l' version;
      Ok (t ++ [o] ++ rest)
  end.

Definition _encode_subscribe (p : Subscribe) (version : MQTTVersion) : result bytes :=
  pid ← pack_H (sb_packet_id p);
  sprops ← (if is_v5 version then encode_subscribe_properties (sb_properties p) else Ok []);
  subs ← encode_subscriptions (sb_subscriptions p) version;
  _build_packet SUBSCRIBE 2 (pid ++ sprops ++ subs).

Definition _encode_suback (p : SubAck) (version : MQTTVersion) : result bytes :=
  pid ← pack_H (sa_packet_id p);
  sprops ← (if is_v5 version then encode_suback_properties (sa_properties p) else Ok []);
  codes ← py_bytes (sa_return_codes p);
  _build_packet SUBACK 0 (pid ++ sprops ++ codes).

Fixpoint encode_topics (l : list str) : result bytes :=
  match l with
  | [] => Ok []
  | t :: l' => b ← encode_str t; rest ← encode_topics l'; Ok (b ++ rest)
  end.

Definition _encode_unsubscribe (p : Unsubscribe) (version : MQTTVersion) : result bytes :=
  pid ← pack_H (us_packet_id p);
  uprops ← (if is_v5 version then encode_unsubscribe_properties (us_properties p) else Ok []);
  topics ← encode_topics (us_topic_filters p);
  _build_packet UNSUBSCRIBE 2 (pid ++ uprops ++ topics).

Definition _encode_unsuback (p : UnsubAck) (version : MQTTVersion) : result bytes :=
  if is_v5 version then
    pid ← pack_H (ua_packet_id p);
    uprops ← encode_unsuback_properties (ua_properties p);
    codes ← py_bytes (ua_reason_codes p);
    _build_packet UNSUBACK 0 (pid ++ uprops ++ codes)
  else _packet_id_only UNSUBACK 0 (ua_packet_id p).

Definition _encode_disconnect (p : Disconnect) (version : MQTTVersion) : result bytes :=
  if is_v5 version && (negb (dc_reason_code p =? 0) || bool_decide (dc_properties p <> None))
  then
    rc ← py_bytes [dc_reason_code p];
    dprops ← encode_disconnect_properties (dc_properties p);
    _build_packet DISCONNECT 0 (rc ++ dprops)
  else _build_packet DISCONNECT 0 [].

Definition encode (p : packet) (version : MQTTVersion) : result bytes :=
  match p with
  | PConnect p => _encode_connect p version
  | PConnAck p => _encode_connack p version
  | PPublish p => _encode_publish p version
  | PPubAck p => _encode_pub_ack_variant PUBACK 0 p version
  | PPubRec p => _encode_pub_ack_variant PUBREC 0 p version
  | PPubRel p => _encode_pub_ack_variant PUBREL 2 p version
  | PPubComp p => _encode_pub_ack_variant PUBCOMP 0 p version
  | PSubscribe p => _encode_subscribe p version
  | PSubAck p => _encode_suback p version
  | PUnsubscribe p => _encode_unsubscribe p version
  | PUnsubAck p => _encode_unsuback p version
  | PPingReq => _build_packet PINGREQ 0 []
  | PPingResp => _build_packet PINGRESP 0 []
  | PDisconnect p => _encode_disconnect p version
  | PAuth p =>
      rc ← py_bytes [au_reason_code p];
      aprops ← encode_auth_properties (au_properties p);
      _build_packet AUTH 0 (rc ++ aprops)
  end.

(** ** Decoding *)

Definition _decode_connect (buf : bytes) : result Connect :=
  '(proto_name, pos) ← decode_str buf 0;
  if bool_decide (proto_name <> lit "MQTT") then Err (ValueError "Invalid protocol name")
  else
    proto_level ← buf_get buf pos;
    if negb (b2z proto_level =? 4) && negb (b2z proto_level =? 5)
    then Err (ValueError "Unsupported protocol level")
    else
      let ver := if b2z proto_level =? 5 then V5 else V311 in
      let pos := pos + 1 in
      flags ← buf_get buf pos;
      let flags := b2z flags in
      let pos := pos + 1 in
      let clean_session := z2bool (Z.land flags 0x02) in
      let will_flag := z2bool (Z.land flags 0x04) in
      will_qos ← qos_of (Z.land (Z.shiftr flags 3) 0x03);
      let will_retain := z2bool (Z.land flags 0x20) in
      let username_flag := z2bool (Z.land flags 0x80) in
      let password_flag := z2bool (Z.land flags 0x40) in
      keepalive ← unpack_H buf pos;
      let pos := pos + 2 in
      '(connect_props, pos) ←
        (if is_v5 ver then '(p, n) ← decode_connect_properties buf pos; Ok (p, pos + n)
         else Ok (None, pos));
      '(client_id, n) ← decode_str buf pos;
      let pos := pos + n in
      '(will, pos) ←
        (if will_flag then
           '(will_props, pos) ←
             (if is_v5 ver then '(p, n) ← decode_will_properties buf pos; Ok (p, pos + n)
              else Ok (None, pos));
           '(topic, n) ← decode_str buf pos;
           let pos := pos + n in
           '(payload, n) ← decode_bytes_field buf pos;
           let pos := pos + n in
           Ok (Some (mkWill topic payload will_qos will_retain will_props), pos)
         else Ok (None, pos));
      '(username, pos) ←
        (if username_flag then '(u, n) ← decode_str buf pos; Ok (Some u, pos + n)
         else Ok (None, pos));
      '(password, pos) ←
        (if password_flag then '(d, n) ← decode_bytes_field buf pos; Ok (Some d, pos + n)
         else Ok (None, pos));
      Ok (mkConnect client_id clean_session keepalive username password will connect_props).

Definition _decode_connack (buf : bytes) (version : MQTTVersion) : result ConnAck :=
  if zlen buf <? 2 then Err (ValueError "CONNACK too short")
  else
    b0 ← buf_get buf 0;
    b1 ← buf_get buf 1;
    let session_present := z2bool (Z.land (b2z b0) 0x01) in
    let return_code := b2z b1 in
    cprops ← (if is_v5 version && (2 <? zlen buf)
              then '(p, _) ← decode_connack_properties buf 2; Ok p
              else Ok None);
    Ok (mkConnAck session_present return_code cprops).

Definition _decode_publish (buf : bytes) (flags : Z) (version : MQTTVersion) : result Publish :=
  let dup := z2bool (Z.land flags 0x08) in
  qos ← qos_of (Z.land (Z.shiftr flags 1) 0x03);
  let retain := z2bool (Z.land flags 0x01) in
  '(topic, pos) ← decode_str buf 0;
  '(packet_id, pos) ←
    (if bool_decide (qos <> AT_MOST_ONCE) then
       if zlen buf <? pos + 2 then Err (ValueError "PUBLISH too short for packet ID")
       else i ← unpack_H buf pos; Ok (Some i, pos + 2)
     else Ok (None, pos));
  '(pprops, pos) ←
    (if is_v5 version then '(p, n) ← decode_publish_properties buf pos; Ok (p, pos + n)
     else Ok (None, pos));
  Ok (mkPublish topic (slice_from buf pos) qos retain dup packet_id pprops).

Definition _decode_pub_ack_variant (buf : bytes) (version : MQTTVersion) : result PubAck :=
  if zlen buf <? 2 then Err (ValueError "Packet too short for packet ID")
  else
    packet_id ← unpack_H buf 0;
    if is_v5 version && (2 <? zlen buf) then
      reason_code ← buf_get buf 2;
      aprops ← (if 3 <? zlen buf then '(p, _) ← decode_puback_properties buf 3; Ok p
                else Ok None);
      Ok (mkPubAck packet_id (b2z reason_code) aprops)
    else Ok (mkPubAck packet_id 0 None).

(** The [while pos < len(buf)] loop of [_decode_subscribe] *)
Fixpoint decode_subscriptions (fuel : nat) (buf : bytes) (pos : Z) (version : MQTTVersion)
    : result (list SubscriptionRequest) :=
  if zlen buf <=? pos then Ok []
  else match fuel with
  | O => Err NonTermination
  | S fuel' =>
      '(topic_filter, n) ← decode_str buf pos;
      let pos := pos + n in
      if zlen buf <=? pos then Err (ValueError "SUBSCRIBE missing options byte")
      else
        options ← buf_get buf pos;
        let options := b2z options in
        let pos := pos + 1 in
        qos ← qos_of (Z.land options 0x03);
        s ← (if is_v5 version then
               let no_local := z2bool (Z.land options 0x04) in
               let retain_as_published := z2bool (Z.land options 0x08) in
               retain_handling ← retain_handling_of (Z.land (Z.shiftr options 4) 0x03);
               Ok (mkSubscriptionRequest topic_filter qos no_local retain_as_published
                     retain_handling)
             else Ok (mkSubscriptionRequest topic_filter qos false false SEND_ON_SUBSCRIBE));
        rest ← decode_subscriptions fuel' buf pos version;
        Ok (s :: rest)
  end.

Definition _decode_subscribe (buf : bytes) (version : MQTTVersion) : result Subscribe :=
  if zlen buf <? 2 then Err (ValueError "SUBSCRIBE too short")
  else
    packet_id ← unpack_H buf 0;
    let pos := 2 in
    '(sprops, pos) ←
      (if is_v5 version then '(p, n) ← decode_subscribe_properties buf pos; Ok (p, pos + n)
       else Ok (None, pos));
    subscriptions ← decode_subscriptions (length buf) buf pos version;
    Ok (mkSubscribe packet_id subscriptions sprops).

Definition _decode_suback (buf : bytes) (version : MQTTVersion) : result SubAck :=
  if zlen buf <? 2 then Err (ValueError "SUBACK too short")
  else
    packet_id ← unpack_H buf 0;
    let pos := 2 in
    '(sprops, pos) ←
      (if is_v5 version then '(p, n) ← decode_suback_properties buf pos; Ok (p, pos + n)
       else Ok (None, pos));
    Ok (mkSubAck packet_id (b2z <$> slice_from buf pos) sprops).

(** The [while pos < len(buf)] loop of [_decode_unsubscribe] *)
Fixpoint decode_topics (fuel : nat) (buf : bytes) (pos : Z) : result (list str) :=
  if zlen buf <=? pos then Ok []
  else match fuel with
  | O => Err NonTermination
  | S fuel' =>
      '(topic_filter, n) ← decode_str buf pos;
      rest ← decode_topics fuel' buf (pos + n);
      Ok (topic_filter :: rest)
  end.

Definition _decode_unsubscribe (buf : bytes) (version : MQTTVersion) : result Unsubscribe :=
  if zlen buf <? 2 then Err (ValueError "UNSUBSCRIBE too short")
  else
    packet_id ← unpack_H buf 0;
    let pos := 2 in
    '(uprops, pos) ←
      (if is_v5 version then '(p, n) ← decode_unsubscribe_properties buf pos; Ok (p, pos + n)
       else Ok (None, pos));
    topic_filters ← decode_topics (length buf) buf pos;
    Ok (mkUnsubscribe packet_id topic_filters uprops).

Definition _decode_unsuback (buf : bytes) (version : MQTTVersion) : result UnsubAck :=
  if zlen buf <? 2 then Err (ValueError "UNSUBACK too short")
  else
    packet_id ← unpack_H buf 0;
    if is_v5 version then
      let pos := 2 in
      '(uprops, n) ← decode_unsuback_properties buf pos;
      let pos := pos + n in
      Ok (mkUnsubAck packet_id (b2z <$> slice_from buf pos) uprops)
    else Ok (mkUnsubAck packet_id [] None).

Definition _decode_disconnect (buf : bytes) (version : MQTTVersion) : result Disconnect :=
  if is_v5 version && (1 <=? zlen buf) then
    reason_code ← buf_get buf 0;
    dprops ← (if 1 <? zlen buf then '(p, _) ← decode_disconnect_properties buf 1; Ok p
              else Ok None);
    Ok (mkDisconnect (b2z reason_code) dprops)
  else Ok (mkDisconnect 0 None).

(** The AUTH case of [decode] *)
Definition decode_auth (body : bytes) : result Auth :=
  if zlen body <? 1 then Err (ValueError "AUTH too short")
  else
    auth_rc ← buf_get body 0;
    auth_props ← (if 1 <? zlen body then '(p, _) ← decode_auth_properties body 1; Ok p
                  else Ok None);
    Ok (mkAuth (b2z auth_rc) auth_props).

(** The [match packet_type] of [decode] *)
Definition decode_body (packet_type : PacketType) (flags : Z) (body : bytes)
    (version : MQTTVersion) : result packet :=
  match packet_type with
  | CONNECT => PConnect <$> _decode_connect body
  | CONNACK => PConnAck <$> _decode_connack body version
  | PUBLISH => PPublish <$> _decode_publish body flags version
  | PUBACK => PPubAck <$> _decode_pub_ack_variant body version
  | PUBREC => PPubRec <$> _decode_pub_ack_variant body version
  | PUBREL => PPubRel <$> _decode_pub_ack_variant body version
  | PUBCOMP => PPubComp <$> _decode_pub_ack_variant body version
  | SUBSCRIBE => PSubscribe <$> _decode_subscribe body version
  | SUBACK => PSubAck <$> _decode_suback body version
  | UNSUBSCRIBE => PUnsubscribe <$> _decode_unsubscribe body version
  | UNSUBACK => PUnsubAck <$> _decode_unsuback body version
  | PINGREQ => Ok PPingReq
  | PINGRESP => Ok PPingResp
  | DISCONNECT => PDisconnect <$> _decode_disconnect body version
  | AUTH => PAuth <$> decode_auth body
  end.

(** The inline remaining-length loop: [Ok None] when the fixed header is not
    complete, else the remaining length and the number of its bytes. *)
Fixpoint decode_header_loop (n : nat) (buffer : bytes) (i remaining_length multiplier : Z)
    : result (option (Z * Z)) :=
  match n with
  | O => Err (ValueError "Remaining-length varint exceeds 4 bytes")
  | S n' =>
      if zlen buffer <=? 1 + i then Ok None
      else
        byte ← buf_get buffer (1 + i);
        let remaining_length := remaining_length + Z.land (b2z byte) 0x7F * multiplier in
        if Z.land (b2z byte) 0x80 =? 0 then Ok (Some (remaining_length, i + 1))
        else decode_header_loop n' buffer (i + 1) remaining_length (multiplier * 128)
  end.

Definition decode (buffer : bytes) (version : MQTTVersion) : result (option (packet * Z)) :=
  if zlen buffer <? 2 then Ok None
  else
    first_byte ← buf_get buffer 0;
    let packet_type_val := Z.land (Z.shiftr (b2z first_byte) 4) 0x0F in
    let flags := Z.land (b2z first_byte) 0x0F in
    header ← decode_header_loop 4 buffer 0 0 1;
    match header with
    | None => Ok None
    | Some (remaining_length, varint_bytes) =>
        let total := 1 + varint_bytes + remaining_length in
        if zlen buffer <? total then Ok None
        else
          packet_type ← packet_type_of packet_type_val;
          let body := slice buffer (1 + varint_bytes) total in
          p ← decode_body packet_type flags body version;
          Ok (Some (p, total))
    end.

(** ** Concrete packets *)

Example encode_ping : encode PPingReq V311 = Ok [xc0; x00].
Proof. reflexivity. Qed.
