(* ===== verification/CodecFacts.v ===== *)
(** * Correctness of the packet codec

    Round trip of every packet type, framing, prefix stability, and the exceptions
    decoding can raise. *)

From S2P Require Import Prelude PyBytes Utf8 PyDict Wire Properties PropertyRecords Packets Codec.
Local Open Scope Z_scope.

(** ** What survives a trip over the wire *)

Definition canon_props {R} (v : MQTTVersion) (to_dict : R -> props) (p : option R) : option R :=
  if is_v5 v then canon_record to_dict p else None.

Definition canon_will (v : MQTTVersion) (w : Will) : Will :=
  mkWill (will_topic w) (will_payload w) (will_qos w) (will_retain w)
    (canon_props v will_dict (will_properties w)).

Definition canon_connect (v : MQTTVersion) (p : Connect) : Connect :=
  mkConnect (co_client_id p) (co_clean_session p) (co_keepalive p) (co_username p)
    (co_password p) (canon_will v <$> co_will p) (canon_props v connect_dict (co_properties p)).

Definition canon_puback (v : MQTTVersion) (p : PubAck) : PubAck :=
  mkPubAck (pa_packet_id p) (if is_v5 v then pa_reason_code p else 0)
    (canon_props v puback_dict (pa_properties p)).

Definition canon_request (v : MQTTVersion) (s : SubscriptionRequest) : SubscriptionRequest :=
  if is_v5 v then s
  else mkSubscriptionRequest (sr_topic_filter s) (sr_qos s) false false SEND_ON_SUBSCRIBE.

(** The packet a peer decodes: MQTT 3.1.1 carries no properties, reason codes or
    v5 subscription options; a QoS 0 PUBLISH carries no packet identifier; and
    properties that hold nothing are not distinguished from no properties. *)
Definition canon (v : MQTTVersion) (p : packet) : packet :=
  match p with
  | PConnect c => PConnect (canon_connect v c)
  | PConnAck c => PConnAck (mkConnAck (ca_session_present c) (ca_return_code c)
                              (canon_props v connack_dict (ca_properties c)))
  | PPublish m => PPublish (mkPublish (pb_topic m) (pb_payload m) (pb_qos m) (pb_retain m)
                     (pb_dup m) (if bool_decide (pb_qos m <> AT_MOST_ONCE)
                                 then pb_packet_id m else None)
                     (canon_props v publish_dict (pb_properties m)))
  | PPubAck a => PPubAck (canon_puback v a)
  | PPubRec a => PPubRec (canon_puback v a)
  | PPubRel a => PPubRel (canon_puback v a)
  | PPubComp a => PPubComp (canon_puback v a)
  | PSubscribe s => PSubscribe (mkSubscribe (sb_packet_id s)
                       (canon_request v <$> sb_subscriptions s)
                       (canon_props v subscribe_dict (sb_properties s)))
  | PSubAck s => PSubAck (mkSubAck (sa_packet_id s) (sa_return_codes s)
                    (canon_props v suback_dict (sa_properties s)))
  | PUnsubscribe u => PUnsubscribe (mkUnsubscribe (us_packet_id u) (us_topic_filters u)
                         (canon_props v unsubscribe_dict (us_properties u)))
  | PUnsubAck u => PUnsubAck (mkUnsubAck (ua_packet_id u)
                      (if is_v5 v then ua_reason_codes u else [])
                      (canon_props v unsuback_dict (ua_properties u)))
  | PPingReq => PPingReq
  | PPingResp => PPingResp
  | PDisconnect d => PDisconnect (mkDisconnect (if is_v5 v then dc_reason_code d else 0)
                        (canon_props v disconnect_dict (dc_properties d)))
  | PAuth a => PAuth (mkAuth (au_reason_code a) (canon_record auth_dict (au_properties a)))
  end.

(** ** The fixed header *)

Definition header_byte (t : PacketType) (flags : Z) : Z := packet_type_value t * 16 + flags.

Lemma header_byte_spec t flags :
  0 <= flags <= 15 ->
  let n := Z.lor (Z.shiftl (packet_type_value t) 4) (Z.land flags 0x0F) in
  n = header_byte t flags /\ 0 <= n <= 255 /\
  Z.land (Z.shiftr n 4) 0x0F = packet_type_value t /\ Z.land n 0x0F = flags.
Proof.
  intros Hf. assert (Hc : exists k : nat, (k < 16)%nat /\ flags = Z.of_nat k)
    by (exists (Z.to_nat flags); lia).
  destruct Hc as (k & Hk & ->).
  do 16 (destruct k as [|k]; [destruct t; vm_compute; repeat split; congruence|]). lia.
Qed.

(** The inline loop reads what [encode_varint] wrote. *)
Lemma decode_header_loop_varint n buf i acc m v k :
  decode_varint_loop n buf 1 i m acc = Ok (v, k) ->
  decode_header_loop n buf i acc m = Ok (Some (v, k)).
Proof.
  revert i acc m; induction n as [|n IH]; intros i acc m H; simpl in *; [done|].
  destruct (zlen buf <=? 1 + i); [done|].
  destruct (buf_get buf (1 + i)) as [b|]; simpl in *; [|done].
  destruct (Z.land (b2z b) 128 =? 0); [by simplify_eq | by apply IH].
Qed.

Lemma build_packet_inv t flags body bs :
  0 <= flags <= 15 -> _build_packet t flags body = Ok bs ->
  exists len, encode_varint (zlen body) = Ok len /\
    bs = byte_of (header_byte t flags) :: len ++ body.
Proof.
  intros Hf H. unfold _build_packet in H.
  destruct (header_byte_spec t flags Hf) as (Hn & Hr & _). rewrite Hn in *.
  rewrite (proj2 (z2b_Ok _ _) (conj Hr eq_refl)) in H. simpl in H. res_inv. by exists v.
Qed.

(** Framing: a built packet is decoded by its body, whatever follows it. *)
Lemma decode_build t flags body bs rest v p :
  0 <= flags <= 15 -> _build_packet t flags body = Ok bs ->
  decode_body t flags body v = Ok p ->
  decode (bs ++ rest) v = Ok (Some (p, zlen bs)).
Proof.
  intros Hf H Hp. destruct (build_packet_inv _ _ _ _ Hf H) as (len & Hlen & ->).
  destruct (header_byte_spec t flags Hf) as (Hn & Hr & Hty & Hfl). rewrite Hn in *.
  set (b := byte_of (header_byte t flags)). set (buf := (b :: len ++ body) ++ rest).
  assert (Hat : at_pos buf 0 (b :: len ++ (body ++ rest)))
    by (unfold buf; simpl; rewrite <- app_assoc; apply at_pos_0).
  pose proof (encode_varint_len _ _ Hlen). pose proof (at_pos_len _ _ _ Hat).
  assert (Hb : b2z b = header_byte t flags) by (by apply b2z_byte_of).
  unfold decode. fold buf.
  replace (zlen buf <? 2) with false by zlia.
  rewrite (at_pos_get _ _ _ _ Hat). cbn [mbind result_bind]. rewrite Hb, Hty, Hfl.
  apply at_pos_cons in Hat. change (0 + 1) with 1 in Hat.
  assert (Hv : decode_varint buf 1 = Ok (zlen body, zlen len))
    by (by eapply decode_encode_varint).
  rewrite (decode_header_loop_varint _ _ _ _ _ _ _ Hv). cbn [mbind result_bind].
  replace (zlen buf <? 1 + zlen len + zlen body) with false by zlia.
  apply at_pos_app in Hat. rewrite (at_pos_slice _ _ _ _ Hat), packet_type_of_value.
  cbn [mbind result_bind]. rewrite Hp. cbn. do 3 f_equal. zlia.
Qed.

(** ** Packet bodies *)

(** Positions in the form the decoders compute them. *)
Ltac norm_pos H :=
  rewrite ?Z.add_0_l in H; change (0 + 1) with 1 in H; change (1 + 1) with 2 in H;
  change (2 + 1) with 3 in H.

(** One read: the bytes at the current position were written by the encoder [E]. *)
Ltac read_step :=
  match goal with
  | E : encode_str _ = Ok ?x, H : at_pos ?buf ?pos (?x ++ _) |- context [decode_str ?buf ?pos] =>
      rewrite (decode_encode_str _ _ _ _ _ E H); apply at_pos_app in H; norm_pos H
  | E : encode_bytes_field _ = Ok ?x, H : at_pos ?buf ?pos (?x ++ _)
      |- context [decode_bytes_field ?buf ?pos] =>
      rewrite (decode_encode_bytes_field _ _ _ _ _ E H); apply at_pos_app in H; norm_pos H
  | E : pack_H _ = Ok ?x, H : at_pos ?buf ?pos (?x ++ _) |- context [unpack_H ?buf ?pos] =>
      rewrite (at_pos_unpack_H _ _ _ _ _ E H); apply at_pos_app in H;
      rewrite (pack_H_len _ _ E) in H; norm_pos H
  | H : at_pos ?buf ?pos (_ :: _) |- context [buf_get ?buf ?pos] =>
      rewrite (at_pos_get _ _ _ _ H); apply at_pos_cons in H; norm_pos H
  | E : encode_record _ _ = Ok ?x, H : at_pos ?buf ?pos (?x ++ _)
      |- context [decode_record _ ?buf ?pos] =>
      rewrite (decode_encode_record _ _ _ _ _ _ _ E H); apply at_pos_app in H; norm_pos H
  end; cbn [mbind result_bind].

Lemma at_pos_0_nil buf : at_pos buf 0 (buf ++ []).
Proof. rewrite app_nil_r. apply at_pos_0. Qed.

(** Start reading the body the encoder built: the buffer becomes a variable, its
    contents and its length stay as facts. *)
Lemma read_from_start (P : bytes -> Prop) body :
  (forall buf, at_pos buf 0 (body ++ []) -> P buf) -> P body.
Proof. intros H. apply H, at_pos_0_nil. Qed.

Ltac start_reading :=
  let buf := fresh "buf" in let Hat := fresh "Hat" in
  let body := match goal with _ : _build_packet _ _ ?b = Ok _ |- _ => b end in
  pattern body; apply read_from_start; intros buf Hat;
  rewrite <- ?app_assoc in Hat; cbn [app] in Hat;
  pose proof (at_pos_len _ _ _ Hat);
  repeat match goal with
  | E : pack_H _ = Ok _ |- _ => lazymatch goal with
      | _ : zlen ?x = 2 |- _ => fail | _ => pose proof (pack_H_len _ _ E) end
  | E : encode_record _ _ = Ok ?x |- _ => lazymatch goal with
      | _ : 1 <= zlen x |- _ => fail | _ => pose proof (encode_record_len _ _ _ E) end
  end.

(** Decide a length guard. *)
Ltac read_guard :=
  match goal with
  | |- context [if ?c then _ else _] =>
      first [replace c with true by zlia | replace c with false by zlia]
  end; cbn [mbind result_bind andb].

Ltac reads := repeat first [read_step | read_guard].

(** The whole buffer is fuel enough for a part of it. *)
Ltac buf_len :=
  match goal with |- zlen _ <= Z.of_nat (length ?b) => change (Z.of_nat (length b)) with (zlen b) end;
  zlia.

Lemma pack_B_byte n bs : pack_B n = Ok bs -> exists b, bs = [b] /\ b2z b = n.
Proof.
  unfold pack_B. intros H. res_inv. bool_inv. eexists; split; [done|]. by apply b2z_byte_of.
Qed.

Lemma py_bytes_1 n bs : py_bytes [n] = Ok bs -> exists b, bs = [b] /\ b2z b = n.
Proof.
  intros H. apply py_bytes_b2z in H. destruct bs as [|b [|]]; simplify_eq/=. by exists b.
Qed.

Lemma py_bytes_2 m n bs :
  py_bytes [m; n] = Ok bs -> exists a b, bs = [a; b] /\ b2z a = m /\ b2z b = n.
Proof.
  intros H. apply py_bytes_b2z in H. destruct bs as [|a [|b [|]]]; simplify_eq/=. by exists a, b.
Qed.

Lemma pubacks_body v t p bs f :
  _encode_pub_ack_variant t f p v = Ok bs ->
  exists body, _build_packet t f body = Ok bs /\
    _decode_pub_ack_variant body v = Ok (canon_puback v p).
Proof.
  unfold _encode_pub_ack_variant, _packet_id_only, canon_puback, canon_props,
    _decode_pub_ack_variant, decode_puback_properties, encode_puback_properties.
  destruct p as [pid rc pr]; simpl. intros H. destruct (is_v5 v) eqn:Hv; simpl in H.
  - destruct (negb (rc =? 0) || _) eqn:Hc; res_inv.
    + apply pack_B_byte in E0 as (b & -> & <-).
      eexists; split; [exact H|]. start_reading. by reads.
    + apply orb_false_iff in Hc as [Hrc Hpr]. bool_inv. subst.
      apply bool_decide_eq_false, dec_stable in Hpr as ->.
      eexists; split; [exact H|]. start_reading. by reads.
  - res_inv. eexists; split; [exact H|]. start_reading. by reads.
Qed.

Lemma z2bool_b2z b : z2bool (Z.land (Z.b2z b) 1) = b.
Proof. by destruct b. Qed.

Lemma connack_body v p bs :
  _encode_connack p v = Ok bs ->
  exists body, _build_packet CONNACK 0 body = Ok bs /\
    _decode_connack body v =
      Ok (mkConnAck (ca_session_present p) (ca_return_code p)
            (canon_props v connack_dict (ca_properties p))).
Proof.
  unfold _encode_connack, _decode_connack, canon_props, decode_connack_properties,
    encode_connack_properties.
  destruct p as [sp rc pr]; simpl. intros H. destruct v; simpl in *; res_inv;
    apply py_bytes_2 in E as (a & b & -> & Ha & <-);
    (eexists; split; [exact H|]).
  - start_reading. reads. rewrite Ha. by destruct sp.
  - start_reading. reads. rewrite Ha. by destruct sp.
Qed.

Lemma publish_flags_spec p :
  0 <= publish_flags p <= 15 /\
  z2bool (Z.land (publish_flags p) 8) = pb_dup p /\
  qos_of (Z.land (Z.shiftr (publish_flags p) 1) 3) = Ok (pb_qos p) /\
  z2bool (Z.land (publish_flags p) 1) = pb_retain p.
Proof.
  destruct p as [t d q r u i pr]. unfold publish_flags. simpl.
  destruct q, r, u; vm_compute; repeat split; congruence.
Qed.

Lemma publish_body v p bs :
  _encode_publish p v = Ok bs ->
  exists body, _build_packet PUBLISH (publish_flags p) body = Ok bs /\
    _decode_publish body (publish_flags p) v =
      Ok (mkPublish (pb_topic p) (pb_payload p) (pb_qos p) (pb_retain p) (pb_dup p)
            (if bool_decide (pb_qos p <> AT_MOST_ONCE) then pb_packet_id p else None)
            (canon_props v publish_dict (pb_properties p))).
Proof.
  unfold _encode_publish, _decode_publish, canon_props, decode_publish_properties,
    encode_publish_properties.
  destruct (publish_flags_spec p) as (_ & -> & -> & ->). cbn [mbind result_bind].
  intros H. destruct (bool_decide (pb_qos p <> AT_MOST_ONCE)), v; simpl in *; res_inv;
    (eexists; split; [exact H|]); start_reading; reads;
    by rewrite (at_pos_slice_from _ _ _ Hat), app_nil_r.
Qed.

Lemma suback_body v p bs :
  _encode_suback p v = Ok bs ->
  exists body, _build_packet SUBACK 0 body = Ok bs /\
    _decode_suback body v =
      Ok (mkSubAck (sa_packet_id p) (sa_return_codes p)
            (canon_props v suback_dict (sa_properties p))).
Proof.
  unfold _encode_suback, _decode_suback, canon_props, decode_suback_properties,
    encode_suback_properties.
  intros H. destruct v; simpl in *; res_inv; (eexists; split; [exact H|]);
    start_reading; reads; rewrite (at_pos_slice_from _ _ _ Hat), app_nil_r;
    repeat match goal with E : py_bytes _ = Ok _ |- _ => apply py_bytes_b2z in E end;
    congruence.
Qed.

Lemma unsuback_body v p bs :
  _encode_unsuback p v = Ok bs ->
  exists body, _build_packet UNSUBACK 0 body = Ok bs /\
    _decode_unsuback body v =
      Ok (mkUnsubAck (ua_packet_id p) (if is_v5 v then ua_reason_codes p else [])
            (canon_props v unsuback_dict (ua_properties p))).
Proof.
  unfold _encode_unsuback, _decode_unsuback, _packet_id_only, canon_props,
    decode_unsuback_properties, encode_unsuback_properties.
  intros H. destruct v; simpl in *; res_inv; (eexists; split; [exact H|]).
  - start_reading. by reads.
  - apply py_bytes_b2z in E1. start_reading. reads.
    by rewrite (at_pos_slice_from _ _ _ Hat), app_nil_r, E1.
Qed.

Lemma disconnect_body v p bs :
  _encode_disconnect p v = Ok bs ->
  exists body, _build_packet DISCONNECT 0 body = Ok bs /\
    _decode_disconnect body v =
      Ok (mkDisconnect (if is_v5 v then dc_reason_code p else 0)
            (canon_props v disconnect_dict (dc_properties p))).
Proof.
  unfold _encode_disconnect, _decode_disconnect, canon_props, decode_disconnect_properties,
    encode_disconnect_properties.
  destruct p as [rc pr]; simpl. intros H. destruct v; simpl in *.
  - eexists; split; [exact H|]. done.
  - destruct (negb (rc =? 0) || _) eqn:Hc; res_inv.
    + apply py_bytes_1 in E as (b & -> & <-). eexists; split; [exact H|].
      start_reading. by reads.
    + apply orb_false_iff in Hc as [Hrc Hpr]. bool_inv. subst.
      apply bool_decide_eq_false, dec_stable in Hpr as ->.
      by eexists; split; [exact H|].
Qed.

Lemma auth_body p body bs rc :
  py_bytes [au_reason_code p] = Ok rc -> encode_auth_properties (au_properties p) = Ok body ->
  _build_packet AUTH 0 (rc ++ body) = Ok bs ->
  decode_auth (rc ++ body) =
    Ok (mkAuth (au_reason_code p) (canon_record auth_dict (au_properties p))).
Proof.
  unfold encode_auth_properties, decode_auth, decode_auth_properties. intros E E0 H.
  apply py_bytes_1 in E as (b & -> & <-). start_reading. by reads.
Qed.

(** ** Lists of topics and subscriptions *)

Lemma decode_topics_encode l bs buf pos fuel :
  encode_topics l = Ok bs -> at_pos buf pos (bs ++ []) -> zlen bs <= Z.of_nat fuel ->
  decode_topics fuel buf pos = Ok l.
Proof.
  revert bs pos fuel; induction l as [|t l IH]; intros bs pos fuel H Hat Hf;
    pose proof (at_pos_len _ _ _ Hat); simpl in H; res_inv.
  - destruct fuel; simpl; by replace (zlen buf <=? pos) with true by zlia.
  - pose proof (encode_str_len _ _ E). destruct fuel as [|fuel]; [zlia|]. simpl.
    rewrite <- app_assoc in Hat. replace (zlen buf <=? pos) with false by zlia.
    read_step. by rewrite (IH _ _ _ E0 Hat) by zlia.
Qed.

Lemma subscription_options_spec s v :
  0 <= subscription_options s v <= 255 /\
  qos_of (Z.land (subscription_options s v) 3) = Ok (sr_qos s) /\
  (is_v5 v = true ->
   z2bool (Z.land (subscription_options s v) 4) = sr_no_local s /\
   z2bool (Z.land (subscription_options s v) 8) = sr_retain_as_published s /\
   retain_handling_of (Z.land (Z.shiftr (subscription_options s v) 4) 3)
     = Ok (sr_retain_handling s)).
Proof.
  destruct s as [t q n r h]. destruct v, q, n, r, h; vm_compute; repeat split; congruence.
Qed.

Lemma decode_subscriptions_encode l v bs buf pos fuel :
  encode_subscriptions l v = Ok bs -> at_pos buf pos (bs ++ []) -> zlen bs <= Z.of_nat fuel ->
  decode_subscriptions fuel buf pos v = Ok (canon_request v <$> l).
Proof.
  revert bs pos fuel; induction l as [|s l IH]; intros bs pos fuel H Hat Hf;
    pose proof (at_pos_len _ _ _ Hat); simpl in H; res_inv.
  - destruct fuel; simpl; by replace (zlen buf <=? pos) with true by zlia.
  - rename v0 into tb, v1 into ob, v2 into rest. pose proof (encode_str_len _ _ E).
    destruct fuel as [|fuel]; [zlia|]. cbn [decode_subscriptions].
    rewrite <- app_assoc in Hat. simpl in Hat.
    replace (zlen buf <=? pos) with false by zlia. read_step.
    replace (zlen buf <=? pos + zlen tb) with false by zlia. read_step.
    rewrite (z2b_b2z _ _ E0). clear E0.
    destruct (subscription_options_spec s v) as (_ & -> & Hv5). cbn [mbind result_bind].
    specialize (IH rest _ fuel E1 Hat ltac:(zlia)).
    destruct v; cbn [is_v5 mbind result_bind]; [|destruct Hv5 as (-> & -> & ->); [done|]; cbn [mbind result_bind]];
      rewrite IH; [done|by destruct s].
Qed.

Lemma subscribe_body v p bs :
  _encode_subscribe p v = Ok bs ->
  exists body, _build_packet SUBSCRIBE 2 body = Ok bs /\
    _decode_subscribe body v =
      Ok (mkSubscribe (sb_packet_id p) (canon_request v <$> sb_subscriptions p)
            (canon_props v subscribe_dict (sb_properties p))).
Proof.
  unfold _encode_subscribe, _decode_subscribe, canon_props, decode_subscribe_properties,
    encode_subscribe_properties.
  intros H. destruct v; simpl in *; res_inv; (eexists; split; [exact H|]);
    start_reading; reads;
    (erewrite decode_subscriptions_encode; [done|eassumption|exact Hat|buf_len]).
Qed.

Lemma unsubscribe_body v p bs :
  _encode_unsubscribe p v = Ok bs ->
  exists body, _build_packet UNSUBSCRIBE 2 body = Ok bs /\
    _decode_unsubscribe body v =
      Ok (mkUnsubscribe (us_packet_id p) (us_topic_filters p)
            (canon_props v unsubscribe_dict (us_properties p))).
Proof.
  unfold _encode_unsubscribe, _decode_unsubscribe, canon_props, decode_unsubscribe_properties,
    encode_unsubscribe_properties.
  intros H. destruct v; simpl in *; res_inv; (eexists; split; [exact H|]);
    start_reading; reads;
    (erewrite decode_topics_encode; [done|eassumption|exact Hat|buf_len]).
Qed.

(** ** CONNECT *)

Lemma connect_flags_spec p :
  let f := connect_flags p in
  0 <= f <= 255 /\
  z2bool (Z.land f 0x02) = co_clean_session p /\
  z2bool (Z.land f 0x04) = match co_will p with Some _ => true | None => false end /\
  qos_of (Z.land (Z.shiftr f 3) 0x03)
    = Ok (match co_will p with Some w => will_qos w | None => AT_MOST_ONCE end) /\
  z2bool (Z.land f 0x20) = match co_will p with Some w => will_retain w | None => false end /\
  z2bool (Z.land f 0x80) = match co_username p with Some _ => true | None => false end /\
  z2bool (Z.land f 0x40) = match co_password p with Some _ => true | None => false end.
Proof.
  destruct p as [i c k u d w pr]. unfold connect_flags.
  destruct c, u, d, w as [[wt wp wq wr wpr]|]; try destruct wq; try destruct wr;
    vm_compute; repeat split; congruence.
Qed.

Lemma connect_body v p bs :
  _encode_connect p v = Ok bs ->
  exists body, _build_packet CONNECT 0 body = Ok bs /\
    _decode_connect body = Ok (canon_connect v p).
Proof.
  unfold _encode_connect, _decode_connect, canon_connect, canon_props,
    encode_connect_properties, encode_will_properties, decode_connect_properties,
    decode_will_properties.
  pose proof (connect_flags_spec p) as Hf. set (f := connect_flags p) in *. clearbody f.
  intros H. apply bind_Ok in H as (name & En & H). apply bind_Ok in H as (lf & El & H).
  apply py_bytes_2 in El as (lb & fb & -> & Hlb & <-).
  destruct p as [i c k u d w pr]; cbn [co_client_id co_clean_session co_keepalive co_username
    co_password co_will co_properties] in *.
  destruct v, u, d, w as [[wt wp wq wr wpr]|]; cbn [is_v5] in *; res_inv;
    (eexists; split; [exact H|]); start_reading; cbn [app] in Hat;
    rewrite <- ?app_assoc in Hat; cbn [app] in Hat; read_step;
    rewrite bool_decide_false by tauto; cbn [mbind result_bind];
    read_step; rewrite Hlb; cbn [Z.eqb Pos.eqb negb andb is_v5];
    read_step; destruct Hf as (_ & Hc & Hw & Hq & Hr & Hu & Hp);
    rewrite ?Hc, ?Hw, ?Hq, ?Hr, ?Hu, ?Hp;
    cbn [mbind result_bind co_will co_username co_password]; reads; done.
Qed.
