(* ===== verification/CodecSound.v ===== *)
(** * The codec on whole packets and on arbitrary bytes

    The round trip of [encode]/[decode] assembled from the bodies of [CodecFacts],
    what [decode] does on bytes that no encoder wrote, and that a verdict of
    [decode] never changes when more bytes arrive. *)

From S2P Require Import Prelude PyBytes Utf8 PyDict Wire Properties PropertyRecords Packets Codec CodecFacts.
Local Open Scope Z_scope.

(** ** Round trip *)

(** Every encoder frames a body that its decoder reads back. *)
Lemma encode_frames p v bs :
  encode p v = Ok bs ->
  exists t f body, 0 <= f <= 15 /\ _build_packet t f body = Ok bs /\
    decode_body t f body v = Ok (canon v p).
Proof.
  destruct p as [p|p|p|p|p|p|p|p|p|p|p| | |p|p]; simpl; intros H;
    [ apply connect_body in H | apply connack_body in H
    | pose proof (proj1 (publish_flags_spec p)); apply publish_body in H
    | apply pubacks_body in H | apply pubacks_body in H | apply pubacks_body in H
    | apply pubacks_body in H | apply subscribe_body in H | apply suback_body in H
    | apply unsubscribe_body in H | apply unsuback_body in H
    | by exists PINGREQ, 0, [] | by exists PINGRESP, 0, []
    | apply disconnect_body in H | ].
  all: try (destruct H as (body & Hb & Hd); eexists _, _, body;
            split; [|split; [exact Hb|]]; [lia|]; simpl; by rewrite Hd).
  res_inv. eexists AUTH, 0, _. split; [lia|]. split; [exact H|].
  simpl. by rewrite (auth_body p v1 bs v0).
Qed.

Lemma decode_encode p v bs rest :
  encode p v = Ok bs -> decode (bs ++ rest) v = Ok (Some (canon v p, zlen bs)).
Proof.
  intros H. destruct (encode_frames _ _ _ H) as (t & f & body & Hf & Hb & Hd).
  by eapply decode_build.
Qed.

Lemma encode_len p v bs : encode p v = Ok bs -> 2 <= zlen bs.
Proof.
  intros H. destruct (encode_frames _ _ _ H) as (t & f & body & Hf & Hb & _).
  apply build_packet_inv in Hb as (len & Hl & ->); [|done].
  apply encode_varint_len in Hl. zlia.
Qed.

(** ** Arbitrary bytes *)

Lemma qos_of_err n e : qos_of n = Err e -> decode_error e = true.
Proof. unfold qos_of. intros H. err_inv; done. Qed.

Lemma retain_handling_of_err n e : retain_handling_of n = Err e -> decode_error e = true.
Proof. unfold retain_handling_of. intros H. err_inv; done. Qed.

Lemma packet_type_of_err n e : packet_type_of n = Err e -> decode_error e = true.
Proof. unfold packet_type_of. intros H. err_inv; done. Qed.

Lemma fmap_Err {A B} (g : A -> B) (m : result A) e : g <$> m = Err e -> m = Err e.
Proof. by destruct m; intros [= ->]. Qed.

(** Record where a successful read left the position. *)
Ltac read_facts :=
  repeat match goal with
  | E : decode_str _ _ = Ok _ |- _ => apply decode_str_Ok in E
  | E : decode_bytes_field _ _ = Ok _ |- _ => apply decode_bytes_field_Ok in E
  | E : decode_record _ _ _ = Ok _ |- _ => apply decode_record_pos in E; [|lia]
  end.

(** Close a goal on the exception of a failed read. *)
Ltac read_err :=
  match goal with
  | E : Err _ = Err _ |- _ => by injection E as <-
  | E : buf_get _ _ = Err _ |- _ => by apply buf_get_err in E as ->
  | E : unpack_H _ _ = Err _ |- _ => by apply unpack_H_err in E as ->
  | E : decode_str _ _ = Err _ |- _ => by eapply decode_str_err
  | E : decode_bytes_field _ _ = Err _ |- _ => by eapply decode_bytes_field_err
  | E : qos_of _ = Err _ |- _ => by eapply qos_of_err
  | E : retain_handling_of _ = Err _ |- _ => by eapply retain_handling_of_err
  | E : packet_type_of _ = Err _ |- _ => by eapply packet_type_of_err
  | E : decode_record _ _ _ = Err _ |- _ =>
      eapply decode_record_err; [|exact E]; res_inv; read_facts; lia
  end.

(** Follow the exception to the read that raised it. *)
Ltac chase :=
  repeat match goal with
  | H : context [match ?x with (_, _) => _ end] |- _ => destruct x
  | _ => progress err_inv
  | _ => progress res_inv
  end.

(** Both loops over a body consume at least one byte per item, so the length of
    the buffer is fuel enough. *)
Lemma decode_topics_err fuel buf pos e :
  zlen buf - pos <= Z.of_nat fuel -> decode_topics fuel buf pos = Err e -> decode_error e = true.
Proof.
  revert pos; induction fuel as [|fuel IH]; intros pos Hf H; simpl in H;
    destruct (zlen buf <=? pos) eqn:Hle; try done; bool_inv; [lia|].
  chase; try read_err. read_facts. eapply IH; [|eassumption]. lia.
Qed.

Lemma decode_subscriptions_err fuel buf pos v e :
  zlen buf - pos <= Z.of_nat fuel -> decode_subscriptions fuel buf pos v = Err e ->
  decode_error e = true.
Proof.
  revert pos; induction fuel as [|fuel IH]; intros pos Hf H; simpl in H;
    destruct (zlen buf <=? pos) eqn:Hle; try done; bool_inv; [lia|].
  apply bind_Err in H as [H|((t & n) & Ht & H)]; [read_err|]. read_facts.
  destruct (zlen buf <=? pos + n); [by simplify_eq|].
  chase; try read_err; (eapply IH; [|eassumption]); lia.
Qed.

Create HintDb decoders.
#[export] Hint Unfold decode_connect_properties decode_will_properties
  decode_connack_properties decode_publish_properties decode_puback_properties
  decode_subscribe_properties decode_suback_properties decode_unsubscribe_properties
  decode_unsuback_properties decode_disconnect_properties decode_auth_properties : decoders.

Ltac body_err :=
  match goal with |- ?f = Err _ -> _ =>
    let h := match f with ?h _ _ _ => h | ?h _ _ => h | ?h _ => h end in unfold h end;
  autounfold with decoders; intros H; chase; try done; try read_err.

Lemma _decode_connect_err buf e : _decode_connect buf = Err e -> decode_error e = true.
Proof. body_err. Qed.

Lemma _decode_connack_err buf v e : _decode_connack buf v = Err e -> decode_error e = true.
Proof. body_err. Qed.

Lemma _decode_publish_err buf f v e : _decode_publish buf f v = Err e -> decode_error e = true.
Proof. body_err. Qed.

Lemma _decode_pub_ack_variant_err buf v e :
  _decode_pub_ack_variant buf v = Err e -> decode_error e = true.
Proof. body_err. Qed.

Lemma _decode_subscribe_err buf v e : _decode_subscribe buf v = Err e -> decode_error e = true.
Proof.
  body_err; (eapply decode_subscriptions_err; [|eassumption]; read_facts; unfold zlen; lia).
Qed.

Lemma _decode_suback_err buf v e : _decode_suback buf v = Err e -> decode_error e = true.
Proof. body_err. Qed.

Lemma _decode_unsubscribe_err buf v e :
  _decode_unsubscribe buf v = Err e -> decode_error e = true.
Proof.
  body_err; (eapply decode_topics_err; [|eassumption]; read_facts; unfold zlen; lia).
Qed.

Lemma _decode_unsuback_err buf v e : _decode_unsuback buf v = Err e -> decode_error e = true.
Proof. body_err. Qed.

Lemma _decode_disconnect_err buf v e : _decode_disconnect buf v = Err e -> decode_error e = true.
Proof. body_err. Qed.

Lemma decode_auth_err buf e : decode_auth buf = Err e -> decode_error e = true.
Proof. body_err. Qed.

Lemma decode_body_err t f body v e : decode_body t f body v = Err e -> decode_error e = true.
Proof.
  destruct t; simpl; intros H; try done; apply fmap_Err in H; revert H;
    eauto using _decode_connect_err, _decode_connack_err, _decode_publish_err,
      _decode_pub_ack_variant_err, _decode_subscribe_err, _decode_suback_err,
      _decode_unsubscribe_err, _decode_unsuback_err, _decode_disconnect_err, decode_auth_err.
Qed.

(** ** Framing of arbitrary bytes *)

Lemma buf_get_lt buf pos : 0 <= pos < zlen buf -> exists b, buf_get buf pos = Ok b.
Proof.
  intros Hp. unfold buf_get, zlen in *.
  destruct (lookup_lt_is_Some_2 buf (Z.to_nat pos)) as [b Hb]; [lia|].
  rewrite Hb. by exists b.
Qed.

Lemma buf_get_app buf c pos b : buf_get buf pos = Ok b -> buf_get (buf ++ c) pos = Ok b.
Proof.
  unfold buf_get. intros H. res_inv. by rewrite (lookup_app_l_Some _ _ _ _ Em).
Qed.

Lemma slice_app buf c i j : 0 <= i -> j <= zlen buf -> slice (buf ++ c) i j = slice buf i j.
Proof.
  intros Hi Hj. unfold slice, zlen in *.
  destruct (decide (i <= Z.of_nat (length buf))).
  - rewrite drop_app_le by lia. rewrite take_app_le; [done|]. rewrite length_drop. lia.
  - replace (Z.to_nat (j - i)) with 0%nat by lia. done.
Qed.

(** The header is complete, incomplete or too long; never anything else. *)
Lemma decode_header_loop_sound n buf i acc m :
  0 <= i -> 0 <= acc -> 0 < m ->
  match decode_header_loop n buf i acc m with
  | Ok None => zlen buf <= i + Z.of_nat n
  | Ok (Some (r, k)) => 0 <= r /\ i < k <= i + Z.of_nat n /\ 1 + k <= zlen buf
  | Err e => is_ValueError e = true
  end.
Proof.
  revert i acc m; induction n as [|n IH]; intros i acc m Hi Ha Hm;
    cbn [decode_header_loop]; [done|].
  destruct (zlen buf <=? 1 + i) eqn:Hle; bool_inv; [lia|].
  destruct (buf_get_lt buf (1 + i)) as (b & ->); [lia|]. cbn [mbind result_bind].
  rewrite land_127. pose proof (Z.mod_pos_bound (b2z b) 128 ltac:(lia)).
  destruct (Z.land (b2z b) 128 =? 0); [nia|].
  specialize (IH (i + 1) (acc + b2z b mod 128 * m) (m * 128) ltac:(lia) ltac:(nia) ltac:(lia)).
  destruct (decode_header_loop _ _ _ _ _) as [[[r k]|]|]; [lia..|done].
Qed.

Lemma decode_header_loop_app n buf c i acc m :
  0 <= i -> decode_header_loop n buf i acc m <> Ok None ->
  decode_header_loop n (buf ++ c) i acc m = decode_header_loop n buf i acc m.
Proof.
  revert i acc m; induction n as [|n IH]; intros i acc m Hi H; cbn [decode_header_loop] in *;
    [done|].
  destruct (zlen buf <=? 1 + i) eqn:Hle; [done|]. bool_inv.
  replace (zlen (buf ++ c) <=? 1 + i) with false by zlia.
  destruct (buf_get_lt buf (1 + i)) as (b & Hb); [lia|]. rewrite Hb in H.
  rewrite (buf_get_app _ _ _ _ Hb), Hb. cbn [mbind result_bind] in *.
  destruct (Z.land (b2z b) 128 =? 0); [done|]. apply IH; [lia|done].
Qed.

(** Once [decode] gives a verdict, a packet or an exception, more input does not
    change it. *)
Lemma decode_app buf c v : decode buf v <> Ok None -> decode (buf ++ c) v = decode buf v.
Proof.
  unfold decode. intros H. destruct (zlen buf <? 2) eqn:Hlt; [done|]. bool_inv.
  replace (zlen (buf ++ c) <? 2) with false by zlia.
  destruct (buf_get_lt buf 0) as (b & Hb); [lia|]. rewrite Hb in H.
  rewrite (buf_get_app _ _ _ _ Hb), Hb. cbn [mbind result_bind] in *.
  pose proof (decode_header_loop_sound 4 buf 0 0 1 ltac:(lia) ltac:(lia) ltac:(lia)) as HS.
  rewrite (decode_header_loop_app 4 buf c 0 0 1) by (try lia; by intros E; rewrite E in H).
  destruct (decode_header_loop 4 buf 0 0 1) as [[[r k]|]|]; cbn [mbind result_bind] in *;
    [|done..].
  destruct (zlen buf <? 1 + k + r) eqn:Hr; [done|]. bool_inv.
  replace (zlen (buf ++ c) <? 1 + k + r) with false by zlia.
  by rewrite slice_app by lia.
Qed.

(** What [decode] can return on any bytes at all. *)
Lemma decode_total buf v :
  match decode buf v with
  | Ok None => True
  | Ok (Some (_, n)) => 2 <= n <= zlen buf
  | Err e => decode_error e = true
  end.
Proof.
  unfold decode. destruct (zlen buf <? 2) eqn:Hlt; [done|]. bool_inv.
  destruct (buf_get_lt buf 0) as (b & ->); [lia|]. cbn [mbind result_bind].
  pose proof (decode_header_loop_sound 4 buf 0 0 1 ltac:(lia) ltac:(lia) ltac:(lia)) as HS.
  destruct (decode_header_loop 4 buf 0 0 1) as [[[r k]|]|e]; cbn [mbind result_bind]; [|done|].
  2: { by destruct e. }
  destruct (zlen buf <? 1 + k + r) eqn:Hr; [done|]. bool_inv.
  destruct (packet_type_of _) as [t|e] eqn:Ht; cbn [mbind result_bind];
    [|by eapply packet_type_of_err].
  destruct (decode_body _ _ _ _) as [p|e] eqn:Hp; cbn [mbind result_bind];
    [lia | by eapply decode_body_err].
Qed.

(** No proper prefix of an encoded packet is mistaken for a packet or an error. *)
Lemma decode_prefix p v b c :
  encode p v = Ok (b ++ c) -> c <> [] -> decode b v = Ok None.
Proof.
  intros H Hc. pose proof (decode_encode _ _ _ [] H) as Hd. rewrite app_nil_r in Hd.
  destruct (decide (decode b v = Ok None)) as [|Hne]; [done|].
  pose proof (decode_total b v) as HT. rewrite (decode_app b c v Hne) in Hd.
  rewrite Hd in HT. destruct c; [done|]. zlia.
Qed.

(** ** The first byte *)

(** The reserved flag bits of the standard, and the PUBLISH flags. *)
Definition packet_flags (p : packet) : Z :=
  match p with
  | PPublish m => publish_flags m
  | PPubRel _ | PSubscribe _ | PUnsubscribe _ => 2
  | _ => 0
  end.

Lemma packet_id_only_inv t f pid bs :
  _packet_id_only t f pid = Ok bs -> exists body, _build_packet t f body = Ok bs.
Proof. unfold _packet_id_only. intros H. res_inv. eauto. Qed.

(** Every encoder ends in [_build_packet] with its type and flags. *)
Lemma encode_builds p v bs :
  encode p v = Ok bs -> exists body, _build_packet (type_of_packet p) (packet_flags p) body = Ok bs.
Proof.
  destruct p; simpl; intros H;
    match type of H with
    | _encode_pub_ack_variant _ _ _ _ = _ => apply pubacks_body in H
    | _encode_connect _ _ = _ => apply connect_body in H
    | _encode_connack _ _ = _ => apply connack_body in H
    | _encode_publish _ _ = _ => apply publish_body in H
    | _encode_subscribe _ _ = _ => apply subscribe_body in H
    | _encode_suback _ _ = _ => apply suback_body in H
    | _encode_unsubscribe _ _ = _ => apply unsubscribe_body in H
    | _encode_unsuback _ _ = _ => apply unsuback_body in H
    | _encode_disconnect _ _ = _ => apply disconnect_body in H
    | _ => res_inv; eauto
    end; destruct H as (body & H & _); by exists body.
Qed.

(** ** Properties *)

(** C1: what a peer decodes from the bytes of an encoded packet, whatever follows
    them in its buffer, is the packet (in the canonical form of the protocol version
    in use), and exactly the packet's bytes are consumed. *)
Theorem decode_encode_packet p v bs rest :
  encode p v = Ok bs -> decode (bs ++ rest) v = Ok (Some (canon v p, zlen bs)).
Proof. apply decode_encode. Qed.

Definition sample_publish : packet :=
  PPublish (mkPublish (lit "a/b") [x01; x02] AT_LEAST_ONCE true false (Some 7) None).

Lemma decode_encode_packet_witness :
  decode ([x33; x0a; x00; x03; x61; x2f; x62; x00; x07; x00; x01; x02] ++ [xff]) V5
  = Ok (Some (sample_publish, 12)).
Proof. apply (decode_encode_packet sample_publish V5). vm_compute. reflexivity. Defined.

(** C2: on any bytes whatever, [decode] terminates with a packet and a number of
    consumed bytes between 2 and the buffer's length, with a request for more input,
    or with [ValueError], [struct.error] or [IndexError]; it never raises anything
    else. *)
Theorem decode_any_bytes buf v :
  match decode buf v with
  | Ok None => True
  | Ok (Some (_, n)) => 2 <= n <= zlen buf
  | Err e => decode_error e = true
  end.
Proof. apply decode_total. Qed.

(** A verdict of [decode], a packet or an exception, is final: bytes that arrive
    later do not change it. *)
Theorem decode_verdict_final buf more v :
  decode buf v <> Ok None -> decode (buf ++ more) v = decode buf v.
Proof. apply decode_app. Qed.

Lemma decode_verdict_final_witness : decode ([xd0; x00] ++ [x30]) V311 = Ok (Some (PPingResp, 2)).
Proof. apply (decode_verdict_final [xd0; x00] [x30] V311). vm_compute. discriminate. Defined.

(** A proper prefix of an encoded packet is never mistaken for a packet or an
    error: [decode] asks for more input. *)
Theorem decode_proper_prefix p v b c :
  encode p v = Ok (b ++ c) -> c <> [] -> decode b v = Ok None.
Proof. apply decode_prefix. Qed.

Lemma decode_proper_prefix_witness : decode [x33; x0a; x00; x03; x61] V5 = Ok None.
Proof.
  apply (decode_proper_prefix sample_publish V5 _ [x2f; x62; x00; x07; x00; x01; x02]).
  - vm_compute. reflexivity.
  - discriminate.
Defined.

(** The first byte of an encoded packet carries its packet type in the high
    nibble and the flags the standard prescribes for that type (0010 for PUBREL,
    SUBSCRIBE and UNSUBSCRIBE; DUP, QoS and RETAIN for PUBLISH; 0 otherwise) in the
    low nibble. *)
Theorem encode_first_byte p v bs :
  encode p v = Ok bs ->
  exists b tl, bs = b :: tl /\ b2z b = 16 * packet_type_value (type_of_packet p) + packet_flags p.
Proof.
  intros H. destruct (encode_builds _ _ _ H) as (body & Hb).
  assert (Hf : 0 <= packet_flags p <= 15)
    by (destruct p; simpl; try lia; apply publish_flags_spec).
  destruct (header_byte_spec (type_of_packet p) _ Hf) as (Hn & Hr & _).
  apply build_packet_inv in Hb as (len & _ & ->); [|done].
  eexists _, _. split; [done|]. rewrite <- Hn in *. rewrite b2z_byte_of by done.
  unfold header_byte in *. lia.
Qed.

Lemma encode_first_byte_witness :
  exists b tl, [xa2; x08; x00; x01; x00; x00; x03; x61; x2f; x23] = b :: tl /\ b2z b = 16 * 10 + 2.
Proof.
  apply (encode_first_byte (PUnsubscribe (mkUnsubscribe 1 [lit "a/#"] None)) V5).
  vm_compute. reflexivity.
Defined.
