(* ===== verification/Reader.v ===== *)
(** * Incremental framing ([packets/reader.py])

    [PacketBuffer] with its [feed] and its iterator, and the loop of reads that the
    protocol engine runs over it.  The stream of packets does not depend on how TCP
    cuts the byte stream into chunks. *)

From S2P Require Import Prelude PyBytes Packets Codec CodecFacts CodecSound.
Local Open Scope Z_scope.

Record PacketBuffer := mkPacketBuffer { _buf : bytes; _version : MQTTVersion }.

#[export] Instance PacketBuffer_eq_dec : EqDecision PacketBuffer.
Proof. solve_decision. Defined.

Definition new_buffer (version : MQTTVersion) : PacketBuffer := mkPacketBuffer [] version.

Definition feed (b : PacketBuffer) (data : bytes) : PacketBuffer :=
  mkPacketBuffer (_buf b ++ data) (_version b).

(** One step of the generator: the next packet, the end of the iteration, or the
    exception of [decode], with the buffer it leaves ([del self._buf[:consumed]]
    happens before the packet is yielded). *)
Definition buffer_next (b : PacketBuffer) : result (option packet) * PacketBuffer :=
  match decode (_buf b) (_version b) with
  | Err e => (Err e, b)
  | Ok None => (Ok None, b)
  | Ok (Some (p, consumed)) =>
      (Ok (Some p), mkPacketBuffer (slice_from (_buf b) consumed) (_version b))
  end.

(** [for pkt in buf]: the packets yielded, the exception that ended the iteration
    if one did, and the buffer left. *)
Fixpoint iterate (fuel : nat) (b : PacketBuffer) : list packet * option exn * PacketBuffer :=
  match fuel with
  | O => ([], Some NonTermination, b)
  | S fuel' =>
      match buffer_next b with
      | (Err e, b') => ([], Some e, b')
      | (Ok None, b') => ([], None, b')
      | (Ok (Some p), b') => let '(ps, e, b'') := iterate fuel' b' in (p :: ps, e, b'')
      end
  end.

(** Every yielded packet takes bytes off the buffer, so its length bounds the
    iteration. *)
Definition packets_of (b : PacketBuffer) : list packet * option exn * PacketBuffer :=
  iterate (S (length (_buf b))) b.

(** The read loop: feed a chunk, consume every complete packet, read on. *)
Fixpoint read_chunks (b : PacketBuffer) (chunks : list bytes)
    : list packet * option exn * PacketBuffer :=
  match chunks with
  | [] => ([], None, b)
  | data :: chunks' =>
      let '(ps, e, b') := packets_of (feed b data) in
      match e with
      | Some _ => (ps, e, b')
      | None => let '(qs, e', b'') := read_chunks b' chunks' in (ps ++ qs, e', b'')
      end
  end.

(** ** The iterator *)

Lemma buffer_next_len b p b' :
  buffer_next b = (Ok (Some p), b') -> (length (_buf b') + 2 <= length (_buf b))%nat.
Proof.
  unfold buffer_next. pose proof (decode_total (_buf b) (_version b)) as HT.
  destruct (decode _ _) as [[[q n]|]|]; intros H; simplify_eq/=.
  unfold slice_from, zlen in *. rewrite length_drop. lia.
Qed.

Lemma iterate_fuel f1 f2 b :
  (length (_buf b) < f1)%nat -> (length (_buf b) < f2)%nat -> iterate f1 b = iterate f2 b.
Proof.
  revert f2 b; induction f1 as [|f1 IH]; intros [|f2] b H1 H2; [lia..|]. simpl.
  destruct (buffer_next b) as [[[p|]|] b'] eqn:Hn; [|done..].
  apply buffer_next_len in Hn. rewrite (IH f2 b') by lia. done.
Qed.

(** The equation of the Python loop, without fuel. *)
Lemma packets_of_eq b :
  packets_of b =
    match buffer_next b with
    | (Err e, b') => ([], Some e, b')
    | (Ok None, b') => ([], None, b')
    | (Ok (Some p), b') => let '(ps, e, b'') := packets_of b' in (p :: ps, e, b'')
    end.
Proof.
  unfold packets_of at 1. cbn [iterate].
  destruct (buffer_next b) as [[[p|]|] b'] eqn:Hn; [|done..].
  apply buffer_next_len in Hn.
  by rewrite (iterate_fuel _ (S (length (_buf b'))) b') by lia.
Qed.

(** Induction over the packets a buffer holds. *)
Lemma buffer_ind (P : PacketBuffer -> Prop) :
  (forall b, (forall p b', buffer_next b = (Ok (Some p), b') -> P b') -> P b) -> forall b, P b.
Proof.
  intros HP b. remember (length (_buf b)) as n eqn:Hn.
  revert b Hn; induction n as [n IH] using lt_wf_ind; intros b ->.
  apply HP. intros p b' Hb. apply buffer_next_len in Hb. eapply IH; [|done]. lia.
Qed.

(** A verdict on the buffered bytes is not changed by bytes that follow. *)
Lemma buffer_next_feed b c :
  match buffer_next b with
  | (Err e, _) => buffer_next (feed b c) = (Err e, feed b c)
  | (Ok None, b') => b' = b
  | (Ok (Some p), b') => buffer_next (feed b c) = (Ok (Some p), feed b' c)
  end.
Proof.
  unfold buffer_next, feed. simpl. pose proof (decode_total (_buf b) (_version b)) as HT.
  destruct (decode _ _) as [[[p n]|]|e] eqn:Hd; [|done|]; rewrite decode_app, Hd by congruence.
  - do 2 f_equal. unfold slice_from, zlen in *. by rewrite drop_app_le by lia.
  - done.
Qed.

Lemma packets_of_feed b c :
  let '(ps, e, b') := packets_of b in
  let '(qs, e', b'') := packets_of (feed b c) in
  match e with
  | Some _ => qs = ps /\ e' = e
  | None => (qs, e', b'') = let '(rs, e1, b1) := packets_of (feed b' c) in (ps ++ rs, e1, b1)
  end.
Proof.
  induction b as [b IH] using buffer_ind.
  rewrite (packets_of_eq b). pose proof (buffer_next_feed b c) as HF.
  destruct (buffer_next b) as [[[p|]|e] b'] eqn:Hn.
  - specialize (IH p b' eq_refl). rewrite (packets_of_eq (feed b c)), HF.
    destruct (packets_of b') as [[ps e] b1].
    destruct (packets_of (feed b' c)) as [[qs e'] b2]. destruct e; [by destruct IH as [-> ->]|].
    destruct (packets_of (feed b1 c)) as [[rs e1] b3]. by simplify_eq/=.
  - subst b'. by destruct (packets_of (feed b c)) as [[qs e'] b2].
  - rewrite (packets_of_eq (feed b c)), HF. done.
Qed.

Lemma packets_of_done b ps b' :
  packets_of b = (ps, None, b') -> packets_of b' = ([], None, b').
Proof.
  revert ps b'. induction b as [b IH] using buffer_ind. intros ps b'.
  rewrite packets_of_eq. destruct (buffer_next b) as [[[p|]|e] b1] eqn:Hn; [|intros..]; try done.
  - specialize (IH p b1 eq_refl). destruct (packets_of b1) as [[qs e] b2].
    intros [= <- -> ->]. by eapply IH.
  - pose proof (buffer_next_feed b []) as HF. rewrite Hn in HF. simplify_eq.
    by rewrite packets_of_eq, Hn.
Qed.

Lemma feed_nil b : feed b [] = b.
Proof. destruct b. unfold feed. simpl. by rewrite app_nil_r. Qed.

Lemma feed_feed b c d : feed (feed b c) d = feed b (c ++ d).
Proof. unfold feed. simpl. by rewrite app_assoc. Qed.

(** Two outcomes a client cannot tell apart: the same packets, the same exception,
    and the same pending bytes when there was none. *)
Definition same_outcome (r1 r2 : list packet * option exn * PacketBuffer) : Prop :=
  r1.1.1 = r2.1.1 /\ r1.1.2 = r2.1.2 /\ (r1.1.2 = None -> r1.2 = r2.2).

#[export] Instance same_outcome_equiv : Equivalence same_outcome.
Proof.
  split.
  - by intros r.
  - intros r1 r2 (H1 & H2 & H3). split; [done|]. split; [done|]. intros He.
    symmetry. apply H3. congruence.
  - intros r1 r2 r3 (H1 & H2 & H3) (H4 & H5 & H6). split; [congruence|]. split; [congruence|].
    intros He. rewrite H3 by done. apply H6. congruence.
Qed.

Lemma read_chunks_concat b chunks :
  packets_of b = ([], None, b) ->
  same_outcome (read_chunks b chunks) (packets_of (feed b (concat chunks))).
Proof.
  revert b; induction chunks as [|c chunks IH]; intros b Hb; simpl.
  { rewrite feed_nil, Hb. done. }
  rewrite <- feed_feed. pose proof (packets_of_feed (feed b c) (concat chunks)) as HF.
  destruct (packets_of (feed b c)) as [[ps e] b1] eqn:Hp.
  destruct (packets_of (feed (feed b c) (concat chunks))) as [[qs e'] b2].
  destruct e as [e|]; [by destruct HF as [-> ->]|].
  apply packets_of_done in Hp. specialize (IH b1 Hp).
  destruct (read_chunks b1 chunks) as [[rs e1] b3].
  destruct (packets_of (feed b1 (concat chunks))) as [[ts e2] b4].
  destruct IH as (H1 & H2 & H3). simpl in *. simplify_eq. split; [done|]. by split.
Qed.

(** ** Streams of encoded packets *)

Lemma packets_of_encoded v ps bs tail :
  res_mapM (fun p => encode p v) ps = Ok bs -> decode tail v = Ok None ->
  packets_of (mkPacketBuffer (concat bs ++ tail) v) =
    (canon v <$> ps, None, mkPacketBuffer tail v).
Proof.
  revert bs; induction ps as [|p ps IH]; intros bs H Ht; simpl in H; res_inv;
    rewrite packets_of_eq; unfold buffer_next; simpl.
  - by rewrite Ht.
  - rewrite <- app_assoc, (decode_encode _ _ _ _ E).
    unfold slice_from, zlen. rewrite Nat2Z.id, drop_app_length, (IH _ E0 Ht). done.
Qed.

Lemma packets_of_new v : packets_of (new_buffer v) = ([], None, new_buffer v).
Proof. done. Qed.

(** ** Properties *)

(** How TCP cuts the byte stream into chunks is invisible: reading any chunks
    yields the packets, the exception (if one ends the stream) and, when there is
    none, the pending bytes that the whole stream yields in one piece. *)
Theorem chunking_irrelevant v chunks :
  same_outcome (read_chunks (new_buffer v) chunks)
    (packets_of (feed (new_buffer v) (concat chunks))).
Proof. apply read_chunks_concat, packets_of_new. Qed.

(** A stream of encoded packets, cut into chunks anywhere and possibly ending in
    the middle of a packet, is delivered in order, completely and without an
    exception; only the bytes of the unfinished packet stay in the buffer. *)
Theorem packet_stream v ps bs tail chunks :
  res_mapM (fun p => encode p v) ps = Ok bs -> decode tail v = Ok None ->
  concat chunks = concat bs ++ tail ->
  read_chunks (new_buffer v) chunks = (canon v <$> ps, None, mkPacketBuffer tail v).
Proof.
  intros Hbs Ht Hc.
  pose proof (read_chunks_concat (new_buffer v) chunks (packets_of_new v)) as (H1 & H2 & H3).
  unfold feed in *. cbn [new_buffer _buf _version app] in *. rewrite Hc in *.
  rewrite (packets_of_encoded v ps bs tail Hbs Ht) in *. simpl in *.
  destruct (read_chunks _ _) as [[qs e] b]. simpl in *. subst. by rewrite H3.
Qed.

Lemma packet_stream_witness :
  read_chunks (new_buffer V311) [[xd0]; [x00; x40; x02]; [x00; x07; xc0]]
  = ([PPingResp; PPubAck (mkPubAck 7 0 None)], None, mkPacketBuffer [xc0] V311).
Proof.
  apply (packet_stream V311 [PPingResp; PPubAck (mkPubAck 7 0 None)]
           [[xd0; x00]; [x40; x02; x00; x07]] [xc0]); vm_compute; reflexivity.
Defined.
