(* ===== verification/TopicMatching.v ===== *)
(** * Topic names and topic filters ([topic_matching.py], [types/topic.py])

    Matching of published topics against filters, with shared-subscription and
    broker-stripped prefixes, the specificity order of filters, and the validation
    of topics and filters.  Matching is proved equal to its definition in the MQTT
    standard. *)

From S2P Require Import Prelude Utf8 PyStr.
Local Open Scope Z_scope.

Definition hash : str := lit "#".
Definition plus : str := lit "+".

Definition _DEFAULT_STRIPPED_PREFIXES : list str := [lit "$queue"; lit "$exclusive"].

(** ** Operations of [topic_matching.py] *)

(** The [for prefix in stripped_prefixes] loop *)
Fixpoint strip_prefixes (filter_ : str) (stripped_prefixes : list str) : result str :=
  match stripped_prefixes with
  | [] => Ok filter_
  | prefix :: prefixes =>
      if startswith filter_ (prefix ++ lit "/") then split_once_tail filter_
      else strip_prefixes filter_ prefixes
  end.

Definition _shared_filter_to_actual (filter_ : str) (stripped_prefixes : list str)
    : result str :=
  if startswith filter_ (lit "$share/") then
    let '(_, separator, actual_filter) :=
      partition_slash (removeprefix filter_ (lit "$share/")) in
    if separator : bool then Ok actual_filter else strip_prefixes filter_ stripped_prefixes
  else strip_prefixes filter_ stripped_prefixes.

Fixpoint _match_parts (fparts tparts : list str) {struct fparts} : bool :=
  match fparts with
  | [] => bool_decide (tparts = [])
  | f :: fparts' =>
      if bool_decide (f = hash) then true
      else match tparts with
           | [] => false
           | t :: tparts' =>
               if bool_decide (f <> plus) && bool_decide (f <> t) then false
               else _match_parts fparts' tparts'
           end
  end.

Definition _topic_matches (actual_filter topic : str) : bool :=
  if negb (Bool.eqb (startswith topic (lit "$")) (startswith actual_filter (lit "$")))
  then false
  else _match_parts (split_slash actual_filter) (split_slash topic).

Definition topic_matches (topic_filter topic : str) (stripped_prefixes : list str)
    : result bool :=
  actual_filter ← _shared_filter_to_actual topic_filter stripped_prefixes;
  Ok (_topic_matches actual_filter topic).

Definition _segment_rank (seg : str) : Z :=
  if bool_decide (seg = hash) then 2 else if bool_decide (seg = plus) then 1 else 0.

Definition _filter_specificity (actual_filter : str) : list Z :=
  _segment_rank <$> split_slash actual_filter.

(** ** Validation ([types/topic.py]) *)

Definition validate_publish (topic : str) : result unit :=
  if bool_decide (topic = []) then Err (MQTTInvalidTopicError "Topic must not be empty")
  else if char_in hash_char topic || char_in plus_char topic
  then Err (MQTTInvalidTopicError "Wildcards not allowed in publish topic")
  else if char_in dollar (drop 1 topic)
  then Err (MQTTInvalidTopicError "'$' is only valid as the first character of a topic")
  else Ok tt.

(** The [for level in topic.split("/")] loop *)
Fixpoint validate_levels (levels : list str) : result unit :=
  match levels with
  | [] => Ok tt
  | level :: levels' =>
      if char_in plus_char level && bool_decide (level <> plus)
      then Err (MQTTInvalidTopicError "'+' must occupy an entire topic level in filter")
      else validate_levels levels'
  end.

Definition validate_subscribe_topic (topic : str) : result unit :=
  if bool_decide (topic = []) then Err (MQTTInvalidTopicError "Topic filter must not be empty")
  else if char_in dollar (drop 1 topic)
  then Err (MQTTInvalidTopicError "'$' is only valid as the first character of a topic filter")
  else
    _ ← (if char_in hash_char topic then
           idx ← str_index hash_char topic;
           if negb (idx =? zlen topic - 1)
           then Err (MQTTInvalidTopicError "'#' must be the last character in a topic filter")
           else if (0 <? idx) && bool_decide (topic !! Z.to_nat (idx - 1) <> Some slash)
           then Err (MQTTInvalidTopicError "'#' must be preceded by '/' in a topic filter")
           else Ok tt
         else Ok tt);
    validate_levels (split_slash topic).

Definition validate_response_topic (topic : str) : result unit := validate_publish topic.

(** ** What matching means *)

(** One level of a filter accepts one level of a topic. *)
Definition level_ok (f t : str) : Prop := f = plus \/ f = t.

(** The definition of the standard: a filter without ["#"] matches level by level;
    ["#"] matches the parent level and everything below it. *)
Definition matches_spec (fparts tparts : list str) : Prop :=
  ((hash ∉ fparts) /\ Forall2 level_ok fparts tparts) \/
  exists pre post t1 t2, fparts = pre ++ (hash :: post) /\ (hash ∉ pre) /\
    tparts = t1 ++ t2 /\ Forall2 level_ok pre t1.

Lemma hash_ne_plus : hash <> plus.
Proof. done. Qed.

(** The cases of the code, as equations. *)
Lemma match_parts_hash fs ts : _match_parts (hash :: fs) ts = true.
Proof. done. Qed.

Lemma match_parts_level f fs t ts :
  f <> hash ->
  _match_parts (f :: fs) (t :: ts) = true <-> level_ok f t /\ _match_parts fs ts = true.
Proof.
  intros Hf. simpl. rewrite bool_decide_false by done. unfold level_ok.
  destruct (decide (f = plus)) as [->|Hp]; [rewrite bool_decide_false by tauto; simpl; tauto|].
  rewrite bool_decide_true by done. simpl.
  destruct (decide (f = t)) as [->|Ht];
    [rewrite bool_decide_false by tauto | rewrite bool_decide_true by done]; simpl;
    [tauto|]. split; [done|]. intros [[?|?] ?]; done.
Qed.

Lemma match_parts_spec fparts tparts :
  _match_parts fparts tparts = true <-> matches_spec fparts tparts.
Proof.
  revert tparts; induction fparts as [|f fs IH]; intros tparts.
  - simpl. rewrite bool_decide_eq_true. unfold matches_spec. split.
    + intros ->. left. split; [apply not_elem_of_nil | constructor].
    + intros [[_ H]|(pre & post & t1 & t2 & H & _)]; [by inversion H | by destruct pre].
  - destruct (decide (f = hash)) as [->|Hf].
    { rewrite match_parts_hash. split; [intros _|done]. right. exists [], fs, [], tparts.
      repeat split; [apply not_elem_of_nil | constructor]. }
    destruct tparts as [|t ts].
    + simpl. rewrite bool_decide_false by done. split; [done|].
      intros [[_ H]|(pre & post & t1 & t2 & H & Hp & Ht & HF)]; [inversion H|].
      symmetry in Ht. apply app_eq_nil in Ht as [-> ->]. inversion HF; subst. by simplify_eq/=.
    + rewrite match_parts_level, IH by done. unfold matches_spec. split.
      * intros [Hl [[Hh HF]|(pre & post & t1 & t2 & -> & Hp & -> & HF)]].
        { left. split; [rewrite not_elem_of_cons; by split | by constructor]. }
        right. exists (f :: pre), post, (t :: t1), t2. rewrite not_elem_of_cons.
        repeat split; try done. by constructor.
      * intros [[Hh HF]|(pre & post & t1 & t2 & Heq & Hp & Ht & HF)].
        { apply not_elem_of_cons in Hh as [_ Hh]. inversion HF; subst. split; [done|]. by left. }
        destruct pre as [|g pre]; simplify_eq/=. apply not_elem_of_cons in Hp as [_ Hp].
        inversion HF; subst; simplify_eq/=. split; [done|]. right. by exists pre, post, l', t2.
Qed.

(** ** Well-formed filters *)

(** ["#"] is the last level if it occurs: what [validate_subscribe_topic] ensures. *)
Fixpoint hash_last (l : list str) : Prop :=
  match l with
  | [] => True
  | f :: fs => (f = hash -> fs = []) /\ hash_last fs
  end.

(** Of two filters that match the same topic, none is preferred only if they are
    the same filter. *)
Lemma specificity_inj f1 f2 ts :
  hash_last f1 -> hash_last f2 -> _match_parts f1 ts = true -> _match_parts f2 ts = true ->
  _segment_rank <$> f1 = _segment_rank <$> f2 -> f1 = f2.
Proof.
  revert f2 ts; induction f1 as [|a f1 IH]; intros [|b f2] ts H1 H2 M1 M2 HR; simplify_eq/=;
    [done|].
  destruct H1 as [Ha H1], H2 as [Hb H2]. unfold _segment_rank in *.
  repeat case_bool_decide; subst; try done.
  - by rewrite Ha, Hb.
  - destruct ts as [|t ts]; [done|]. simpl in *. f_equal. by eapply IH.
  - destruct ts as [|t ts]; [done|]. simpl in *. repeat case_bool_decide; simplify_eq/=; try done.
    f_equal. by eapply IH.
Qed.

Lemma filter_specificity_inj f1 f2 topic :
  hash_last (split_slash f1) -> hash_last (split_slash f2) ->
  _topic_matches f1 topic = true -> _topic_matches f2 topic = true ->
  _filter_specificity f1 = _filter_specificity f2 -> f1 = f2.
Proof.
  unfold _topic_matches, _filter_specificity. intros H1 H2 M1 M2 HR.
  repeat case_match; try done. apply split_slash_inj. by eapply specificity_inj.
Qed.

(** ** The filter the broker matches against *)

Lemma strip_prefixes_total f ps : exists g, strip_prefixes f ps = Ok g.
Proof.
  induction ps as [|p ps IH]; simpl; [by exists f|].
  destruct (startswith f (p ++ lit "/")) eqn:Hs; [|done].
  apply startswith_spec in Hs as (t & ->). unfold split_once_tail.
  destruct (partition_slash _) as [[h [|]] tl] eqn:Hp; [by exists tl|].
  apply partition_slash_not_found in Hp. destruct Hp.
  rewrite !elem_of_app. left; right. by left.
Qed.

Lemma shared_filter_to_actual_total f ps : exists g, _shared_filter_to_actual f ps = Ok g.
Proof.
  unfold _shared_filter_to_actual. pose proof (strip_prefixes_total f ps).
  destruct (startswith f (lit "$share/")); [|done].
  destruct (partition_slash _) as [[h [|]] t]; [by exists t|done].
Qed.

(** The result is the filter itself or what follows one of its slashes. *)
Lemma strip_prefixes_suffix f ps g :
  strip_prefixes f ps = Ok g -> g = f \/ exists h, f = h ++ (slash :: g).
Proof.
  induction ps as [|p ps IH]; simpl; [intros [= ->]; by left|].
  destruct (startswith f (p ++ lit "/")); [|done]. unfold split_once_tail.
  destruct (partition_slash f) as [[h [|]] tl] eqn:Hp; [intros [= ->]|done].
  right. exists h. by apply partition_slash_found.
Qed.

Lemma actual_suffix f ps g :
  _shared_filter_to_actual f ps = Ok g -> g = f \/ exists h, f = h ++ (slash :: g).
Proof.
  unfold _shared_filter_to_actual.
  destruct (startswith f (lit "$share/")) eqn:Hs; [|apply strip_prefixes_suffix].
  apply startswith_spec in Hs as (t & ->). rewrite removeprefix_app.
  destruct (partition_slash t) as [[h [|]] tl] eqn:Hp; [|apply strip_prefixes_suffix].
  intros [= ->]. right. apply partition_slash_found in Hp as ->.
  exists (lit "$share/" ++ h). by rewrite <- app_assoc.
Qed.

Lemma actual_share g f ps :
  slash ∉ g -> _shared_filter_to_actual (lit "$share/" ++ g ++ (slash :: f)) ps = Ok f.
Proof.
  intros Hg. unfold _shared_filter_to_actual.
  by rewrite startswith_app, removeprefix_app, partition_slash_app by done.
Qed.

Lemma startswith_level p q f :
  slash ∉ p -> slash ∉ q -> startswith (p ++ slash :: f) (q ++ lit "/") = bool_decide (p = q).
Proof.
  intros Hp Hq. apply Bool.eq_iff_eq_true. rewrite bool_decide_eq_true, startswith_spec. split.
  - intros (t & H). rewrite <- app_assoc in H. simpl in H. change 47 with slash in H.
    pose proof (partition_slash_app _ f Hp) as H1. rewrite H, partition_slash_app in H1 by done.
    congruence.
  - intros ->. exists f. by rewrite <- app_assoc.
Qed.

Lemma strip_prefixes_hit p f ps :
  slash ∉ p -> p ∈ ps -> Forall (fun q => slash ∉ q) ps ->
  strip_prefixes (p ++ slash :: f) ps = Ok f.
Proof.
  intros Hp Hin Hps. induction ps as [|q ps IH]; [inversion Hin|]. simpl.
  apply Forall_cons in Hps as [Hq Hps]. rewrite startswith_level by done.
  case_bool_decide as E.
  - unfold split_once_tail. by rewrite partition_slash_app.
  - apply elem_of_cons in Hin as [?|Hin]; [done|]. by apply IH.
Qed.

Lemma strip_prefixes_miss f ps :
  Forall (fun q => startswith f (q ++ lit "/") = false) ps -> strip_prefixes f ps = Ok f.
Proof. induction 1 as [|q ps Hq _ IH]; simpl; [done|]. by rewrite Hq. Qed.

(** ** What validation ensures *)

(** The only character that can be ["#"] is the last one. *)
Definition hash_at_end (s : str) : Prop := forall a b, s = a ++ (hash_char :: b) -> b = [].

Lemma hash_at_end_suffix h s : hash_at_end (h ++ s) -> hash_at_end s.
Proof. intros H a b ->. apply (H (h ++ a) b). by rewrite app_assoc. Qed.

Lemma hash_at_end_last s : hash_at_end s -> hash_last (split_slash s).
Proof.
  induction s as [|c s IH]; intros H; simpl; [by split|].
  assert (Hs : hash_at_end s) by (by apply (hash_at_end_suffix [c])).
  specialize (IH Hs). destruct (c =? slash) eqn:Hc; [by split|].
  destruct (split_slash_cons s) as (seg & segs & E). rewrite E in *. simpl in *.
  destruct IH as [IH1 IH2]. split; [|done]. unfold hash. simpl. intros [= -> ->].
  rewrite (H [] s eq_refl) in E. simpl in E. congruence.
Qed.

Lemma validate_hash_at_end f : validate_subscribe_topic f = Ok tt -> hash_at_end f.
Proof.
  unfold validate_subscribe_topic. intros H a b Heq.
  assert (Hin : char_in hash_char f = true).
  { apply bool_decide_eq_true. rewrite Heq, elem_of_app. right. by left. }
  rewrite Hin in H. clear Hin. do 2 (case_match; try done). res_inv. bool_inv.
  apply str_index_Ok in E0 as (a' & b' & Hf & Hna & <-).
  assert (Hb' : b' = []) by (rewrite Hf in *; destruct b'; [done|zlia]). subst b'.
  destruct b as [|x b _] using rev_ind; [done|].
  rewrite app_comm_cons, app_assoc in Hf. apply app_inj_tail in Hf as [Hf _].
  destruct Hna. rewrite <- Hf, elem_of_app. right. by left.
Qed.

Lemma validated_hash_last f ps g :
  validate_subscribe_topic f = Ok tt -> _shared_filter_to_actual f ps = Ok g ->
  hash_last (split_slash f) /\ hash_last (split_slash g).
Proof.
  intros Hv%validate_hash_at_end Ha%actual_suffix. split; [by apply hash_at_end_last|].
  apply hash_at_end_last. destruct Ha as [->|(h & ->)]; [done|].
  apply (hash_at_end_suffix (h ++ [slash])). by rewrite <- app_assoc.
Qed.

(** ** The grammar of filters *)

Definition plain (s : str) : Prop := (hash_char ∉ s) /\ (plus_char ∉ s).

(** Every level is plain or ["+"]; the last one may be ["#"]. *)
Fixpoint valid_levels (l : list str) : Prop :=
  match l with
  | [] => True
  | [s] => s = hash \/ s = plus \/ plain s
  | s :: l' => (s = plus \/ plain s) /\ valid_levels l'
  end.

Definition valid_filter (f : str) : Prop :=
  f <> [] /\ (dollar ∉ drop 1 f) /\ valid_levels (split_slash f).

Lemma validate_levels_spec ls :
  validate_levels ls = Ok tt <-> Forall (fun s => plus_char ∈ s -> s = plus) ls.
Proof.
  induction ls as [|s ls IH]; simpl; [split; [constructor|done]|].
  rewrite Forall_cons, <- IH. unfold char_in.
  destruct (decide (plus_char ∈ s)) as [Hin|Hin];
    [rewrite (bool_decide_true _ Hin) | rewrite (bool_decide_false _ Hin)]; simpl; [|tauto].
  destruct (decide (s = plus)) as [->|Hne].
  - rewrite bool_decide_false by tauto. tauto.
  - rewrite bool_decide_true by done. split; [done|tauto].
Qed.

(** Where a ["#"] may stand: at the end, alone or after a slash. *)
Definition hash_ok (s : str) : Prop :=
  forall a b, s = a ++ (hash_char :: b) -> b = [] /\ (a = [] \/ exists a', a = a' ++ [slash]).

Fixpoint hash_levels (l : list str) : Prop :=
  match l with
  | [] => True
  | [s] => s = hash \/ (hash_char ∉ s)
  | s :: l' => (hash_char ∉ s) /\ hash_levels l'
  end.

Definition hash_check (topic : str) : result unit :=
  if char_in hash_char topic then
    idx ← str_index hash_char topic;
    if negb (idx =? zlen topic - 1)
    then Err (MQTTInvalidTopicError "'#' must be the last character in a topic filter")
    else if (0 <? idx) && bool_decide (topic !! Z.to_nat (idx - 1) <> Some slash)
    then Err (MQTTInvalidTopicError "'#' must be preceded by '/' in a topic filter")
    else Ok tt
  else Ok tt.

(** The character before the first ["#"] *)
Lemma before_hash a b :
  (0 <? zlen a) && bool_decide ((a ++ b) !! Z.to_nat (zlen a - 1) <> Some slash) = false <->
  a = [] \/ exists a', a = a' ++ [slash].
Proof.
  destruct a as [|x a _] using rev_ind; [split; [by left|done]|].
  assert (Hl : zlen (a ++ [x]) = zlen a + 1) by zlia. rewrite Hl.
  replace (Z.to_nat (zlen a + 1 - 1)) with (length a) by (unfold zlen; lia).
  replace (0 <? zlen a + 1) with true by zlia. rewrite andb_true_l, <- app_assoc, bool_decide_eq_false.
  simpl. rewrite (list_lookup_middle a b x _ eq_refl). split.
  - intros H. right. exists a. f_equal. destruct (decide (x = slash)); [congruence|].
    destruct H. congruence.
  - intros [H|(a' & H)]; [by destruct a|]. apply app_inj_tail in H as [_ ->]. tauto.
Qed.

Lemma hash_check_spec s : hash_check s = Ok tt <-> hash_ok s.
Proof.
  unfold hash_check, char_in. case_bool_decide as Hin.
  2: { split; [|done]. intros _ a b ->. destruct Hin. rewrite elem_of_app. right. by left. }
  pose proof (str_index_in _ _ Hin) as HO.
  destruct (str_index hash_char s) as [i|] eqn:Hi; [clear HO|done]. simpl.
  apply str_index_Ok in Hi as (a & b & -> & Hna & <-).
  assert (Hu : forall a' b', a ++ (hash_char :: b) = a' ++ (hash_char :: b') -> b = [] ->
                             a' = a /\ b' = []).
  { intros a' b' Heq ->. destruct b' as [|x b' _] using rev_ind.
    - by apply app_inj_tail in Heq as [-> _].
    - rewrite app_comm_cons, app_assoc in Heq. apply app_inj_tail in Heq as [-> _].
      destruct Hna. rewrite elem_of_app. right. by left. }
  destruct (negb (zlen a =? zlen (a ++ hash_char :: b) - 1)) eqn:Hl.
  - apply negb_true_iff, Z.eqb_neq in Hl. split; [done|]. intros H.
    destruct (H a b eq_refl) as [-> _]. zlia.
  - apply negb_false_iff, Z.eqb_eq in Hl. assert (b = []) as -> by (destruct b; [done|zlia]).
    destruct ((0 <? zlen a) && _) eqn:Hb.
    + split; [done|]. intros H. destruct (H a [] eq_refl) as [_ Ha].
      apply (before_hash a [hash_char]) in Ha. congruence.
    + apply before_hash in Hb. split; [|done]. intros _ a' b' Heq.
      by destruct (Hu a' b' Heq eq_refl) as [-> ->].
Qed.

Lemma hash_ok_cons c s :
  hash_ok (c :: s) <->
    (c = hash_char -> s = []) /\ hash_ok s /\
    (c <> slash -> forall t, s <> hash_char :: t).
Proof.
  split.
  - intros H. split; [|split].
    + intros ->. by destruct (H [] s eq_refl).
    + intros a b ->. destruct (H (c :: a) b eq_refl) as [-> [?|(a' & Ha)]]; [done|].
      split; [done|]. destruct a as [|x a]; [by left|]. right.
      destruct a' as [|y a']; simplify_eq/=. by exists a'.
    + intros Hc t ->. destruct (H [c] t eq_refl) as [-> [?|(a' & Ha)]]; [done|].
      destruct a' as [|y [|? a']]; simplify_eq/=.
  - intros (Hc & Hs & Hn) a b Heq. destruct a as [|x a]; simplify_eq/=.
    + split; [by apply Hc|by left].
    + destruct (Hs a b eq_refl) as [-> Ha]. split; [done|]. right.
      destruct Ha as [->|(a' & ->)]; [|by exists (x :: a')].
      destruct (decide (x = slash)) as [->|Hx]; [by exists []|]. by destruct (Hn Hx []).
Qed.

Lemma hash_levels_cons s ls :
  ls <> [] -> hash_levels (s :: ls) <-> (hash_char ∉ s) /\ hash_levels ls.
Proof. by destruct ls. Qed.

Lemma split_slash_nil_inv s : split_slash s = [[]] -> s = [].
Proof. intros H. by rewrite <- (join_split s), H. Qed.

(** A filter starts with ["#"] iff its first level does. *)
Lemma split_slash_head c s seg segs :
  c <> slash -> split_slash s = seg :: segs ->
  (exists t, s = c :: t) <-> (exists t, seg = c :: t).
Proof.
  intros Hc. destruct s as [|x s]; simpl; [intros [= <- <-]; split; by intros [??]|].
  destruct (x =? slash) eqn:Hx; [|destruct (split_slash_cons s) as (g & gs & ->)];
    intros [= <- <-]; (split; intros [t Ht]; simplify_eq; eauto). by bool_inv.
Qed.

Lemma hash_levels_spec s : hash_ok s <-> hash_levels (split_slash s).
Proof.
  induction s as [|c s IH].
  { split; [|intros _ a b H; by destruct a]. intros _. right. apply not_elem_of_nil. }
  rewrite hash_ok_cons, IH. cbn [split_slash]. destruct (split_slash_cons s) as (seg & segs & E).
  destruct (c =? slash) eqn:Hc; bool_inv.
  { subst c. rewrite E, (hash_levels_cons [] (seg :: segs)) by done.
    split; [intros (_ & ? & _); split; [apply not_elem_of_nil|done]|].
    intros [_ ?]; split; [done|split; [done|by intros []]]. }
  rewrite E in *. pose proof (split_slash_head hash_char s seg segs ltac:(done) E) as Hh.
  assert (Hnil : s = [] <-> seg = [] /\ segs = []).
  { split; [intros ->; by simplify_eq/=|]. intros [-> ->]. by apply split_slash_nil_inv. }
  rewrite Hnil. assert (Hn : (c <> slash -> forall t, s <> hash_char :: t) <->
                             ~ exists t, seg = hash_char :: t).
  { rewrite <- Hh. split; [intros H [t Ht]; by eapply H|intros H _ t Ht; eauto]. }
  rewrite Hn. clear Hn Hnil Hh IH E. destruct segs as [|g gs].
  - simpl. unfold hash. simpl. rewrite not_elem_of_cons. change 35 with hash_char.
    destruct (decide (c = hash_char)) as [->|Hch].
    + split; [intros (H & _); left; destruct (H eq_refl); by subst|].
      intros [[= ->]|[? _]]; [|done]. split; [done|]. split; [right; apply not_elem_of_nil|].
      by intros [].
    + split; [intros (_ & [->|H] & Hne); [destruct Hne; eauto|by right]|].
      intros [[= -> ->]|[_ H]]; [done|]. split; [done|]. split; [by right|].
      intros [t ->]. apply H. by left.
  - rewrite (hash_levels_cons seg), (hash_levels_cons (c :: seg)), not_elem_of_cons by done. split.
    + intros (Hc' & [H1 H2] & Hne). split; [|done]. split; [|done]. intros <-.
      by destruct (Hc' eq_refl).
    + intros [[H1 H2] H3]. split; [congruence|]. split; [done|]. intros [t ->]. apply H2. by left.
Qed.

Lemma valid_levels_spec ls :
  valid_levels ls <-> hash_levels ls /\ Forall (fun s => plus_char ∈ s -> s = plus) ls.
Proof.
  assert (Hp : forall s, s = plus \/ plain s <-> (hash_char ∉ s) /\ (plus_char ∈ s -> s = plus)).
  { intros s. unfold plain. split.
    - intros [->|[H1 H2]]; [split; [|done]|tauto]. by intros [=]%list_elem_of_singleton.
    - intros [H1 H2]. destruct (decide (plus_char ∈ s)); tauto. }
  assert (Hh : plus_char ∉ hash) by (by intros [=]%list_elem_of_singleton).
  induction ls as [|s ls IH]; [split; [split; [done|constructor]|done]|].
  rewrite Forall_cons. destruct ls as [|s' ls].
  - cbn [valid_levels hash_levels]. rewrite Hp, Forall_nil. split.
    + intros [->|?]; [tauto|tauto].
    + intros [[->|?] ?]; tauto.
  - rewrite hash_levels_cons by done.
    change (valid_levels (s :: s' :: ls)) with ((s = plus \/ plain s) /\ valid_levels (s' :: ls)).
    rewrite Hp, IH. tauto.
Qed.

Lemma validate_subscribe_spec f : validate_subscribe_topic f = Ok tt <-> valid_filter f.
Proof.
  unfold validate_subscribe_topic, valid_filter. fold (hash_check f).
  rewrite valid_levels_spec, <- hash_levels_spec, <- hash_check_spec, <- validate_levels_spec.
  case_bool_decide as Hf; [split; [done|tauto]|]. unfold char_in at 1.
  case_bool_decide as Hd; [split; [done|tauto]|].
  destruct (hash_check f) as [[]|]; simpl; [tauto|]. split; [done|]. by intros (_ & _ & ? & _).
Qed.

Lemma validate_publish_spec t :
  validate_publish t = Ok tt <-> t <> [] /\ plain t /\ (dollar ∉ drop 1 t).
Proof.
  unfold validate_publish, char_in, plain. repeat case_bool_decide; simpl; split; try done; tauto.
Qed.

Lemma validate_subscribe_err f e :
  validate_subscribe_topic f = Err e -> exists msg, e = MQTTInvalidTopicError msg.
Proof.
  unfold validate_subscribe_topic. fold (hash_check f). intros H.
  case_bool_decide; [simplify_eq; eauto|]. destruct (char_in dollar _); [simplify_eq; eauto|].
  apply bind_Err in H as [H|(u & _ & H)].
  - unfold hash_check, char_in in H. case_bool_decide as Hin; [|done].
    apply bind_Err in H as [H|(i & _ & H)].
    + pose proof (str_index_in _ _ Hin) as HO. by rewrite H in HO.
    + repeat case_match; simplify_eq; eauto.
  - revert H. induction (split_slash f) as [|s ls IH]; simpl; [done|].
    case_match; [intros; simplify_eq; eauto|done].
Qed.

Lemma validate_publish_err t e :
  validate_publish t = Err e -> exists msg, e = MQTTInvalidTopicError msg.
Proof. unfold validate_publish. intros H. repeat case_match; simplify_eq; eauto. Qed.

Lemma startswith_dollar s : startswith s (lit "$") = bool_decide (head s = Some dollar).
Proof.
  destruct s as [|c s]; [done|]. simpl. rewrite andb_true_r. apply Bool.eq_iff_eq_true.
  rewrite bool_decide_eq_true, Z.eqb_eq. split; [by intros ->|by intros [= ->]].
Qed.

(** ** Properties *)

(** C12: matching is the matching of the MQTT standard: level by level, with ["+"]
    for one level and ["#"] for the parent level and everything below, and wildcard
    filters never match topics that start with a dollar sign unless they start with
    one themselves. *)
Theorem topic_matching_standard filter_ topic :
  _topic_matches filter_ topic = true <->
  (head topic = Some dollar <-> head filter_ = Some dollar) /\
  matches_spec (split_slash filter_) (split_slash topic).
Proof.
  unfold _topic_matches. rewrite !startswith_dollar, <- match_parts_spec.
  repeat case_bool_decide; simpl; split; first [done | tauto].
Qed.

(** [topic_matches] matches the topic against what the broker matches it against:
    a shared subscription without its [$share/<group>/], a filter under a stripped
    prefix without that prefix, and any other filter as it is. *)
Theorem actual_filter_forms ps topic :
  Forall (fun q => slash ∉ q) ps ->
  (forall group f, slash ∉ group ->
     topic_matches (lit "$share/" ++ group ++ slash :: f) topic ps = Ok (_topic_matches f topic)) /\
  (forall p f, p ∈ ps -> p <> lit "$share" ->
     topic_matches (p ++ slash :: f) topic ps = Ok (_topic_matches f topic)) /\
  (forall f, startswith f (lit "$share/") = false ->
     Forall (fun q => startswith f (q ++ lit "/") = false) ps ->
     topic_matches f topic ps = Ok (_topic_matches f topic)).
Proof.
  intros Hps. unfold topic_matches. split; [|split].
  - intros g f Hg. by rewrite actual_share.
  - intros p f Hp Hs. pose proof Hps as HF. rewrite Forall_forall in HF.
    unfold _shared_filter_to_actual. change (lit "$share/") with (lit "$share" ++ lit "/").
    rewrite startswith_level, bool_decide_false; [|done|by apply HF|].
    + by rewrite strip_prefixes_hit by auto.
    + apply (bool_decide_unpack _). vm_compute. exact I.
  - intros f Hs Hf. unfold _shared_filter_to_actual. by rewrite Hs, strip_prefixes_miss.
Qed.

Lemma actual_filter_forms_witness :
  topic_matches (lit "$share/g/a/+") (lit "a/b") _DEFAULT_STRIPPED_PREFIXES = Ok true /\
  topic_matches (lit "$queue/a/#") (lit "a") _DEFAULT_STRIPPED_PREFIXES = Ok true.
Proof.
  assert (Hps : Forall (fun q => slash ∉ q) _DEFAULT_STRIPPED_PREFIXES)
    by (apply (bool_decide_unpack _); vm_compute; exact I).
  split.
  - apply (proj1 (actual_filter_forms _ (lit "a/b") Hps) (lit "g") (lit "a/+")).
    apply (bool_decide_unpack _); vm_compute; exact I.
  - apply (proj1 (proj2 (actual_filter_forms _ (lit "a") Hps)) (lit "$queue") (lit "a/#"));
      [by left|done].
Defined.

(** [validate_subscribe_topic] accepts exactly the grammar of topic filters: not
    empty, a dollar sign only in front, every level plain or ["+"], and ["#"] only as
    the last level; [validate_publish] accepts exactly the non-empty topics without
    wildcards and without an inner dollar sign.  Both reject with
    [MQTTInvalidTopicError]. *)
Theorem topic_validation_grammar f :
  match validate_subscribe_topic f with
  | Ok _ => valid_filter f
  | Err e => ~ valid_filter f /\ exists msg, e = MQTTInvalidTopicError msg
  end /\
  match validate_publish f with
  | Ok _ => f <> [] /\ plain f /\ (dollar ∉ drop 1 f)
  | Err e => ~ (f <> [] /\ plain f /\ (dollar ∉ drop 1 f)) /\
             exists msg, e = MQTTInvalidTopicError msg
  end.
Proof.
  split.
  - destruct (validate_subscribe_topic f) as [[]|e] eqn:H; [by apply validate_subscribe_spec|].
    split; [rewrite <- validate_subscribe_spec; congruence|]. by eapply validate_subscribe_err.
  - destruct (validate_publish f) as [[]|e] eqn:H; [by apply validate_publish_spec|].
    split; [rewrite <- validate_publish_spec; congruence|]. by eapply validate_publish_err.
Qed.
