(* ===== verification/SubscriptionIndex.v ===== *)
(** * The subscription index ([subscription_index.py])

    The trie of topic filters with the two dictionaries beside it, operation by
    operation.  Python's [dict]s keep insertion order, which the code relies on, so
    they are the ordered dictionaries of [PyDict].  An entry is a mutable object
    compared with [is]: [se_ref] is its identity. *)

From S2P Require Import Prelude Utf8 PyStr PyDict TopicMatching.
Local Open Scope Z_scope.

Record SubscriptionEntry := mkEntry {
  se_ref : nat;
  queue : nat;
  auto_ack : bool;
  actual_filter : str;
  subscription_identifier : option Z;
}.

#[export] Instance SubscriptionEntry_eq_dec : EqDecision SubscriptionEntry.
Proof. solve_decision. Defined.

(** [(filter_, entry)] *)
Definition item : Type := str * SubscriptionEntry.

Inductive _Node := mkNode {
  children : list (str * _Node);
  wildcard_children : list (str * _Node);
  entries : list item;
}.

Record SubscriptionSelection := mkSelection {
  recipient : option item;
  identifier_missing : bool;
  tied_filters : list str;
}.

Record SubscriptionIndex := mkIndex {
  _root : _Node;
  _entries : dict str SubscriptionEntry;
  _by_identifier : dict Z (dict str SubscriptionEntry);
  _response_observers : gset str;
}.

Definition empty_node : _Node := mkNode [] [] [].

Definition new_index : SubscriptionIndex := mkIndex empty_node [] [] ∅.

(** ** The trie *)

Definition is_wild (part : str) : bool := bool_decide (part = plus) || bool_decide (part = hash).

(** [mapping.get(part)] in the dictionary the part belongs to *)
Definition get_child (node : _Node) (part : str) : option _Node :=
  dict_get (if is_wild part then wildcard_children node else children node) part.

(** [mapping[part] = child] *)
Definition set_child (node : _Node) (part : str) (child : _Node) : _Node :=
  if is_wild part
  then mkNode (children node) (dict_set (wildcard_children node) part child) (entries node)
  else mkNode (dict_set (children node) part child) (wildcard_children node) (entries node).

(** [mapping.pop(part)] *)
Definition pop_child (node : _Node) (part : str) : _Node :=
  if is_wild part
  then mkNode (children node) (dict_del (wildcard_children node) part) (entries node)
  else mkNode (dict_del (children node) part) (wildcard_children node) (entries node).

(** The loop of [add] with the append that follows it *)
Fixpoint insert_entry (parts : list str) (it : item) (node : _Node) : _Node :=
  match parts with
  | [] => mkNode (children node) (wildcard_children node) (entries node ++ [it])
  | part :: parts' =>
      let child := default empty_node (get_child node part) in
      set_child node part (insert_entry parts' it child)
  end.

Definition node_is_empty (n : _Node) : bool :=
  bool_decide (length (children n) = 0%nat) && bool_decide (length (wildcard_children n) = 0%nat)
  && bool_decide (length (entries n) = 0%nat).

Fixpoint _remove_entry (parts : list str) (filter_ : str) (entry : SubscriptionEntry)
    (node : _Node) : _Node :=
  match parts with
  | [] =>
      mkNode (children node) (wildcard_children node)
        (filter (fun it => ~ (it.1 = filter_ /\ se_ref it.2 = se_ref entry)) (entries node))
  | part :: parts' =>
      match get_child node part with
      | None => node
      | Some child =>
          let child' := _remove_entry parts' filter_ entry child in
          if node_is_empty child' then pop_child node part else set_child node part child'
      end
  end.

Fixpoint _collect (parts : list str) (node : _Node) : list item :=
  (match dict_get (wildcard_children node) hash with Some n => entries n | None => [] end) ++
  match parts with
  | [] => entries node
  | part :: parts' =>
      (match dict_get (children node) part with Some n => _collect parts' n | None => [] end) ++
      (match dict_get (wildcard_children node) plus with
       | Some n => _collect parts' n
       | None => []
       end)
  end.

(** ** Ordering of candidates *)

(** [<=] on tuples of integers *)
Fixpoint tuple_leb (a b : list Z) : bool :=
  match a, b with
  | [], _ => true
  | _ :: _, [] => false
  | x :: a', y :: b' => if x =? y then tuple_leb a' b' else x <? y
  end.

(** [sorted(l, key=key)]: a stable sort *)
Fixpoint insert_sorted {A} (key : A -> list Z) (x : A) (l : list A) : list A :=
  match l with
  | [] => [x]
  | y :: l' => if tuple_leb (key x) (key y) then x :: l else y :: insert_sorted key x l'
  end.

Definition sorted {A} (key : A -> list Z) (l : list A) : list A := foldr (insert_sorted key) [] l.

(** [min(k1, k2, ...)] *)
Fixpoint tuple_min (k : list Z) (ks : list (list Z)) : list Z :=
  match ks with
  | [] => k
  | k' :: ks' => tuple_min (if tuple_leb k k' then k else k') ks'
  end.

(** ** Operations of the index *)

(** [entry.actual_filter or filter_] *)
Definition _actual_filter (it : item) : str :=
  if bool_decide (actual_filter it.2 = []) then it.1 else actual_filter it.2.

Definition _specificity (filter_ : str) : list Z := _segment_rank <$> split_slash filter_.

Definition item_matches (topic : str) (it : item) : bool := _topic_matches (_actual_filter it) topic.

Definition item_key (it : item) : list Z := _specificity (_actual_filter it).

(** [self._by_identifier] without the entry of [filter_] *)
Definition drop_identified (by_id : dict Z (dict str SubscriptionEntry)) (identifier : Z)
    (filter_ : str) : dict Z (dict str SubscriptionEntry) :=
  match dict_get by_id identifier with
  | None => by_id
  | Some identified =>
      let identified := dict_del identified filter_ in
      if bool_decide (length identified = 0%nat) then dict_del by_id identifier
      else dict_set by_id identifier identified
  end.

Definition remove (ix : SubscriptionIndex) (filter_ : str)
    : option SubscriptionEntry * SubscriptionIndex :=
  match dict_get (_entries ix) filter_ with
  | None => (None, ix)
  | Some entry =>
      let tree_filter := _actual_filter (filter_, entry) in
      let root := _remove_entry (split_slash tree_filter) filter_ entry (_root ix) in
      let by_id :=
        match subscription_identifier entry with
        | Some identifier => drop_identified (_by_identifier ix) identifier filter_
        | None => _by_identifier ix
        end in
      (Some entry,
       mkIndex root (dict_del (_entries ix) filter_) by_id (_response_observers ix))
  end.

Definition add (ix : SubscriptionIndex) (filter_ : str) (entry : SubscriptionEntry)
    : SubscriptionIndex :=
  let ix := if dict_in filter_ (_entries ix) then (remove ix filter_).2 else ix in
  let tree_filter := _actual_filter (filter_, entry) in
  let root := insert_entry (split_slash tree_filter) (filter_, entry) (_root ix) in
  let by_id :=
    match subscription_identifier entry with
    | Some identifier =>
        let identified := default [] (dict_get (_by_identifier ix) identifier) in
        dict_set (_by_identifier ix) identifier (dict_set identified filter_ entry)
    | None => _by_identifier ix
    end in
  mkIndex root (dict_set (_entries ix) filter_ entry) by_id (_response_observers ix).

Definition contains (ix : SubscriptionIndex) (filter_ : str) : bool :=
  dict_in filter_ (_entries ix).

Definition get (ix : SubscriptionIndex) (filter_ : str) (default_ : option SubscriptionEntry)
    : option SubscriptionEntry :=
  match dict_get (_entries ix) filter_ with Some e => Some e | None => default_ end.

Definition add_response_observer (ix : SubscriptionIndex) (topic : str)
    : bool * SubscriptionIndex :=
  if decide (topic ∈ _response_observers ix) then (false, ix)
  else (true, mkIndex (_root ix) (_entries ix) (_by_identifier ix)
                ({[topic]} ∪ _response_observers ix)).

Definition remove_response_observer (ix : SubscriptionIndex) (topic : str)
    : bool * SubscriptionIndex :=
  if decide (topic ∈ _response_observers ix)
  then (true, mkIndex (_root ix) (_entries ix) (_by_identifier ix)
                (_response_observers ix ∖ {[topic]}))
  else (false, ix).

Definition has_response_observer (ix : SubscriptionIndex) (topic : str) : bool :=
  bool_decide (topic ∈ _response_observers ix).

Definition clear (ix : SubscriptionIndex) : SubscriptionIndex := new_index.

Definition add_many (ix : SubscriptionIndex) (l : dict str SubscriptionEntry)
    : SubscriptionIndex :=
  foldl (fun ix it => add ix it.1 it.2) ix l.

Definition match_ (ix : SubscriptionIndex) (topic : str) : list item :=
  let matches := _collect (split_slash topic) (_root ix) in
  let filtered := filter (fun it => item_matches topic it = true) matches in
  sorted item_key filtered.

Definition by_identifier (ix : SubscriptionIndex) (identifier : Z) : list item :=
  default [] (dict_get (_by_identifier ix) identifier).

Definition _select_from (candidates : list item) : SubscriptionSelection :=
  match candidates with
  | [] => mkSelection None false []
  | c :: cs =>
      let best_key := tuple_min (item_key c) (item_key <$> cs) in
      let winners := filter (fun it => item_key it = best_key) candidates in
      let tied := if (1 <? length winners)%nat then winners.*1 else [] in
      mkSelection (head winners) false tied
  end.

Definition select (ix : SubscriptionIndex) (topic : str) : SubscriptionSelection :=
  _select_from (match_ ix topic).

Definition best (ix : SubscriptionIndex) (topic : str) : option item :=
  recipient (select ix topic).

Definition select_by_identifier (ix : SubscriptionIndex) (topic : str) (identifier : Z)
    : SubscriptionSelection :=
  let identified := by_identifier ix identifier in
  match identified with
  | [] =>
      let fallback := select ix topic in
      mkSelection (recipient fallback) true (tied_filters fallback)
  | _ =>
      let matching := filter (fun it => item_matches topic it = true) identified in
      _select_from (match matching with [] => identified | _ => matching end)
  end.
