(* ===== verification/IndexFacts.v ===== *)
(** * Correctness of the subscription index

    The trie is a representation of the registration-ordered dictionary of entries:
    every operation preserves the representation, matching is a filter of the
    dictionary, and selection is a linear scan of it. *)

From Stdlib Require Import Sorted.
From S2P Require Import Prelude Utf8 PyStr PyDict TopicMatching SubscriptionIndex.
Local Open Scope Z_scope.

(** ** Filtering lists *)

Section filters.
Context {A : Type}.
Implicit Types (l : list A).

Lemma filter_ext_in (P Q : A -> Prop) `{!forall x, Decision (P x)} `{!forall x, Decision (Q x)} l :
  (forall x, x ∈ l -> P x <-> Q x) -> filter P l = filter Q l.
Proof.
  induction l as [|x l IH]; intros HF; [done|]. rewrite !filter_cons.
  assert (Hx : P x <-> Q x) by (apply HF; by left).
  rewrite IH by (intros y Hy; apply HF; by right).
  destruct (decide (P x)); [rewrite decide_True by tauto | rewrite decide_False by tauto]; done.
Qed.

Lemma filter_none (P : A -> Prop) `{!forall x, Decision (P x)} l :
  (forall x, x ∈ l -> ~ P x) -> filter P l = [].
Proof.
  induction l as [|x l IH]; intros HF; [done|].
  rewrite filter_cons, decide_False by (apply HF; by left). apply IH. intros y Hy. apply HF. by right.
Qed.

Lemma filter_all (P : A -> Prop) `{!forall x, Decision (P x)} l :
  (forall x, x ∈ l -> P x) -> filter P l = l.
Proof.
  induction l as [|x l IH]; intros HF; [done|].
  rewrite filter_cons, decide_True by (apply HF; by left). f_equal. apply IH.
  intros y Hy. apply HF. by right.
Qed.

(** Splitting a filter on a partition. *)
Lemma filter_or (P Q : A -> Prop) `{!forall x, Decision (P x)} `{!forall x, Decision (Q x)} l :
  (forall x, P x -> ~ Q x) -> filter (fun x => P x \/ Q x) l ≡ₚ filter P l ++ filter Q l.
Proof.
  intros HPQ. induction l as [|x l IH]; [done|]. rewrite !filter_cons.
  destruct (decide (P x)) as [HP|HP].
  - rewrite decide_True by tauto. rewrite (decide_False (P := Q x)) by auto. simpl. by rewrite IH.
  - destruct (decide (Q x)) as [HQ|HQ].
    + rewrite decide_True by tauto. rewrite IH. apply Permutation_middle.
    + by rewrite decide_False by tauto.
Qed.

(** Grouping a list by the value of a function, over distinct values. *)
Context {B : Type} `{!EqDecision B} (g : A -> B).

Definition groups (bs : list B) l : list A := concat ((fun b => filter (fun x => g x = b) l) <$> bs).

Lemma groups_filter bs l : NoDup bs -> groups bs l ≡ₚ filter (fun x => g x ∈ bs) l.
Proof.
  unfold groups. induction 1 as [|b bs Hb Hnd IH]; simpl.
  { rewrite (filter_none (fun x => g x ∈ [])); [done|]. intros x _ H. inversion H. }
  rewrite IH, <- filter_or by (intros x <-; done).
  rewrite (filter_ext_in _ (fun x => g x ∈ b :: bs)); [done|].
  intros x _. by rewrite elem_of_cons.
Qed.

Lemma groups_group bs l b :
  NoDup bs -> b ∈ bs -> filter (fun x => g x = b) (groups bs l) = filter (fun x => g x = b) l.
Proof.
  unfold groups. induction 1 as [|b' bs Hb' Hnd IH]; [intros H; inversion H|].
  simpl. rewrite filter_app, list_filter_filter, elem_of_cons. intros Hin.
  destruct (decide (b = b')) as [->|Hne].
  - rewrite (filter_ext_in _ (fun x => g x = b') l) by (intros; tauto).
    rewrite (filter_none _ (concat _)); [by rewrite app_nil_r|].
    intros x Hx Hg. apply Hb'. change (x ∈ groups bs l) in Hx.
    rewrite groups_filter, list_elem_of_filter in Hx by done. destruct Hx as [Hx _]. by subst.
  - rewrite filter_none; [simpl; apply IH; tauto|]. intros x _ [-> ?]. done.
Qed.

End filters.

(** ** The order on specificities *)

Lemma tuple_leb_refl a : tuple_leb a a = true.
Proof. induction a as [|x a IH]; simpl; [done|]. by rewrite Z.eqb_refl. Qed.

Lemma tuple_leb_trans a b c : tuple_leb a b = true -> tuple_leb b c = true -> tuple_leb a c = true.
Proof.
  revert b c; induction a as [|x a IH]; intros [|y b] [|z c]; simpl; try done.
  destruct (x =? y) eqn:E1, (y =? z) eqn:E2; intros H1 H2; bool_inv; subst.
  - rewrite Z.eqb_refl. by eapply IH.
  - replace (y =? z) with false by lia. lia.
  - replace (x =? z) with false by lia. lia.
  - replace (x =? z) with false by lia. lia.
Qed.

Lemma tuple_leb_total a b : tuple_leb a b = false -> tuple_leb b a = true.
Proof.
  revert b; induction a as [|x a IH]; intros [|y b]; simpl; try done.
  rewrite (Z.eqb_sym y x). destruct (x =? y) eqn:E; [apply IH|]. lia.
Qed.

Lemma tuple_leb_antisym a b : tuple_leb a b = true -> tuple_leb b a = true -> a = b.
Proof.
  revert b; induction a as [|x a IH]; intros [|y b]; simpl; try done.
  rewrite (Z.eqb_sym y x). destruct (x =? y) eqn:E; [|lia].
  intros H1 H2. bool_inv. subst. f_equal. by apply IH.
Qed.

(** [min] of a non-empty collection: a member below all members. *)
Lemma tuple_min_spec k ks :
  tuple_min k ks ∈ k :: ks /\ (forall k', k' ∈ k :: ks -> tuple_leb (tuple_min k ks) k' = true).
Proof.
  revert k; induction ks as [|k1 ks IH]; intros k; simpl.
  { split; [by left|]. intros k' ->%list_elem_of_singleton. apply tuple_leb_refl. }
  destruct (tuple_leb k k1) eqn:Hk.
  - destruct (IH k) as [Hin Hle]. split.
    + apply elem_of_cons in Hin as [->|?]; [by left|]. do 2 right. done.
    + intros k' [->|[->|Hk']%elem_of_cons]%elem_of_cons; [apply Hle; by left| |].
      * eapply tuple_leb_trans; [apply Hle; by left|done].
      * apply Hle. by right.
  - destruct (IH k1) as [Hin Hle]. split; [by right|].
    intros k' [->|Hk']%elem_of_cons; [|by apply Hle].
    eapply tuple_leb_trans; [apply Hle; by left|]. by apply tuple_leb_total.
Qed.

Lemma tuple_min_perm k ks k' ks' : k :: ks ≡ₚ k' :: ks' -> tuple_min k ks = tuple_min k' ks'.
Proof.
  intros HP. destruct (tuple_min_spec k ks) as [H1 H2], (tuple_min_spec k' ks') as [H3 H4].
  apply tuple_leb_antisym; [apply H2; by rewrite HP | apply H4; by rewrite <- HP].
Qed.

Section sorting.
Context {A : Type} (key : A -> list Z).
Implicit Types (l : list A).

Lemma insert_sorted_perm x l : insert_sorted key x l ≡ₚ x :: l.
Proof.
  induction l as [|y l IH]; simpl; [done|]. destruct (tuple_leb _ _); [done|].
  rewrite IH. constructor.
Qed.

Lemma sorted_perm l : sorted key l ≡ₚ l.
Proof. induction l as [|x l IH]; simpl; [done|]. by rewrite insert_sorted_perm, IH. Qed.

Lemma insert_sorted_stable k x l :
  filter (fun y => key y = k) (insert_sorted key x l) = filter (fun y => key y = k) (x :: l).
Proof.
  induction l as [|y l IH]; simpl; [done|]. destruct (tuple_leb (key x) (key y)) eqn:Hle; [done|].
  rewrite filter_cons, IH, !filter_cons. destruct (decide (key x = k)), (decide (key y = k)); try done.
  subst. rewrite e0, tuple_leb_refl in Hle. done.
Qed.

(** The sort is stable: equal keys keep their order. *)
Lemma sorted_stable k l :
  filter (fun y => key y = k) (sorted key l) = filter (fun y => key y = k) l.
Proof.
  induction l as [|x l IH]; simpl; [done|].
  rewrite insert_sorted_stable, !filter_cons. by rewrite IH.
Qed.

Lemma insert_sorted_Sorted x l :
  StronglySorted (fun a b => tuple_leb (key a) (key b) = true) l ->
  StronglySorted (fun a b => tuple_leb (key a) (key b) = true) (insert_sorted key x l).
Proof.
  induction 1 as [|y l HS IH HF]; simpl; [by repeat constructor|].
  destruct (tuple_leb (key x) (key y)) eqn:Hle.
  - constructor; [by constructor|]. constructor; [done|].
    eapply Forall_impl; [exact HF|]. intros z Hz. by eapply tuple_leb_trans.
  - constructor; [done|]. rewrite insert_sorted_perm. constructor; [by apply tuple_leb_total|done].
Qed.

Lemma sorted_Sorted l :
  StronglySorted (fun a b => tuple_leb (key a) (key b) = true) (sorted key l).
Proof. induction l; simpl; [constructor|]. by apply insert_sorted_Sorted. Qed.

End sorting.

(** ** The trie *)

Definition path (it : item) : list str := split_slash (_actual_filter it).

Fixpoint node_at (parts : list str) (node : _Node) : list item :=
  match parts with
  | [] => entries node
  | part :: parts' =>
      match get_child node part with Some c => node_at parts' c | None => [] end
  end.

(** Literal levels and wildcard levels live in their own dictionaries. *)
Definition keys_ok (n : _Node) : Prop :=
  (forall k c, dict_get (children n) k = Some c -> is_wild k = false) /\
  (forall k c, dict_get (wildcard_children n) k = Some c -> is_wild k = true).

(** No node below the root is without an entry below it: [remove] leaks nothing. *)
Inductive good_node : _Node -> Prop :=
| Good n :
    keys_ok n ->
    (forall part c, get_child n part = Some c -> good_node c) ->
    (forall part c, get_child n part = Some c -> exists q, node_at q c <> []) ->
    good_node n.

Lemma get_set_child n p q c :
  get_child (set_child n p c) q = if decide (q = p) then Some c else get_child n q.
Proof.
  unfold get_child, set_child. destruct (decide (q = p)) as [->|Hne].
  - destruct (is_wild p); simpl; by rewrite dict_get_set_eq.
  - destruct (is_wild p), (is_wild q); simpl; try done; by rewrite dict_get_set_ne.
Qed.

Lemma get_pop_child n p q :
  get_child (pop_child n p) q = if decide (q = p) then None else get_child n q.
Proof.
  unfold get_child, pop_child. destruct (decide (q = p)) as [->|Hne].
  - destruct (is_wild p); simpl; by rewrite dict_get_del_eq.
  - destruct (is_wild p), (is_wild q); simpl; try done; by rewrite dict_get_del_ne.
Qed.

Lemma entries_set_child n p c : entries (set_child n p c) = entries n.
Proof. unfold set_child. by destruct (is_wild p). Qed.

Lemma entries_pop_child n p : entries (pop_child n p) = entries n.
Proof. unfold pop_child. by destruct (is_wild p). Qed.

Lemma keys_ok_set_child n p c : keys_ok n -> keys_ok (set_child n p c).
Proof.
  intros [H1 H2]. unfold set_child. destruct (is_wild p) eqn:Hp; split; simpl; try done;
    intros k d; (destruct (decide (k = p)) as [->|Hne]; [done|]);
    rewrite dict_get_set_ne by done; eauto.
Qed.

Lemma keys_ok_pop_child n p : keys_ok n -> keys_ok (pop_child n p).
Proof.
  intros [H1 H2]. unfold pop_child. destruct (is_wild p) eqn:Hp; split; simpl; try done;
    intros k d; (destruct (decide (k = p)) as [->|Hne]; [by rewrite dict_get_del_eq|]);
    rewrite dict_get_del_ne by done; eauto.
Qed.

Lemma get_child_nil part : get_child empty_node part = None.
Proof. unfold get_child. by destruct (is_wild part). Qed.

Lemma good_empty : good_node empty_node.
Proof.
  constructor; [done|..]; intros part c; by rewrite get_child_nil.
Qed.

Lemma node_at_empty q : node_at q empty_node = [].
Proof. destruct q; simpl; [done|]. by rewrite get_child_nil. Qed.

Lemma good_child n part c : good_node n -> get_child n part = Some c -> good_node c.
Proof. inversion 1. eauto. Qed.

Lemma good_set_child n p c q :
  good_node n -> good_node c -> node_at q c <> [] -> good_node (set_child n p c).
Proof.
  intros [m Hk Hg He] Hc Hq. constructor; [by apply keys_ok_set_child|..];
    intros part d; rewrite get_set_child; case_decide; intros [= <-] || intros Hd; eauto.
Qed.

Lemma good_pop_child n p : good_node n -> good_node (pop_child n p).
Proof.
  intros [m Hk Hg He]. constructor; [by apply keys_ok_pop_child|..];
    intros part d; rewrite get_pop_child; case_decide; [done|eauto|done|eauto].
Qed.

Lemma good_entries n es : good_node n -> good_node (mkNode (children n) (wildcard_children n) es).
Proof. intros [m Hk Hg He]. by constructor. Qed.

(** A node that [remove] keeps has an entry below it. *)
Lemma good_not_empty n : good_node n -> node_is_empty n = false -> exists q, node_at q n <> [].
Proof.
  intros [m [H1 H2] Hg He] Hn. destruct m as [cs ws [|e es]]; [|by exists []].
  assert (Hc : exists part c, get_child (mkNode cs ws []) part = Some c).
  { destruct cs as [|[k c] cs]; [destruct ws as [|[k c] ws]; [done|]|]; exists k; unfold get_child.
    - rewrite (H2 k c); simpl; [|by rewrite decide_True]. rewrite decide_True by done. by exists c.
    - rewrite (H1 k c); simpl; [|by rewrite decide_True]. rewrite decide_True by done. by exists c. }
  destruct Hc as (part & c & Hc). destruct (He _ _ Hc) as (q & Hq).
  exists (part :: q). simpl. by rewrite Hc.
Qed.

(** *** Insertion *)

Lemma node_at_insert q ps it n :
  node_at q (insert_entry ps it n) = node_at q n ++ (if decide (q = ps) then [it] else []).
Proof.
  revert q n; induction ps as [|p ps IH]; intros [|x q] n; simpl.
  - done.
  - change (get_child (mkNode _ _ _) x) with (get_child n x). by rewrite app_nil_r.
  - by rewrite entries_set_child, app_nil_r.
  - rewrite get_set_child. destruct (decide (x = p)) as [->|Hne].
    + rewrite IH. destruct (get_child n p) as [c|]; simpl.
      * f_equal. apply decide_ext. naive_solver.
      * rewrite node_at_empty. apply decide_ext. naive_solver.
    + rewrite (decide_False (P := x :: q = p :: ps)) by congruence. by rewrite app_nil_r.
Qed.

Lemma good_insert ps it n : good_node n -> good_node (insert_entry ps it n).
Proof.
  revert n; induction ps as [|p ps IH]; intros n Hn; simpl; [by apply good_entries|].
  apply (good_set_child _ _ _ ps); [done|..].
  - apply IH. destruct (get_child n p) eqn:Hc; [by eapply good_child | apply good_empty].
  - rewrite node_at_insert, decide_True by done. intros [_ ?]%app_nil. done.
Qed.

(** *** Removal *)

Lemma node_is_empty_true n : node_is_empty n = true -> n = empty_node.
Proof. by destruct n as [[|??] [|??] [|??]]. Qed.

Lemma node_at_remove q ps f e n :
  node_at q (_remove_entry ps f e n) =
    if decide (q = ps)
    then filter (fun it => ~ (it.1 = f /\ se_ref it.2 = se_ref e)) (node_at q n)
    else node_at q n.
Proof.
  revert q n; induction ps as [|p ps IH]; intros q n; [by destruct q|]. simpl.
  destruct (get_child n p) as [c|] eqn:Hc.
  2: { case_decide; subst; simpl; [|done]. by rewrite Hc. }
  assert (Hgen : node_at q (set_child n p (_remove_entry ps f e c)) =
    if decide (q = p :: ps)
    then filter (fun it => ~ (it.1 = f /\ se_ref it.2 = se_ref e)) (node_at q n)
    else node_at q n).
  { destruct q as [|x q]; simpl; [by rewrite entries_set_child|].
    rewrite get_set_child. destruct (decide (x = p)) as [->|Hne].
    - rewrite IH, Hc. apply decide_ext. naive_solver.
    - by rewrite (decide_False (P := x :: q = p :: ps)) by congruence. }
  destruct (node_is_empty _) eqn:He; [|done]. rewrite <- Hgen.
  destruct q as [|x q]; simpl; [by rewrite entries_pop_child, entries_set_child|].
  rewrite get_pop_child, get_set_child. destruct (decide (x = p)); [|done].
  by rewrite (node_is_empty_true _ He), node_at_empty.
Qed.

Lemma good_remove ps f e n : good_node n -> good_node (_remove_entry ps f e n).
Proof.
  revert n; induction ps as [|p ps IH]; intros n Hn; simpl; [by apply good_entries|].
  destruct (get_child n p) as [c|] eqn:Hc; [|done].
  assert (Hg : good_node (_remove_entry ps f e c)) by (eapply IH, good_child; eauto).
  destruct (node_is_empty _) eqn:He; [by apply good_pop_child|].
  destruct (good_not_empty _ Hg He) as (q & Hq). by apply (good_set_child _ _ _ q).
Qed.

(** ** Collection *)

(** The paths of the filters that match a topic. *)
Fixpoint pats (parts : list str) : list (list str) :=
  [hash] ::
  match parts with
  | [] => [[]]
  | part :: parts' =>
      (if is_wild part then [] else cons part <$> pats parts') ++ (cons plus <$> pats parts')
  end.

Lemma is_wild_true p : is_wild p = true <-> p = plus \/ p = hash.
Proof. unfold is_wild. by rewrite orb_true_iff, !bool_decide_eq_true. Qed.

Lemma pats_spec q ps : q ∈ pats ps <-> _match_parts q ps = true /\ hash_last q.
Proof.
  revert q; induction ps as [|p ps IH]; intros q; simpl; rewrite elem_of_cons.
  - rewrite list_elem_of_singleton. destruct q as [|f [|g q]]; simpl.
    + split; [done|]. intros _. by right.
    + destruct (decide (f = hash)) as [->|Hf]; [split; [done|]; intros _; by left|].
      rewrite bool_decide_false by done. split; [intros [?|?]; simplify_eq|by intros [? _]].
    + split; [by intros [?|?]|]. intros [H [Hf _]]. case_bool_decide; [|done].
      by specialize (Hf ltac:(done)).
  - rewrite elem_of_app, !list_elem_of_fmap.
    assert (Hlit : q ∈ (if is_wild p then [] else cons p <$> pats ps) <->
                   is_wild p = false /\ exists q', q = p :: q' /\ q' ∈ pats ps).
    { destruct (is_wild p); [split; [intros H; inversion H | by intros [? _]]|].
      rewrite list_elem_of_fmap. split; [by intros (q1 & ? & ?); eauto|by intros [_ H]]. }
    rewrite Hlit. clear Hlit. setoid_rewrite IH. destruct q as [|f q].
    { cbn [_match_parts]. rewrite bool_decide_false by done. split; [|by intros [? _]]. by intros [?|[(_ & ? & ? & _)|(? & ? & _)]]. }
    destruct (decide (f = hash)) as [->|Hf].
    { simpl. split.
      - intros [[= ->]|[(Hw & ? & ? & _)|(? & ? & _)]]; try done; by simplify_eq.
      - intros [_ [Hq _]]. left. by rewrite Hq. }
    rewrite match_parts_level by done. simpl. unfold level_ok. split.
    + intros [?|[(Hw & q' & ? & ? & ?)|(q' & ? & ? & ?)]]; simplify_eq; tauto.
    + intros [[[-> | ->] Hm] [_ Hl]]; right; [right; by exists q|].
      destruct (is_wild p) eqn:Hw; [|left; by eauto].
      apply is_wild_true in Hw as [-> | ->]; [right; by exists q|done].
Qed.

Lemma NoDup_pats ps : NoDup (pats ps).
Proof.
  induction ps as [|p ps IH]; simpl; apply NoDup_cons; (split; [|]).
  - by intros [=]%list_elem_of_singleton.
  - apply NoDup_singleton.
  - rewrite elem_of_app, list_elem_of_fmap. intros [H|(? & ? & _)]; [|done].
    destruct (is_wild p) eqn:Hw; [inversion H|].
    apply list_elem_of_fmap in H as (? & [= <- _] & _). done.
  - apply NoDup_app. repeat split.
    + destruct (is_wild p); [constructor|]. apply NoDup_fmap; [congruence|done].
    + destruct (is_wild p) eqn:Hw; [intros x H; inversion H|].
      intros x (? & -> & _)%list_elem_of_fmap (? & [= -> _] & _)%list_elem_of_fmap. done.
    + apply NoDup_fmap; [congruence|done].
Qed.

Lemma get_wild n p : is_wild p = true -> get_child n p = dict_get (wildcard_children n) p.
Proof. unfold get_child. by intros ->. Qed.

Lemma node_at_child n p qs :
  concat ((fun q => node_at q n) <$> (cons p <$> qs)) =
    match get_child n p with
    | Some c => concat ((fun q => node_at q c) <$> qs)
    | None => []
    end.
Proof.
  induction qs as [|q qs IH]; [simpl; by destruct (get_child n p)|].
  rewrite !fmap_cons. cbn [concat]. rewrite IH. simpl. by destruct (get_child n p).
Qed.

(** [_collect] visits exactly the nodes of the matching paths. *)
Lemma collect_pats ps n :
  good_node n -> _collect ps n = concat ((fun q => node_at q n) <$> pats ps).
Proof.
  revert n; induction ps as [|p ps IH]; intros n Hn; cbn [_collect pats fmap list_fmap concat].
  - simpl. rewrite get_wild by done. by destruct (dict_get _ _); rewrite ?app_nil_r.
  - rewrite <- (get_wild n plus) by done. f_equal.
    rewrite fmap_app, concat_app, node_at_child. f_equal.
    + destruct (is_wild p) eqn:Hw.
      { destruct (dict_get (children n) p) eqn:Hc; [|done].
        inversion Hn as [m [H1 _] _ _]; subst. apply H1 in Hc. congruence. }
      rewrite node_at_child. unfold get_child at 1. rewrite Hw.
      destruct (dict_get (children n) p) as [c|] eqn:Hc; [|done].
      apply IH, (good_child n p); [done|]. unfold get_child. by rewrite Hw.
    + destruct (get_child n plus) as [c|] eqn:Hc; [|done]. by eapply IH, good_child.
Qed.

(** ** The representation invariant *)

(** The trie and the identifier table are views of the dictionary of entries: each
    node lists, in registration order, the entries of its path. *)
Record index_ok (ix : SubscriptionIndex) : Prop := {
  ok_wf : dict_wf (_entries ix);
  ok_good : good_node (_root ix);
  ok_node : forall p, node_at p (_root ix) = filter (fun it => path it = p) (_entries ix);
  ok_ids : forall i, by_identifier ix i =
             filter (fun it => subscription_identifier it.2 = Some i) (_entries ix);
  ok_ids_ne : forall i d, dict_get (_by_identifier ix) i = Some d -> d <> [];
}.

Lemma index_ok_new : index_ok new_index.
Proof. split; [constructor|apply good_empty|intros p; apply node_at_empty|done..]. Qed.

(** Removing the items of a key commutes with any filter. *)
Lemma filter_dict_del (P : item -> Prop) `{!forall x, Decision (P x)}
    (d : dict str SubscriptionEntry) f :
  filter P (dict_del d f) = dict_del (filter P d) f.
Proof.
  unfold dict_del. rewrite !list_filter_filter. apply filter_ext_in. intros; tauto.
Qed.

Lemma by_identifier_drop ix f i by_id root es obs :
  _by_identifier ix = by_id ->
  (forall i d, dict_get by_id i = Some d -> d <> []) ->
  (forall j, by_identifier (mkIndex root es (drop_identified by_id i f) obs) j =
     if decide (j = i) then dict_del (by_identifier ix j) f else by_identifier ix j) /\
  (forall j d, dict_get (drop_identified by_id i f) j = Some d -> d <> []).
Proof.
  intros <- Hne. unfold by_identifier, drop_identified. simpl.
  destruct (dict_get (_by_identifier ix) i) as [d|] eqn:Hd.
  2: { split; [|done]. intros j. case_decide; subst; by rewrite ?Hd. }
  case_bool_decide as Hl; split; intros j; destruct (decide (j = i)) as [->|Hj];
    rewrite ?dict_get_del_eq, ?dict_get_set_eq, ?dict_get_del_ne, ?dict_get_set_ne by done;
    rewrite ?Hd; simpl; eauto.
  - symmetry. by apply length_zero_iff_nil.
  - intros ? [= <-] Hn. by rewrite Hn in Hl.
Qed.

Lemma entries_remove ix f : _entries (remove ix f).2 = dict_del (_entries ix) f.
Proof.
  unfold remove. destruct (dict_get _ f) as [e|] eqn:He; simpl; [done|].
  apply dict_get_None in He. by rewrite dict_del_fresh.
Qed.

Lemma index_ok_remove ix f : index_ok ix -> index_ok (remove ix f).2.
Proof.
  intros [Hwf Hg Hn Hi Hne]. unfold remove.
  destruct (dict_get (_entries ix) f) as [e|] eqn:He; simpl; [|done].
  assert (Hkey : forall it, it ∈ _entries ix -> it.1 = f -> it = (f, e)).
  { intros [f' e'] Hin Hf. simpl in Hf. subst f'. apply (dict_get_elem_of _ _ _ Hwf) in Hin.
    congruence. }
  split; simpl.
  - by apply dict_wf_del.
  - by apply good_remove.
  - intros p. rewrite node_at_remove, Hn, filter_dict_del. unfold dict_del.
    case_decide as Hp; rewrite !list_filter_filter; apply filter_ext_in; intros it Hin.
    + split; [intros [H ?]; split; [|done]; intros Hf | intros [H ?]; split; [|done]; tauto].
      apply H. split; [done|]. by rewrite (Hkey _ Hin Hf).
    + split; [|tauto]. intros ?. split; [|done]. intros Hf. apply Hp. subst p.
      by rewrite (Hkey _ Hin Hf).
  - intros i. rewrite filter_dict_del, <- Hi.
    destruct (subscription_identifier e) as [i'|] eqn:Hid.
    + rewrite (proj1 (by_identifier_drop ix f i' _ _ _ _ eq_refl Hne)).
      case_decide as Hii; [done|]. rewrite dict_del_fresh; [done|]. rewrite Hi.
      intros (it & -> & [Hs Hin]%list_elem_of_filter)%list_elem_of_fmap.
      rewrite (Hkey _ Hin eq_refl) in Hs. simpl in Hs. congruence.
    + unfold by_identifier. simpl. change (default [] _) with (by_identifier ix i).
      rewrite dict_del_fresh; [done|]. rewrite Hi.
      intros (it & -> & [Hs Hin]%list_elem_of_filter)%list_elem_of_fmap.
      rewrite (Hkey _ Hin eq_refl) in Hs. simpl in Hs. congruence.
  - destruct (subscription_identifier e) as [i'|]; [|done].
    by apply (by_identifier_drop ix f i' _ (_root ix) [] ∅ eq_refl).
Qed.

(** [add] first makes its filter fresh. *)
Definition add_fresh (ix : SubscriptionIndex) (f : str) (e : SubscriptionEntry)
    : SubscriptionIndex :=
  mkIndex (insert_entry (split_slash (_actual_filter (f, e))) (f, e) (_root ix))
    (dict_set (_entries ix) f e)
    (match subscription_identifier e with
     | Some i => dict_set (_by_identifier ix) i (dict_set (by_identifier ix i) f e)
     | None => _by_identifier ix
     end)
    (_response_observers ix).

Lemma add_eq ix f e :
  add ix f e = add_fresh (if dict_in f (_entries ix) then (remove ix f).2 else ix) f e.
Proof. done. Qed.

Lemma index_ok_add_fresh ix f e :
  index_ok ix -> f ∉ (_entries ix).*1 ->
  index_ok (add_fresh ix f e) /\ _entries (add_fresh ix f e) = _entries ix ++ [(f, e)].
Proof.
  intros [Hwf Hg Hn Hi Hne] Hf. unfold add_fresh. simpl. rewrite (dict_set_fresh _ _ _ Hf).
  split; [|done]. split; simpl.
  - rewrite <- (dict_set_fresh _ _ _ Hf). by apply dict_wf_set.
  - by apply good_insert.
  - intros p. rewrite node_at_insert, Hn, filter_app, filter_cons. f_equal.
    apply decide_ext. unfold path. split; by intros <-.
  - intros i. rewrite filter_app, filter_cons, <- Hi. simpl.
    destruct (subscription_identifier e) as [i'|] eqn:Hid; simpl;
      [|by rewrite app_nil_r].
    unfold by_identifier at 1. simpl. destruct (decide (i' = i)) as [->|Hii].
    + rewrite dict_get_set_eq, decide_True by done. simpl. apply dict_set_fresh.
      rewrite Hi. contradict Hf.
      apply list_elem_of_fmap in Hf as (it & -> & [_ Hin]%list_elem_of_filter).
      by apply list_elem_of_fmap_2.
    + rewrite dict_get_set_ne by done. rewrite decide_False by congruence. by rewrite app_nil_r.
  - destruct (subscription_identifier e) as [i'|]; [|done]. intros i d.
    destruct (decide (i' = i)) as [->|Hii].
    + rewrite dict_get_set_eq. intros [= <-]. by destruct (by_identifier ix i) as [|[??]?]; simpl;
        [|case_decide].
    + rewrite dict_get_set_ne by done. apply Hne.
Qed.

Lemma index_ok_add ix f e :
  index_ok ix ->
  index_ok (add ix f e) /\ _entries (add ix f e) = dict_del (_entries ix) f ++ [(f, e)].
Proof.
  intros Hok. rewrite add_eq. unfold dict_in.
  destruct (dict_get (_entries ix) f) as [e'|] eqn:He.
  - rewrite <- entries_remove. apply index_ok_add_fresh; [by apply index_ok_remove|].
    rewrite entries_remove. apply dict_get_None, dict_get_del_eq.
  - apply dict_get_None in He. rewrite dict_del_fresh by done. by apply index_ok_add_fresh.
Qed.

(** ** Matching and selection *)

(** Every registered filter is one that validation accepts: ["#"] only last. *)
Definition valid_index (ix : SubscriptionIndex) : Prop :=
  Forall (fun it => hash_last (path it)) (_entries ix).

(** The reference: scan the dictionary of entries. *)
Definition matching (ix : SubscriptionIndex) (topic : str) : list item :=
  filter (fun it => item_matches topic it = true) (_entries ix).

Definition collected (ix : SubscriptionIndex) (topic : str) : list item :=
  filter (fun it => item_matches topic it = true) (_collect (split_slash topic) (_root ix)).

Lemma item_matches_pats topic it :
  item_matches topic it = true -> hash_last (path it) -> path it ∈ pats (split_slash topic).
Proof.
  unfold item_matches, _topic_matches. intros H Hh. rewrite pats_spec. case_match; [done|].
  by split.
Qed.

Lemma collect_groups ix topic :
  index_ok ix ->
  _collect (split_slash topic) (_root ix) = groups path (pats (split_slash topic)) (_entries ix).
Proof.
  intros Hok. rewrite collect_pats by apply (ok_good _ Hok). unfold groups. f_equal.
  apply list_fmap_ext. intros _ p _. apply (ok_node _ Hok).
Qed.

Lemma collected_perm ix topic :
  index_ok ix -> valid_index ix -> collected ix topic ≡ₚ matching ix topic.
Proof.
  intros Hok Hv. unfold collected, matching.
  rewrite collect_groups, groups_filter, list_filter_filter by (done || apply NoDup_pats).
  rewrite (filter_ext_in _ (fun it => item_matches topic it = true)); [done|].
  intros it Hin. split; [by intros [? _]|]. intros Hm. split; [done|].
  apply item_matches_pats; [done|]. unfold valid_index in Hv. rewrite Forall_forall in Hv. auto.
Qed.

Lemma match_perm ix topic :
  index_ok ix -> valid_index ix -> match_ ix topic ≡ₚ matching ix topic.
Proof. intros Hok Hv. unfold match_. rewrite sorted_perm. by apply collected_perm. Qed.

(** Matching entries of equal specificity have the same filter. *)
Lemma same_key_same_path ix topic it1 it2 :
  valid_index ix -> it1 ∈ matching ix topic -> it2 ∈ matching ix topic ->
  item_key it1 = item_key it2 -> _actual_filter it1 = _actual_filter it2.
Proof.
  unfold valid_index, matching. rewrite Forall_forall, !list_elem_of_filter.
  intros Hv [M1 H1] [M2 H2] Hk. exact (filter_specificity_inj _ _ topic (Hv _ H1) (Hv _ H2) M1 M2 Hk).
Qed.

(** Ties are listed in registration order. *)
Lemma collected_stable ix topic k :
  index_ok ix -> valid_index ix ->
  filter (fun it => item_key it = k) (collected ix topic) =
  filter (fun it => item_key it = k) (matching ix topic).
Proof.
  intros Hok Hv. pose proof (collected_perm ix topic Hok Hv) as HP.
  destruct (filter (fun it => item_key it = k) (matching ix topic)) as [|it0 l] eqn:HF.
  { apply Permutation_nil_r. rewrite <- HF. by rewrite HP. }
  assert (H0 : it0 ∈ matching ix topic /\ item_key it0 = k).
  { assert (Hin : it0 ∈ it0 :: l) by by left. rewrite <- HF in Hin.
    apply list_elem_of_filter in Hin. tauto. }
  destruct H0 as [Hm0 Hk0]. rewrite <- HF.
  assert (Hpath : forall it, it ∈ matching ix topic -> item_key it = k <-> path it = path it0).
  { intros it Hm. split.
    - intros Hk. unfold path. f_equal. apply (same_key_same_path ix topic); congruence.
    - intros Hp. rewrite <- Hk0. unfold item_key, _specificity. unfold path in Hp. by rewrite Hp. }
  rewrite (filter_ext_in _ (fun it => path it = path it0) (collected ix topic))
    by (intros it Hin; apply Hpath; by rewrite <- HP).
  rewrite (filter_ext_in _ (fun it => path it = path it0) (matching ix topic)) by done.
  unfold collected, matching in *. rewrite !(list_filter_filter (fun it => path it = path it0)).
  rewrite collect_groups by done.
  apply list_elem_of_filter in Hm0 as [Hm0 Hin0]. unfold valid_index in Hv.
  rewrite Forall_forall in Hv.
  assert (Hg := groups_group path (pats (split_slash topic)) (_entries ix) (path it0)
                  (NoDup_pats _) (item_matches_pats _ _ Hm0 (Hv _ Hin0))).
  apply (f_equal (filter (fun it => item_matches topic it = true))) in Hg.
  rewrite !list_filter_filter in Hg.
  erewrite (filter_ext_in _ _ (groups _ _ _)), Hg; [|intros; apply and_comm].
  apply filter_ext_in. intros; tauto.
Qed.

(** Selection only sees the multiset of candidates and the order within a key. *)
Lemma select_from_ext l1 l2 :
  l1 ≡ₚ l2 ->
  (forall k, filter (fun it => item_key it = k) l1 = filter (fun it => item_key it = k) l2) ->
  _select_from l1 = _select_from l2.
Proof.
  intros HP HF. destruct l1 as [|a l1], l2 as [|b l2]; [done|..].
  - by apply Permutation_nil_l in HP.
  - by apply Permutation_nil_r in HP.
  - unfold _select_from. rewrite HF.
    rewrite (tuple_min_perm (item_key a) (item_key <$> l1) (item_key b) (item_key <$> l2)); [done|].
    change (item_key <$> a :: l1 ≡ₚ item_key <$> b :: l2). by rewrite HP.
Qed.

(** The index selects what a linear scan of its entries selects. *)
Lemma select_scan ix topic :
  index_ok ix -> valid_index ix -> select ix topic = _select_from (matching ix topic).
Proof.
  intros Hok Hv. apply select_from_ext; [by apply match_perm|].
  intros k. unfold match_. change (filter (fun it => item_matches topic it = true) _) with
    (collected ix topic). by rewrite sorted_stable, collected_stable.
Qed.

(** What the linear scan selects. *)
Lemma select_from_spec l :
  match recipient (_select_from l) with
  | None => l = []
  | Some it =>
      it ∈ l /\ (forall it', it' ∈ l -> tuple_leb (item_key it) (item_key it') = true) /\
      head (filter (fun it' => item_key it' = item_key it) l) = Some it
  end.
Proof.
  destruct l as [|c cs]; [done|]. cbn [_select_from recipient].
  destruct (tuple_min_spec (item_key c) (item_key <$> cs)) as [Hin Hle].
  set (k := tuple_min _ _) in *.
  change (k ∈ item_key <$> c :: cs) in Hin.
  apply list_elem_of_fmap in Hin as (it & Hk & Hin).
  destruct (filter _ (c :: cs)) as [|w ws] eqn:HF.
  { assert (Hn : it ∈ filter (fun it => item_key it = k) (c :: cs))
      by (by apply list_elem_of_filter). rewrite HF in Hn. inversion Hn. }
  assert (Hw : w ∈ filter (fun it => item_key it = k) (c :: cs)) by (rewrite HF; by left).
  apply list_elem_of_filter in Hw as [Hwk Hw]. simpl. split; [done|]. rewrite Hwk. split.
  - intros it' Hit'. apply Hle. change (item_key it' ∈ item_key <$> c :: cs).
    by apply list_elem_of_fmap_2.
  - by rewrite HF.
Qed.

Lemma tied_same_filter l f :
  f ∈ tied_filters (_select_from l) ->
  exists it it0, it ∈ l /\ it.1 = f /\ recipient (_select_from l) = Some it0 /\ it0 ∈ l /\
    item_key it = item_key it0.
Proof.
  destruct l as [|c cs]; [intros H; inversion H|]. cbn [_select_from recipient tied_filters].
  set (ws := filter _ _). case_match; [|intros H'; inversion H'].
  intros (it & -> & Hit)%list_elem_of_fmap.
  destruct ws as [|w ws'] eqn:Hws; [done|].
  assert (Hw : w ∈ ws) by (rewrite Hws; by left). rewrite <- Hws in Hit.
  unfold ws in Hit, Hw. apply list_elem_of_filter in Hit as [Hk Hit], Hw as [Hkw Hw].
  exists it, w. repeat split; try done. congruence.
Qed.

(** ** Histories of the index *)

Inductive index_op :=
| OpAdd (f : str) (e : SubscriptionEntry)
| OpAddMany (l : dict str SubscriptionEntry)
| OpRemove (f : str)
| OpAddObserver (topic : str)
| OpRemoveObserver (topic : str)
| OpClear.

Definition run_op (ix : SubscriptionIndex) (op : index_op) : SubscriptionIndex :=
  match op with
  | OpAdd f e => add ix f e
  | OpAddMany l => add_many ix l
  | OpRemove f => (remove ix f).2
  | OpAddObserver t => (add_response_observer ix t).2
  | OpRemoveObserver t => (remove_response_observer ix t).2
  | OpClear => clear ix
  end.

Definition run_ops (ops : list index_op) : SubscriptionIndex := foldl run_op new_index ops.

(** The specification: a dictionary in registration order. *)
Definition spec_add (d : dict str SubscriptionEntry) (f : str) (e : SubscriptionEntry)
    : dict str SubscriptionEntry := dict_del d f ++ [(f, e)].

Definition spec_op (d : dict str SubscriptionEntry) (op : index_op)
    : dict str SubscriptionEntry :=
  match op with
  | OpAdd f e => spec_add d f e
  | OpAddMany l => foldl (fun d it => spec_add d it.1 it.2) d l
  | OpRemove f => dict_del d f
  | OpAddObserver _ | OpRemoveObserver _ => d
  | OpClear => []
  end.

Definition spec_ops (ops : list index_op) : dict str SubscriptionEntry := foldl spec_op [] ops.

Lemma add_many_spec ix l :
  index_ok ix ->
  index_ok (add_many ix l) /\
  _entries (add_many ix l) = foldl (fun d it => spec_add d it.1 it.2) (_entries ix) l.
Proof.
  revert ix; induction l as [|[f e] l IH]; intros ix Hok; simpl; [done|].
  destruct (index_ok_add ix f e Hok) as [Hok' He]. destruct (IH _ Hok') as [H1 H2].
  split; [done|]. rewrite He in H2. exact H2.
Qed.

Lemma index_ok_observers ix obs :
  index_ok ix -> index_ok (mkIndex (_root ix) (_entries ix) (_by_identifier ix) obs).
Proof. intros [H1 H2 H3 H4 H5]. by split. Qed.

Lemma run_op_spec ix op :
  index_ok ix -> index_ok (run_op ix op) /\ _entries (run_op ix op) = spec_op (_entries ix) op.
Proof.
  intros Hok. destruct op as [f e|l|f|t|t|]; simpl.
  - by apply index_ok_add.
  - by apply add_many_spec.
  - split; [by apply index_ok_remove|apply entries_remove].
  - unfold add_response_observer. case_decide; [done|]. split; [by apply index_ok_observers|done].
  - unfold remove_response_observer. case_decide; [|done].
    split; [by apply index_ok_observers|done].
  - split; [apply index_ok_new|done].
Qed.

Lemma run_ops_spec ops : index_ok (run_ops ops) /\ _entries (run_ops ops) = spec_ops ops.
Proof.
  unfold run_ops, spec_ops.
  assert (H : index_ok new_index /\ _entries new_index = []) by (split; [apply index_ok_new|done]).
  revert H. generalize new_index, (@nil (str * SubscriptionEntry)).
  induction ops as [|op ops IH]; intros ix d [Hok He]; simpl; [done|].
  apply IH. rewrite <- He. by apply run_op_spec.
Qed.

(** The entries of operations the client issues: filters that validation accepted,
    with the actual filter computed from them. *)
Definition valid_entry (stripped_prefixes : list str) (it : item) : Prop :=
  validate_subscribe_topic it.1 = Ok tt /\
  _shared_filter_to_actual it.1 stripped_prefixes = Ok (actual_filter it.2).

Definition op_entries (op : index_op) : list item :=
  match op with OpAdd f e => [(f, e)] | OpAddMany l => l | _ => [] end.

Definition valid_ops (ps : list str) (ops : list index_op) : Prop :=
  Forall (fun op => Forall (valid_entry ps) (op_entries op)) ops.

Lemma valid_entry_path ps it : valid_entry ps it -> hash_last (path it).
Proof.
  intros [Hv Ha]. destruct (validated_hash_last _ _ _ Hv Ha) as [H1 H2].
  unfold path, _actual_filter. by case_bool_decide.
Qed.

Lemma spec_add_valid (P : item -> Prop) d f e :
  Forall P d -> P (f, e) -> Forall P (spec_add d f e).
Proof.
  intros Hd He. unfold spec_add. apply Forall_app. split; [|by constructor].
  apply Forall_forall. intros it [Hin _]%elem_of_dict_del. rewrite Forall_forall in Hd. auto.
Qed.

Lemma valid_ops_index ps ops : valid_ops ps ops -> valid_index (run_ops ops).
Proof.
  intros Hv. unfold valid_index. rewrite (proj2 (run_ops_spec ops)).
  apply (Forall_impl (valid_entry ps)); [|apply valid_entry_path].
  enough (H : forall d, Forall (valid_entry ps) d -> Forall (valid_entry ps) (foldl spec_op d ops))
    by (apply H; constructor).
  induction Hv as [|op ops Hop _ IH]; intros d Hd; simpl; [done|]. apply IH.
  destruct op as [f e|l|f|t|t|]; simpl in *; try done; [| |].
  - apply spec_add_valid; [done|]. by inversion Hop.
  - revert d Hd. induction Hop as [|[f e] l Hit _ IHl]; intros d Hd; simpl; [done|].
    apply IHl. by apply spec_add_valid.
  - apply Forall_forall. intros it [Hin _]%elem_of_dict_del. rewrite Forall_forall in Hd. auto.
Qed.

(** ** Properties *)

(** C10: the index refines a dictionary in registration order.  After any history of
    operations its entries are those of the specification, and the trie and the
    identifier table are exact views of them: each node lists the entries of its
    path, each identifier its entries, in registration order. *)
Theorem index_refines_dictionary ops :
  _entries (run_ops ops) = spec_ops ops /\
  (forall f, get (run_ops ops) f None = dict_get (spec_ops ops) f) /\
  (forall p, node_at p (_root (run_ops ops)) = filter (fun it => path it = p) (spec_ops ops)) /\
  (forall i, by_identifier (run_ops ops) i =
     filter (fun it => subscription_identifier it.2 = Some i) (spec_ops ops)).
Proof.
  destruct (run_ops_spec ops) as [Hok He]. split; [done|]. rewrite <- He. split; [|split].
  - intros f. unfold get. by destruct (dict_get _ f).
  - apply (ok_node _ Hok).
  - apply (ok_ids _ Hok).
Qed.

(** C11: selecting through the trie is selecting by a linear scan of the entries:
    after any history of client operations, [match] returns exactly the entries whose
    filter matches the topic, most specific first, and [select] returns the recipient
    and the ties that a scan in registration order returns. *)
Theorem select_is_linear_scan ps ops topic :
  valid_ops ps ops ->
  let hits := filter (fun it => item_matches topic it = true) (spec_ops ops) in
  match_ (run_ops ops) topic ≡ₚ hits /\
  StronglySorted (fun a b => tuple_leb (item_key a) (item_key b) = true)
    (match_ (run_ops ops) topic) /\
  select (run_ops ops) topic = _select_from hits.
Proof.
  intros Hv%valid_ops_index hits. destruct (run_ops_spec ops) as [Hok He].
  assert (Hh : hits = matching (run_ops ops) topic) by (unfold hits, matching; by rewrite He).
  rewrite Hh. split; [by apply match_perm|]. split; [|by apply select_scan].
  apply sorted_Sorted.
Qed.

Definition sample_entry (n : nat) (actual : str) : SubscriptionEntry :=
  mkEntry n n true actual None.

Definition sample_ops : list index_op :=
  [OpAdd (lit "a/#") (sample_entry 0 (lit "a/#"));
   OpAdd (lit "$share/g/a/+") (sample_entry 1 (lit "a/+"));
   OpAdd (lit "a/+") (sample_entry 2 (lit "a/+"));
   OpAdd (lit "b") (sample_entry 3 (lit "b"));
   OpRemove (lit "b")].

Lemma sample_ops_valid : valid_ops _DEFAULT_STRIPPED_PREFIXES sample_ops.
Proof. repeat constructor. Qed.

Lemma select_is_linear_scan_witness :
  select (run_ops sample_ops) (lit "a/b") =
    mkSelection (Some (lit "$share/g/a/+", sample_entry 1 (lit "a/+"))) false
      [lit "$share/g/a/+"; lit "a/+"].
Proof.
  pose proof (select_is_linear_scan _ sample_ops (lit "a/b") sample_ops_valid) as (_ & _ & H).
  rewrite H. vm_compute. reflexivity.
Defined.

(** The recipient of a topic is a matching entry, no matching entry is more
    specific, and among the equally specific ones it was registered first; there is
    no recipient only when no entry matches.  Entries reported as tied all have the
    actual filter of the recipient. *)
Theorem best_is_most_specific ps ops topic :
  valid_ops ps ops ->
  let hits := filter (fun it => item_matches topic it = true) (spec_ops ops) in
  match best (run_ops ops) topic with
  | None => hits = [] /\ tied_filters (select (run_ops ops) topic) = []
  | Some it =>
      it ∈ hits /\ (forall it', it' ∈ hits -> tuple_leb (item_key it) (item_key it') = true) /\
      head (filter (fun it' => item_key it' = item_key it) hits) = Some it /\
      (forall f, f ∈ tied_filters (select (run_ops ops) topic) ->
         exists it', it' ∈ hits /\ it'.1 = f /\ _actual_filter it' = _actual_filter it)
  end.
Proof.
  intros Hv%valid_ops_index hits. destruct (run_ops_spec ops) as [Hok He].
  assert (Hh : hits = matching (run_ops ops) topic) by (unfold hits, matching; by rewrite He).
  unfold best. rewrite (select_scan _ _ Hok Hv), <- Hh.
  pose proof (select_from_spec hits) as HS.
  destruct (recipient (_select_from hits)) as [it|] eqn:Hr.
  2: { split; [exact HS|]. clearbody hits. by rewrite HS. }
  destruct HS as (H1 & H2 & H3). do 3 (split; [done|]).
  intros f Hf. destruct (tied_same_filter _ _ Hf) as (it' & it0 & Hin & <- & Hr' & Hin0 & Hk).
  exists it'. split; [done|]. split; [done|].
  assert (it0 = it) as -> by congruence. rewrite Hh in Hin, Hin0.
  by apply (same_key_same_path _ topic _ _ Hv).
Qed.

Lemma best_is_most_specific_witness :
  match best (run_ops sample_ops) (lit "a/b") with
  | Some it =>
      forall it', it' ∈ filter (fun it => item_matches (lit "a/b") it = true) (spec_ops sample_ops) ->
        tuple_leb (item_key it) (item_key it') = true
  | None => False
  end.
Proof.
  pose proof (best_is_most_specific _ sample_ops (lit "a/b") sample_ops_valid) as H.
  destruct (best (run_ops sample_ops) (lit "a/b")) as [it|] eqn:E.
  - exact (proj1 (proj2 H)).
  - vm_compute in E. discriminate E.
Defined.

(** Nothing is leaked: when a history leaves no entry, whatever was registered
    and removed before, the trie is the empty root and the identifier table is
    empty. *)
Theorem index_leaks_nothing ops :
  spec_ops ops = [] ->
  _root (run_ops ops) = empty_node /\ _by_identifier (run_ops ops) = [].
Proof.
  destruct (run_ops_spec ops) as [[H1 H2 H3 H4 H5] He]. intros Hs. rewrite Hs in He. split.
  - apply node_is_empty_true. destruct (node_is_empty (_root (run_ops ops))) eqn:Hn; [done|].
    destruct (good_not_empty _ H2 Hn) as (q & Hq). by rewrite H3, He in Hq.
  - destruct (_by_identifier (run_ops ops)) as [|[i d] l] eqn:Hb; [done|].
    assert (Hg : dict_get ((i, d) :: l) i = Some d) by (simpl; by rewrite decide_True).
    specialize (H4 i). unfold by_identifier in H4. rewrite Hb, Hg, He in H4. simpl in H4.
    by destruct (H5 i d).
Qed.

Lemma index_leaks_nothing_witness :
  _root (run_ops [OpAdd (lit "a/b/#") (sample_entry 0 []); OpRemove (lit "a/b/#")]) = empty_node.
Proof. apply index_leaks_nothing. vm_compute. reflexivity. Defined.
