(* ===== verification/State.v ===== *)
(** * Session state ([state.py], [routing.py], [types/message.py])

    The packet-identifier pool and the tables of exchanges in flight.  Objects the
    code compares or awaits by identity (futures, request claims, messages) are
    named by natural numbers. *)

From stdpp Require Import fin_sets.
From S2P Require Import Prelude PyBytes Utf8 PropertyRecords Packets SubscriptionIndex.
Local Open Scope Z_scope.

(** ** Packet identifiers *)

Record PacketIdPool := mkPool { _next : Z; _in_use : gset Z }.

Definition new_pool : PacketIdPool := mkPool 1 ∅.

(** [while self._next in self._in_use: self._next = self._next % 65535 + 1] *)
Fixpoint skip_used (fuel : nat) (next : Z) (in_use : gset Z) : result Z :=
  if decide (next ∈ in_use) then
    match fuel with
    | O => Err NonTermination
    | S fuel' => skip_used fuel' (next mod 65535 + 1) in_use
    end
  else Ok next.

(** 65535 steps visit every identifier. *)
Definition acquire (p : PacketIdPool) : result (Z * PacketIdPool) :=
  if 65535 <=? Z.of_nat (size (_in_use p))
  then Err (RuntimeError "All 65535 packet IDs are in use")
  else
    pid ← skip_used (Z.to_nat 65535) (_next p) (_in_use p);
    Ok (pid, mkPool (pid mod 65535 + 1) ({[pid]} ∪ _in_use p)).

Definition release (p : PacketIdPool) (pid : Z) : PacketIdPool :=
  mkPool (Z.min (_next p) pid) (_in_use p ∖ {[pid]}).

(** ** Messages and recipients *)

Record Message := mkMessage {
  msg_topic : str;
  msg_payload : bytes;
  msg_qos : QoS;
  msg_retain : bool;
  msg_properties : option PublishProperties;
}.

(** The recipient of an incoming PUBLISH: the message object, and the claimed
    request or the subscription. *)
Record InboundRecipient := mkRecipient {
  message : nat;
  request : option nat;
  subscription : option item;
}.

(** The [auto_ack] property of a recipient *)
Definition recipient_auto_ack (r : InboundRecipient) : bool :=
  match request r, subscription r with
  | Some _, _ => true
  | None, None => true
  | None, Some it => auto_ack it.2
  end.

(** ** Exchanges in flight *)

Record QoS1Flight := mkQoS1Flight { q1_packet_id : Z; q1_publish : Publish; q1_future : nat }.

Inductive OutboundQoS2State := PENDING_PUBREC | PENDING_PUBCOMP.

#[export] Instance OutboundQoS2State_eq_dec : EqDecision OutboundQoS2State.
Proof. solve_decision. Defined.

Record OutboundQoS2Flight := mkQoS2Flight {
  q2_packet_id : Z;
  q2_publish : Publish;
  q2_state : OutboundQoS2State;
  q2_future : nat;
}.

(** [InboundQoS2State] has the single value [PENDING_PUBREL]. *)
Record InboundQoS2Flight := mkInFlight {
  in_packet_id : Z;
  in_recipient : InboundRecipient;
  in_delivered : bool;
}.

Record SessionState := mkSession {
  packet_ids : PacketIdPool;
  inflight_qos1 : gmap Z QoS1Flight;
  inflight_qos2_out : gmap Z OutboundQoS2Flight;
  inflight_qos2_in : gmap Z InboundQoS2Flight;
  pending_ack_qos2_in : gset Z;
  subscriptions : SubscriptionIndex;
  pending_subs : gmap Z nat;
  pending_unsubs : gmap Z nat;
}.

Definition new_session : SessionState := mkSession new_pool ∅ ∅ ∅ ∅ new_index ∅ ∅.

(** [SessionState.clear] *)
Definition clear_session (s : SessionState) : SessionState :=
  mkSession new_pool ∅ ∅ ∅ ∅ (clear (subscriptions s)) ∅ ∅.

(** ** The pool *)

(** Identifiers are 16-bit and non-zero, and every identifier below the cursor is
    in use: the cursor only moves over used identifiers and moves back on release. *)
Record pool_ok (p : PacketIdPool) : Prop := {
  pool_range : forall x, x ∈ _in_use p -> 1 <= x <= 65535;
  pool_next : 1 <= _next p <= 65535;
  pool_low : forall x, 1 <= x < _next p -> x ∈ _in_use p;
}.

Lemma pool_ok_new : pool_ok new_pool.
Proof. split; simpl; [by intros x ?%not_elem_of_empty|lia|lia]. Qed.

Lemma pool_ok_release p pid : pool_ok p -> 1 <= pid <= 65535 -> pool_ok (release p pid).
Proof.
  intros [H1 H2 H3] Hp. split; simpl; [intros x [Hx _]%elem_of_difference; by apply H1|lia|].
  intros x Hx. apply elem_of_difference. split; [apply H3; lia|]. rewrite elem_of_singleton. lia.
Qed.

(** A pool that is not full has a free identifier. *)
Lemma free_id (n : Z) (u : gset Z) :
  Z.of_nat (size u) < n -> exists x, 1 <= x <= n /\ x ∉ u.
Proof.
  intros Hs. set (all := list_to_set (seqZ 1 n) : gset Z).
  assert (Ha : size all = Z.to_nat n).
  { unfold all. rewrite size_list_to_set by apply NoDup_seqZ. apply length_seqZ. }
  destruct (decide (all ⊆ u)) as [Hsub|Hn].
  - apply subseteq_size in Hsub. lia.
  - destruct (set_choose_or_empty (all ∖ u)) as [Hd|He].
    2: { destruct Hn. intros x Hx. destruct (decide (x ∈ u)) as [|Hxu]; [done|].
         exfalso. apply (not_elem_of_empty (C := gset Z) x), He, elem_of_difference. done. }
    destruct Hd as (x & [Hx Hu]%elem_of_difference). unfold all in Hx.
    rewrite elem_of_list_to_set, elem_of_seqZ in Hx. exists x. split; [lia|done].
Qed.

(** The loop finds the first free identifier at or above the cursor. *)
Lemma skip_used_up k fuel next u :
  (forall x, next <= x < next + Z.of_nat k -> x ∈ u) -> next + Z.of_nat k ∉ u ->
  1 <= next -> next + Z.of_nat k <= 65535 -> (k <= fuel)%nat ->
  skip_used fuel next u = Ok (next + Z.of_nat k).
Proof.
  revert fuel next; induction k as [|k IH]; intros fuel next Hin Hout Hn Hk Hf.
  - rewrite Z.add_0_r in *. destruct fuel; simpl; by rewrite decide_False.
  - destruct fuel as [|fuel]; [lia|]. simpl.
    rewrite decide_True by (apply Hin; lia). rewrite Z.mod_small by lia.
    replace (next + Z.of_nat (S k)) with (next + 1 + Z.of_nat k) in * by lia.
    apply IH; [intros x Hx; apply Hin; lia|done|lia..].
Qed.

(** The least free identifier. *)
Lemma least_free (u : gset Z) x :
  1 <= x <= 65535 -> x ∉ u ->
  exists y, 1 <= y <= x /\ (y ∉ u) /\ (forall z, 1 <= z < y -> z ∈ u).
Proof.
  intros Hx Hu. assert (Hb : exists n, x = Z.of_nat n) by (exists (Z.to_nat x); lia).
  destruct Hb as [n ->]. induction n as [n IH] using lt_wf_ind.
  destruct (decide (set_Forall (fun z => z ∈ u) (list_to_set (seqZ 1 (Z.of_nat n - 1)) : gset Z)))
    as [HF|HF].
  - exists (Z.of_nat n). split; [lia|]. split; [done|]. intros z Hz. apply HF.
    rewrite elem_of_list_to_set, elem_of_seqZ. lia.
  - apply not_set_Forall_Exists in HF; [|apply _].
    destruct HF as (z & Hz & Hzu). rewrite elem_of_list_to_set, elem_of_seqZ in Hz.
    destruct (IH (Z.to_nat z)) as (y & H1 & H2 & H3); rewrite ?Z2Nat.id by lia; try lia; [done|].
    rewrite Z2Nat.id in H1 by lia. exists y. split; [lia|done].
Qed.

(** [acquire] on any reachable pool: it terminates with the least free identifier,
    or the pool is full. *)
Lemma acquire_spec p :
  pool_ok p ->
  if 65535 <=? Z.of_nat (size (_in_use p))
  then acquire p = Err (RuntimeError "All 65535 packet IDs are in use")
  else exists pid p', acquire p = Ok (pid, p') /\ 1 <= pid <= 65535 /\ (pid ∉ _in_use p) /\
         (forall x, 1 <= x < pid -> x ∈ _in_use p) /\
         _in_use p' = {[pid]} ∪ _in_use p /\ pool_ok p'.
Proof.
  intros [H1 H2 H3]. unfold acquire. destruct (65535 <=? _) eqn:Hs; [done|]. bool_inv.
  destruct (free_id _ _ Hs) as (x & Hx & Hxu).
  destruct (least_free _ _ Hx Hxu) as (y & Hy & Hyu & Hlow).
  assert (Hny : _next p <= y) by (destruct (decide (y < _next p)); [destruct Hyu; apply H3; lia|lia]).
  rewrite (skip_used_up (Z.to_nat (y - _next p))); rewrite ?Z2Nat.id by lia.
  2: { intros z Hz. apply Hlow. lia. }
  2: { by replace (_next p + (y - _next p)) with y by lia. }
  2-3: lia.
  2: { apply Z2Nat.inj_le; lia. }
  replace (_next p + (y - _next p)) with y by lia. cbn [mbind result_bind].
  eexists y, _. split; [done|]. split; [lia|]. do 2 (split; [done|]). split; [done|].
  split; simpl.
  - intros z [->%elem_of_singleton|Hz]%elem_of_union; [lia|by apply H1].
  - zdiv_lia.
  - intros z Hz. apply elem_of_union. rewrite elem_of_singleton.
    destruct (decide (z = y)); [by left|]. right. apply Hlow. zdiv_lia.
Qed.

#[global] Arguments acquire : simpl never.

(** ** Properties *)

(** On every pool that [acquire] and [release] can reach, [acquire] terminates:
    it raises when all 65535 identifiers are in use, and otherwise returns the least
    identifier of 1..65535 that is free and marks exactly that one used. *)
Theorem acquire_least_free p :
  pool_ok p ->
  if 65535 <=? Z.of_nat (size (_in_use p))
  then acquire p = Err (RuntimeError "All 65535 packet IDs are in use")
  else exists pid p', acquire p = Ok (pid, p') /\ 1 <= pid <= 65535 /\ (pid ∉ _in_use p) /\
         (forall x, 1 <= x < pid -> x ∈ _in_use p) /\
         _in_use p' = {[pid]} ∪ _in_use p /\ pool_ok p'.
Proof. apply acquire_spec. Qed.

(** The pool after identifiers 1 to 3 were acquired and 2 released *)
Definition sample_pool : PacketIdPool := release (mkPool 4 {[1; 2; 3]}) 2.

Lemma acquire_least_free_witness :
  exists pid p', acquire sample_pool = Ok (pid, p') /\ 1 <= pid <= 65535 /\
    (pid ∉ _in_use sample_pool) /\
    (forall x, 1 <= x < pid -> x ∈ _in_use sample_pool) /\
    _in_use p' = {[pid]} ∪ _in_use sample_pool /\ pool_ok p'.
Proof.
  apply (acquire_least_free sample_pool). apply pool_ok_release; [|lia].
  split; simpl; [|lia|]; intros x; rewrite !elem_of_union, !elem_of_singleton; lia.
Defined.
