(* ===== verification/Routing.v ===== *)
(** * Routing of incoming messages ([routing.py])

    The contract between the inbound flow and whatever waits for responses: a router
    may claim a message for one pending request, and delivers it later.  The inbound
    flow is written against this interface; [Requests] implements it.  Claims are
    objects, named by natural numbers. *)

From S2P Require Import Prelude State.

(** [claim m msg r]: the message object [m] with content [msg] is offered to the
    router. [deliver c r] is [c.deliver()]. *)
Class RequestRouter (R : Type) := {
  claim : nat -> Message -> R -> option nat * R;
  deliver : nat -> R -> R;
}.

(** What the inbound flow may rely on: a refused claim changes nothing, and
    delivering a claim twice is delivering it once. *)
Class RouterLaws (R : Type) `{RequestRouter R} := {
  claim_refused m msg r r' : claim m msg r = (None, r') -> r' = r;
  deliver_idemp c r : deliver c (deliver c r) = deliver c r;
}.

(** A client without pending requests: nothing is claimed. *)
#[export] Instance no_router : RequestRouter unit := {
  claim _ _ r := (None, r);
  deliver _ r := r;
}.

#[export] Instance no_router_laws : RouterLaws unit.
Proof. split; [by intros ???? [= ->]|done]. Qed.
