(* ===== verification/Protocol.v ===== *)
(** * The protocol engine, outbound side ([protocol.py])

    [MQTTProtocol]: publishing with its QoS 1 and QoS 2 flights, SUBSCRIBE and
    UNSUBSCRIBE exchanges, ping, the handlers of the broker's acknowledgements, and
    the teardown of pending operations.

    The engine runs on one event loop, so the code between two suspension points is
    atomic.  An operation that awaits a future is split there: [publish] and
    [_send_subscribe_begin] run up to the [await], [_send_subscribe_end] is what
    runs when the future is done or the waiting task is cancelled.  Futures are
    shared objects: they live in a store and are named by numbers. *)

From S2P Require Import Prelude PyBytes Utf8 PropertyRecords Packets Codec SubscriptionIndex State.
Local Open Scope Z_scope.

(** ** Futures *)

(** What a future of the engine can hold *)
Inductive fut_value := VPubAck (p : PubAck) | VPubComp (p : PubAck) | VSubAck (p : SubAck)
| VUnsubAck (p : UnsubAck) | VNone.

Inductive fut_state := Pending | Result (v : fut_value) | Failed (e : exn) | Cancelled.

Definition fut_done (f : fut_state) : bool := match f with Pending => false | _ => true end.

(** ** The engine *)

(** [e_futures] is the store of futures, [e_wire] the bytes written so far in
    order, [e_link] whether a write succeeds. *)
Record Engine := mkEngine {
  e_session : SessionState;
  e_version : MQTTVersion;
  e_dead : bool;
  e_max_publish_qos : QoS;
  e_ping_waiters : list nat;
  e_futures : gmap nat fut_state;
  e_wire : list bytes;
  e_link : bool;
}.

(** Engine computations *)
Notation M := (ST Engine).

(** *** Updates *)

Definition upd_session (f : SessionState -> SessionState) (e : Engine) : Engine :=
  mkEngine (f (e_session e)) (e_version e) (e_dead e) (e_max_publish_qos e) (e_ping_waiters e)
    (e_futures e) (e_wire e) (e_link e).

Definition upd_futures (f : gmap nat fut_state -> gmap nat fut_state) (e : Engine) : Engine :=
  mkEngine (e_session e) (e_version e) (e_dead e) (e_max_publish_qos e) (e_ping_waiters e)
    (f (e_futures e)) (e_wire e) (e_link e).

Definition upd_waiters (f : list nat -> list nat) (e : Engine) : Engine :=
  mkEngine (e_session e) (e_version e) (e_dead e) (e_max_publish_qos e) (f (e_ping_waiters e))
    (e_futures e) (e_wire e) (e_link e).

Definition write (data : bytes) (e : Engine) : Engine :=
  mkEngine (e_session e) (e_version e) (e_dead e) (e_max_publish_qos e) (e_ping_waiters e)
    (e_futures e) (e_wire e ++ [data]) (e_link e).

Definition mark_dead (e : Engine) : Engine :=
  mkEngine (e_session e) (e_version e) true (e_max_publish_qos e) (e_ping_waiters e)
    (e_futures e) (e_wire e) (e_link e).

Definition set_link (b : bool) (e : Engine) : Engine :=
  mkEngine (e_session e) (e_version e) (e_dead e) (e_max_publish_qos e) (e_ping_waiters e)
    (e_futures e) (e_wire e) b.

Definition set_ids (p : PacketIdPool) (s : SessionState) : SessionState :=
  mkSession p (inflight_qos1 s) (inflight_qos2_out s) (inflight_qos2_in s)
    (pending_ack_qos2_in s) (subscriptions s) (pending_subs s) (pending_unsubs s).

Definition upd_qos1 (f : gmap Z QoS1Flight -> gmap Z QoS1Flight) (s : SessionState)
    : SessionState :=
  mkSession (packet_ids s) (f (inflight_qos1 s)) (inflight_qos2_out s) (inflight_qos2_in s)
    (pending_ack_qos2_in s) (subscriptions s) (pending_subs s) (pending_unsubs s).

Definition upd_qos2 (f : gmap Z OutboundQoS2Flight -> gmap Z OutboundQoS2Flight)
    (s : SessionState) : SessionState :=
  mkSession (packet_ids s) (inflight_qos1 s) (f (inflight_qos2_out s)) (inflight_qos2_in s)
    (pending_ack_qos2_in s) (subscriptions s) (pending_subs s) (pending_unsubs s).

Definition upd_subs (f : gmap Z nat -> gmap Z nat) (s : SessionState) : SessionState :=
  mkSession (packet_ids s) (inflight_qos1 s) (inflight_qos2_out s) (inflight_qos2_in s)
    (pending_ack_qos2_in s) (subscriptions s) (f (pending_subs s)) (pending_unsubs s).

Definition upd_unsubs (f : gmap Z nat -> gmap Z nat) (s : SessionState) : SessionState :=
  mkSession (packet_ids s) (inflight_qos1 s) (inflight_qos2_out s) (inflight_qos2_in s)
    (pending_ack_qos2_in s) (subscriptions s) (pending_subs s) (f (pending_unsubs s)).

(** What the inbound flow and the subscription management change in the engine:
    their tables, the bytes written and, when they give up, the connection. *)
Definition upd_inbound (flights : gmap Z InboundQoS2Flight) (pending : gset Z)
    (subs : SubscriptionIndex) (s : SessionState) : SessionState :=
  mkSession (packet_ids s) (inflight_qos1 s) (inflight_qos2_out s) flights pending subs
    (pending_subs s) (pending_unsubs s).

Definition inbound_effect (flights : gmap Z InboundQoS2Flight) (pending : gset Z)
    (subs : SubscriptionIndex) (written : list bytes) (link : bool) (e : Engine) : Engine :=
  mkEngine (upd_inbound flights pending subs (e_session e)) (e_version e) (e_dead e)
    (e_max_publish_qos e) (e_ping_waiters e) (e_futures e) (e_wire e ++ written) link.

(** ** Helpers of the engine *)

Definition release_id (pid : Z) : M unit :=
  modify (upd_session (fun s => set_ids (release (packet_ids s) pid) s)).

Definition acquire_id : M Z := fun e =>
  match acquire (packet_ids (e_session e)) with
  | Ok (pid, pool) => (Ok pid, upd_session (set_ids pool) e)
  | Err x => (Err x, e)
  end.

(** [loop.create_future()] *)
Definition create_future : M nat := fun e =>
  let f := fresh (dom (e_futures e)) in (Ok f, upd_futures <[f := Pending]> e).

Definition fut (f : nat) (e : Engine) : fut_state := default Cancelled (e_futures e !! f).

(** [future.set_result(v)] and [future.set_exception(x)] on a pending future *)
Definition settle (f : nat) (st : fut_state) : M unit := fun e =>
  if fut_done (fut f e) then (Err InvalidStateError, e)
  else (Ok tt, upd_futures <[f := st]> e).

(** [if not future.done(): future.set_...] *)
Definition settle_if_pending (f : nat) (st : fut_state) : M unit :=
  d ← gets (fun e => fut_done (fut f e)); if d : bool then mret tt else settle f st.

(** [self._send(data)]: the transport writes and drains *)
Definition _send (data : bytes) : M unit := fun e =>
  if e_link e then (Ok tt, write data e) else (Err OSError, e).

Definition _encode (p : packet) : M bytes := v ← gets e_version; lift (encode p v).

(** [send_packet], what other flows write through *)
Definition send_packet (p : packet) : M unit := data ← _encode p; _send data.

(** [abort]: writes on the closed transport fail *)
Definition abort : M unit := modify (set_link false).

Definition _ensure_alive : M unit :=
  d ← gets e_dead;
  if d : bool then raise (MQTTDisconnectedError "Connection lost") else mret tt.

(** ** Rejections *)

(** [_PUBLISH_REASON_NAMES] *)
Definition publish_reason_name (code : Z) : option string :=
  match code with
  | 0x00 => Some "Success"%string
  | 0x10 => Some "No matching subscribers"%string
  | 0x80 => Some "Unspecified error"%string
  | 0x83 => Some "Implementation specific error"%string
  | 0x87 => Some "Not authorized"%string
  | 0x90 => Some "Topic Name invalid"%string
  | 0x91 => Some "Packet Identifier in use"%string
  | 0x97 => Some "Quota exceeded"%string
  | 0x99 => Some "Payload format invalid"%string
  | _ => None
  end.

Definition _publish_error (p : PubAck) : exn :=
  MQTTPublishError (pa_reason_code p) (publish_reason_name (pa_reason_code p))
    (pa_properties p ≫= pap_reason_string).

Definition _raise_on_rejected_puback (p : PubAck) : result unit :=
  if 0x80 <=? pa_reason_code p then Err (_publish_error p) else Ok tt.

(** The dictionary of failures: filters and codes by position, a repeated filter
    keeps its last code. *)
Definition rejected_filters (filters : list SubscriptionRequest) (codes : list Z)
    : PyDict.dict str Z :=
  foldl (fun d p => if 0x80 <=? p.2 then PyDict.dict_set d (sr_topic_filter p.1) p.2 else d)
    [] (zip filters codes).

Definition _raise_on_rejected_filters (filters : list SubscriptionRequest) (suback : SubAck)
    : result unit :=
  match rejected_filters filters (sa_return_codes suback) with
  | [] => Ok tt
  | failures => Err (MQTTSubscribeError failures)
  end.

(** ** Publishing *)

Definition with_packet_id (p : Publish) (pid : Z) : Publish :=
  mkPublish (pb_topic p) (pb_payload p) (pb_qos p) (pb_retain p) (pb_dup p) (Some pid)
    (pb_properties p).

(** [publish] up to [await future]: the future to wait for, none for QoS 0 *)
Definition publish (p : Publish) : M (option nat) :=
  _ ← _ensure_alive;
  max_qos ← gets e_max_publish_qos;
  if qos_value max_qos <? qos_value (pb_qos p)
  then raise (MQTTQoSExceededError (qos_value (pb_qos p)) (qos_value max_qos))
  else
    match pb_qos p with
    | AT_MOST_ONCE => data ← _encode (PPublish p); _ ← _send data; mret None
    | AT_LEAST_ONCE =>
        pid ← acquire_id;
        let p := with_packet_id p pid in
        future ← create_future;
        _ ← modify (upd_session (upd_qos1 <[pid := mkQoS1Flight pid p future]>));
        data ← _encode (PPublish p);
        _ ← _send data;
        mret (Some future)
    | EXACTLY_ONCE =>
        pid ← acquire_id;
        let p := with_packet_id p pid in
        future2 ← create_future;
        _ ← modify (upd_session (upd_qos2 <[pid := mkQoS2Flight pid p PENDING_PUBREC future2]>));
        data ← _encode (PPublish p);
        _ ← _send data;
        mret (Some future2)
    end.

(** [ack = await future] and what follows it in the QoS 1 case *)
Definition publish_qos1_end (ack : PubAck) : result PubAck :=
  _ ← _raise_on_rejected_puback ack; Ok ack.

(** ** Subscribing *)

Definition drop_sub (pid : Z) (s : SessionState) : SessionState :=
  set_ids (release (packet_ids s) pid) (upd_subs (delete pid) s).

Definition drop_unsub (pid : Z) (s : SessionState) : SessionState :=
  set_ids (release (packet_ids s) pid) (upd_unsubs (delete pid) s).

(** [_send_subscribe] up to [await future]; the [finally] block runs when the
    packet cannot be encoded or sent *)
Definition _send_subscribe_begin (filters : list SubscriptionRequest)
    (subscription_identifier : option Z) : M (Z * nat) :=
  _ ← _ensure_alive;
  pid ← acquire_id;
  future ← create_future;
  _ ← modify (upd_session (upd_subs <[pid := future]>));
  let properties := (fun i => mkSubscribeProperties (Some i) []) <$> subscription_identifier in
  finally_on_error
    (data ← _encode (PSubscribe (mkSubscribe pid filters properties));
     _ ← _send data;
     mret (pid, future))
    (upd_session (drop_sub pid)).

(** The rest of [_send_subscribe]: [outcome] is what [await future] returned or
    raised *)
Definition _send_subscribe_end (filters : list SubscriptionRequest) (pid : Z)
    (outcome : result SubAck) : M SubAck :=
  _ ← modify (upd_session (drop_sub pid));
  suback ← lift outcome;
  _ ← lift (_raise_on_rejected_filters filters suback);
  mret suback.

Definition _send_unsubscribe_begin (filters : list str) : M (Z * nat) :=
  _ ← _ensure_alive;
  pid ← acquire_id;
  future ← create_future;
  _ ← modify (upd_session (upd_unsubs <[pid := future]>));
  finally_on_error
    (data ← _encode (PUnsubscribe (mkUnsubscribe pid filters None));
     _ ← _send data;
     mret (pid, future))
    (upd_session (drop_unsub pid)).

Definition _send_unsubscribe_end (pid : Z) (outcome : result UnsubAck) : M UnsubAck :=
  _ ← modify (upd_session (drop_unsub pid));
  lift outcome.

(** ** Enhanced authentication *)

Definition send_auth (packet : Auth) : M unit :=
  version ← gets e_version;
  match version with
  | V311 => raise (RuntimeError "Feature is not supported for mqtt protocol version 3.1.1")
  | V5 => send_packet (PAuth packet)
  end.

(** ** Ping *)

(** [ping] up to the wait *)
Definition ping_begin : M nat :=
  future ← create_future;
  _ ← modify (upd_waiters (fun w => w ++ [future]));
  data ← _encode PPingReq;
  _ ← _send data;
  mret future.

Fixpoint remove_first (f : nat) (l : list nat) : list nat :=
  match l with
  | [] => []
  | g :: l' => if decide (f = g) then l' else g :: remove_first f l'
  end.

(** The timeout of [ping]: [list.remove] raises when the future is not there *)
Definition ping_timeout (future : nat) : M unit :=
  w ← gets e_ping_waiters;
  if decide (future ∈ w) then
    _ ← modify (upd_waiters (remove_first future));
    raise (MQTTTimeoutError "PINGRESP not received within timeout")
  else raise (ValueError "list.remove(x): x not in list").

(** ** Handlers of acknowledgements *)

Definition _handle_puback (packet : PubAck) : M unit :=
  flight ← gets (fun e => inflight_qos1 (e_session e) !! pa_packet_id packet);
  match flight with
  | None => raise (MQTTProtocolError "PUBACK for unknown packet_id")
  | Some flight =>
      _ ← modify (upd_session (upd_qos1 (delete (pa_packet_id packet))));
      _ ← release_id (pa_packet_id packet);
      settle_if_pending (q1_future flight) (Result (VPubAck packet))
  end.

Definition _handle_pubrec (packet : PubRec) : M unit :=
  flight ← gets (fun e => inflight_qos2_out (e_session e) !! pa_packet_id packet);
  match flight with
  | None => raise (MQTTProtocolError "PUBREC for unknown packet_id")
  | Some flight =>
      if bool_decide (q2_state flight <> PENDING_PUBREC)
      then raise (MQTTProtocolError "PUBREC in wrong state")
      else if 0x80 <=? pa_reason_code packet then
        _ ← modify (upd_session (upd_qos2 (delete (pa_packet_id packet))));
        _ ← release_id (pa_packet_id packet);
        settle_if_pending (q2_future flight) (Failed (_publish_error packet))
      else
        _ ← modify (upd_session (upd_qos2 <[pa_packet_id packet :=
               mkQoS2Flight (q2_packet_id flight) (q2_publish flight) PENDING_PUBCOMP
                 (q2_future flight)]>));
        data ← _encode (PPubRel (mkPubAck (pa_packet_id packet) 0 None));
        _send data
  end.

Definition _handle_pubcomp (packet : PubComp) : M unit :=
  flight ← gets (fun e => inflight_qos2_out (e_session e) !! pa_packet_id packet);
  match flight with
  | None => raise (MQTTProtocolError "PUBCOMP for unknown packet_id")
  | Some flight =>
      _ ← modify (upd_session (upd_qos2 (delete (pa_packet_id packet))));
      _ ← release_id (pa_packet_id packet);
      settle_if_pending (q2_future flight) (Result (VPubComp packet))
  end.

Definition _handle_suback (packet : SubAck) : M unit :=
  future ← gets (fun e => pending_subs (e_session e) !! sa_packet_id packet);
  match future with
  | None => raise (MQTTProtocolError "SUBACK for unknown packet_id")
  | Some future => settle future (Result (VSubAck packet))
  end.

Definition _handle_unsuback (packet : UnsubAck) : M unit :=
  future ← gets (fun e => pending_unsubs (e_session e) !! ua_packet_id packet);
  match future with
  | None => raise (MQTTProtocolError "UNSUBACK for unknown packet_id")
  | Some future => settle future (Result (VUnsubAck packet))
  end.

Definition _handle_pingresp : M unit :=
  w ← gets e_ping_waiters;
  match w with
  | [] => mret tt
  | f :: w' => _ ← modify (upd_waiters (fun _ => w')); settle_if_pending f (Result VNone)
  end.

(** ** Teardown *)

(** [if not f.done(): f.set_exception(exc)] for every future of a collection *)
Definition fail_pending (exc : exn) (fs : list nat) (futures : gmap nat fut_state)
    : gmap nat fut_state :=
  foldl (fun m f => match m !! f with Some Pending => <[f := Failed exc]> m | _ => m end)
    futures fs.

(** [_cancel_pending], less the replay state of the inbound flow *)
Definition _cancel_pending (e : Engine) : Engine :=
  let exc := MQTTDisconnectedError "Connection lost" in
  let s := e_session e in
  let fs := (map_to_list (pending_subs s)).*2 ++ (map_to_list (pending_unsubs s)).*2
            ++ (q1_future <$> (map_to_list (inflight_qos1 s)).*2)
            ++ (q2_future <$> (map_to_list (inflight_qos2_out s)).*2)
            ++ e_ping_waiters e in
  upd_waiters (fun _ => []) (upd_futures (fail_pending exc fs) e).

(** The [finally] block of [run] *)
Definition run_exit (e : Engine) : Engine := _cancel_pending (mark_dead e).
