(* ===== verification/ProtocolFrames.v ===== *)
(** * Frames of the engine's operations

    Which parts of the engine an operation leaves alone, by composition. *)

From S2P Require Import Prelude Packets Codec SubscriptionIndex State Protocol.
Local Open Scope Z_scope.

(** ** What the handlers of acknowledgements leave alone *)

(** The tables of the inbound flow, the subscriptions and the connection *)
Definition same_inbound (e e' : Engine) : Prop :=
  inflight_qos2_in (e_session e') = inflight_qos2_in (e_session e) /\
  pending_ack_qos2_in (e_session e') = pending_ack_qos2_in (e_session e) /\
  subscriptions (e_session e') = subscriptions (e_session e) /\
  e_link e' = e_link e.

Definition outbound_only {A} (m : ST Engine A) : Prop := forall e, same_inbound e (m e).2.

Lemma oo_bind {A B} (m : ST Engine A) (f : A -> ST Engine B) :
  outbound_only m -> (forall a, outbound_only (f a)) -> outbound_only (m ≫= f).
Proof.
  intros Hm Hf e. rewrite run_bind. specialize (Hm e). destruct (m e) as [[a|x] e1]; [|done].
  destruct Hm as (H1 & H2 & H3 & H4). destruct (Hf a e1) as (H5 & H6 & H7 & H8).
  split_and!; by etrans.
Qed.

Lemma oo_ret {A} (a : A) : outbound_only (mret a). Proof. done. Qed.
Lemma oo_raise {A} x : outbound_only (@raise Engine A x). Proof. done. Qed.
Lemma oo_gets {A} (f : Engine -> A) : outbound_only (gets f). Proof. done. Qed.
Lemma oo_lift {A} (r : result A) : outbound_only (lift r). Proof. done. Qed.
Lemma oo_settle f st : outbound_only (settle f st).
Proof. intros e. unfold settle. by destruct (fut_done _). Qed.
Lemma oo_send data : outbound_only (_send data).
Proof. intros e. unfold _send, same_inbound. by destruct (e_link e) eqn:?. Qed.
Lemma oo_acquire_id : outbound_only acquire_id.
Proof. intros e. unfold acquire_id. by destruct (acquire _) as [[]|]. Qed.
Lemma oo_create_future : outbound_only create_future.
Proof. done. Qed.
Lemma oo_finally {A} (m : ST Engine A) f :
  outbound_only m -> (forall e, same_inbound e (f e)) -> outbound_only (finally_on_error m f).
Proof.
  intros Hm Hf e. unfold finally_on_error. specialize (Hm e). destruct (m e) as [[a|x] e1]; [done|].
  destruct Hm as (H1 & H2 & H3 & H4). destruct (Hf e1) as (H5 & H6 & H7 & H8).
  split_and!; by etrans.
Qed.
Lemma oo_modify f : (forall e, same_inbound e (f e)) -> outbound_only (modify f).
Proof. intros Hf e. apply Hf. Qed.

Create HintDb outbound.
#[export] Hint Resolve oo_bind oo_ret oo_raise oo_gets oo_lift oo_settle oo_send oo_acquire_id oo_create_future : outbound.
#[export] Hint Extern 1 (outbound_only (modify _)) => (apply oo_modify; intros ?; done) : outbound.
#[export] Hint Extern 1 (outbound_only (finally_on_error _ _)) => (apply oo_finally; [|intros ?; done]) : outbound.
#[export] Hint Extern 2 (outbound_only (match ?x with _ => _ end)) => destruct x : outbound.

Lemma oo_settle_if_pending f st : outbound_only (settle_if_pending f st).
Proof. unfold settle_if_pending. eauto with outbound. Qed.

Lemma oo_encode p : outbound_only (_encode p).
Proof. unfold _encode. eauto with outbound. Qed.

#[export] Hint Resolve oo_settle_if_pending oo_encode : outbound.

(** Acknowledgements of outgoing exchanges *)
Definition ack_handler (p : packet) : option (ST Engine unit) :=
  match p with
  | PPubAck p => Some (_handle_puback p)
  | PPubRec p => Some (_handle_pubrec p)
  | PPubComp p => Some (_handle_pubcomp p)
  | PSubAck p => Some (_handle_suback p)
  | PUnsubAck p => Some (_handle_unsuback p)
  | PPingResp => Some _handle_pingresp
  | _ => None
  end.

Lemma ack_handler_outbound p m : ack_handler p = Some m -> outbound_only m.
Proof.
  destruct p; intros [= <-];
    unfold _handle_puback, _handle_pubrec, _handle_pubcomp, _handle_suback, _handle_unsuback,
      _handle_pingresp, release_id; eauto 10 with outbound.
Qed.

(** The halves of the SUBSCRIBE and UNSUBSCRIBE exchanges *)
Lemma oo_ensure_alive : outbound_only _ensure_alive.
Proof. unfold _ensure_alive. eauto with outbound. Qed.

#[export] Hint Resolve oo_ensure_alive : outbound.

Lemma oo_subscribe_begin filters sid : outbound_only (_send_subscribe_begin filters sid).
Proof. unfold _send_subscribe_begin. eauto 10 with outbound. Qed.

Lemma oo_subscribe_end filters pid outcome : outbound_only (_send_subscribe_end filters pid outcome).
Proof. unfold _send_subscribe_end. eauto 10 with outbound. Qed.

Lemma oo_unsubscribe_begin filters : outbound_only (_send_unsubscribe_begin filters).
Proof. unfold _send_unsubscribe_begin. eauto 10 with outbound. Qed.

Lemma oo_unsubscribe_end pid outcome : outbound_only (_send_unsubscribe_end pid outcome).
Proof. unfold _send_unsubscribe_end. eauto 10 with outbound. Qed.
