(* ===== verification/ProtocolFacts.v ===== *)
(** * Correctness of the outbound protocol

    The engine as a transition system, the invariant that ties packet identifiers
    to open exchanges, and the QoS 1 and QoS 2 handshakes. *)

From S2P Require Import Prelude PyBytes Utf8 PropertyRecords Packets Codec CodecFacts CodecSound SubscriptionIndex State Protocol ProtocolFrames.
Local Open Scope Z_scope.

#[local] Arguments encode : simpl never.
#[local] Arguments canon : simpl never.
#[local] Arguments settle_if_pending : simpl never.

(** ** Open exchanges *)

(** The four tables keyed by packet identifier *)
Inductive kind := KQos1 | KQos2 | KSub | KUnsub.

#[export] Instance kind_eq_dec : EqDecision kind.
Proof. solve_decision. Defined.

(** The future of the exchange of kind [k] open under identifier [x] *)
Definition exchange (s : SessionState) (k : kind) (x : Z) : option nat :=
  match k with
  | KQos1 => q1_future <$> inflight_qos1 s !! x
  | KQos2 => q2_future <$> inflight_qos2_out s !! x
  | KSub => pending_subs s !! x
  | KUnsub => pending_unsubs s !! x
  end.

(** An identifier is in use exactly while one exchange is open under it, and every
    open exchange has a future of its own. *)
Record session_ok (s : SessionState) (futures : gset nat) : Prop := {
  so_pool : pool_ok (packet_ids s);
  so_used : forall x, x ∈ _in_use (packet_ids s) <-> exists k f, exchange s k x = Some f;
  so_uniq : forall k x f k' x' f',
    exchange s k x = Some f -> exchange s k' x' = Some f' -> x = x' \/ f = f' ->
    k = k' /\ x = x';
  so_alloc : forall k x f, exchange s k x = Some f -> f ∈ futures;
}.

(** A flight carries its identifier. *)
Record flights_ok (s : SessionState) : Prop := {
  fo_qos1 : forall x fl, inflight_qos1 s !! x = Some fl ->
    q1_packet_id fl = x /\ pb_packet_id (q1_publish fl) = Some x /\
    pb_qos (q1_publish fl) = AT_LEAST_ONCE;
  fo_qos2 : forall x fl, inflight_qos2_out s !! x = Some fl ->
    q2_packet_id fl = x /\ pb_packet_id (q2_publish fl) = Some x /\
    pb_qos (q2_publish fl) = EXACTLY_ONCE;
}.

Record engine_ok (e : Engine) : Prop := {
  eo_session : session_ok (e_session e) (dom (e_futures e));
  eo_flights : flights_ok (e_session e);
}.

(** *** Opening and closing an exchange, on the tables *)

Section tables.
Context (s : SessionState) (futures : gset nat) (Hok : session_ok s futures).

Lemma session_ok_open s' k pid pool f :
  acquire (packet_ids s) = Ok (pid, pool) -> f ∉ futures -> packet_ids s' = pool ->
  (forall k' x, exchange s' k' x = if decide (k' = k /\ x = pid) then Some f else exchange s k' x) ->
  session_ok s' ({[f]} ∪ futures).
Proof.
  destruct Hok as [Hp Hu Hq Ha]. intros Hacq Hf Hids Hex.
  pose proof (acquire_spec _ Hp) as HA. destruct (65535 <=? _); [congruence|].
  destruct HA as (pid' & pool' & HA & _ & Hfree & _ & Hin & Hpool).
  rewrite Hacq in HA. injection HA as <- <-.
  assert (Hnone : forall k' g, exchange s k' pid = Some g -> False)
    by (intros k' g Hg; apply Hfree, (proj2 (Hu pid)); by exists k', g).
  split.
  - congruence.
  - intros x. rewrite Hids, Hin, elem_of_union, elem_of_singleton, Hu. split.
    + intros [->|(k' & g & Hg)]; [exists k, f; by rewrite Hex, decide_True|].
      exists k', g. rewrite Hex, decide_False; [done|]. intros [_ ->]. eauto.
    + intros (k' & g & Hg). rewrite Hex in Hg. case_decide; [left; tauto|right; eauto].
  - intros k1 x1 f1 k2 x2 f2. rewrite !Hex. intros H1 H2 Heq.
    destruct (decide (k1 = k /\ x1 = pid)) as [[-> ->]|N1],
      (decide (k2 = k /\ x2 = pid)) as [[-> ->]|N2]; [done|..].
    + injection H1 as <-. exfalso. destruct Heq as [<-|<-]; [eauto|]. by eapply Hf, Ha.
    + injection H2 as <-. exfalso. destruct Heq as [->| ->]; [eauto|]. by eapply Hf, Ha.
    + by eapply Hq.
  - intros k' x g. rewrite Hex. case_decide; intros; simplify_eq; [by apply elem_of_union_l, elem_of_singleton|].
    apply elem_of_union_r. eauto.
Qed.

Lemma session_ok_close s' k pid f :
  exchange s k pid = Some f -> packet_ids s' = release (packet_ids s) pid ->
  (forall k' x, exchange s' k' x = if decide (k' = k /\ x = pid) then None else exchange s k' x) ->
  session_ok s' futures.
Proof.
  destruct Hok as [Hp Hu Hq Ha]. intros Hpid Hids Hex.
  assert (Hr : pid ∈ _in_use (packet_ids s)) by (apply Hu; eauto).
  split.
  - rewrite Hids. apply pool_ok_release; [done|]. by apply (pool_range _ Hp).
  - intros x. rewrite Hids. simpl. rewrite elem_of_difference, elem_of_singleton, Hu. split.
    + intros [(k' & g & Hg) Hx]. exists k', g. rewrite Hex, decide_False; tauto.
    + intros (k' & g & Hg). rewrite Hex in Hg. case_decide as Hd; [done|]. split; [eauto|].
      intros ->. apply Hd. split; [|done]. eapply (Hq k' pid g k pid f); eauto.
  - intros k1 x1 f1 k2 x2 f2. rewrite !Hex. repeat case_decide; try done. apply Hq.
  - intros k' x g. rewrite Hex. case_decide; [done|]. apply Ha.
Qed.

Lemma session_ok_same s' futures' :
  packet_ids s' = packet_ids s -> (forall k x, exchange s' k x = exchange s k x) ->
  futures ⊆ futures' -> session_ok s' futures'.
Proof.
  destruct Hok as [Hp Hu Hq Ha]. intros Hids Hex Hsub. split.
  - congruence.
  - intros x. rewrite Hids, Hu. by setoid_rewrite Hex.
  - intros k1 x1 f1 k2 x2 f2. rewrite !Hex. apply Hq.
  - intros k x f. rewrite Hex. intros Hf. apply Hsub. eauto.
Qed.

End tables.

(** *** Running computations *)

(** Run a computation bind by bind. *)
Ltac run_steps := repeat (rewrite run_bind; simpl).

Lemma ensure_alive_eq e :
  _ensure_alive e =
    if e_dead e then (Err (MQTTDisconnectedError "Connection lost"), e) else (Ok tt, e).
Proof. unfold _ensure_alive. rewrite run_bind. simpl. by destruct (e_dead e). Qed.

Lemma encode_eq p e : _encode p e = (encode p (e_version e), e).
Proof. done. Qed.

Lemma send_eq data e :
  _send data e = if e_link e then (Ok tt, write data e) else (Err OSError, e).
Proof. done. Qed.

(** *** Computations that leave the exchanges alone *)

(** Same tables, and no future disappears. *)
Definition same_core (e e' : Engine) : Prop :=
  e_session e' = e_session e /\ dom (e_futures e) ⊆ dom (e_futures e').

#[export] Instance same_core_preorder : PreOrder same_core.
Proof.
  split; [by intros e|]. intros e1 e2 e3 [H1 H2] [H3 H4]. split; [congruence|]. by etrans.
Qed.

Lemma engine_ok_core e e' : same_core e e' -> engine_ok e -> engine_ok e'.
Proof.
  intros [Hs Hd] [H1 H2]. split; rewrite Hs; [|done].
  by apply (session_ok_same _ _ H1).
Qed.

Definition quiet {A} (m : M A) : Prop := forall e, same_core e (m e).2.
Definition preserves {A} (m : M A) : Prop := forall e, engine_ok e -> engine_ok (m e).2.

Lemma quiet_preserves {A} (m : M A) : quiet m -> preserves m.
Proof. intros Hm e. by apply engine_ok_core. Qed.

Lemma preserves_bind {A B} (m : M A) (f : A -> M B) :
  preserves m -> (forall a, preserves (f a)) -> preserves (m ≫= f).
Proof.
  intros Hm Hf e He. unfold mbind, ST_bind. specialize (Hm e He).
  destruct (m e) as [[a|x] e']; simpl in *; [by apply Hf|done].
Qed.

Lemma quiet_bind {A B} (m : M A) (f : A -> M B) :
  quiet m -> (forall a, quiet (f a)) -> quiet (m ≫= f).
Proof.
  intros Hm Hf e. unfold mbind, ST_bind. specialize (Hm e).
  destruct (m e) as [[a|x] e']; simpl in *; [etrans; [done|apply Hf]|done].
Qed.

Lemma quiet_ret {A} (a : A) : quiet (mret a).
Proof. by intros e. Qed.
Lemma quiet_raise {A} x : quiet (raise (S := Engine) (A := A) x).
Proof. by intros e. Qed.
Lemma quiet_gets {A} (f : Engine -> A) : quiet (gets f).
Proof. by intros e. Qed.
Lemma quiet_lift {A} (r : result A) : quiet (lift r).
Proof. by intros e. Qed.
Lemma quiet_waiters f : quiet (modify (upd_waiters f)).
Proof. by intros e. Qed.
Lemma quiet_send data : quiet (_send data).
Proof. intros e. unfold _send. by destruct (e_link e). Qed.

Lemma quiet_settle f st : quiet (settle f st).
Proof.
  intros e. unfold settle. destruct (fut_done _); [done|]. split; [done|]. simpl.
  rewrite dom_insert. apply union_subseteq_r.
Qed.

Lemma quiet_create : quiet create_future.
Proof. intros e. split; [done|]. simpl. rewrite dom_insert. apply union_subseteq_r. Qed.

Create HintDb engine.
#[export] Hint Resolve quiet_bind quiet_ret quiet_raise quiet_gets quiet_lift quiet_waiters
  quiet_send quiet_settle quiet_create : engine.

Lemma quiet_encode p : quiet (_encode p).
Proof. unfold _encode. auto with engine. Qed.

Lemma quiet_alive : quiet _ensure_alive.
Proof. apply quiet_bind; [auto with engine|]. intros []; auto with engine. Qed.

Lemma quiet_settle_if f st : quiet (settle_if_pending f st).
Proof. apply quiet_bind; [auto with engine|]. intros []; auto with engine. Qed.

#[export] Hint Resolve quiet_encode quiet_alive quiet_settle_if : engine.

(** Sending a packet *)
Lemma quiet_send_packet {A} p (a : A) : quiet (data ← _encode p; _ ← _send data; mret a).
Proof. auto with engine. Qed.

(** *** Opening an exchange *)

(** [acquire], [create_future] and the registration in a table *)
Definition open_exchange (ins : Z -> nat -> SessionState -> SessionState) : M (Z * nat) :=
  pid ← acquire_id; future ← create_future; _ ← modify (upd_session (ins pid future));
  mret (pid, future).

(** A registration under a fresh identifier in the table of kind [k] *)
Record inserts (k : kind) (ins : Z -> nat -> SessionState -> SessionState) : Prop := {
  ins_ids : forall pid f s, packet_ids (ins pid f s) = packet_ids s;
  ins_exchange : forall pid f s k' x,
    exchange (ins pid f s) k' x = if decide (k' = k /\ x = pid) then Some f else exchange s k' x;
  ins_flights : forall pid f s, flights_ok s -> flights_ok (ins pid f s);
}.

Lemma open_exchange_spec k ins e :
  inserts k ins -> engine_ok e ->
  match open_exchange ins e with
  | (Ok (pid, f), e') =>
      engine_ok e' /\ 1 <= pid <= 65535 /\ (forall k', exchange (e_session e) k' pid = None) /\
      (f ∉ dom (e_futures e)) /\
      exists pool, acquire (packet_ids (e_session e)) = Ok (pid, pool) /\
        e' = upd_session (ins pid f)
               (upd_futures <[f := Pending]> (upd_session (set_ids pool) e))
  | (Err x, e') =>
      e' = e /\ x = RuntimeError "All 65535 packet IDs are in use" /\
      65535 <= Z.of_nat (size (_in_use (packet_ids (e_session e))))
  end.
Proof.
  intros [Hi Hx Hf] [Hs Hfl]. pose proof (acquire_spec _ (so_pool _ _ Hs)) as HA.
  unfold open_exchange, mbind, ST_bind, acquire_id, create_future, modify, mret, ST_ret.
  destruct (65535 <=? _) eqn:Hs'; [rewrite HA; bool_inv; by eauto|].
  destruct HA as (pid & pool & HA & Hr & Hfree & _ & _ & _). rewrite HA. cbn.
  set (f := fresh _).
  assert (Hff : f ∉ dom (e_futures e)) by apply is_fresh.
  split; [|split; [done|split; [|split; [done|by exists pool]]]].
  - split; simpl.
    + rewrite dom_insert_L. eapply (session_ok_open _ _ Hs _ k pid pool f); [done|done|..].
      * by rewrite Hi.
      * intros k' x. by rewrite Hx.
    + apply Hf. destruct Hfl as [F1 F2]. split; [apply F1|apply F2].
  - intros k'. destruct (exchange (e_session e) k' pid) as [g|] eqn:Hg; [|done].
    destruct Hfree. apply (so_used _ _ Hs). by exists k', g.
Qed.

Lemma open_exchange_bind {B} ins (k : Z -> nat -> M B) e :
  (pid ← acquire_id; future ← create_future; _ ← modify (upd_session (ins pid future));
   k pid future) e
  = ('(pid, future) ← open_exchange ins; k pid future) e.
Proof.
  unfold open_exchange, mbind, ST_bind, acquire_id. by destruct (acquire _) as [[pid pool]|x].
Qed.

(** After a successful opening, run the rest. *)
Lemma preserves_open {B} k ins (f : Z -> nat -> M B) :
  inserts k ins -> (forall pid fu, preserves (f pid fu)) ->
  preserves ('(pid, future) ← open_exchange ins; f pid future).
Proof.
  intros Hins Hf e He. unfold mbind, ST_bind.
  pose proof (open_exchange_spec k ins e Hins He) as HS.
  destruct (open_exchange ins e) as [[[pid fu]|x] e']; simpl.
  - apply Hf, HS.
  - by destruct HS as [-> _].
Qed.

Definition ins_qos1 (p : Publish) (pid : Z) (f : nat) : SessionState -> SessionState :=
  upd_qos1 <[pid := mkQoS1Flight pid (with_packet_id p pid) f]>.

Definition ins_qos2 (p : Publish) (pid : Z) (f : nat) : SessionState -> SessionState :=
  upd_qos2 <[pid := mkQoS2Flight pid (with_packet_id p pid) PENDING_PUBREC f]>.

Definition ins_sub (pid : Z) (f : nat) : SessionState -> SessionState := upd_subs <[pid := f]>.
Definition ins_unsub (pid : Z) (f : nat) : SessionState -> SessionState := upd_unsubs <[pid := f]>.

(** Read an exchange in an updated table. *)
Ltac solve_exchange :=
  intros;
  match goal with |- context [exchange _ ?k _] => destruct k end;
  simpl; rewrite ?lookup_insert, ?lookup_delete;
  repeat case_decide; simplify_eq; simpl; first [done | exfalso; tauto | naive_solver].

Lemma inserts_qos1 p : pb_qos p = AT_LEAST_ONCE -> inserts KQos1 (ins_qos1 p).
Proof.
  intros Hq. split; [done|solve_exchange|].
  intros pid f s [F1 F2]. split; [|done]. simpl. intros x fl.
  rewrite lookup_insert. case_decide; [intros [= <-]; by subst|apply F1].
Qed.

Lemma inserts_qos2 p : pb_qos p = EXACTLY_ONCE -> inserts KQos2 (ins_qos2 p).
Proof.
  intros Hq. split; [done|solve_exchange|].
  intros pid f s [F1 F2]. split; [done|]. simpl. intros x fl.
  rewrite lookup_insert. case_decide; [intros [= <-]; by subst|apply F2].
Qed.

Lemma inserts_sub : inserts KSub ins_sub.
Proof. split; [done|solve_exchange|]. by intros pid f s [F1 F2]. Qed.

Lemma inserts_unsub : inserts KUnsub ins_unsub.
Proof. split; [done|solve_exchange|]. by intros pid f s [F1 F2]. Qed.

(** *** Closing an exchange *)

(** The table entry goes and the identifier is released. *)
Record closes (k : kind) (pid : Z) (rm : SessionState -> SessionState) : Prop := {
  cl_ids : forall s, packet_ids (rm s) = release (packet_ids s) pid;
  cl_exchange : forall s k' x,
    exchange (rm s) k' x = if decide (k' = k /\ x = pid) then None else exchange s k' x;
  cl_flights : forall s, flights_ok s -> flights_ok (rm s);
}.

Lemma engine_ok_close k pid rm f e :
  closes k pid rm -> exchange (e_session e) k pid = Some f -> engine_ok e ->
  engine_ok (upd_session rm e).
Proof.
  intros [Ci Cx Cf] Hex [Hs Hfl]. split; simpl; [|by apply Cf].
  by eapply (session_ok_close _ _ Hs _ k pid f).
Qed.

Definition drop_qos1 (pid : Z) (s : SessionState) : SessionState :=
  set_ids (release (packet_ids s) pid) (upd_qos1 (delete pid) s).

Definition drop_qos2 (pid : Z) (s : SessionState) : SessionState :=
  set_ids (release (packet_ids s) pid) (upd_qos2 (delete pid) s).

Lemma closes_qos1 pid : closes KQos1 pid (drop_qos1 pid).
Proof.
  split; [done|solve_exchange|]. intros s [F1 F2]. split; [|done]. simpl. intros x fl.
  rewrite lookup_delete. case_decide; [done|apply F1].
Qed.

Lemma closes_qos2 pid : closes KQos2 pid (drop_qos2 pid).
Proof.
  split; [done|solve_exchange|]. intros s [F1 F2]. split; [done|]. simpl. intros x fl.
  rewrite lookup_delete. case_decide; [done|apply F2].
Qed.

Lemma closes_sub pid : closes KSub pid (drop_sub pid).
Proof. split; [done|solve_exchange|]. by intros s [F1 F2]. Qed.

Lemma closes_unsub pid : closes KUnsub pid (drop_unsub pid).
Proof. split; [done|solve_exchange|]. by intros s [F1 F2]. Qed.

(** ** Every operation preserves the invariant *)

Ltac engine_step :=
  first [apply quiet_preserves; solve [auto with engine]
        |apply preserves_bind; [|intros ?]
        |apply quiet_preserves, quiet_raise].

Lemma publish_preserves p : preserves (publish p).
Proof.
  unfold publish. do 2 (apply preserves_bind; [apply quiet_preserves; auto with engine|intros ?]).
  destruct (qos_value _ <? _); [by apply quiet_preserves, quiet_raise|].
  destruct (pb_qos p) eqn:Hq.
  - apply quiet_preserves. auto with engine.
  - intros e He. rewrite (open_exchange_bind (ins_qos1 p)).
    revert e He. change (preserves ('(pid, future) ← open_exchange (ins_qos1 p);
      data ← _encode (PPublish (with_packet_id p pid)); _ ← _send data; mret (Some future))).
    apply (preserves_open KQos1); [by apply inserts_qos1|].
    intros pid f. apply quiet_preserves, quiet_send_packet.
  - intros e He. rewrite (open_exchange_bind (ins_qos2 p)).
    revert e He. change (preserves ('(pid, future) ← open_exchange (ins_qos2 p);
      data ← _encode (PPublish (with_packet_id p pid)); _ ← _send data; mret (Some future))).
    apply (preserves_open KQos2); [by apply inserts_qos2|].
    intros pid f. apply quiet_preserves, quiet_send_packet.
Qed.

(** A request that cannot be sent closes the exchange it opened. *)
Lemma request_preserves k ins rm (p : Z -> packet) :
  inserts k ins -> (forall pid, closes k pid (rm pid)) ->
  preserves ('(pid, future) ← open_exchange ins;
    finally_on_error (data ← _encode (p pid); _ ← _send data; mret (pid, future))
      (upd_session (rm pid))).
Proof.
  intros Hins Hrm e He. pose proof (open_exchange_spec k ins e Hins He) as HS.
  unfold mbind at 1, ST_bind at 1. destruct (open_exchange ins e) as [[[pid f]|x] e'].
  2: { by destruct HS as [-> _]. }
  destruct HS as (He' & _ & _ & _ & pool & _ & Heq). unfold finally_on_error.
  pose proof (quiet_send_packet (p pid) (pid, f) e') as Hq.
  destruct ((data ← _encode (p pid); _ ← _send data; mret (pid, f)) e') as [[r|x] e2];
    simpl in *; [by eapply engine_ok_core|].
  assert (He2 : engine_ok e2) by (by eapply engine_ok_core).
  apply (engine_ok_close k pid _ f); [done| |done]. destruct Hq as [-> _]. rewrite Heq. simpl.
  rewrite (ins_exchange _ _ Hins). by rewrite decide_True.
Qed.

Lemma subscribe_begin_preserves filters sid : preserves (_send_subscribe_begin filters sid).
Proof.
  unfold _send_subscribe_begin.
  apply preserves_bind; [apply quiet_preserves; auto with engine|intros _].
  intros e He. rewrite (open_exchange_bind ins_sub).
  revert e He. apply (request_preserves KSub ins_sub drop_sub (fun pid => PSubscribe _));
    [apply inserts_sub|apply closes_sub].
Qed.

Lemma unsubscribe_begin_preserves filters : preserves (_send_unsubscribe_begin filters).
Proof.
  unfold _send_unsubscribe_begin.
  apply preserves_bind; [apply quiet_preserves; auto with engine|intros _].
  intros e He. rewrite (open_exchange_bind ins_unsub).
  revert e He. apply (request_preserves KUnsub ins_unsub drop_unsub (fun pid => PUnsubscribe _));
    [apply inserts_unsub|apply closes_unsub].
Qed.

Lemma subscribe_end_ok filters pid f outcome e :
  engine_ok e -> pending_subs (e_session e) !! pid = Some f ->
  engine_ok (_send_subscribe_end filters pid outcome e).2.
Proof.
  intros He Hf. unfold _send_subscribe_end, mbind at 1, ST_bind at 1. simpl.
  apply (quiet_preserves (suback ← lift outcome;
    _ ← lift (_raise_on_rejected_filters filters suback); mret suback)); [auto with engine|].
  by apply (engine_ok_close KSub pid _ f); [apply closes_sub|..].
Qed.

Lemma unsubscribe_end_ok pid f outcome e :
  engine_ok e -> pending_unsubs (e_session e) !! pid = Some f ->
  engine_ok (_send_unsubscribe_end pid outcome e).2.
Proof.
  intros He Hf. by apply (engine_ok_close KUnsub pid _ f); [apply closes_unsub|..].
Qed.

(** The three acknowledgements that end a flight *)
Lemma handle_puback_preserves a : preserves (_handle_puback a).
Proof.
  intros e He. unfold _handle_puback, mbind at 1, ST_bind at 1. simpl.
  destruct (inflight_qos1 (e_session e) !! pa_packet_id a) as [fl|] eqn:Hfl; [|done].
  pose proof (engine_ok_close KQos1 (pa_packet_id a) (drop_qos1 (pa_packet_id a)) (q1_future fl) e
    (closes_qos1 _)) as HC. simpl in HC. rewrite Hfl in HC. specialize (HC eq_refl He).
  by apply (quiet_preserves _ (quiet_settle_if (q1_future fl) (Result (VPubAck a)))) in HC.
Qed.

Lemma qos2_end_ok pid fl st e :
  engine_ok e -> inflight_qos2_out (e_session e) !! pid = Some fl ->
  engine_ok ((_ ← modify (upd_session (upd_qos2 (delete pid))); _ ← release_id pid;
              settle_if_pending (q2_future fl) st) e).2.
Proof.
  intros He Hfl. pose proof (engine_ok_close KQos2 pid (drop_qos2 pid) (q2_future fl) e
    (closes_qos2 _)) as HC. simpl in HC. rewrite Hfl in HC. specialize (HC eq_refl He).
  by apply (quiet_preserves _ (quiet_settle_if (q2_future fl) st)) in HC.
Qed.

Lemma handle_pubcomp_preserves a : preserves (_handle_pubcomp a).
Proof.
  intros e He. unfold _handle_pubcomp, mbind at 1, ST_bind at 1. simpl.
  destruct (inflight_qos2_out (e_session e) !! pa_packet_id a) as [fl|] eqn:Hfl; [|done].
  by apply qos2_end_ok.
Qed.

Lemma handle_pubrec_preserves a : preserves (_handle_pubrec a).
Proof.
  intros e He. unfold _handle_pubrec. unfold mbind at 1, ST_bind at 1. simpl.
  destruct (inflight_qos2_out (e_session e) !! pa_packet_id a) as [fl|] eqn:Hfl; [|done].
  case_bool_decide; [done|]. destruct (0x80 <=? pa_reason_code a); [by apply qos2_end_ok|].
  unfold mbind at 1, ST_bind at 1. simpl.
  apply (quiet_preserves (data ← _encode _; _send data)); [auto with engine|].
  destruct He as [Hs [F1 F2]]. split; simpl.
  - apply (session_ok_same _ _ Hs); [done| |done]. intros k x. destruct k; try done. simpl.
    rewrite lookup_insert. case_decide; [|done]. subst. by rewrite Hfl.
  - split; [done|]. simpl. intros x fl'. rewrite lookup_insert. case_decide; [|apply F2].
    intros [= <-]. subst. simpl. by apply F2.
Qed.

Lemma handle_suback_quiet a : quiet (_handle_suback a).
Proof. apply quiet_bind; [auto with engine|]. intros []; auto with engine. Qed.

Lemma handle_unsuback_quiet a : quiet (_handle_unsuback a).
Proof. apply quiet_bind; [auto with engine|]. intros []; auto with engine. Qed.

Lemma handle_pingresp_quiet : quiet _handle_pingresp.
Proof. apply quiet_bind; [auto with engine|]. intros []; auto with engine. Qed.

Lemma ping_begin_quiet : quiet ping_begin.
Proof. unfold ping_begin. auto with engine. Qed.

Lemma ping_timeout_quiet f : quiet (ping_timeout f).
Proof.
  apply quiet_bind; [auto with engine|]. intros w. case_decide; auto with engine.
Qed.

Lemma dom_fail_pending exc fs m : dom (fail_pending exc fs m) = dom m.
Proof.
  revert m; induction fs as [|f fs IH]; intros m; simpl; [done|]. rewrite IH.
  destruct (m !! f) as [[]|] eqn:Hf; try done. rewrite dom_insert_L.
  apply elem_of_dom_2 in Hf. set_solver.
Qed.

Lemma run_exit_core e : same_core e (run_exit e).
Proof. split; [done|]. simpl. by rewrite dom_fail_pending. Qed.

(** ** The engine as a transition system *)

Definition new_engine (v : MQTTVersion) (max_qos : QoS) : Engine :=
  mkEngine new_session v false max_qos [] ∅ [] true.

(** What a task that awaits a future sees when it runs again. *)
Definition resumes {A} (inj : A -> fut_value) (st : fut_state) (outcome : result A) : Prop :=
  match outcome with
  | Ok a => st = Result (inj a)
  | Err x => st = Failed x \/ (st = Cancelled /\ x = CancelledError)
  end.

(** One atomic stretch of the event loop: an application call, a waiting request
    that runs again, a packet from the broker, a cancellation, a change of the
    connection, what the inbound flow does, or the exit of [run]. *)
Inductive step (e : Engine) : Engine -> Prop :=
| step_publish p : step e (publish p e).2
| step_subscribe filters sid : step e (_send_subscribe_begin filters sid e).2
| step_subscribe_end filters pid f outcome :
    pending_subs (e_session e) !! pid = Some f -> resumes VSubAck (fut f e) outcome ->
    step e (_send_subscribe_end filters pid outcome e).2
| step_unsubscribe filters : step e (_send_unsubscribe_begin filters e).2
| step_unsubscribe_end pid f outcome :
    pending_unsubs (e_session e) !! pid = Some f -> resumes VUnsubAck (fut f e) outcome ->
    step e (_send_unsubscribe_end pid outcome e).2
| step_ping : step e (ping_begin e).2
| step_ping_timeout f : step e (ping_timeout f e).2
| step_puback a : step e (_handle_puback a e).2
| step_pubrec a : step e (_handle_pubrec a e).2
| step_pubcomp a : step e (_handle_pubcomp a e).2
| step_suback a : step e (_handle_suback a e).2
| step_unsuback a : step e (_handle_unsuback a e).2
| step_pingresp : step e (_handle_pingresp e).2
| step_cancel f : step e (settle_if_pending f Cancelled e).2
| step_link b : step e (set_link b e)
| step_inbound flights pending subs written link :
    step e (inbound_effect flights pending subs written link e)
| step_exit : step e (run_exit e).

Definition reachable (v : MQTTVersion) (max_qos : QoS) : Engine -> Prop :=
  rtc step (new_engine v max_qos).

Lemma engine_ok_new v q : engine_ok (new_engine v q).
Proof.
  split; [split|split]; simpl; try done.
  - apply pool_ok_new.
  - intros x. split; [set_solver|]. by intros ([] & f & Hf).
  - by intros [] x f.
  - by intros [] x f.
Qed.

Lemma inbound_effect_ok flights pending subs written link e :
  engine_ok e -> engine_ok (inbound_effect flights pending subs written link e).
Proof.
  intros [H1 [H2 H3]]. split; [|by split].
  apply (session_ok_same _ _ H1); [done|by intros []|done].
Qed.

Lemma step_ok e e' : step e e' -> engine_ok e -> engine_ok e'.
Proof.
  destruct 1; intros He.
  - by apply publish_preserves.
  - by apply subscribe_begin_preserves.
  - by eapply subscribe_end_ok.
  - by apply unsubscribe_begin_preserves.
  - by eapply unsubscribe_end_ok.
  - by apply (quiet_preserves _ ping_begin_quiet).
  - by apply (quiet_preserves _ (ping_timeout_quiet _)).
  - by apply handle_puback_preserves.
  - by apply handle_pubrec_preserves.
  - by apply handle_pubcomp_preserves.
  - by apply (quiet_preserves _ (handle_suback_quiet _)).
  - by apply (quiet_preserves _ (handle_unsuback_quiet _)).
  - by apply (quiet_preserves _ handle_pingresp_quiet).
  - by apply (quiet_preserves _ (quiet_settle_if _ _)).
  - by apply (engine_ok_core e).
  - by apply inbound_effect_ok.
  - apply (engine_ok_core e); [apply run_exit_core|done].
Qed.

Lemma reachable_ok v q e : reachable v q e -> engine_ok e.
Proof.
  unfold reachable. intros H. pose proof (engine_ok_new v q) as H0. revert H0.
  induction H as [|e1 e2 e3 Hs _ IH]; [done|]. intros H1. by eapply IH, step_ok.
Qed.

(** ** Publishing with acknowledgement *)

(** What a successful [publish] of QoS 1 or 2 has done. *)
Definition published (k : kind) (p : Publish) (pid : Z) (f : nat) (e e' : Engine) : Prop :=
  1 <= pid <= 65535 /\ (forall k', exchange (e_session e) k' pid = None) /\
  exchange (e_session e') k pid = Some f /\ fut f e' = Pending /\ (f ∉ dom (e_futures e)) /\
  e_link e' = true /\ e_version e' = e_version e /\
  exists data, encode (PPublish (with_packet_id p pid)) (e_version e) = Ok data /\
    e_wire e' = e_wire e ++ [data].

Lemma publish_alive p e :
  e_dead e = false -> qos_value (pb_qos p) <= qos_value (e_max_publish_qos e) ->
  pb_qos p <> AT_MOST_ONCE ->
  publish p e =
    match pb_qos p with
    | EXACTLY_ONCE =>
        ('(pid, future) ← open_exchange (ins_qos2 p);
         data ← _encode (PPublish (with_packet_id p pid)); _ ← _send data; mret (Some future)) e
    | _ =>
        ('(pid, future) ← open_exchange (ins_qos1 p);
         data ← _encode (PPublish (with_packet_id p pid)); _ ← _send data; mret (Some future)) e
    end.
Proof.
  intros Hd Hq Hne. unfold publish. rewrite run_bind, ensure_alive_eq, Hd, run_bind. simpl.
  replace (qos_value (e_max_publish_qos e) <? qos_value (pb_qos p)) with false by lia.
  destruct (pb_qos p); [done|by rewrite (open_exchange_bind (ins_qos1 p))
    |by rewrite (open_exchange_bind (ins_qos2 p))].
Qed.

Lemma open_and_send_spec k ins (p : Publish) e :
  inserts k ins -> engine_ok e ->
  match ('(pid, future) ← open_exchange ins;
         data ← _encode (PPublish (with_packet_id p pid)); _ ← _send data; mret (Some future)) e with
  | (Ok (Some f), e') => exists pid, published k p pid f e e'
  | (Ok None, _) => False
  | (Err x, e') =>
      (e' = e /\ x = RuntimeError "All 65535 packet IDs are in use" /\
       65535 <= Z.of_nat (size (_in_use (packet_ids (e_session e))))) \/
      exists pid f, exchange (e_session e') k pid = Some f /\ 1 <= pid <= 65535 /\
        (forall k', exchange (e_session e) k' pid = None) /\ e_wire e' = e_wire e /\
        (encode (PPublish (with_packet_id p pid)) (e_version e) = Err x \/
         (exists data, encode (PPublish (with_packet_id p pid)) (e_version e) = Ok data) /\
         e_link e = false /\ x = OSError)
  end.
Proof.
  intros Hins He. pose proof (open_exchange_spec k ins e Hins He) as HS.
  unfold mbind at 1, ST_bind at 1. destruct (open_exchange ins e) as [[[pid f]|x] e1]; [|by left].
  destruct HS as (_ & Hpid & Hfresh & Hf & pool & _ & ->).
  assert (Hex : exchange (ins pid f (set_ids pool (e_session e))) k pid = Some f)
    by (by rewrite (ins_exchange _ _ Hins), decide_True).
  unfold _encode, gets, lift, _send, mbind, ST_bind, mret, ST_ret. simpl.
  destruct (encode _ _) as [data|x] eqn:Hd.
  2: { right. exists pid, f. eauto 10. }
  destruct (e_link e) eqn:Hl; simpl.
  2: { right. exists pid, f. eauto 15. }
  exists pid. do 2 (split; [done|]). split; [done|].
  split; [|split; [done|split; [done|split; [done|by exists data]]]].
  unfold fut. simpl. by rewrite lookup_insert_eq.
Qed.

(** ** Futures are settled once *)

(** Nothing that ran between [e] and [e'] changed a settled future, the protocol
    version or the death of the engine. *)
Definition futures_mono (e e' : Engine) : Prop :=
  (e_dead e', e_version e') = (e_dead e, e_version e) /\
  dom (e_futures e) ⊆ dom (e_futures e') /\
  forall f, f ∈ dom (e_futures e) -> fut_done (fut f e) = true -> fut f e' = fut f e.

#[export] Instance futures_mono_preorder : PreOrder futures_mono.
Proof.
  split; [by intros e|]. intros e1 e2 e3 (D1 & S1 & F1) (D2 & S2 & F2).
  split; [congruence|]. split; [by etrans|]. intros f Hf Hd.
  rewrite F2, F1; [done|done|done|by apply S1|by rewrite F1].
Qed.

Definition mono {A} (m : M A) : Prop := forall e, futures_mono e (m e).2.

Lemma mono_bind {A B} (m : M A) (f : A -> M B) : mono m -> (forall a, mono (f a)) -> mono (m ≫= f).
Proof.
  intros Hm Hf e. rewrite run_bind. specialize (Hm e).
  destruct (m e) as [[a|x] e']; simpl in *; [etrans; [done|apply Hf]|done].
Qed.

Lemma mono_ret {A} (a : A) : mono (mret a).
Proof. by intros e. Qed.
Lemma mono_raise {A} x : mono (raise (S := Engine) (A := A) x).
Proof. by intros e. Qed.
Lemma mono_gets {A} (f : Engine -> A) : mono (gets f).
Proof. by intros e. Qed.
Lemma mono_lift {A} (r : result A) : mono (lift r).
Proof. by intros e. Qed.
Lemma mono_waiters f : mono (modify (upd_waiters f)).
Proof. by intros e. Qed.
Lemma mono_session f : mono (modify (upd_session f)).
Proof. by intros e. Qed.
Lemma mono_release pid : mono (release_id pid).
Proof. by intros e. Qed.
Lemma mono_acquire : mono acquire_id.
Proof. intros e. unfold acquire_id. by destruct (acquire _) as [[??]|]. Qed.
Lemma mono_send data : mono (_send data).
Proof. intros e. unfold _send. by destruct (e_link e). Qed.
Lemma mono_finally {A} (m : M A) g : mono m -> mono (finally_on_error m (upd_session g)).
Proof. intros Hm e. unfold finally_on_error. specialize (Hm e). by destruct (m e) as [[]]. Qed.

Lemma fut_insert f st e g :
  fut g (upd_futures <[f := st]> e) = if decide (f = g) then st else fut g e.
Proof. unfold fut. simpl. rewrite lookup_insert. by case_decide. Qed.

Lemma mono_create : mono create_future.
Proof.
  intros e. split; [done|]. split; simpl; [rewrite dom_insert; apply union_subseteq_r|].
  intros f Hf _. rewrite fut_insert, decide_False; [done|]. intros <-.
  by apply (is_fresh (dom (e_futures e))).
Qed.

Lemma mono_settle f st : mono (settle f st).
Proof.
  intros e. unfold settle. destruct (fut_done (fut f e)) eqn:Hd; [done|]. split; [done|].
  split; simpl; [rewrite dom_insert; apply union_subseteq_r|].
  intros g Hg Hgd. rewrite fut_insert, decide_False; [done|]. by intros <-; congruence.
Qed.

#[export] Hint Resolve mono_bind mono_ret mono_raise mono_gets mono_lift mono_waiters
  mono_session mono_release mono_acquire mono_send mono_finally mono_create mono_settle : engine.

(** Case analyses of the operations *)
Ltac mono_cases :=
  repeat first
    [ solve [auto with engine]
    | apply mono_bind; [solve [auto with engine]|intros ?]
    | apply mono_bind; [|intros ?]
    | match goal with
      | |- mono (match ?x with _ => _ end) => destruct x
      end ].

Lemma mono_alive : mono _ensure_alive.
Proof. unfold _ensure_alive. mono_cases. Qed.
Lemma mono_settle_if f st : mono (settle_if_pending f st).
Proof. unfold settle_if_pending. mono_cases. Qed.
Lemma mono_encode p : mono (_encode p).
Proof. unfold _encode. mono_cases. Qed.
#[export] Hint Resolve mono_alive mono_settle_if mono_encode : engine.

Lemma fail_pending_lookup exc fs m f :
  fail_pending exc fs m !! f =
    match m !! f with
    | Some Pending => if decide (f ∈ fs) then Some (Failed exc) else Some Pending
    | o => o
    end.
Proof.
  revert m; induction fs as [|g fs IH]; intros m; simpl.
  { by destruct (m !! f) as [[]|]. }
  rewrite IH. destruct (decide (f = g)) as [->|Hne].
  - destruct (m !! g) as [[]|] eqn:Hg; rewrite ?lookup_insert_eq, ?Hg; try done.
    by rewrite decide_True by (by left).
  - assert (Hm : (match m !! g with Some Pending => <[g := Failed exc]> m | _ => m end) !! f = m !! f)
      by (destruct (m !! g) as [[]|]; rewrite ?lookup_insert_ne by done; done).
    rewrite Hm. destruct (m !! f) as [[]|]; try done. apply decide_ext. rewrite elem_of_cons. tauto.
Qed.

(** Any step leaves a settled future as it is, and the engine stays dead. *)
Lemma step_futures e e' :
  step e e' ->
  (e_dead e = true -> e_dead e' = true) /\ dom (e_futures e) ⊆ dom (e_futures e') /\
  forall f, f ∈ dom (e_futures e) -> fut_done (fut f e) = true -> fut f e' = fut f e.
Proof.
  assert (Hm : forall A (m : M A), mono m -> forall e, (e_dead e = true -> e_dead (m e).2 = true) /\
    dom (e_futures e) ⊆ dom (e_futures (m e).2) /\
    forall f, f ∈ dom (e_futures e) -> fut_done (fut f e) = true -> fut f (m e).2 = fut f e).
  { intros A m Hm e0. destruct (Hm e0) as ([= -> _] & H). by split. }
  destruct 1; try (apply Hm; match goal with |- mono ?m =>
    let h := match m with ?h _ _ _ => h | ?h _ _ => h | ?h _ => h | ?h => h end in unfold h end;
    mono_cases; fail).
  - done.
  - done.
  - split; [done|]. simpl. rewrite dom_fail_pending. split; [done|]. intros f _.
    unfold fut. simpl. rewrite fail_pending_lookup. destruct (e_futures e !! f) as [[]|]; done.
Qed.

(** ** No operation waits on a dead engine *)

(** Exchanges of the second state were open in the first. *)
Definition shrinks (e e' : Engine) : Prop :=
  forall k x f, exchange (e_session e') k x = Some f -> exchange (e_session e) k x = Some f.

Lemma shrinks_refl e : shrinks e e.
Proof. by intros k x f. Qed.

Lemma same_core_shrinks e e' : same_core e e' -> shrinks e e'.
Proof. intros [Hs _] k x f. by rewrite Hs. Qed.

Lemma close_shrinks {A} k pid rm (m : M A) e :
  closes k pid rm -> quiet m -> shrinks e (m (upd_session rm e)).2.
Proof.
  intros Hc Hm k' x f. destruct (Hm (upd_session rm e)) as [-> _]. simpl.
  rewrite (cl_exchange _ _ _ Hc). by case_decide.
Qed.

Lemma puback_shrinks a e : shrinks e (_handle_puback a e).2.
Proof.
  unfold _handle_puback. rewrite run_bind. simpl.
  destruct (inflight_qos1 (e_session e) !! pa_packet_id a) as [fl|]; [|apply shrinks_refl].
  exact (close_shrinks KQos1 (pa_packet_id a) (drop_qos1 (pa_packet_id a))
    (settle_if_pending (q1_future fl) (Result (VPubAck a))) e (closes_qos1 _)
    (quiet_settle_if _ _)).
Qed.

Lemma pubcomp_shrinks a e : shrinks e (_handle_pubcomp a e).2.
Proof.
  unfold _handle_pubcomp. rewrite run_bind. simpl.
  destruct (inflight_qos2_out (e_session e) !! pa_packet_id a) as [fl|]; [|apply shrinks_refl].
  exact (close_shrinks KQos2 (pa_packet_id a) (drop_qos2 (pa_packet_id a))
    (settle_if_pending (q2_future fl) (Result (VPubComp a))) e (closes_qos2 _)
    (quiet_settle_if _ _)).
Qed.

(** The flight that a PUBREC moves to its second state *)
Definition to_pubcomp (fl : OutboundQoS2Flight) : OutboundQoS2Flight :=
  mkQoS2Flight (q2_packet_id fl) (q2_publish fl) PENDING_PUBCOMP (q2_future fl).

Lemma pubrec_session a e :
  e_session (_handle_pubrec a e).2 =
    match inflight_qos2_out (e_session e) !! pa_packet_id a with
    | None => e_session e
    | Some fl =>
        if bool_decide (q2_state fl <> PENDING_PUBREC) then e_session e
        else if 0x80 <=? pa_reason_code a then drop_qos2 (pa_packet_id a) (e_session e)
        else upd_qos2 <[pa_packet_id a := to_pubcomp fl]> (e_session e)
    end.
Proof.
  unfold _handle_pubrec. rewrite run_bind. simpl.
  destruct (inflight_qos2_out (e_session e) !! pa_packet_id a) as [fl|]; [|done].
  case_bool_decide; [done|]. destruct (0x80 <=? pa_reason_code a).
  - exact (proj1 (quiet_settle_if (q2_future fl) (Failed (_publish_error a))
      (upd_session (drop_qos2 (pa_packet_id a)) e))).
  - rewrite run_bind. simpl.
    assert (Hq : quiet (data ← _encode (PPubRel (mkPubAck (pa_packet_id a) 0 None)); _send data))
      by auto with engine.
    apply Hq.
Qed.

Lemma pubrec_shrinks a e : shrinks e (_handle_pubrec a e).2.
Proof.
  intros k x f. rewrite pubrec_session.
  destruct (inflight_qos2_out (e_session e) !! pa_packet_id a) as [fl|] eqn:Hfl; [|done].
  case_bool_decide; [done|]. destruct (0x80 <=? pa_reason_code a).
  - rewrite (cl_exchange _ _ _ (closes_qos2 _)). by case_decide.
  - destruct k; try done. simpl. rewrite lookup_insert. case_decide; [|done]. subst. by rewrite Hfl.
Qed.

Lemma dead_refuses {A} (m : M A) e :
  e_dead e = true ->
  (_ ← _ensure_alive; m) e = (Err (MQTTDisconnectedError "Connection lost"), e).
Proof. intros Hd. by rewrite run_bind, ensure_alive_eq, Hd. Qed.

Lemma step_dead_shrinks e e' :
  step e e' -> e_dead e = true -> shrinks e e'.
Proof.
  destruct 1; intros Hd.
  - unfold publish. rewrite dead_refuses by done. apply shrinks_refl.
  - unfold _send_subscribe_begin. rewrite dead_refuses by done. apply shrinks_refl.
  - apply (close_shrinks KSub pid _ (suback ← lift outcome;
      _ ← lift (_raise_on_rejected_filters filters suback); mret suback));
      [apply closes_sub|auto with engine].
  - unfold _send_unsubscribe_begin. rewrite dead_refuses by done. apply shrinks_refl.
  - apply (close_shrinks KUnsub pid _ (lift outcome)); [apply closes_unsub|auto with engine].
  - apply same_core_shrinks, ping_begin_quiet.
  - apply same_core_shrinks, ping_timeout_quiet.
  - apply puback_shrinks.
  - apply pubrec_shrinks.
  - apply pubcomp_shrinks.
  - apply same_core_shrinks, handle_suback_quiet.
  - apply same_core_shrinks, handle_unsuback_quiet.
  - apply same_core_shrinks, handle_pingresp_quiet.
  - apply same_core_shrinks, quiet_settle_if.
  - by intros k x f.
  - by intros [].
  - apply same_core_shrinks, run_exit_core.
Qed.

Definition all_settled (e : Engine) : Prop :=
  forall k x f, exchange (e_session e) k x = Some f -> fut_done (fut f e) = true.

(** The futures that [_cancel_pending] goes through include every open exchange. *)
Lemma run_exit_settles e : all_settled (run_exit e).
Proof.
  intros k x f Hf. unfold fut. simpl. rewrite fail_pending_lookup. simpl in Hf.
  destruct (e_futures e !! f) as [[]|]; simpl; try done.
  rewrite decide_True; [done|]. rewrite !elem_of_app.
  destruct k; simpl in Hf.
  - apply fmap_Some in Hf as (fl & Hfl & ->). right; right; left.
    apply list_elem_of_fmap_2, list_elem_of_fmap. exists (x, fl). split; [done|].
    by apply elem_of_map_to_list.
  - apply fmap_Some in Hf as (fl & Hfl & ->). do 3 right; left.
    apply list_elem_of_fmap_2, list_elem_of_fmap. exists (x, fl). split; [done|].
    by apply elem_of_map_to_list.
  - left. apply list_elem_of_fmap. exists (x, f). split; [done|]. by apply elem_of_map_to_list.
  - right; left. apply list_elem_of_fmap. exists (x, f). split; [done|].
    by apply elem_of_map_to_list.
Qed.

(** The protocol version never changes. *)
Lemma step_version e e' : step e e' -> e_version e' = e_version e.
Proof.
  assert (Hm : forall A (m : M A) e, mono m -> e_version (m e).2 = e_version e).
  { intros A m e0 Hm. by destruct (Hm e0) as ([= _ ->] & _). }
  destruct 1; try done; apply Hm; match goal with |- mono ?m =>
    let h := match m with ?h _ _ _ => h | ?h _ _ => h | ?h _ => h | ?h => h end in unfold h end;
    mono_cases.
Qed.

Lemma step_dead_of_alive e e' : step e e' -> e_dead e' = true -> e_dead e = true \/ e' = run_exit e.
Proof.
  assert (Hm : forall A (m : M A) e, mono m -> e_dead (m e).2 = true -> e_dead e = true).
  { intros A m e0 Hm. by destruct (Hm e0) as ([= -> _] & _). }
  destruct 1; try (intros Hd; left; eapply Hm, Hd; match goal with |- mono ?m =>
    let h := match m with ?h _ _ _ => h | ?h _ _ => h | ?h _ => h | ?h => h end in unfold h end;
    mono_cases; fail).
  - by left.
  - by left.
  - by right.
Qed.

Lemma reachable_dead_settled v q e : reachable v q e -> e_dead e = true -> all_settled e.
Proof.
  unfold reachable. revert e. apply (rtc_ind_r (fun e => e_dead e = true -> all_settled e));
    [done|]. intros e1 e2 Hr Hs IH Hd. pose proof (reachable_ok v q e1 Hr) as Hok.
  destruct (step_dead_of_alive _ _ Hs Hd) as [Hd1| ->]; [|apply run_exit_settles].
  intros k x f Hf. apply (step_dead_shrinks _ _ Hs Hd1) in Hf.
  destruct (step_futures _ _ Hs) as (_ & _ & Hst).
  rewrite Hst; [by eapply IH| |by eapply IH].
  by eapply (so_alloc _ _ (eo_session _ Hok)).
Qed.

(** ** The handshakes *)

Lemma settle_if_eq f st e :
  settle_if_pending f st e =
    (Ok tt, if fut_done (fut f e) then e else upd_futures <[f := st]> e).
Proof.
  unfold settle_if_pending, settle. rewrite run_bind. simpl.
  destruct (fut_done (fut f e)) eqn:Hd; [done|]. by rewrite Hd.
Qed.

Definition set_future (f : nat) (st : fut_state) (e : Engine) : Engine :=
  if fut_done (fut f e) then e else upd_futures <[f := st]> e.

Lemma fut_set_future f st e :
  fut f (set_future f st e) = if fut_done (fut f e) then fut f e else st.
Proof.
  unfold set_future. destruct (fut_done (fut f e)) eqn:Hd; [done|].
  by rewrite fut_insert, decide_True.
Qed.

Lemma session_set_future f st e : e_session (set_future f st e) = e_session e.
Proof. unfold set_future. by destruct (fut_done _). Qed.

Lemma wire_set_future f st e : e_wire (set_future f st e) = e_wire e.
Proof. unfold set_future. by destruct (fut_done _). Qed.

Lemma puback_eq a e :
  _handle_puback a e =
    match inflight_qos1 (e_session e) !! pa_packet_id a with
    | None => (Err (MQTTProtocolError "PUBACK for unknown packet_id"), e)
    | Some fl => (Ok tt, set_future (q1_future fl) (Result (VPubAck a))
                           (upd_session (drop_qos1 (pa_packet_id a)) e))
    end.
Proof.
  unfold _handle_puback. rewrite run_bind. simpl.
  destruct (inflight_qos1 (e_session e) !! pa_packet_id a) as [fl|]; [|done].
  run_steps. by rewrite settle_if_eq.
Qed.

Lemma pubcomp_eq a e :
  _handle_pubcomp a e =
    match inflight_qos2_out (e_session e) !! pa_packet_id a with
    | None => (Err (MQTTProtocolError "PUBCOMP for unknown packet_id"), e)
    | Some fl => (Ok tt, set_future (q2_future fl) (Result (VPubComp a))
                           (upd_session (drop_qos2 (pa_packet_id a)) e))
    end.
Proof.
  unfold _handle_pubcomp. rewrite run_bind. simpl.
  destruct (inflight_qos2_out (e_session e) !! pa_packet_id a) as [fl|]; [|done].
  run_steps. by rewrite settle_if_eq.
Qed.

(** The PUBREL that answers a PUBREC *)
Lemma encode_pubrel pid v :
  0 <= pid <= 65535 -> exists data, encode (PPubRel (mkPubAck pid 0 None)) v = Ok data.
Proof.
  intros Hp. unfold encode, _encode_pub_ack_variant, _packet_id_only. simpl.
  rewrite andb_false_r. pose proof (proj2 (pack_H_range pid) Hp) as HO.
  destruct (pack_H pid) as [bs|] eqn:Hb; [|done]. simpl. unfold _build_packet.
  rewrite (pack_H_len _ _ Hb). simpl. by eexists.
Qed.

Lemma pubrec_eq a e fl data :
  inflight_qos2_out (e_session e) !! pa_packet_id a = Some fl ->
  q2_state fl = PENDING_PUBREC -> e_link e = true ->
  encode (PPubRel (mkPubAck (pa_packet_id a) 0 None)) (e_version e) = Ok data ->
  _handle_pubrec a e =
    (Ok tt,
     if 0x80 <=? pa_reason_code a
     then set_future (q2_future fl) (Failed (_publish_error a))
            (upd_session (drop_qos2 (pa_packet_id a)) e)
     else write data (upd_session (upd_qos2 <[pa_packet_id a := to_pubcomp fl]>) e)).
Proof.
  intros Hfl Hst Hl Hd. unfold _handle_pubrec. rewrite run_bind. simpl.
  rewrite Hfl, bool_decide_false by (rewrite Hst; tauto).
  destruct (0x80 <=? pa_reason_code a); run_steps; [by rewrite settle_if_eq|].
  unfold _encode. run_steps. unfold lift. rewrite Hd. unfold _send. simpl.
  by rewrite Hl.
Qed.

(** What [publish] has registered for QoS 1 and QoS 2 *)
Lemma publish_spec p e :
  engine_ok e -> e_dead e = false -> qos_value (pb_qos p) <= qos_value (e_max_publish_qos e) ->
  pb_qos p <> AT_MOST_ONCE ->
  let k := if bool_decide (pb_qos p = EXACTLY_ONCE) then KQos2 else KQos1 in
  match publish p e with
  | (Ok (Some f), e') => exists pid, published k p pid f e e'
  | (Ok None, _) => False
  | (Err x, e') =>
      (e' = e /\ x = RuntimeError "All 65535 packet IDs are in use" /\
       65535 <= Z.of_nat (size (_in_use (packet_ids (e_session e))))) \/
      exists pid f, exchange (e_session e') k pid = Some f /\ 1 <= pid <= 65535 /\
        (forall k', exchange (e_session e) k' pid = None) /\ e_wire e' = e_wire e /\
        (encode (PPublish (with_packet_id p pid)) (e_version e) = Err x \/
         (exists data, encode (PPublish (with_packet_id p pid)) (e_version e) = Ok data) /\
         e_link e = false /\ x = OSError)
  end.
Proof.
  intros He Hd Hq Hne k. rewrite publish_alive by done. subst k.
  destruct (pb_qos p) eqn:Hqos; [done|..].
  - rewrite bool_decide_false by done. apply open_and_send_spec; [by apply inserts_qos1|done].
  - rewrite bool_decide_true by done. apply open_and_send_spec; [by apply inserts_qos2|done].
Qed.

(** ** The life of a QoS 2 flight *)

Inductive flight_step : option OutboundQoS2Flight -> option OutboundQoS2Flight -> Prop :=
| fs_same o : flight_step o o
| fs_publish fl : q2_state fl = PENDING_PUBREC -> flight_step None (Some fl)
| fs_pubrec fl : q2_state fl = PENDING_PUBREC -> flight_step (Some fl) (Some (to_pubcomp fl))
| fs_end fl : flight_step (Some fl) None.

(** Computations that do not touch the QoS 2 table *)
Definition keeps_qos2 {A} (m : M A) : Prop :=
  forall e, inflight_qos2_out (e_session (m e).2) = inflight_qos2_out (e_session e).

Lemma keeps_bind {A B} (m : M A) (f : A -> M B) :
  keeps_qos2 m -> (forall a, keeps_qos2 (f a)) -> keeps_qos2 (m ≫= f).
Proof.
  intros Hm Hf e. rewrite run_bind. specialize (Hm e).
  destruct (m e) as [[a|x] e']; simpl in *; [etrans; [apply Hf|done]|done].
Qed.

Lemma keeps_quiet {A} (m : M A) : quiet m -> keeps_qos2 m.
Proof. intros Hq e. by destruct (Hq e) as [-> _]. Qed.

Lemma keeps_modify g :
  (forall s, inflight_qos2_out (g s) = inflight_qos2_out s) ->
  keeps_qos2 (modify (upd_session g)).
Proof. intros Hg e. simpl. apply Hg. Qed.

Lemma keeps_acquire : keeps_qos2 acquire_id.
Proof. intros e. unfold acquire_id. by destruct (acquire _) as [[??]|]. Qed.

Lemma keeps_finally {A} (m : M A) g :
  keeps_qos2 m -> (forall s, inflight_qos2_out (g s) = inflight_qos2_out s) ->
  keeps_qos2 (finally_on_error m (upd_session g)).
Proof.
  intros Hm Hg e. unfold finally_on_error. specialize (Hm e).
  destruct (m e) as [[]]; simpl in *; [done|by rewrite Hg].
Qed.

#[export] Hint Resolve keeps_acquire : engine.

Ltac keeps :=
  repeat first
    [ apply keeps_quiet; solve [auto with engine]
    | match goal with
      | |- keeps_qos2 acquire_id => apply keeps_acquire
      | |- keeps_qos2 (modify (upd_session _)) => apply keeps_modify; done
      | |- keeps_qos2 (finally_on_error _ _) => apply keeps_finally; [|done]
      | |- keeps_qos2 (mbind _ _) => apply keeps_bind; [|intros ?]
      | |- keeps_qos2 (match ?x with _ => _ end) => destruct x
      end ].

Lemma publish_flight p e x :
  engine_ok e ->
  flight_step (inflight_qos2_out (e_session e) !! x)
    (inflight_qos2_out (e_session (publish p e).2) !! x).
Proof.
  intros He. destruct (decide (pb_qos p = EXACTLY_ONCE)) as [Hq|Hq].
  - destruct (e_dead e) eqn:Hd; [unfold publish; by rewrite dead_refuses by done; constructor|].
    destruct (decide (qos_value (pb_qos p) <= qos_value (e_max_publish_qos e))) as [Hm|Hm].
    2: { unfold publish. rewrite run_bind, ensure_alive_eq, Hd, run_bind. simpl.
         replace (_ <? _) with true by lia. constructor. }
    rewrite publish_alive, Hq by (done || by rewrite Hq). rewrite run_bind.
    pose proof (open_exchange_spec KQos2 _ e (inserts_qos2 p Hq) He) as HS.
    destruct (open_exchange (ins_qos2 p) e) as [[[pid f]|err] e1].
    2: { destruct HS as [-> _]. constructor. }
    destruct HS as (_ & _ & Hfresh & _ & pool & _ & ->).
    rewrite (proj1 (quiet_send_packet _ _ _)). simpl. rewrite lookup_insert.
    case_decide as Hx; [subst x|constructor]. specialize (Hfresh KQos2). simpl in Hfresh.
    destruct (inflight_qos2_out (e_session e) !! pid); [done|]. by constructor.
  - assert (Hk : keeps_qos2 (publish p)).
    { unfold publish. destruct (pb_qos p); [keeps|keeps|done]. }
    rewrite Hk. constructor.
Qed.

Lemma step_flight e e' x :
  step e e' -> engine_ok e ->
  flight_step (inflight_qos2_out (e_session e) !! x) (inflight_qos2_out (e_session e') !! x).
Proof.
  assert (HK : forall A (m : M A), keeps_qos2 m -> forall e, flight_step
    (inflight_qos2_out (e_session e) !! x) (inflight_qos2_out (e_session (m e).2) !! x)).
  { intros A m Hk e0. rewrite Hk. constructor. }
  destruct 1; intros He; try (apply HK, keeps_quiet;
    eauto using ping_begin_quiet, ping_timeout_quiet, handle_suback_quiet,
      handle_unsuback_quiet, handle_pingresp_quiet, quiet_settle_if; fail).
  - by apply publish_flight.
  - apply HK. unfold _send_subscribe_begin. keeps.
  - apply HK. unfold _send_subscribe_end. keeps.
  - apply HK. unfold _send_unsubscribe_begin. keeps.
  - apply HK. unfold _send_unsubscribe_end. keeps.
  - rewrite puback_eq. destruct (_ !! pa_packet_id a) as [fl|]; simpl; [|constructor].
    rewrite session_set_future. constructor.
  - rewrite pubrec_session.
    destruct (inflight_qos2_out (e_session e) !! pa_packet_id a) as [fl|] eqn:Hfl; [|constructor].
    case_bool_decide as Hs; [constructor|].
    destruct (0x80 <=? pa_reason_code a); simpl.
    + rewrite lookup_delete. case_decide; subst; [rewrite Hfl|]; constructor.
    + rewrite lookup_insert. case_decide; subst; [rewrite Hfl|]; by constructor.
  - rewrite pubcomp_eq.
    destruct (inflight_qos2_out (e_session e) !! pa_packet_id a) as [fl|] eqn:Hfl; [|constructor].
    simpl. rewrite session_set_future. simpl.
    rewrite lookup_delete. case_decide; subst; [rewrite Hfl|]; constructor.
  - constructor.
  - constructor.
  - constructor.
Qed.

(** [set_result] without a [done] check: a second SUBACK for a pending request. *)
Lemma suback_eq a e f :
  pending_subs (e_session e) !! sa_packet_id a = Some f ->
  _handle_suback a e =
    if fut_done (fut f e) then (Err InvalidStateError, e)
    else (Ok tt, upd_futures <[f := Result (VSubAck a)]> e).
Proof. intros Hf. unfold _handle_suback. rewrite run_bind. simpl. by rewrite Hf. Qed.

(** *** Requests *)

(** The first half of a SUBSCRIBE or UNSUBSCRIBE: either the exchange is open and
    its packet is on the wire, or nothing is left open. *)
Lemma request_spec k ins rm (p : Z -> packet) e :
  inserts k ins -> (forall pid, closes k pid (rm pid)) -> engine_ok e ->
  match ('(pid, future) ← open_exchange ins;
         finally_on_error (data ← _encode (p pid); _ ← _send data; mret (pid, future))
           (upd_session (rm pid))) e with
  | (Ok (pid, f), e') =>
      exchange (e_session e') k pid = Some f /\ fut f e' = Pending /\
      (forall k', exchange (e_session e) k' pid = None) /\
      exists data, encode (p pid) (e_version e) = Ok data /\ e_wire e' = e_wire e ++ [data]
  | (Err _, e') =>
      e_wire e' = e_wire e /\
      forall k' x, exchange (e_session e') k' x = exchange (e_session e) k' x
  end.
Proof.
  intros Hins Hrm He. pose proof (open_exchange_spec k ins e Hins He) as HS.
  rewrite run_bind. destruct (open_exchange ins e) as [[[pid f]|x] e1]; [|by destruct HS as [-> _]].
  destruct HS as (_ & _ & Hfresh & _ & pool & _ & ->).
  assert (Hundo : forall k' x, exchange (rm pid (ins pid f (set_ids pool (e_session e)))) k' x
                               = exchange (e_session e) k' x).
  { intros k' x. rewrite (cl_exchange _ _ _ (Hrm pid)), (ins_exchange _ _ Hins).
    case_decide as Hd; [destruct Hd as [_ ->]; by rewrite Hfresh|by destruct k']. }
  assert (Hex : exchange (ins pid f (set_ids pool (e_session e))) k pid = Some f)
    by (by rewrite (ins_exchange _ _ Hins), decide_True).
  unfold finally_on_error, _encode, gets, lift, _send, mbind, ST_bind, mret, ST_ret. simpl.
  destruct (encode (p pid) (e_version e)) as [data|x] eqn:Hd; [|by split].
  destruct (e_link e) eqn:Hl; simpl; [|by split].
  split; [done|]. split; [|split; [done|by exists data]].
  unfold fut. simpl. by rewrite lookup_insert_eq.
Qed.

Lemma subscribe_begin_eq filters sid e :
  e_dead e = false ->
  _send_subscribe_begin filters sid e =
    ('(pid, future) ← open_exchange ins_sub;
     finally_on_error
       (data ← _encode (PSubscribe (mkSubscribe pid filters
                          ((fun i => mkSubscribeProperties (Some i) []) <$> sid)));
        _ ← _send data; mret (pid, future))
       (upd_session (drop_sub pid))) e.
Proof.
  intros Hd. unfold _send_subscribe_begin. rewrite run_bind, ensure_alive_eq, Hd.
  by rewrite (open_exchange_bind ins_sub).
Qed.

Lemma subscribe_end_eq filters pid outcome e :
  _send_subscribe_end filters pid outcome e =
    (match outcome with
     | Ok a => match _raise_on_rejected_filters filters a with Ok _ => Ok a | Err x => Err x end
     | Err x => Err x
     end, upd_session (drop_sub pid) e).
Proof.
  unfold _send_subscribe_end. run_steps. destruct outcome as [a|x]; [|done].
  run_steps. by destruct (_raise_on_rejected_filters filters a).
Qed.

(** *** QoS 2 *)

(** The flight a QoS 2 [publish] registers *)
Lemma publish_qos2_flight p e e1 f :
  engine_ok e -> pb_qos p = EXACTLY_ONCE -> publish p e = (Ok (Some f), e1) ->
  exists pid fl, published KQos2 p pid f e e1 /\ engine_ok e1 /\
    inflight_qos2_out (e_session e1) !! pid = Some fl /\
    q2_state fl = PENDING_PUBREC /\ q2_future fl = f.
Proof.
  intros He Hq Hp. assert (Hd : e_dead e = false).
  { destruct (e_dead e) eqn:Hd; [|done]. unfold publish in Hp. by rewrite dead_refuses in Hp. }
  assert (Hm : qos_value (pb_qos p) <= qos_value (e_max_publish_qos e)).
  { unfold publish in Hp. rewrite run_bind, ensure_alive_eq, Hd, run_bind in Hp. simpl in Hp.
    destruct (_ <? _) eqn:Hlt; [done|]. by bool_inv. }
  pose proof (publish_spec p e He Hd Hm ltac:(by rewrite Hq)) as HS. cbv zeta in HS.
  pose proof (publish_preserves p e He) as He1. rewrite Hp in HS, He1.
  rewrite bool_decide_true in HS by done. destruct HS as (pid & HP).
  pose proof HP as (_ & Hfresh & Hex & _). simpl in Hex, He1.
  pose proof (publish_flight p e pid He) as HF. rewrite Hp in HF. simpl in HF.
  specialize (Hfresh KQos2). simpl in Hfresh.
  destruct (inflight_qos2_out (e_session e1) !! pid) as [fl|] eqn:Hfl; [|done].
  destruct (inflight_qos2_out (e_session e) !! pid); [done|].
  exists pid, fl. do 3 (split; [done|]). split; [by inversion HF|]. by injection Hex.
Qed.

(** Closing the QoS 2 exchange of an identifier frees it. *)
Lemma qos2_closed e pid g f st :
  engine_ok e -> exchange (e_session e) KQos2 pid = Some g ->
  let e' := set_future f st (upd_session (drop_qos2 pid) e) in
  (pid ∉ _in_use (packet_ids (e_session e'))) /\ forall k, exchange (e_session e') k pid = None.
Proof.
  intros He Hg e'. unfold e'. rewrite session_set_future.
  change (e_session (upd_session (drop_qos2 pid) e)) with (drop_qos2 pid (e_session e)). split.
  - simpl. rewrite elem_of_difference, elem_of_singleton. tauto.
  - intros k. rewrite (cl_exchange _ _ _ (closes_qos2 pid)). case_decide as Hk; [done|].
    destruct (exchange (e_session e) k pid) as [g'|] eqn:Hg'; [|done]. destruct Hk. split; [|done].
    eapply (so_uniq _ _ (eo_session _ He) k pid g' KQos2 pid g); [done|done|by left].
Qed.

(** PUBREC, PUBREL, PUBCOMP on a registered flight *)
Lemma qos2_completion e1 pid fl pubrel rec comp :
  engine_ok e1 -> inflight_qos2_out (e_session e1) !! pid = Some fl ->
  q2_state fl = PENDING_PUBREC -> fut (q2_future fl) e1 = Pending -> e_link e1 = true ->
  encode (PPubRel (mkPubAck pid 0 None)) (e_version e1) = Ok pubrel ->
  pa_packet_id rec = pid -> pa_reason_code rec < 0x80 -> pa_packet_id comp = pid ->
  exists e2 e3, _handle_pubrec rec e1 = (Ok tt, e2) /\ e_wire e2 = e_wire e1 ++ [pubrel] /\
    fut (q2_future fl) e2 = Pending /\ _handle_pubcomp comp e2 = (Ok tt, e3) /\
    fut (q2_future fl) e3 = Result (VPubComp comp) /\
    (pid ∉ _in_use (packet_ids (e_session e3))) /\
    forall k, exchange (e_session e3) k pid = None.
Proof.
  intros He1 Hfl Hst Hpend Hlink Hdata <- Hrc Hcomp.
  pose proof (pubrec_eq rec e1 fl pubrel Hfl Hst Hlink Hdata) as E2.
  replace (0x80 <=? pa_reason_code rec) with false in E2 by lia.
  pose proof (handle_pubrec_preserves rec e1 He1) as He2. rewrite E2 in He2.
  set (e2 := write pubrel _) in *. simpl in He2.
  assert (Hfl2 : inflight_qos2_out (e_session e2) !! pa_packet_id comp = Some (to_pubcomp fl))
    by (unfold e2; simpl; by rewrite Hcomp, lookup_insert_eq).
  pose proof (pubcomp_eq comp e2) as E3. rewrite Hfl2 in E3. rewrite Hcomp in *.
  eexists e2, _. split; [done|]. split; [done|]. split; [done|]. split; [exact E3|].
  split; [|apply (qos2_closed e2 _ (q2_future fl)); [done|unfold exchange; by rewrite Hfl2]].
  rewrite fut_set_future. simpl. change (fut (q2_future fl) (upd_session _ e2))
    with (fut (q2_future fl) e1). by rewrite Hpend.
Qed.

(** ** Properties *)

Definition outbound_kind (q : QoS) : kind := if bool_decide (q = EXACTLY_ONCE) then KQos2 else KQos1.

(** C6: in every reachable state an identifier is marked used exactly while one
    exchange (a QoS 1 or QoS 2 flight, a SUBSCRIBE or an UNSUBSCRIBE) is open under
    it, identifiers are in 1..65535, no two open exchanges share an identifier or a
    future, and each flight carries the identifier it is registered under. *)
Theorem packet_ids_identify_exchanges v q e :
  reachable v q e ->
  (forall x, x ∈ _in_use (packet_ids (e_session e)) <->
     exists k f, exchange (e_session e) k x = Some f) /\
  (forall x, x ∈ _in_use (packet_ids (e_session e)) -> 1 <= x <= 65535) /\
  (forall k x f k' x' f', exchange (e_session e) k x = Some f ->
     exchange (e_session e) k' x' = Some f' -> x = x' \/ f = f' -> k = k' /\ x = x') /\
  flights_ok (e_session e).
Proof.
  intros H%reachable_ok. destruct H as [[H1 H2 H3 H4] H5].
  split; [done|]. split; [apply (pool_range _ H1)|]. by split.
Qed.

Definition sample_q1 : Publish := mkPublish (lit "t") [x01] AT_LEAST_ONCE false false None None.
Definition sample_q2 : Publish := mkPublish (lit "t") [x01] EXACTLY_ONCE false false None None.
Definition engine1 : Engine := (publish sample_q1 (new_engine V5 EXACTLY_ONCE)).2.
Definition engine2 : Engine := (publish sample_q2 engine1).2.

Lemma reachable_engine1 : reachable V5 EXACTLY_ONCE engine1.
Proof. apply rtc_once. apply step_publish. Qed.

Lemma reachable_engine2 : reachable V5 EXACTLY_ONCE engine2.
Proof. eapply rtc_r; [apply reachable_engine1|]. apply step_publish. Qed.

Lemma packet_ids_identify_exchanges_witness :
  exists f, exchange (e_session engine2) KQos2 2 = Some f /\
    2 ∈ _in_use (packet_ids (e_session engine2)).
Proof.
  destruct (exchange (e_session engine2) KQos2 2) as [f|] eqn:E; [|vm_compute in E; discriminate E].
  exists f. split; [reflexivity|].
  apply (proj1 (packet_ids_identify_exchanges _ _ _ reachable_engine2)).
  exists KQos2, f. exact E.
Defined.

Lemma oo_publish p : outbound_only (publish p).
Proof. unfold publish, _ensure_alive. eauto 20 with outbound. Qed.

(** All identifiers belong to open exchanges. *)
Definition all_ids_open (e : Engine) : Prop :=
  forall i, 1 <= i <= 65535 -> exists k f, exchange (e_session e) k i = Some f.

Lemma full_pool_open e :
  engine_ok e -> 65535 <= Z.of_nat (size (_in_use (packet_ids (e_session e)))) -> all_ids_open e.
Proof.
  intros He Hs i Hi. apply (so_used _ _ (eo_session _ He)). apply dec_stable. intros Hn.
  pose proof (pool_range _ (so_pool _ _ (eo_session _ He))) as Hr.
  assert (Hsub : {[i]} ∪ _in_use (packet_ids (e_session e)) ⊆ list_to_set (C := gset Z) (seqZ 1 65535)).
  { intros x Hx. rewrite elem_of_list_to_set, elem_of_seqZ.
    apply elem_of_union in Hx as [->%elem_of_singleton|Hx]; [lia|]. specialize (Hr x Hx). lia. }
  apply subseteq_size in Hsub.
  rewrite size_union, size_singleton in Hsub by (by apply disjoint_singleton_l).
  rewrite size_list_to_set in Hsub by apply NoDup_seqZ. rewrite length_seqZ in Hsub. lia.
Qed.

(** C7: what [publish] does, decided in the code's order.  On an engine that is dead
    it raises [MQTTDisconnectedError]; else, with a QoS above the broker's maximum, it
    raises [MQTTQoSExceededError]; in both cases nothing changes.  Otherwise a QoS 0
    packet is written when it can be encoded and the link is up, and changes nothing
    when one of the two fails, with the encoder's exception or [OSError].  A QoS 1 or
    2 packet is refused, without effect, exactly when every identifier 1..65535
    belongs to an open exchange; else it takes an identifier no open exchange uses,
    and a flight with a future of its own is registered under it; the packet that
    carries the identifier is the last write when it can be encoded and the link is
    up, and what was written decodes to it; otherwise nothing is written and the
    encoder's exception or [OSError] is raised. *)
Theorem publish_outcome v q p e :
  reachable v q e ->
  let written p' data e' :=
    e_wire e' = e_wire e ++ [data] /\
    decode data (e_version e) = Ok (Some (canon (e_version e) (PPublish p'), zlen data)) in
  if e_dead e then publish p e = (Err (MQTTDisconnectedError "Connection lost"), e)
  else if decide (qos_value (e_max_publish_qos e) < qos_value (pb_qos p)) then
    publish p e =
      (Err (MQTTQoSExceededError (qos_value (pb_qos p)) (qos_value (e_max_publish_qos e))), e)
  else if decide (pb_qos p = AT_MOST_ONCE) then
    match encode (PPublish p) (e_version e) with
    | Err x => publish p e = (Err x, e)
    | Ok data =>
        if e_link e then exists e', publish p e = (Ok None, e') /\ e_session e' = e_session e /\ written p data e'
        else publish p e = (Err OSError, e)
    end
  else
    (all_ids_open e /\ publish p e = (Err (RuntimeError "All 65535 packet IDs are in use"), e)) \/
    exists pid f e', 1 <= pid <= 65535 /\ (forall k, exchange (e_session e) k pid = None) /\
      exchange (e_session e') (outbound_kind (pb_qos p)) pid = Some f /\
      match encode (PPublish (with_packet_id p pid)) (e_version e) with
      | Err x => publish p e = (Err x, e') /\ e_wire e' = e_wire e
      | Ok data =>
          if e_link e then
            publish p e = (Ok (Some f), e') /\ fut f e' = Pending /\ (f ∉ dom (e_futures e)) /\
            written (with_packet_id p pid) data e'
          else publish p e = (Err OSError, e') /\ e_wire e' = e_wire e
      end.
Proof.
  intros He%reachable_ok written.
  assert (Hdec : forall p' data, encode (PPublish p') (e_version e) = Ok data ->
    decode data (e_version e) = Ok (Some (canon (e_version e) (PPublish p'), zlen data))).
  { intros p' data Hd. rewrite <- (app_nil_r data) at 1. by apply decode_encode. }
  destruct (e_dead e) eqn:Hd.
  { unfold publish. by rewrite dead_refuses. }
  destruct (decide (_ < _)) as [Hq|Hq].
  { unfold publish. rewrite run_bind, ensure_alive_eq, Hd, run_bind. simpl.
    by replace (_ <? _) with true by lia. }
  destruct (decide (pb_qos p = AT_MOST_ONCE)) as [H0|H0].
  - unfold publish. rewrite run_bind, ensure_alive_eq, Hd, run_bind. simpl.
    replace (_ <? _) with false by lia. rewrite H0, run_bind, encode_eq.
    destruct (encode (PPublish p) (e_version e)) as [data|x] eqn:Hen; [|done].
    rewrite run_bind, send_eq. destruct (e_link e) eqn:Hl; [|done].
    eexists. split; [done|]. split; [done|]. split; [done|]. by apply Hdec.
  - pose proof (publish_spec p e He Hd ltac:(lia) H0) as HS. cbv zeta in HS.
    destruct (publish p e) as [[[f|]|x] e'] eqn:Hp; [|done|].
    + destruct HS as (pid & Hr & Hfree & Hex & Hpend & Hnew & Hl & _ & data & Hen & Hw). right.
      exists pid, f, e'. rewrite Hen. do 3 (split; [done|]).
      assert (Hle : e_link e = true).
      { destruct (oo_publish p e) as (_ & _ & _ & HL). rewrite Hp in HL. simpl in HL. congruence. }
      rewrite Hle. do 3 (split; [done|]). split; [done|]. by apply Hdec.
    + destruct HS as [(-> & -> & Hfull)|(pid & f & Hex & Hr & Hfree & Hw & [Hx|((data & Hx) & Hl & ->)])].
      * left. split; [by apply full_pool_open|done].
      * right. exists pid, f, e'. by rewrite Hx.
      * right. exists pid, f, e'. by rewrite Hx, Hl.
Qed.

Lemma publish_outcome_witness :
  exists pid f, exchange (e_session (publish sample_q2 engine1).2) KQos2 pid = Some f /\
    fut f (publish sample_q2 engine1).2 = Pending.
Proof.
  assert (Hrun : e_dead engine1 = false /\ e_link engine1 = true /\
    is_Ok (publish sample_q2 engine1).1 = true) by (split_and!; vm_compute; reflexivity).
  destruct Hrun as (Hd & Hl & Hr).
  pose proof (publish_outcome _ _ sample_q2 _ reachable_engine1) as H. cbv zeta in H.
  rewrite Hd in H. destruct (decide _) as [Hq|_] in H; [vm_compute in Hq; discriminate Hq|].
  destruct (decide _) as [H0|_] in H; [discriminate H0|].
  destruct H as [(_ & H)|(pid & f & e' & _ & _ & Hex & H)].
  { rewrite H in Hr. discriminate Hr. }
  rewrite Hl in H. destruct (encode _ _).
  - destruct H as (Hp & Hf & _). exists pid, f. rewrite Hp. split; [exact Hex|exact Hf].
  - destruct H as (Hp & _). rewrite Hp in Hr. discriminate Hr.
Defined.

(** The QoS 2 handshake completes.  After a QoS 2 [publish], the broker's PUBREC
    makes the engine write a PUBREL for the same identifier and nothing else, the
    caller keeps waiting, and the PUBCOMP resolves its future with the PUBCOMP and
    frees the identifier. *)
Theorem qos2_handshake v q p e e1 f :
  reachable v q e -> pb_qos p = EXACTLY_ONCE -> publish p e = (Ok (Some f), e1) ->
  exists pid pubrel, published KQos2 p pid f e e1 /\
    decode pubrel (e_version e) = Ok (Some (PPubRel (mkPubAck pid 0 None), zlen pubrel)) /\
    forall rec comp, pa_packet_id rec = pid -> pa_reason_code rec < 0x80 ->
      pa_packet_id comp = pid ->
      exists e2 e3, _handle_pubrec rec e1 = (Ok tt, e2) /\ e_wire e2 = e_wire e1 ++ [pubrel] /\
        fut f e2 = Pending /\ _handle_pubcomp comp e2 = (Ok tt, e3) /\
        fut f e3 = Result (VPubComp comp) /\
        (pid ∉ _in_use (packet_ids (e_session e3))) /\
        forall k, exchange (e_session e3) k pid = None.
Proof.
  intros He%reachable_ok Hq Hp.
  destruct (publish_qos2_flight _ _ _ _ He Hq Hp) as (pid & fl & HP & He1 & Hfl & Hst & <-).
  pose proof HP as (Hpid & _ & _ & Hpend & _ & Hlink & Hver & _).
  destruct (encode_pubrel pid (e_version e)) as (data & Hdata); [lia|].
  exists pid, data. split; [done|]. split.
  - rewrite <- (app_nil_r data) at 1. rewrite (decode_encode _ _ _ [] Hdata).
    by destruct (e_version e).
  - intros rec comp Hrec Hrc Hcomp. eapply qos2_completion; rewrite ?Hver; done.
Qed.

Lemma qos2_handshake_witness :
  exists e1 f pid pubrel, publish sample_q2 engine1 = (Ok (Some f), e1) /\
    decode pubrel V5 = Ok (Some (PPubRel (mkPubAck pid 0 None), zlen pubrel)).
Proof.
  destruct (publish sample_q2 engine1) as [[[f|]|x] e1] eqn:E;
    [|apply (f_equal fst) in E; vm_compute in E; discriminate E..].
  destruct (qos2_handshake _ _ sample_q2 engine1 e1 f reachable_engine1 eq_refl E)
    as (pid & pubrel & _ & H & _).
  exists e1, f, pid, pubrel. split; [reflexivity|exact H].
Defined.

(** The life of an outbound QoS 2 flight.  Whatever happens in a reachable state,
    the flight of an identifier is untouched, or is created waiting for PUBREC where
    there was none, or moves from waiting for PUBREC to waiting for PUBCOMP with the
    same message and future, or ends. *)
Theorem qos2_flight_life v q e e' x :
  reachable v q e -> step e e' ->
  flight_step (inflight_qos2_out (e_session e) !! x) (inflight_qos2_out (e_session e') !! x).
Proof. intros He%reachable_ok Hs. by apply step_flight. Qed.

Lemma qos2_flight_life_witness :
  flight_step (inflight_qos2_out (e_session engine1) !! 2)
    (inflight_qos2_out (e_session engine2) !! 2).
Proof. exact (qos2_flight_life _ _ _ _ 2 reachable_engine1 (step_publish engine1 sample_q2)). Defined.

(** C8: no operation waits on a dead engine.  Once [run] has exited, every future of
    an open exchange is settled, whatever ran before or after; [publish], SUBSCRIBE
    and UNSUBSCRIBE raise [MQTTDisconnectedError] without changing anything. *)
Theorem dead_engine_settled v q e :
  reachable v q e -> e_dead e = true ->
  (forall k x f, exchange (e_session e) k x = Some f -> fut_done (fut f e) = true) /\
  (forall p, publish p e = (Err (MQTTDisconnectedError "Connection lost"), e)) /\
  (forall filters sid, _send_subscribe_begin filters sid e =
     (Err (MQTTDisconnectedError "Connection lost"), e)) /\
  (forall filters, _send_unsubscribe_begin filters e =
     (Err (MQTTDisconnectedError "Connection lost"), e)).
Proof.
  intros Hr Hd. split; [exact (reachable_dead_settled _ _ _ Hr Hd)|].
  split; [|split]; intros; by apply dead_refuses.
Qed.

Lemma dead_engine_settled_witness :
  exists f, exchange (e_session (run_exit engine2)) KQos2 2 = Some f /\
    fut_done (fut f (run_exit engine2)) = true /\
    publish sample_q1 (run_exit engine2)
    = (Err (MQTTDisconnectedError "Connection lost"), run_exit engine2).
Proof.
  assert (Hr : reachable V5 EXACTLY_ONCE (run_exit engine2))
    by (eapply rtc_r; [apply reachable_engine2|apply step_exit]).
  destruct (dead_engine_settled _ _ _ Hr eq_refl) as (H1 & H2 & _).
  destruct (exchange (e_session (run_exit engine2)) KQos2 2) as [f|] eqn:E;
    [|vm_compute in E; discriminate E].
  exists f. split; [reflexivity|]. split; [exact (H1 _ _ _ E)|exact (H2 sample_q1)].
Defined.

(** A future is settled at most once: no step of the engine changes the result,
    exception or cancellation of a future that has one, no future disappears, and a
    dead engine stays dead. *)
Theorem settled_once e e' :
  step e e' ->
  (e_dead e = true -> e_dead e' = true) /\ dom (e_futures e) ⊆ dom (e_futures e') /\
  forall f, f ∈ dom (e_futures e) -> fut_done (fut f e) = true -> fut f e' = fut f e.
Proof. apply step_futures. Qed.

Lemma settled_once_witness :
  exists f, exchange (e_session engine1) KQos1 1 = Some f /\ fut f engine1 = Pending /\
    fut f (run_exit engine1) = Failed (MQTTDisconnectedError "Connection lost") /\
    fut f (_handle_puback (mkPubAck 1 0 None) (run_exit engine1)).2 = fut f (run_exit engine1).
Proof.
  destruct (exchange (e_session engine1) KQos1 1) as [f|] eqn:E; vm_compute in E; [|discriminate E].
  injection E as <-. eexists. split; [reflexivity|].
  split; [vm_compute; reflexivity|]. split; [vm_compute; reflexivity|].
  pose proof (settled_once _ _ (step_puback (run_exit engine1) (mkPubAck 1 0 None))) as (_ & _ & H).
  apply H; [|vm_compute; reflexivity]. apply elem_of_dom. vm_compute. eexists. reflexivity.
Defined.

(** The broker's PUBACK ends exactly its flight: the identifier becomes free, the
    other exchanges stay, and a waiting future gets the PUBACK, which [publish] then
    returns, or raises as [MQTTPublishError] when its reason code is 0x80 or more.  A
    PUBACK for an unknown identifier raises and changes nothing. *)
Theorem puback_resolves v q e a :
  reachable v q e ->
  match inflight_qos1 (e_session e) !! pa_packet_id a with
  | None => _handle_puback a e = (Err (MQTTProtocolError "PUBACK for unknown packet_id"), e)
  | Some fl =>
      exists e', _handle_puback a e = (Ok tt, e') /\ e_wire e' = e_wire e /\
        (fut (q1_future fl) e = Pending -> fut (q1_future fl) e' = Result (VPubAck a)) /\
        publish_qos1_end a = (if 0x80 <=? pa_reason_code a then Err (_publish_error a) else Ok a) /\
        (pa_packet_id a ∉ _in_use (packet_ids (e_session e'))) /\
        forall k x, exchange (e_session e') k x =
          if decide (k = KQos1 /\ x = pa_packet_id a) then None else exchange (e_session e) k x
  end.
Proof.
  intros He%reachable_ok. rewrite puback_eq.
  destruct (inflight_qos1 (e_session e) !! pa_packet_id a) as [fl|] eqn:Hfl; [|done].
  eexists. split; [done|]. split; [by rewrite wire_set_future|]. split; [|split; [|split]].
  - intros Hp. rewrite fut_set_future. simpl. change (fut _ (upd_session _ e))
      with (fut (q1_future fl) e). by rewrite Hp.
  - unfold publish_qos1_end, _raise_on_rejected_puback. by destruct (_ <=? _).
  - rewrite session_set_future. simpl. rewrite elem_of_difference, elem_of_singleton. tauto.
  - intros k x. rewrite session_set_future. apply (cl_exchange _ _ _ (closes_qos1 _)).
Qed.

Lemma puback_resolves_witness :
  exists e', _handle_puback (mkPubAck 1 0 None) engine1 = (Ok tt, e') /\
    (1 ∉ _in_use (packet_ids (e_session e'))).
Proof.
  pose proof (puback_resolves _ _ _ (mkPubAck 1 0 None) reachable_engine1) as H.
  destruct (inflight_qos1 (e_session engine1) !! pa_packet_id (mkPubAck 1 0 None)) eqn:E.
  - destruct H as (e' & H1 & _ & _ & _ & H2 & _). exists e'. split; [exact H1|exact H2].
  - vm_compute in E. discriminate E.
Defined.

(** The other branches of a PUBREC.  One for an unknown identifier, or for a
    flight that already waits for PUBCOMP, raises and changes nothing; one with a
    reason code of 0x80 or more ends exactly its flight without a PUBREL, frees the
    identifier, and fails a waiting future with [MQTTPublishError]. *)
Theorem pubrec_branches v q e a :
  reachable v q e -> e_link e = true ->
  match inflight_qos2_out (e_session e) !! pa_packet_id a with
  | None => _handle_pubrec a e = (Err (MQTTProtocolError "PUBREC for unknown packet_id"), e)
  | Some fl =>
      match q2_state fl with
      | PENDING_PUBCOMP => _handle_pubrec a e = (Err (MQTTProtocolError "PUBREC in wrong state"), e)
      | PENDING_PUBREC =>
          0x80 <= pa_reason_code a ->
          exists e', _handle_pubrec a e = (Ok tt, e') /\ e_wire e' = e_wire e /\
            (fut (q2_future fl) e = Pending -> fut (q2_future fl) e' = Failed (_publish_error a)) /\
            (pa_packet_id a ∉ _in_use (packet_ids (e_session e'))) /\
            forall k x, exchange (e_session e') k x =
              if decide (k = KQos2 /\ x = pa_packet_id a) then None else exchange (e_session e) k x
      end
  end.
Proof.
  intros He%reachable_ok Hl.
  destruct (inflight_qos2_out (e_session e) !! pa_packet_id a) as [fl|] eqn:Hfl.
  2: { unfold _handle_pubrec. rewrite run_bind. simpl. by rewrite Hfl. }
  destruct (q2_state fl) eqn:Hst.
  2: { unfold _handle_pubrec. rewrite run_bind. simpl. rewrite Hfl.
       by rewrite bool_decide_true by (by rewrite Hst). }
  intros Hrc. assert (Hr : 0 <= pa_packet_id a <= 65535).
  { enough (1 <= pa_packet_id a <= 65535) by lia. apply (pool_range _ (so_pool _ _ (eo_session _ He))).
    apply (so_used _ _ (eo_session _ He)). exists KQos2, (q2_future fl). simpl. by rewrite Hfl. }
  destruct (encode_pubrel _ (e_version e) Hr) as (data & Hd).
  rewrite (pubrec_eq a e fl data) by done. replace (0x80 <=? pa_reason_code a) with true by lia.
  eexists. split; [done|]. split; [by rewrite wire_set_future|]. split; [|split].
  - intros Hp. rewrite fut_set_future. change (fut _ (upd_session _ e))
      with (fut (q2_future fl) e). by rewrite Hp.
  - apply (qos2_closed e _ (q2_future fl)); [done|]. simpl. by rewrite Hfl.
  - intros k x. rewrite session_set_future. apply (cl_exchange _ _ _ (closes_qos2 _)).
Qed.

Lemma pubrec_branches_witness :
  exists e', _handle_pubrec (mkPubAck 2 0x87 None) engine2 = (Ok tt, e') /\
    e_wire e' = e_wire engine2.
Proof.
  pose proof (pubrec_branches _ _ _ (mkPubAck 2 0x87 None) reachable_engine2 eq_refl) as H.
  destruct (inflight_qos2_out (e_session engine2) !! pa_packet_id (mkPubAck 2 0x87 None))
    as [fl|] eqn:E; [|vm_compute in E; discriminate E].
  destruct (q2_state fl) eqn:Es.
  - destruct H as (e' & H1 & H2 & _); [simpl; lia|]. exists e'. split; [exact H1|exact H2].
  - vm_compute in E. injection E as <-. discriminate Es.
Defined.

(** A SUBSCRIBE exchange is always closed.  Its first half, when it returns, has
    written exactly the SUBSCRIBE with a fresh identifier and has a pending future;
    when it raises, nothing was written and nothing stays registered.  Its second
    half frees the identifier and drops the registration whatever the outcome, and
    returns the SUBACK unless the broker rejected a filter. *)
Theorem subscribe_exchange_closed v q e filters sid :
  reachable v q e ->
  match _send_subscribe_begin filters sid e with
  | (Ok (pid, f), e1) =>
      exchange (e_session e1) KSub pid = Some f /\ fut f e1 = Pending /\
      (forall k, exchange (e_session e) k pid = None) /\
      (exists data, encode (PSubscribe (mkSubscribe pid filters
                       ((fun i => mkSubscribeProperties (Some i) []) <$> sid))) (e_version e) = Ok data
                    /\ e_wire e1 = e_wire e ++ [data]) /\
      forall outcome, exists e2,
        _send_subscribe_end filters pid outcome e1 =
          (a ← outcome; _ ← _raise_on_rejected_filters filters a; Ok a, e2) /\
        (pid ∉ _in_use (packet_ids (e_session e2))) /\
        forall k x, exchange (e_session e2) k x =
          if decide (k = KSub /\ x = pid) then None else exchange (e_session e1) k x
  | (Err _, e1) =>
      e_wire e1 = e_wire e /\ forall k x, exchange (e_session e1) k x = exchange (e_session e) k x
  end.
Proof.
  intros He%reachable_ok. destruct (e_dead e) eqn:Hd.
  { unfold _send_subscribe_begin. by rewrite dead_refuses. }
  rewrite subscribe_begin_eq by done.
  pose proof (request_spec KSub ins_sub drop_sub (fun pid => PSubscribe (mkSubscribe pid filters
    ((fun i => mkSubscribeProperties (Some i) []) <$> sid))) e inserts_sub closes_sub He) as HS.
  match type of HS with (match ?r with _ => _ end) => revert HS; destruct r as [[[pid f]|x] e1] end;
    intros HS; [|exact HS].
  destruct HS as (H1 & H2 & H3 & H4). do 4 (split; [done|]). intros outcome.
  rewrite subscribe_end_eq. exists (upd_session (drop_sub pid) e1). split.
  - done.
  - split; [simpl; rewrite elem_of_difference, elem_of_singleton; tauto|].
    intros k x. apply (cl_exchange _ _ _ (closes_sub pid)).
Qed.

Lemma subscribe_exchange_closed_witness :
  match _send_subscribe_begin [mkSubscriptionRequest (lit "a/#") AT_LEAST_ONCE false false
                                 SEND_ON_SUBSCRIBE] (Some 5) engine2 with
  | (Ok (pid, f), e1) => fut f e1 = Pending /\ forall k, exchange (e_session engine2) k pid = None
  | _ => False
  end.
Proof.
  pose proof (subscribe_exchange_closed _ _ _ [mkSubscriptionRequest (lit "a/#") AT_LEAST_ONCE
    false false SEND_ON_SUBSCRIBE] (Some 5) reachable_engine2) as H.
  destruct (_send_subscribe_begin _ _ engine2) as [[[pid f]|x] e1] eqn:E.
  - destruct H as (_ & H2 & H3 & _). split; [exact H2|exact H3].
  - apply (f_equal fst) in E. vm_compute in E. discriminate E.
Defined.

(** A QoS 1 or 2 [publish] that raises after it took an identifier, because its
    packet cannot be encoded or written, leaves the flight registered and the
    identifier in use, although nothing was sent that the broker could answer. *)
Theorem failed_publish_keeps_flight v q p e x e' :
  reachable v q e -> e_dead e = false -> qos_value (pb_qos p) <= qos_value (e_max_publish_qos e) ->
  pb_qos p <> AT_MOST_ONCE -> Z.of_nat (size (_in_use (packet_ids (e_session e)))) < 65535 ->
  publish p e = (Err x, e') ->
  e_wire e' = e_wire e /\
  exists pid f, exchange (e_session e') (outbound_kind (pb_qos p)) pid = Some f /\
    (pid ∈ _in_use (packet_ids (e_session e'))) /\
    (pid ∉ _in_use (packet_ids (e_session e))).
Proof.
  intros He%reachable_ok Hd Hq Hne Hs Hp. pose proof (publish_spec p e He Hd Hq Hne) as HS.
  pose proof (publish_preserves p e He) as He'. rewrite Hp in HS, He'. simpl in He'.
  destruct HS as [(_ & _ & Hfull)|(pid & f & Hex & _ & Hfresh & Hw & _)].
  - lia.
  - split; [done|]. exists pid, f. split; [done|]. split.
    + apply (so_used _ _ (eo_session _ He')). eauto.
    + intros Hin. apply (so_used _ _ (eo_session _ He)) in Hin as (k & g & Hg).
      by rewrite Hfresh in Hg.
Qed.

(** A topic with a lone surrogate passes [validate_publish] and cannot be encoded. *)
Definition surrogate_publish : Publish :=
  mkPublish [97; 55296] [] AT_LEAST_ONCE false false None None.

Lemma failed_publish_keeps_flight_witness :
  exists e' pid f, publish surrogate_publish (new_engine V5 EXACTLY_ONCE) = (Err UnicodeEncodeError, e') /\
    exchange (e_session e') KQos1 pid = Some f.
Proof.
  destruct (publish surrogate_publish (new_engine V5 EXACTLY_ONCE)) as [r e'] eqn:E.
  assert (Hr : r = Err UnicodeEncodeError)
    by (apply (f_equal fst) in E; vm_compute in E; symmetry; exact E).
  subst r.
  assert (H0 : reachable V5 EXACTLY_ONCE (new_engine V5 EXACTLY_ONCE)) by apply rtc_refl.
  destruct (failed_publish_keeps_flight _ _ surrogate_publish _ _ _ H0 eq_refl
    ltac:(simpl; lia) ltac:(discriminate) ltac:(vm_compute; reflexivity) E)
    as (_ & pid & f & Hex & _).
  exists e', pid, f. split; [reflexivity|exact Hex].
Defined.
