(* ===== verification/Pings.v ===== *)
(** * Pings and their answers

    The waiters of [ping] form a queue: every PINGRESP answers the oldest.  The futures
    in it are apart from those of the packet exchanges, so nothing else gives a waiting
    ping a result. *)

From S2P Require Import Prelude PyBytes PropertyRecords Packets Codec SubscriptionIndex State Protocol ProtocolFacts.
Local Open Scope Z_scope.

#[local] Arguments settle_if_pending : simpl never.
#[local] Arguments encode : simpl never.

(** ** The queue of waiters *)

Record pings_ok (e : Engine) : Prop := {
  pg_nodup : NoDup (e_ping_waiters e);
  pg_alloc : forall f, f ∈ e_ping_waiters e -> f ∈ dom (e_futures e);
  pg_apart : forall k x f, exchange (e_session e) k x = Some f -> f ∉ e_ping_waiters e;
}.

(** Nothing that ran between [e] and [e'] touched the pings: the queue and its futures
    are as they were, and exchanges were opened with new futures only. *)
Record ping_frame (e e' : Engine) : Prop := {
  pf_waiters : e_ping_waiters e' = e_ping_waiters e;
  pf_dom : dom (e_futures e) ⊆ dom (e_futures e');
  pf_futures : forall f, f ∈ e_ping_waiters e -> e_futures e' !! f = e_futures e !! f;
  pf_exchange : forall k x f, exchange (e_session e') k x = Some f ->
    exchange (e_session e) k x = Some f \/ f ∉ dom (e_futures e);
}.

#[export] Instance ping_frame_preorder : PreOrder ping_frame.
Proof.
  split; [split; auto|]. intros e1 e2 e3 [W1 D1 F1 X1] [W2 D2 F2 X2]. split.
  - congruence.
  - by etrans.
  - intros f Hf. rewrite F2 by congruence. auto.
  - intros k x f [Hf|Hf]%X2; [by apply X1|right]. by intros ?%D1.
Qed.

Lemma pings_ok_frame e e' : ping_frame e e' -> pings_ok e -> pings_ok e'.
Proof.
  intros [W D F X] [N A P]. split; rewrite W; [done|by intros f Hf%A%D|].
  intros k x f [Hf|Hf]%X; [by eapply P|]. by intros ?%A.
Qed.

Lemma fut_frame e e' f : ping_frame e e' -> f ∈ e_ping_waiters e -> fut f e' = fut f e.
Proof. intros [_ _ F _] Hf. unfold fut. by rewrite F. Qed.

(** ** Frames of the building blocks *)

(** Only the session changed, and no exchange was opened. *)
Lemma frame_session g e :
  (forall k x f, exchange (g (e_session e)) k x = Some f -> exchange (e_session e) k x = Some f) ->
  ping_frame e (upd_session g e).
Proof. intros Hg. split; try done. intros k x f Hf. left. by apply Hg. Qed.

Lemma frame_close k pid rm e : closes k pid rm -> ping_frame e (upd_session rm e).
Proof.
  intros Hc. apply frame_session. intros k' x f. rewrite (cl_exchange _ _ _ Hc). by case_decide.
Qed.

Lemma frame_write data e : ping_frame e (write data e).
Proof. by split; auto. Qed.

(** A future that no ping waits for *)
Lemma frame_set_future f st e : f ∉ e_ping_waiters e -> ping_frame e (set_future f st e).
Proof.
  intros Hf. unfold set_future. destruct (fut_done _); [done|]. split; simpl; auto.
  - rewrite dom_insert. apply union_subseteq_r.
  - intros g Hg. rewrite lookup_insert_ne; [done|]. by intros ->.
Qed.

Lemma frame_send_packet {A} p (a : A) e :
  ping_frame e ((data ← _encode p; _ ← _send data; mret a) e).2.
Proof.
  rewrite run_bind, encode_eq. destruct (encode p (e_version e)) as [data|x]; [|done].
  rewrite run_bind, send_eq. destruct (e_link e); [apply frame_write|done].
Qed.

Lemma frame_send p e : ping_frame e ((data ← _encode p; _send data) e).2.
Proof.
  rewrite run_bind, encode_eq. destruct (encode p (e_version e)) as [data|x]; [|done].
  rewrite send_eq. destruct (e_link e); [apply frame_write|done].
Qed.

(** *** Opening an exchange *)

Lemma frame_open k ins e :
  inserts k ins -> engine_ok e -> pings_ok e -> ping_frame e (open_exchange ins e).2.
Proof.
  intros Hins He [_ A _]. pose proof (open_exchange_spec k ins e Hins He) as HS.
  destruct (open_exchange ins e) as [[[pid f]|x] e']; [|by destruct HS as [-> _]].
  destruct HS as (_ & _ & _ & Hf & pool & _ & ->). split; simpl; [done|..].
  - rewrite dom_insert. apply union_subseteq_r.
  - intros g Hg. rewrite lookup_insert_ne; [done|]. by intros ->; apply Hf, A.
  - intros k' x g. rewrite (ins_exchange _ _ Hins). case_decide; [|by left].
    intros [= <-]. by right.
Qed.

Lemma frame_open_bind {B} k ins (m : Z -> nat -> M B) e :
  inserts k ins -> engine_ok e -> pings_ok e ->
  (forall pid f e1, ping_frame e1 (m pid f e1).2) ->
  ping_frame e (('(pid, future) ← open_exchange ins; m pid future) e).2.
Proof.
  intros Hins He Hp Hm. pose proof (frame_open k ins e Hins He Hp) as HF. rewrite run_bind.
  destruct (open_exchange ins e) as [[[pid f]|x] e1]; [|done]. etrans; [exact HF|apply Hm].
Qed.

(** A request that cannot be sent closes its exchange. *)
Lemma frame_request k pid rm p (r : Z * nat) e :
  closes k pid rm ->
  ping_frame e (finally_on_error (data ← _encode p; _ ← _send data; mret r) (upd_session rm) e).2.
Proof.
  intros Hc. unfold finally_on_error. pose proof (frame_send_packet p r e) as HF.
  destruct ((data ← _encode p; _ ← _send data; mret r) e) as [[r'|x] e1]; [done|].
  etrans; [exact HF|by eapply frame_close].
Qed.

(** ** Frames of the operations *)

Section operations.
Context (e : Engine) (He : engine_ok e) (Hp : pings_ok e).

Lemma alive_frame {A} (m : M A) :
  ping_frame e (m e).2 -> ping_frame e ((_ ← _ensure_alive; m) e).2.
Proof. intros Hm. rewrite run_bind, ensure_alive_eq. by destruct (e_dead e). Qed.

Lemma publish_frame p : ping_frame e (publish p e).2.
Proof.
  unfold publish. apply alive_frame. rewrite run_bind. simpl. destruct (_ <? _); [done|].
  destruct (pb_qos p) eqn:Hq; [apply (frame_send_packet (PPublish p) None)|..].
  - rewrite (open_exchange_bind (ins_qos1 p)).
    apply (frame_open_bind KQos1); [by apply inserts_qos1|done|done|].
    intros. apply frame_send_packet.
  - rewrite (open_exchange_bind (ins_qos2 p)).
    apply (frame_open_bind KQos2); [by apply inserts_qos2|done|done|].
    intros. apply frame_send_packet.
Qed.

Lemma subscribe_begin_frame filters sid : ping_frame e (_send_subscribe_begin filters sid e).2.
Proof.
  unfold _send_subscribe_begin. apply alive_frame. rewrite (open_exchange_bind ins_sub).
  apply (frame_open_bind KSub); [apply inserts_sub|done|done|].
  intros. eapply frame_request, closes_sub.
Qed.

Lemma unsubscribe_begin_frame filters : ping_frame e (_send_unsubscribe_begin filters e).2.
Proof.
  unfold _send_unsubscribe_begin. apply alive_frame. rewrite (open_exchange_bind ins_unsub).
  apply (frame_open_bind KUnsub); [apply inserts_unsub|done|done|].
  intros. eapply frame_request, closes_unsub.
Qed.

Lemma subscribe_end_frame filters pid outcome :
  ping_frame e (_send_subscribe_end filters pid outcome e).2.
Proof.
  pose proof (frame_close KSub pid _ e (closes_sub pid)) as HF. unfold _send_subscribe_end. run.
  destruct outcome as [a|x]; [|exact HF]. run. unfold lift.
  by destruct (_raise_on_rejected_filters filters a).
Qed.

Lemma unsubscribe_end_frame pid outcome : ping_frame e (_send_unsubscribe_end pid outcome e).2.
Proof. apply (frame_close KUnsub pid), closes_unsub. Qed.

(** An exchange that ends settles a future of its own. *)
Lemma end_frame k pid rm f st :
  closes k pid rm -> exchange (e_session e) k pid = Some f ->
  ping_frame e (set_future f st (upd_session rm e)).
Proof.
  intros Hc Hf. etrans; [by eapply frame_close|]. apply frame_set_future. by eapply (pg_apart _ Hp).
Qed.

Lemma puback_frame a : ping_frame e (_handle_puback a e).2.
Proof.
  rewrite puback_eq. destruct (_ !! _) as [fl|] eqn:Hfl; [|done].
  apply (end_frame KQos1 (pa_packet_id a)); [apply closes_qos1|]. simpl. by rewrite Hfl.
Qed.

Lemma pubcomp_frame a : ping_frame e (_handle_pubcomp a e).2.
Proof.
  rewrite pubcomp_eq. destruct (_ !! _) as [fl|] eqn:Hfl; [|done].
  apply (end_frame KQos2 (pa_packet_id a)); [apply closes_qos2|]. simpl. by rewrite Hfl.
Qed.

Lemma pubrec_frame a : ping_frame e (_handle_pubrec a e).2.
Proof.
  unfold _handle_pubrec. rewrite run_bind. simpl. destruct (_ !! _) as [fl|] eqn:Hfl; [|done].
  case_bool_decide; [done|]. destruct (0x80 <=? pa_reason_code a).
  - unfold release_id. run. rewrite settle_if_eq.
    apply (end_frame KQos2 (pa_packet_id a) (drop_qos2 (pa_packet_id a))); [apply closes_qos2|].
    simpl. by rewrite Hfl.
  - rewrite run_bind. etrans; [|apply frame_send]. apply frame_session. intros k x f. destruct k; try done. simpl.
    rewrite lookup_insert. case_decide; [|done]. subst. by rewrite Hfl.
Qed.

Lemma settle_frame f st : f ∉ e_ping_waiters e -> ping_frame e (settle f st e).2.
Proof.
  intros Hf. pose proof (frame_set_future f st e Hf) as HF. unfold set_future in HF. unfold settle.
  by destruct (fut_done (fut f e)).
Qed.

Lemma suback_frame a : ping_frame e (_handle_suback a e).2.
Proof.
  unfold _handle_suback. rewrite run_bind. simpl. destruct (_ !! _) as [f|] eqn:Hf; [|done].
  apply settle_frame. by apply (pg_apart _ Hp KSub (sa_packet_id a)).
Qed.

Lemma unsuback_frame a : ping_frame e (_handle_unsuback a e).2.
Proof.
  unfold _handle_unsuback. rewrite run_bind. simpl. destruct (_ !! _) as [f|] eqn:Hf; [|done].
  apply settle_frame. by apply (pg_apart _ Hp KUnsub (ua_packet_id a)).
Qed.

End operations.

(** ** The pings over time *)

Lemma ping_begin_eq e :
  let f := fresh (dom (e_futures e)) in
  let e1 := upd_waiters (fun w => w ++ [f]) (upd_futures <[f := Pending]> e) in
  ping_begin e =
    match encode PPingReq (e_version e) with
    | Ok data => if e_link e then (Ok f, write data e1) else (Err OSError, e1)
    | Err x => (Err x, e1)
    end.
Proof.
  intros f e1. unfold ping_begin. rewrite run_bind. unfold create_future. run.
  rewrite encode_eq. change (e_version (upd_waiters _ _)) with (e_version e). destruct (encode PPingReq (e_version e)) as [data|x]; [|done].
  rewrite run_bind, send_eq. simpl. by destruct (e_link e).
Qed.

Lemma ping_begin_future e :
  let f := fresh (dom (e_futures e)) in let e' := (ping_begin e).2 in
  e_ping_waiters e' = e_ping_waiters e ++ [f] /\ e_futures e' = <[f := Pending]> (e_futures e) /\
  e_session e' = e_session e.
Proof.
  rewrite ping_begin_eq. destruct (encode _ _) as [data|x]; [|done]. by destruct (e_link e).
Qed.

Lemma pingresp_eq e :
  _handle_pingresp e =
    match e_ping_waiters e with
    | [] => (Ok tt, e)
    | f :: w => (Ok tt, set_future f (Result VNone) (upd_waiters (fun _ => w) e))
    end.
Proof.
  unfold _handle_pingresp. run. destruct (e_ping_waiters e) as [|f w]; [done|]. run.
  by rewrite settle_if_eq.
Qed.

Lemma waiters_set_future f st e : e_ping_waiters (set_future f st e) = e_ping_waiters e.
Proof. unfold set_future. by destruct (fut_done _). Qed.

Lemma dom_set_future f st e : dom (e_futures e) ⊆ dom (e_futures (set_future f st e)).
Proof.
  unfold set_future. destruct (fut_done _); [done|]. simpl. rewrite dom_insert. apply union_subseteq_r.
Qed.

Lemma elem_of_remove_first g f l : g ∈ remove_first f l -> g ∈ l.
Proof.
  induction l as [|h l IH]; [done|]. simpl. case_decide; [by right|].
  intros [-> |Hg]%elem_of_cons; [by left|right; auto].
Qed.

Lemma remove_first_other g f l : g <> f -> g ∈ l -> g ∈ remove_first f l.
Proof.
  intros Hne. induction l as [|h l IH]; [done|]. simpl. intros [-> |Hg]%elem_of_cons; case_decide;
    subst; first [done | by left | right; auto].
Qed.

Lemma NoDup_remove_first f l : NoDup l -> NoDup (remove_first f l).
Proof.
  induction 1 as [|h l Hh Hl IH]; [constructor|]. simpl. case_decide; [done|]. constructor; [|done].
  by intros ?%elem_of_remove_first.
Qed.

Lemma ping_timeout_eq f e :
  ping_timeout f e =
    if decide (f ∈ e_ping_waiters e)
    then (Err (MQTTTimeoutError "PINGRESP not received within timeout"),
          upd_waiters (remove_first f) e)
    else (Err (ValueError "list.remove(x): x not in list"), e).
Proof. unfold ping_timeout. run. by case_decide. Qed.

(** Fewer waiters, with the same futures and exchanges *)
Lemma pings_ok_fewer e w st e' :
  pings_ok e -> e_ping_waiters e' = w -> (forall f, f ∈ w -> f ∈ e_ping_waiters e) -> NoDup w ->
  e_session e' = st -> st = e_session e -> dom (e_futures e) ⊆ dom (e_futures e') -> pings_ok e'.
Proof.
  intros [N A P] Hw Hsub Hnd Hs -> Hd. split; rewrite Hw; [done|by intros f ?%Hsub%A%Hd|].
  rewrite Hs. intros k x f Hf ?%Hsub. by eapply P.
Qed.

(** What a step can do to the pings *)
Lemma step_pings e e' :
  step e e' -> engine_ok e -> pings_ok e ->
  ping_frame e e' \/ e' = (ping_begin e).2 \/ (exists f, e' = (ping_timeout f e).2) \/
  e' = (_handle_pingresp e).2 \/ (exists f, e' = set_future f Cancelled e) \/ e' = run_exit e.
Proof.
  destruct 1; intros He Hp; try (right; by eauto 6; fail);
    try (rewrite settle_if_eq; right; by eauto 6; fail); left.
  - by apply publish_frame.
  - by apply subscribe_begin_frame.
  - by apply subscribe_end_frame.
  - by apply unsubscribe_begin_frame.
  - by apply unsubscribe_end_frame.
  - by apply puback_frame.
  - by apply pubrec_frame.
  - by apply pubcomp_frame.
  - by apply suback_frame.
  - by apply unsuback_frame.
  - by split; auto.
  - split; simpl; auto.
Qed.

Lemma step_pings_ok e e' : step e e' -> engine_ok e -> pings_ok e -> pings_ok e'.
Proof.
  intros Hs He Hp. destruct (step_pings e e' Hs He Hp) as [HF|[->|[[f ->]|[->|[[f ->]| ->]]]]].
  - by eapply pings_ok_frame.
  - destruct (ping_begin_future e) as (Hw & Hf & Hss). destruct Hp as [N A P].
    set (f := fresh (dom (e_futures e))) in *.
    assert (Hfr : f ∉ dom (e_futures e)) by apply is_fresh.
    split; rewrite Hw, ?Hf, ?Hss.
    + apply NoDup_app. split_and!; [done| |apply NoDup_singleton].
      intros g Hg ->%list_elem_of_singleton. by apply Hfr, A.
    + intros g. rewrite dom_insert, elem_of_union, elem_of_singleton, elem_of_app.
      intros [Hg| ->%list_elem_of_singleton]; [right; by apply A|by left].
    + intros k x g Hg [Hin| ->%list_elem_of_singleton]%elem_of_app; [by eapply P|].
      apply Hfr. by eapply (so_alloc _ _ (eo_session _ He)).
  - rewrite ping_timeout_eq. case_decide; [|done]. simpl.
    eapply (pings_ok_fewer e); [done|reflexivity| | |reflexivity|done|done].
    + intros g. apply elem_of_remove_first.
    + apply NoDup_remove_first, Hp.
  - rewrite pingresp_eq. destruct (e_ping_waiters e) as [|f w] eqn:Hw; [done|]. simpl.
    eapply (pings_ok_fewer e); [done|apply waiters_set_future| | |apply session_set_future|done|].
    + intros g Hg. rewrite Hw. by right.
    + pose proof (pg_nodup _ Hp) as N. rewrite Hw in N. by apply NoDup_cons in N as [_ N].
    + apply (dom_set_future f (Result VNone) (upd_waiters (fun _ => w) e)).
  - eapply (pings_ok_fewer e); [done|apply waiters_set_future|done|apply Hp|apply session_set_future|
      done|apply dom_set_future].
  - eapply (pings_ok_fewer e); [done|reflexivity| | |reflexivity|done|].
    + by intros g ?%elem_of_nil.
    + constructor.
    + simpl. by rewrite dom_fail_pending.
Qed.

Lemma reachable_pings v q e : reachable v q e -> engine_ok e /\ pings_ok e.
Proof.
  unfold reachable. revert e. apply (rtc_ind_r (fun e => engine_ok e /\ pings_ok e)).
  - split; [apply engine_ok_new|]. split; simpl; [constructor|by intros f ?%elem_of_nil|].
    by intros k x f _ ?%elem_of_nil.
  - intros e1 e2 _ Hs [He Hp]. split; [by eapply step_ok|by eapply step_pings_ok].
Qed.

(** ** Answers *)

(** C33: pings are answered in order.  A waiting ping gets a result only from a
    PINGRESP, when it is the oldest; a PINGRESP that nobody waits for changes nothing,
    any other answers the oldest ping and leaves the rest in their order.  Otherwise a
    step leaves the ping waiting, or takes it off the queue on its timeout, or it is
    cancelled, or the exit of [run] fails it with [MQTTDisconnectedError]. *)
Theorem pings_answered_in_order v q e e' f :
  reachable v q e -> step e e' -> f ∈ e_ping_waiters e -> fut f e = Pending ->
  (forall w, e_ping_waiters e = f :: w -> fut f (_handle_pingresp e).2 = Result VNone /\
     e_ping_waiters (_handle_pingresp e).2 = w) /\
  match fut f e' with
  | Pending => f ∈ e_ping_waiters e' \/ e' = (ping_timeout f e).2
  | Result r => r = VNone /\ e' = (_handle_pingresp e).2 /\ exists w, e_ping_waiters e = f :: w
  | Failed x => x = MQTTDisconnectedError "Connection lost" /\ e' = run_exit e
  | Cancelled => e' = set_future f Cancelled e
  end.
Proof.
  intros Hr Hs Hin Hpd. destruct (reachable_pings v q e Hr) as [He Hp]. split.
  { intros w Hw. rewrite pingresp_eq, Hw. simpl. rewrite fut_set_future, waiters_set_future.
    unfold fut. simpl. unfold fut in Hpd. by rewrite Hpd. }
  assert (Hother : forall g st e1, f <> g -> e_futures e1 = e_futures e ->
    fut f (set_future g st e1) = Pending).
  { intros g st e1 Hne Hf. unfold set_future. destruct (fut_done _); [by unfold fut; rewrite Hf|].
    rewrite fut_insert, decide_False by congruence. by unfold fut; rewrite Hf. }
  destruct (step_pings e e' Hs He Hp) as [HF|[->|[[g ->]|[->|[[g ->]| ->]]]]].
  - rewrite (fut_frame e e' f HF Hin), Hpd. left. by rewrite (pf_waiters _ _ HF).
  - destruct (ping_begin_future e) as (Hw & Hf & _). unfold fut. rewrite Hf, lookup_insert_ne.
    + unfold fut in Hpd. rewrite Hpd. left. rewrite Hw. apply elem_of_app. by left.
    + intros <-. by apply (is_fresh (dom (e_futures e))), (pg_alloc _ Hp).
  - destruct (decide (f = g)) as [->|Hne].
    + replace (fut g (ping_timeout g e).2) with Pending; [by right|].
      rewrite <- Hpd, ping_timeout_eq. by case_decide.
    + rewrite ping_timeout_eq. case_decide; simpl; [|by rewrite Hpd; left].
      unfold fut. simpl. unfold fut in Hpd. rewrite Hpd. left. by apply remove_first_other.
  - pose proof (pingresp_eq e) as HE.
    destruct (e_ping_waiters e) as [|g w] eqn:Hw; [by apply elem_of_nil in Hin|].
    destruct (decide (f = g)) as [->|Hne].
    + replace (fut g (_handle_pingresp e).2) with (Result VNone); [eauto|].
      rewrite HE. simpl. rewrite fut_set_future. change (fut g (upd_waiters _ e)) with (fut g e).
      by rewrite Hpd.
    + rewrite HE. simpl. rewrite Hother by done. left. rewrite waiters_set_future.
      by apply elem_of_cons in Hin as [].
  - destruct (decide (f = g)) as [->|Hne]; [by rewrite fut_set_future, Hpd|].
    rewrite Hother by done. left. by rewrite waiters_set_future.
  - unfold fut. simpl. rewrite fail_pending_lookup. pose proof (pg_alloc _ Hp f Hin) as [st Hst]%elem_of_dom.
    unfold fut in Hpd. rewrite Hst in Hpd. simpl in Hpd. subst st. rewrite Hst, decide_True; [done|].
    rewrite !elem_of_app. tauto.
Qed.

Definition pinged : Engine := (ping_begin (new_engine V5 EXACTLY_ONCE)).2.

Lemma pings_answered_in_order_witness :
  exists f, e_ping_waiters pinged = [f] /\ fut f (_handle_pingresp pinged).2 = Result VNone.
Proof.
  assert (Hr : reachable V5 EXACTLY_ONCE pinged) by (eapply rtc_once, step_ping).
  destruct (e_ping_waiters pinged) as [|f [|g w]] eqn:Hw; try (vm_compute in Hw; discriminate Hw).
  exists f. split; [reflexivity|].
  assert (Hin : f ∈ e_ping_waiters pinged) by (rewrite Hw; apply list_elem_of_here).
  assert (Hp : fut f pinged = Pending) by (vm_compute in Hw; injection Hw as <-; vm_compute; reflexivity).
  destruct (pings_answered_in_order _ _ _ _ f Hr (step_pingresp pinged) Hin Hp) as [H _].
  exact (proj1 (H [] Hw)).
Defined.
