(* ===== verification/Inbound.v ===== *)
(** * The inbound publish flow ([inbound.py], [Message.ack])

    Routing of an incoming PUBLISH to one recipient, the QoS 1 and QoS 2 receive
    handshakes with automatic and manual acknowledgement, and the three states of
    the persistent-session replay.

    The handlers run on the read loop.  The one place where they can wait for long
    is [queue.put] on a full queue, which suspends the read loop: [f_blocked] is the
    suspended delivery with what runs after it.  Writes are atomic. *)

From stdpp Require Import fin_sets.
From S2P Require Import Prelude PyBytes Utf8 PropertyRecords Packets Codec SubscriptionIndex State Routing Protocol.
Local Open Scope Z_scope.

(** ** Objects the flow shares with the application *)

(** The closures given to [_deliver]: [_puback] with its variable [acked], and
    [_pubrec]. *)
Inductive AckCallback :=
| PubackCallback (packet_id : Z) (acked : bool)
| PubrecCallback (packet_id : Z) (recipient : InboundRecipient).

Record MessageObject := mkMessageObject {
  mo_message : Message;
  _ack_callback : option AckCallback;
  _resolved : bool;
}.

(** An [asyncio.Queue]: its capacity (none when it is not positive), every message
    put so far in order, and how many were taken. *)
Record Queue := mkQueue { q_maxsize : Z; q_put : list nat; q_taken : nat }.

Definition q_items (q : Queue) : list nat := drop (q_taken q) (q_put q).

Definition full (q : Queue) : bool := (0 <? q_maxsize q) && (q_maxsize q <=? zlen (q_items q)).

(** ** Replay states *)

(** [rb_ref] is the identity of the object, [rb_expiration] whether its timer runs. *)
Record ReplayBuffer := mkBuffer {
  rb_ref : nat;
  rb_publishes : list Publish;
  rb_packet_ids : gset Z;
  rb_topics : gmap str Z;
  rb_message_count : Z;
  rb_expiration : bool;
}.

Inductive ReplayState :=
| NoSessionReplay
| PersistentReplayIdle
| PersistentReplayBuffered (b : ReplayBuffer).

(** What follows a delivery in the same handler *)
Inductive after := AfterNothing | AfterPuback (packet_id : Z).

(** The read loop suspended in [queue.put] *)
Record Blocked := mkBlocked { bl_queue : nat; bl_message : nat; bl_after : after }.

(** ** The flow *)

Record Flow (R : Type) := mkFlow {
  f_engine : Engine;
  f_router : option R;
  f_buffer_size : Z;
  f_replay : ReplayState;
  f_next_ref : nat;
  f_messages : gmap nat MessageObject;
  f_queues : gmap nat Queue;
  f_blocked : option Blocked;
}.
Arguments mkFlow {R}.
Arguments f_engine {R}.
Arguments f_router {R}.
Arguments f_buffer_size {R}.
Arguments f_replay {R}.
Arguments f_next_ref {R}.
Arguments f_messages {R}.
Arguments f_queues {R}.
Arguments f_blocked {R}.

Section flow.
Context {R : Type} `{RequestRouter R}.

Notation F := (ST (Flow R)).

(** *** Updates *)

Definition set_engine (e : Engine) (fl : Flow R) : Flow R :=
  mkFlow e (f_router fl) (f_buffer_size fl) (f_replay fl) (f_next_ref fl) (f_messages fl)
    (f_queues fl) (f_blocked fl).

Definition set_router (r : option R) (fl : Flow R) : Flow R :=
  mkFlow (f_engine fl) r (f_buffer_size fl) (f_replay fl) (f_next_ref fl) (f_messages fl)
    (f_queues fl) (f_blocked fl).

Definition set_replay (s : ReplayState) (fl : Flow R) : Flow R :=
  mkFlow (f_engine fl) (f_router fl) (f_buffer_size fl) s (f_next_ref fl) (f_messages fl)
    (f_queues fl) (f_blocked fl).

Definition next_ref (fl : Flow R) : Flow R :=
  mkFlow (f_engine fl) (f_router fl) (f_buffer_size fl) (f_replay fl) (S (f_next_ref fl))
    (f_messages fl) (f_queues fl) (f_blocked fl).

Definition set_message (m : nat) (o : MessageObject) (fl : Flow R) : Flow R :=
  mkFlow (f_engine fl) (f_router fl) (f_buffer_size fl) (f_replay fl) (f_next_ref fl)
    (<[m := o]> (f_messages fl)) (f_queues fl) (f_blocked fl).

Definition set_queue (q : nat) (qu : Queue) (fl : Flow R) : Flow R :=
  mkFlow (f_engine fl) (f_router fl) (f_buffer_size fl) (f_replay fl) (f_next_ref fl)
    (f_messages fl) (<[q := qu]> (f_queues fl)) (f_blocked fl).

Definition set_blocked (b : option Blocked) (fl : Flow R) : Flow R :=
  mkFlow (f_engine fl) (f_router fl) (f_buffer_size fl) (f_replay fl) (f_next_ref fl)
    (f_messages fl) (f_queues fl) b.

Definition session (fl : Flow R) : SessionState := e_session (f_engine fl).

Definition upd_flights_in (g : gmap Z InboundQoS2Flight -> gmap Z InboundQoS2Flight)
    (fl : Flow R) : Flow R :=
  set_engine (upd_session (fun s =>
    upd_inbound (g (inflight_qos2_in s)) (pending_ack_qos2_in s) (subscriptions s) s)
    (f_engine fl)) fl.

Definition upd_pending_ack (g : gset Z -> gset Z) (fl : Flow R) : Flow R :=
  set_engine (upd_session (fun s =>
    upd_inbound (inflight_qos2_in s) (g (pending_ack_qos2_in s)) (subscriptions s) s)
    (f_engine fl)) fl.

(** A queue nobody configured is unbounded. *)
Definition queue_of (fl : Flow R) (q : nat) : Queue := default (mkQueue 0 [] 0) (f_queues fl !! q).

(** [self._connection.send_packet] and [self._connection.abort] *)
Definition connection {A} (m : ST Engine A) : F A := zoom f_engine set_engine m.

(** ** Recipients *)

Definition _make_message (p : Publish) : Message :=
  mkMessage (pb_topic p) (pb_payload p) (pb_qos p) (pb_retain p) (pb_properties p).

Definition new_message (msg : Message) : F nat := fun fl =>
  let m := fresh (dom (f_messages fl)) in
  (Ok m, set_message m (mkMessageObject msg None false) fl).

(** [self._request_router.claim(message)], when there is a router *)
Definition router_claim (m : nat) (msg : Message) : F (option nat) := fun fl =>
  match f_router fl with
  | None => (Ok None, fl)
  | Some r => let '(c, r') := claim m msg r in (Ok c, set_router (Some r') fl)
  end.

Definition _select_subscription (ix : SubscriptionIndex) (p : Publish) : SubscriptionSelection :=
  match pb_properties p ≫= pbp_subscription_identifier with
  | None => select ix (pb_topic p)
  | Some identifier => select_by_identifier ix (pb_topic p) identifier
  end.

Definition select_recipient (p : Publish) : F InboundRecipient :=
  m ← new_message (_make_message p);
  request ← router_claim m (_make_message p);
  match request with
  | Some c => mret (mkRecipient m (Some c) None)
  | None =>
      selection ← gets (fun fl => _select_subscription (subscriptions (session fl)) p);
      mret (mkRecipient m None (recipient selection))
  end.

(** ** Delivery *)

Definition run_after (k : after) : F unit :=
  match k with
  | AfterNothing => mret tt
  | AfterPuback pid => connection (send_packet (PPubAck (mkPubAck pid 0 None)))
  end.

(** [await entry.queue.put(message)] and what follows it *)
Definition put (q m : nat) (k : after) : F unit :=
  is_full ← gets (fun fl => full (queue_of fl q));
  if is_full : bool then modify (set_blocked (Some (mkBlocked q m k)))
  else
    _ ← modify (fun fl => let qu := queue_of fl q in
           set_queue q (mkQueue (q_maxsize qu) (q_put qu ++ [m]) (q_taken qu)) fl);
    run_after k.

Definition set_ack_callback (m : nat) (cb : AckCallback) (fl : Flow R) : Flow R :=
  match f_messages fl !! m with
  | Some o => set_message m (mkMessageObject (mo_message o) (Some cb) (_resolved o)) fl
  | None => fl
  end.

Definition _deliver (r : InboundRecipient) (ack_callback : option AckCallback) (k : after)
    : F unit :=
  match request r, subscription r with
  | Some c, _ =>
      _ ← modify (fun fl => set_router (deliver c <$> f_router fl) fl); run_after k
  | None, None => run_after k
  | None, Some (_, entry) =>
      _ ← (match ack_callback with
           | Some cb => if auto_ack entry then mret tt else modify (set_ack_callback (message r) cb)
           | None => mret tt
           end);
      put (queue entry) (message r) k
  end.

(** The read loop runs again when the queue has room. *)
Definition resume : F unit :=
  b ← gets f_blocked;
  match b with
  | None => mret tt
  | Some b =>
      is_full ← gets (fun fl => full (queue_of fl (bl_queue b)));
      if is_full : bool then mret tt
      else _ ← modify (set_blocked None); put (bl_queue b) (bl_message b) (bl_after b)
  end.

(** ** Replay states: [accept], [contains_packet_id], [clear] *)

Definition recipient_found (r : InboundRecipient) : bool :=
  bool_decide (request r <> None) || bool_decide (subscription r <> None).

Definition new_buffer_state (ref : nat) : ReplayBuffer := mkBuffer ref [] ∅ ∅ 0 false.

Definition packet_id_in (p : Publish) (ids : gset Z) : bool :=
  match pb_packet_id p with Some i => bool_decide (i ∈ ids) | None => false end.

(** The appends of [accept] *)
Definition buffer_append (p : Publish) (b : ReplayBuffer) : ReplayBuffer :=
  mkBuffer (rb_ref b) (rb_publishes b ++ [p])
    (match pb_packet_id p with Some i => {[i]} ∪ rb_packet_ids b | None => rb_packet_ids b end)
    (<[pb_topic p := default 0 (rb_topics b !! pb_topic p) + 1]> (rb_topics b))
    (rb_message_count b + 1) true.

(** [_PersistentReplayBuffered.accept] *)
Definition buffered_accept (b : ReplayBuffer) (p : Publish) (r : InboundRecipient)
    : F (option InboundRecipient * ReplayState) :=
  if bool_decide (request r <> None) then mret (Some r, PersistentReplayBuffered b)
  else if bool_decide (subscription r <> None) && bool_decide (rb_topics b !! pb_topic p = None)
  then mret (Some r, PersistentReplayBuffered b)
  else if packet_id_in p (rb_packet_ids b) then mret (None, PersistentReplayBuffered b)
  else
    size ← gets f_buffer_size;
    if negb (size =? 0) && (size <=? rb_message_count b) then
      _ ← connection abort;
      raise (MQTTProtocolError "Persistent-session replay buffer limit exceeded")
    else mret (None, PersistentReplayBuffered (buffer_append p b)).

Definition replay_accept (s : ReplayState) (p : Publish) (r : InboundRecipient)
    : F (option InboundRecipient * ReplayState) :=
  match s with
  | NoSessionReplay => mret (Some r, s)
  | PersistentReplayIdle =>
      if recipient_found r then mret (Some r, s)
      else
        ref ← gets f_next_ref;
        _ ← modify next_ref;
        buffered_accept (new_buffer_state ref) p r
  | PersistentReplayBuffered b => buffered_accept b p r
  end.

Definition replay_contains_packet_id (s : ReplayState) (pid : Z) : bool :=
  match s with
  | PersistentReplayBuffered b => bool_decide (pid ∈ rb_packet_ids b)
  | _ => false
  end.

(** Every state clears to the null object; clearing cancels the timer. *)
Definition replay_clear (s : ReplayState) : ReplayState := NoSessionReplay.

(** ** Handling a PUBLISH *)

Definition _select_recipient_or_buffer (p : Publish) : F (option InboundRecipient) :=
  replay ← gets f_replay;
  selected ← select_recipient p;
  '(r, next_replay) ← replay_accept replay p selected;
  _ ← modify (set_replay next_replay);
  mret r.

Definition no_packet_id {A} : F A := raise (ValueError "Cannot publish without packet id").

Definition _deliver_qos1_publish (p : Publish) (r : InboundRecipient) : F unit :=
  match pb_packet_id p with
  | None => no_packet_id
  | Some pid =>
      if recipient_auto_ack r then _deliver r None (AfterPuback pid)
      else _deliver r (Some (PubackCallback pid false)) AfterNothing
  end.

Definition _accept_qos2_publish (p : Publish) (r : InboundRecipient) : F unit :=
  match pb_packet_id p with
  | None => no_packet_id
  | Some pid =>
      if recipient_auto_ack r then
        _ ← modify (upd_flights_in <[pid := mkInFlight pid r false]>);
        connection (send_packet (PPubRec (mkPubAck pid 0 None)))
      else
        _ ← modify (upd_pending_ack (fun s => {[pid]} ∪ s));
        _deliver r (Some (PubrecCallback pid r)) AfterNothing
  end.

Definition _handle_qos1_publish (p : Publish) : F unit :=
  match pb_packet_id p with
  | None => no_packet_id
  | Some pid =>
      held ← gets (fun fl => replay_contains_packet_id (f_replay fl) pid);
      if held : bool then mret tt
      else
        r ← _select_recipient_or_buffer p;
        match r with None => mret tt | Some r => _deliver_qos1_publish p r end
  end.

Definition _handle_qos2_publish (p : Publish) : F unit :=
  match pb_packet_id p with
  | None => no_packet_id
  | Some pid =>
      fl ← gets (fun fl => fl);
      if bool_decide (is_Some (inflight_qos2_in (session fl) !! pid))
      then connection (send_packet (PPubRec (mkPubAck pid 0 None)))
      else if bool_decide (pid ∈ pending_ack_qos2_in (session fl)) then mret tt
      else if replay_contains_packet_id (f_replay fl) pid then mret tt
      else
        r ← _select_recipient_or_buffer p;
        match r with None => mret tt | Some r => _accept_qos2_publish p r end
  end.

Definition handle_publish (p : Publish) : F unit :=
  match pb_qos p with
  | AT_MOST_ONCE =>
      r ← _select_recipient_or_buffer p;
      match r with None => mret tt | Some r => _deliver r None AfterNothing end
  | AT_LEAST_ONCE => _handle_qos1_publish p
  | EXACTLY_ONCE => _handle_qos2_publish p
  end.

Definition handle_pubrel (p : PubRel) : F unit :=
  flight ← gets (fun fl => inflight_qos2_in (session fl) !! pa_packet_id p);
  match flight with
  | None => raise (MQTTProtocolError "PUBREL for unknown packet_id")
  | Some flight =>
      _ ← modify (upd_flights_in (delete (pa_packet_id p)));
      _ ← connection (send_packet (PPubComp (mkPubAck (pa_packet_id p) 0 None)));
      if in_delivered flight then mret tt else _deliver (in_recipient flight) None AfterNothing
  end.

(** [Message.ack] *)
Definition ack (m : nat) : F unit :=
  fl ← gets (fun fl => fl);
  match f_messages fl !! m with
  | None => mret tt
  | Some o =>
      if _resolved o then mret tt
      else
        let resolved cb := set_message m (mkMessageObject (mo_message o) cb true) in
        match _ack_callback o with
        | None => modify (resolved None)
        | Some (PubackCallback pid acked) =>
            _ ← modify (resolved (Some (PubackCallback pid true)));
            if acked : bool then mret tt
            else connection (send_packet (PPubAck (mkPubAck pid 0 None)))
        | Some (PubrecCallback pid r) =>
            _ ← modify (resolved (Some (PubrecCallback pid r)));
            _ ← modify (upd_pending_ack (fun s => s ∖ {[pid]}));
            _ ← modify (upd_flights_in <[pid := mkInFlight pid r true]>);
            connection (send_packet (PPubRec (mkPubAck pid 0 None)))
        end
  end.

(** [queue.get] of the application, when there is a message *)
Definition queue_get (q : nat) : F (option nat) :=
  qu ← gets (fun fl => queue_of fl q);
  match q_items qu with
  | [] => mret None
  | m :: _ => _ ← modify (set_queue q (mkQueue (q_maxsize qu) (q_put qu) (S (q_taken qu))));
      mret (Some m)
  end.

(** ** Replaying *)

Definition deliver_replay (p : Publish) (r : InboundRecipient) : F unit :=
  match pb_qos p with
  | AT_MOST_ONCE => _deliver r None AfterNothing
  | AT_LEAST_ONCE => _deliver_qos1_publish p r
  | EXACTLY_ONCE => _accept_qos2_publish p r
  end.

(** [self._publishes] of the active buffer *)
Definition publishes_of (fl : Flow R) : list Publish :=
  match f_replay fl with PersistentReplayBuffered b => rb_publishes b | _ => [] end.

(** An update of the active buffer *)
Definition upd_buffer (g : ReplayBuffer -> ReplayBuffer) (fl : Flow R) : Flow R :=
  match f_replay fl with
  | PersistentReplayBuffered b => set_replay (PersistentReplayBuffered (g b)) fl
  | _ => fl
  end.

Definition set_publishes (l : list Publish) (b : ReplayBuffer) : ReplayBuffer :=
  mkBuffer (rb_ref b) l (rb_packet_ids b) (rb_topics b) (rb_message_count b) (rb_expiration b).

Definition _discard (p : Publish) (b : ReplayBuffer) : ReplayBuffer :=
  let topic_count := default 0 (rb_topics b !! pb_topic p) - 1 in
  mkBuffer (rb_ref b) (rb_publishes b)
    (match pb_packet_id p with Some i => rb_packet_ids b ∖ {[i]} | None => rb_packet_ids b end)
    (if topic_count =? 0 then delete (pb_topic p) (rb_topics b)
     else <[pb_topic p := topic_count]> (rb_topics b))
    (rb_message_count b - 1) (rb_expiration b).

(** No recipient, or its queue is full *)
Definition replay_holds (r : InboundRecipient) (fl : Flow R) : bool :=
  match request r, subscription r with
  | Some _, _ => false
  | None, None => true
  | None, Some (_, entry) => full (queue_of fl (queue entry))
  end.

(** The inner loop of [_deliver_pending], with its [finally] *)
Fixpoint deliver_each (pending unmatched : list Publish) : F unit :=
  match pending with
  | [] => modify (upd_buffer (set_publishes unmatched))
  | p :: pending' =>
      r ← select_recipient p;
      held ← gets (replay_holds r);
      if held : bool then deliver_each pending' (unmatched ++ [p])
      else
        _ ← finally_on_error (deliver_replay p r)
              (upd_buffer (set_publishes (unmatched ++ [p] ++ pending')));
        _ ← modify (upd_buffer (_discard p));
        deliver_each pending' unmatched
  end.

Definition _deliver_pending (b : ReplayBuffer) : F unit :=
  _ ← modify (upd_buffer (set_publishes []));
  deliver_each (rb_publishes b) [].

(** [drain] of a buffer.  The buffer object is the state of the flow, where
    [_deliver_pending] changes it. *)
Definition after_drain : F ReplayState :=
  s ← gets f_replay;
  match s with
  | PersistentReplayBuffered b => mret (if rb_message_count b =? 0 then PersistentReplayIdle else s)
  | s => mret s
  end.

Definition buffered_drain (b : ReplayBuffer) : F ReplayState :=
  _ ← _deliver_pending b;
  after_drain.

(** [drain] of the three states *)
Definition replay_drain (s : ReplayState) : F ReplayState :=
  match s with
  | NoSessionReplay | PersistentReplayIdle => mret s
  | PersistentReplayBuffered b => buffered_drain b
  end.

Definition drain : F unit :=
  replay ← gets f_replay;
  next_replay ← replay_drain replay;
  modify (set_replay next_replay).

(** [get_message] on the connection when the wait is over: the message is taken from the
    queue, then [_notify_capacity_available] drains.  An exception of the drain is what
    the caller gets. *)
Definition get_and_notify (q : nat) : F (option nat) :=
  m ← queue_get q;
  match m with
  | None => mret None
  | Some m => _ ← drain; mret (Some m)
  end.

Definition _drop_pending (b : ReplayBuffer) : Z * ReplayBuffer :=
  (rb_message_count b, mkBuffer (rb_ref b) [] ∅ ∅ 0 (rb_expiration b)).

(** [expire]: what is left is dropped without an acknowledgement *)
Definition after_expire : F ReplayState :=
  s ← gets f_replay;
  match s with
  | PersistentReplayBuffered b =>
      let '(dropped, b') := _drop_pending b in
      _ ← modify (upd_buffer (fun _ => b'));
      mret (if dropped =? 0 then PersistentReplayIdle else NoSessionReplay)
  | s => mret s
  end.

Definition buffered_expire (b : ReplayBuffer) : F ReplayState :=
  _ ← _deliver_pending b;
  after_expire.

Definition expire_replay (ref : nat) : F unit :=
  replay ← gets f_replay;
  match replay with
  | PersistentReplayBuffered b =>
      if decide (rb_ref b = ref) then
        next_replay ← buffered_expire b;
        modify (set_replay next_replay)
      else mret tt
  | _ => mret tt
  end.

(** [_expire_after_timeout] of the buffer [ref]: an exception aborts the connection *)
Definition _expire_after_timeout (ref : nat) : F unit := fun fl =>
  let fl1 :=
    match expire_replay ref fl with
    | (Ok _, fl1) => fl1
    | (Err _, fl1) => (connection abort fl1).2
    end in
  (Ok tt, upd_buffer (fun b => if decide (rb_ref b = ref) then
            mkBuffer (rb_ref b) (rb_publishes b) (rb_packet_ids b) (rb_topics b)
              (rb_message_count b) false else b) fl1).

Definition begin_session (session_present : bool) : F unit :=
  modify (set_replay (if session_present then PersistentReplayIdle else NoSessionReplay)).

Definition inbound_clear : F unit := modify (fun fl => set_replay (replay_clear (f_replay fl)) fl).

End flow.
