(* ===== verification/InboundFacts.v ===== *)
(** * The operations of the inbound flow

    The operations of [Inbound] as equations, as sequences of primitive changes, and
    what they keep: the engine's own exchanges, the history of messages and queues,
    and the flights of other identifiers. *)

From stdpp Require Import fin_sets.
From S2P Require Import Prelude PyBytes Utf8 PropertyRecords Packets Codec CodecFacts CodecSound SubscriptionIndex State Routing Protocol ProtocolFacts Inbound.
Local Open Scope Z_scope.

#[local] Arguments encode : simpl never.
#[local] Arguments canon : simpl never.
#[local] Arguments send_packet : simpl never.
#[local] Arguments select : simpl never.
#[local] Arguments select_by_identifier : simpl never.

Section flow.
Context {R : Type} `{RequestRouter R}.

Notation F := (ST (Flow R)).
Implicit Types (fl : Flow R) (p : Publish) (r : InboundRecipient).

(** ** The operations as equations *)

Lemma connection_eq {A} (m : ST Engine A) fl :
  connection m fl = ((m (f_engine fl)).1, set_engine (m (f_engine fl)).2 fl).
Proof. unfold connection, zoom. by destruct (m (f_engine fl)). Qed.

Lemma send_packet_eq pk e :
  send_packet pk e =
    match encode pk (e_version e) with
    | Ok data => if e_link e then (Ok tt, write data e) else (Err OSError, e)
    | Err x => (Err x, e)
    end.
Proof.
  unfold send_packet. rewrite run_bind, encode_eq. by destruct (encode pk (e_version e)).
Qed.

(** The engine after a packet was sent *)
Definition sent (pk : packet) (e : Engine) : Engine := (send_packet pk e).2.

Lemma sent_session pk e : e_session (sent pk e) = e_session e.
Proof. unfold sent. rewrite send_packet_eq. destruct (encode _ _); [by destruct (e_link e)|done]. Qed.

Lemma sent_link pk e : e_link (sent pk e) = e_link e.
Proof. unfold sent. rewrite send_packet_eq. destruct (encode _ _); [by destruct (e_link e) eqn:?|done]. Qed.

Lemma sent_effect pk e :
  exists written, sent pk e = inbound_effect (inflight_qos2_in (e_session e))
    (pending_ack_qos2_in (e_session e)) (subscriptions (e_session e)) written (e_link e) e.
Proof.
  unfold sent. rewrite send_packet_eq.
  destruct (encode _ _) as [data|x]; [destruct (e_link e) eqn:Hl|]; [exists [data]|exists []..];
    destruct e as [[] ? ? ? ? ? ? ?]; unfold inbound_effect, upd_inbound; simpl in *; subst;
    by rewrite ?app_nil_r.
Qed.

(** AUTH is written on MQTT 5.0 only, and the exchanges of the engine stay as they are. *)
Lemma send_auth_step (p : Auth) e :
  send_auth p e =
    match e_version e with
    | V311 => (Err (RuntimeError "Feature is not supported for mqtt protocol version 3.1.1"), e)
    | V5 => ((send_packet (PAuth p) e).1, sent (PAuth p) e)
    end /\
  (reachable (e_version e) (e_max_publish_qos e) e ->
   reachable (e_version e) (e_max_publish_qos e) (send_auth p e).2).
Proof.
  assert (HE : send_auth p e = match e_version e with
    | V311 => (Err (RuntimeError "Feature is not supported for mqtt protocol version 3.1.1"), e)
    | V5 => ((send_packet (PAuth p) e).1, sent (PAuth p) e)
    end).
  { unfold send_auth, sent. run. destruct (e_version e); [done|]. by destruct (send_packet (PAuth p) e). }
  split; [done|]. rewrite HE. intros Hr. destruct (e_version e) eqn:Hv; [done|]. cbn [snd].
  eapply rtc_r; [exact Hr|]. destruct (sent_effect (PAuth p) e) as [ws ->]. apply step_inbound.
Qed.

Lemma connection_send pk fl :
  connection (send_packet pk) fl =
    ((send_packet pk (f_engine fl)).1, set_engine (sent pk (f_engine fl)) fl).
Proof. apply connection_eq. Qed.

(** The message object made for a PUBLISH, and what the router says *)
Definition new_ref (fl : Flow R) : nat := fresh (dom (f_messages fl)).

Definition offered p fl : option nat * option R :=
  match f_router fl with
  | None => (None, None)
  | Some r => let '(c, r') := claim (new_ref fl) (_make_message p) r in (c, Some r')
  end.

Definition selected p fl : InboundRecipient :=
  match (offered p fl).1 with
  | Some c => mkRecipient (new_ref fl) (Some c) None
  | None => mkRecipient (new_ref fl) None
              (recipient (_select_subscription (subscriptions (session fl)) p))
  end.

Definition after_select p fl : Flow R :=
  set_router (offered p fl).2
    (set_message (new_ref fl) (mkMessageObject (_make_message p) None false) fl).

Lemma select_recipient_eq p fl :
  select_recipient p fl = (Ok (selected p fl), after_select p fl).
Proof.
  unfold select_recipient, new_message, router_claim, selected, after_select, offered, new_ref.
  rewrite !run_bind. simpl. destruct fl as [e [r|] ? ? ? ? ? ?]; simpl.
  - destruct (claim _ _ r) as [[c|] r']; simpl; rewrite ?run_bind; done.
  - done.
Qed.

Lemma message_selected p fl : message (selected p fl) = new_ref fl.
Proof. unfold selected. by destruct (offered p fl) as [[c|] ?]. Qed.

Lemma new_ref_fresh fl : f_messages fl !! new_ref fl = None.
Proof. apply (not_elem_of_dom (D := gset nat)). unfold new_ref. apply is_fresh. Qed.

Lemma run_after_eq k fl :
  run_after k fl =
    match k with
    | AfterNothing => (Ok tt, fl)
    | AfterPuback pid =>
        ((send_packet (PPubAck (mkPubAck pid 0 None)) (f_engine fl)).1,
         set_engine (sent (PPubAck (mkPubAck pid 0 None)) (f_engine fl)) fl)
    end.
Proof. destruct k; [done|]. simpl. by rewrite connection_eq. Qed.

Definition with_put (q m : nat) fl : Flow R :=
  set_queue q (mkQueue (q_maxsize (queue_of fl q)) (q_put (queue_of fl q) ++ [m])
    (q_taken (queue_of fl q))) fl.

Lemma put_eq q m k fl :
  put q m k fl =
    if full (queue_of fl q) then (Ok tt, set_blocked (Some (mkBlocked q m k)) fl)
    else run_after k (with_put q m fl).
Proof. unfold put. rewrite run_bind. simpl. by destruct (full _). Qed.

Lemma queue_of_put q m fl q' :
  queue_of (with_put q m fl) q' =
    if decide (q = q') then mkQueue (q_maxsize (queue_of fl q)) (q_put (queue_of fl q) ++ [m])
      (q_taken (queue_of fl q))
    else queue_of fl q'.
Proof. unfold with_put, queue_of. simpl. rewrite lookup_insert. by case_decide. Qed.

(** The callback is set on the message of an entry with manual acknowledgement. *)
Definition with_callback r (cb : option AckCallback) fl : Flow R :=
  match request r, cb, subscription r with
  | None, Some cb, Some it => if auto_ack it.2 then fl else set_ack_callback (message r) cb fl
  | _, _, _ => fl
  end.

Lemma deliver_eq r cb k fl :
  _deliver r cb k fl =
    match request r, subscription r with
    | Some c, _ => run_after k (set_router (deliver c <$> f_router fl) fl)
    | None, None => run_after k fl
    | None, Some it => put (queue it.2) (message r) k (with_callback r cb fl)
    end.
Proof.
  unfold _deliver, with_callback. destruct (request r); [done|].
  destruct (subscription r) as [[f entry]|]; [|done]. rewrite run_bind.
  destruct cb; simpl; [|done]. by destruct (auto_ack entry).
Qed.

Definition link_up fl : Prop := e_link (f_engine fl) = true.

(** ** Handling packets *)

(** The end of [accept] *)
Definition buffer_step (b : ReplayBuffer) p fl : result (option InboundRecipient) * Flow R :=
  if negb (f_buffer_size fl =? 0) && (f_buffer_size fl <=? rb_message_count b)
  then (Err (MQTTProtocolError "Persistent-session replay buffer limit exceeded"),
        (connection abort fl).2)
  else (Ok None, set_replay (PersistentReplayBuffered (buffer_append p b)) fl).

Lemma set_replay_same s p fl :
  f_replay fl = s -> set_replay s (after_select p fl) = after_select p fl.
Proof. by intros <-. Qed.

Lemma select_or_buffer_eq p fl :
  _select_recipient_or_buffer p fl =
    let r := selected p fl in
    let fl1 := after_select p fl in
    match f_replay fl with
    | NoSessionReplay => (Ok (Some r), fl1)
    | PersistentReplayIdle =>
        if recipient_found r then (Ok (Some r), fl1)
        else buffer_step (new_buffer_state (f_next_ref fl)) p (next_ref fl1)
    | PersistentReplayBuffered b =>
        if bool_decide (request r <> None) then (Ok (Some r), fl1)
        else if bool_decide (subscription r <> None) && bool_decide (rb_topics b !! pb_topic p = None)
        then (Ok (Some r), fl1)
        else if packet_id_in p (rb_packet_ids b) then (Ok None, fl1)
        else buffer_step b p fl1
    end.
Proof.
  unfold _select_recipient_or_buffer. rewrite run_bind, run_gets. rewrite run_bind, select_recipient_eq.
  cbv zeta. unfold replay_accept. rewrite run_bind. destruct (f_replay fl) as [| |b] eqn:Hre.
  - cbn. by rewrite run_bind, run_modify, set_replay_same.
  - unfold recipient_found, buffer_step, buffered_accept.
    destruct (bool_decide (request _ <> None)); simpl.
    { by rewrite run_bind, run_modify, set_replay_same. }
    destruct (bool_decide (subscription _ <> None)); simpl.
    { by rewrite run_bind, run_modify, set_replay_same. }
    run. cbn. replace (packet_id_in p ∅) with false
      by (unfold packet_id_in; by destruct (pb_packet_id p)).
    run. by destruct (negb _ && _).
  - unfold buffered_accept, buffer_step.
    destruct (bool_decide (request _ <> None)); simpl.
    { by rewrite run_bind, run_modify, set_replay_same. }
    destruct (bool_decide (subscription _ <> None) && _); simpl.
    { by rewrite run_bind, run_modify, set_replay_same. }
    destruct (packet_id_in _ _); simpl.
    { by rewrite run_bind, run_modify, set_replay_same. }
    run. by destruct (negb _ && _).
Qed.

(** ** Operations as sequences of primitive changes *)

(** Every operation of the flow is made of these changes, so a relation that each of
    them satisfies holds across any operation. *)
Inductive prim fl : Flow R -> Prop :=
| pr_new msg : prim fl (set_message (new_ref fl) (mkMessageObject msg None false) fl)
| pr_router router : prim fl (set_router router fl)
| pr_replay s : prim fl (set_replay s fl)
| pr_ref : prim fl (next_ref fl)
| pr_put q m : prim fl (with_put q m fl)
| pr_blocked b : prim fl (set_blocked b fl)
| pr_callback m o cb resolved :
    f_messages fl !! m = Some o -> (_resolved o = true -> resolved = true) ->
    prim fl (set_message m (mkMessageObject (mo_message o) cb resolved) fl)
| pr_flights g : prim fl (upd_flights_in g fl)
| pr_pending g : prim fl (upd_pending_ack g fl)
| pr_sent pk : prim fl (set_engine (sent pk (f_engine fl)) fl)
| pr_abort : prim fl (set_engine (set_link false (f_engine fl)) fl).

Definition traces {A} (m : F A) : Prop := forall fl, rtc prim fl (m fl).2.

Lemma traces_bind {A B} (m : F A) (g : A -> F B) :
  traces m -> (forall a, traces (g a)) -> traces (m ≫= g).
Proof.
  intros Hm Hg fl. rewrite run_bind. specialize (Hm fl).
  destruct (m fl) as [[a|x] fl']; simpl in *; [etrans; [done|apply Hg]|done].
Qed.

Lemma traces_pure {A} (m : F A) : (forall fl, (m fl).2 = fl) -> traces m.
Proof. intros Hm fl. by rewrite Hm. Qed.

Lemma traces_modify g : (forall fl, rtc prim fl (g fl)) -> traces (modify g).
Proof. intros Hg fl. apply Hg. Qed.

Lemma traces_send pk : traces (connection (send_packet pk)).
Proof. intros fl. rewrite connection_send. apply rtc_once, pr_sent. Qed.

Lemma traces_abort : traces (connection abort).
Proof. intros fl. apply rtc_once, pr_abort. Qed.

Lemma traces_select p : traces (select_recipient p).
Proof.
  intros fl. rewrite select_recipient_eq. eapply rtc_l; [apply pr_new|]. apply rtc_once, pr_router.
Qed.

Lemma upd_buffer_traces g fl : rtc prim fl (upd_buffer g fl).
Proof. unfold upd_buffer. destruct (f_replay fl); [done..|]. apply rtc_once, pr_replay. Qed.

Lemma set_ack_callback_traces m cb fl : rtc prim fl (set_ack_callback m cb fl).
Proof.
  unfold set_ack_callback. destruct (f_messages fl !! m) eqn:Hm; [|done].
  by apply rtc_once, pr_callback.
Qed.

Lemma traces_finally {A} (m : F A) g : traces m -> traces (finally_on_error m (upd_buffer g)).
Proof.
  intros Hm fl. unfold finally_on_error. specialize (Hm fl).
  destruct (m fl) as [[a|x] fl']; simpl in *; [done|]. etrans; [done|apply upd_buffer_traces].
Qed.

End flow.

Create HintDb traces.
#[export] Hint Constructors prim : traces.
#[export] Hint Resolve traces_send traces_abort traces_select upd_buffer_traces
  set_ack_callback_traces : traces.

(** Go through an operation; the hints close its calls. *)
Ltac traces :=
  repeat first
    [ solve [auto 2 with traces]
    | apply traces_finally
    | apply traces_pure; intros ?; reflexivity
    | apply traces_modify; intros ?; first [solve [auto 2 with traces] | apply rtc_once;
        first [solve [auto 2 with traces] | apply pr_put]]
    | apply traces_bind; [|intros ?]
    | match goal with
      | |- traces (match ?x with _ => _ end) => destruct x
      end ].

Section operations.
Context {R : Type} `{RequestRouter R}.

Notation F := (ST (Flow R)).
Notation traces := (traces (R := R)).
Implicit Types (fl : Flow R) (p : Publish) (r : InboundRecipient).

Lemma traces_deliver r cb k : traces (_deliver r cb k).
Proof. unfold _deliver, put, run_after. traces. Qed.
#[local] Hint Resolve traces_deliver : traces.

Lemma traces_buffered_accept b p r : traces (buffered_accept b p r).
Proof. unfold buffered_accept. traces. Qed.
#[local] Hint Resolve traces_buffered_accept : traces.

Lemma traces_select_or_buffer p : traces (_select_recipient_or_buffer p).
Proof. unfold _select_recipient_or_buffer, replay_accept. traces. Qed.

Lemma traces_qos1 p r : traces (_deliver_qos1_publish p r).
Proof. unfold _deliver_qos1_publish, no_packet_id. traces. Qed.

Lemma traces_qos2 p r : traces (_accept_qos2_publish p r).
Proof. unfold _accept_qos2_publish, no_packet_id. traces. Qed.
#[local] Hint Resolve traces_select_or_buffer traces_qos1 traces_qos2 : traces.

Lemma traces_handle_publish p : traces (handle_publish p).
Proof.
  unfold handle_publish, _handle_qos1_publish, _handle_qos2_publish, no_packet_id. traces.
Qed.

Lemma traces_handle_pubrel a : traces (handle_pubrel a).
Proof. unfold handle_pubrel. traces. Qed.

Lemma traces_resume : traces resume.
Proof. unfold resume, put, run_after. traces. Qed.

Lemma traces_ack m : traces (ack m).
Proof.
  intros fl. unfold ack. run. destruct (f_messages fl !! m) as [o|] eqn:Hm; [|done].
  destruct (_resolved o) eqn:Hr; [done|].
  assert (Hres : forall cb, prim fl (set_message m (mkMessageObject (mo_message o) cb true) fl))
    by (intros cb; by apply pr_callback).
  destruct (_ack_callback o) as [[pid acked|pid r]|]; run.
  - destruct acked; [apply rtc_once, Hres|]. eapply rtc_l; [apply Hres|]. apply traces_send.
  - eapply rtc_l; [apply Hres|]. eapply rtc_l; [apply pr_pending|]. eapply rtc_l; [apply pr_flights|].
    apply traces_send.
  - apply rtc_once, Hres.
Qed.

Lemma traces_deliver_each pending unmatched : traces (deliver_each pending unmatched).
Proof.
  revert unmatched; induction pending as [|p pending IH]; intros unmatched; simpl; [traces|].
  unfold deliver_replay. traces.
Qed.
#[local] Hint Resolve traces_deliver_each : traces.

Lemma traces_deliver_pending b : traces (_deliver_pending b).
Proof. unfold _deliver_pending. traces. Qed.
#[local] Hint Resolve traces_deliver_pending : traces.

Lemma traces_drain : traces drain.
Proof. unfold drain, replay_drain, buffered_drain, after_drain. traces. Qed.

Lemma traces_expire ref : traces (_expire_after_timeout ref).
Proof.
  intros fl. unfold _expire_after_timeout. cbv zeta. cbn [snd].
  etrans; [|apply upd_buffer_traces].
  assert (He : traces (expire_replay ref)) by (unfold expire_replay, buffered_expire, after_expire; traces).
  specialize (He fl). destruct (expire_replay ref fl) as [[[]|x] fl1]; [exact He|].
  etrans; [exact He|apply (traces_abort fl1)].
Qed.

(** Setting the replay state to itself *)
Lemma set_replay_id s fl : f_replay fl = s -> set_replay s fl = fl.
Proof. intros <-. by destruct fl. Qed.

(** [drain] and [expire_replay] in one piece *)
Lemma drain_eq fl :
  drain fl =
    match f_replay fl with
    | PersistentReplayBuffered b =>
        match _deliver_pending b fl with
        | (Ok _, fl1) =>
            (Ok tt, match f_replay fl1 with
                    | PersistentReplayBuffered b1 =>
                        if rb_message_count b1 =? 0 then set_replay PersistentReplayIdle fl1 else fl1
                    | _ => fl1
                    end)
        | (Err x, fl1) => (Err x, fl1)
        end
    | _ => (Ok tt, fl)
    end.
Proof.
  unfold drain, replay_drain, buffered_drain, after_drain. run.
  destruct (f_replay fl) as [| |b] eqn:Hb; run; [by rewrite set_replay_id..|].
  destruct (_deliver_pending b fl) as [[[]|x] fl1]; [|done]. run.
  destruct (f_replay fl1) as [| |b1] eqn:Hb1; run; [by rewrite set_replay_id..|].
  destruct (_ =? _); [done|by rewrite set_replay_id].
Qed.

Lemma expire_replay_eq ref fl :
  expire_replay ref fl =
    match f_replay fl with
    | PersistentReplayBuffered b =>
        if decide (rb_ref b = ref) then
          match _deliver_pending b fl with
          | (Ok _, fl1) =>
              (Ok tt, match f_replay fl1 with
                      | PersistentReplayBuffered b1 =>
                          set_replay (if rb_message_count b1 =? 0 then PersistentReplayIdle
                                      else NoSessionReplay) fl1
                      | _ => fl1
                      end)
          | (Err x, fl1) => (Err x, fl1)
          end
        else (Ok tt, fl)
    | _ => (Ok tt, fl)
    end.
Proof.
  unfold expire_replay, buffered_expire, after_expire. run. destruct (f_replay fl) as [| |b] eqn:Hb; [done..|].
  case_decide; [|done]. run.
  destruct (_deliver_pending b fl) as [[[]|x] fl1]; [|done]. run.
  destruct (f_replay fl1) as [| |b1] eqn:Hb1; run; [by rewrite set_replay_id..|].
  cbn [_drop_pending]. run. unfold upd_buffer. by rewrite Hb1.
Qed.

(** ** What the flow does to the engine *)

Definition touches (e e' : Engine) : Prop :=
  exists flights pending subs written link,
    e' = inbound_effect flights pending subs written link e.

#[export] Instance touches_preorder : PreOrder touches.
Proof.
  split.
  - intros [[] ? ? ? ? ? ? link]. do 3 eexists. exists [], link. unfold inbound_effect, upd_inbound. simpl.
    by rewrite app_nil_r.
  - intros e1 e2 e3 (a1 & b1 & c1 & d1 & l1 & ->) (a2 & b2 & c2 & d2 & l2 & ->).
    exists a2, b2, c2, (d1 ++ d2), l2. unfold inbound_effect, upd_inbound. simpl. by rewrite app_assoc.
Qed.

Lemma touches_session g e :
  (forall s, exists flights pending subs, g s = upd_inbound flights pending subs s) ->
  touches e (upd_session g e).
Proof.
  intros Hg. destruct (Hg (e_session e)) as (a & b & c & Hs). exists a, b, c, [], (e_link e).
  unfold upd_session, inbound_effect. by rewrite Hs, app_nil_r.
Qed.

Lemma prim_touches fl fl' : prim fl fl' -> touches (f_engine fl) (f_engine fl').
Proof.
  destruct 1; try done.
  - apply touches_session. eauto.
  - apply touches_session. eauto.
  - simpl. destruct (sent_effect pk (f_engine fl)) as (written & ->). by repeat eexists.
  - simpl. destruct (f_engine fl) as [[] ? ? ? ? ? ? ?]. do 3 eexists. exists [], false.
    unfold inbound_effect, upd_inbound, set_link. simpl. by rewrite app_nil_r.
Qed.

Lemma prims_touches fl fl' : rtc prim fl fl' -> touches (f_engine fl) (f_engine fl').
Proof. induction 1 as [|f1 f2 f3 Hp _ IH]; [done|]. etrans; [by apply prim_touches|done]. Qed.

(** ** What steps keep *)

(** Messages keep their content and stay acknowledged, queues only grow at their
    end, and a broken connection stays broken. *)
Record history fl fl' : Prop := {
  hi_message : forall m o, f_messages fl !! m = Some o ->
    exists o', f_messages fl' !! m = Some o' /\ mo_message o' = mo_message o /\
      (_resolved o = true -> _resolved o' = true);
  hi_put : forall q, q_put (queue_of fl q) `prefix_of` q_put (queue_of fl' q);
  hi_taken : forall q, (q_taken (queue_of fl q) <= q_taken (queue_of fl' q))%nat;
  hi_maxsize : forall q, q_maxsize (queue_of fl' q) = q_maxsize (queue_of fl q);
  hi_link : link_up fl' -> link_up fl;
}.

#[export] Instance history_preorder : PreOrder history.
Proof.
  split.
  - intros fl. split; eauto.
  - intros f1 f2 f3 [A1 A2 A3 A4 A5] [B1 B2 B3 B4 B5]. split; eauto.
    + intros m o Hm. destruct (A1 m o Hm) as (o' & Ho' & Hc & Hr).
      destruct (B1 m o' Ho') as (o'' & Ho'' & Hc' & Hr'). exists o''. split; [done|].
      split; [congruence|eauto].
    + intros q. etrans; [apply A2|apply B2].
    + intros q. etrans; [apply A3|apply B3].
    + intros q. by rewrite B4, A4.
Qed.

Lemma prim_history fl fl' : prim fl fl' -> history fl fl'.
Proof.
  assert (Hm : forall fl m o, f_messages fl !! m = Some o -> exists o',
    f_messages fl !! m = Some o' /\ mo_message o' = mo_message o /\
    (_resolved o = true -> _resolved o' = true)) by eauto.
  destruct 1; try (split; eauto; fail).
  - split; eauto. intros m o Ho. exists o. split; [|done]. simpl. rewrite lookup_insert_ne; [done|].
    intros <-. by rewrite new_ref_fresh in Ho.
  - split; eauto; intros q'; rewrite queue_of_put; case_decide; subst; simpl; eauto using prefix_app_r.
  - split; eauto. intros m' o' Ho'. simpl. rewrite lookup_insert. case_decide; [|eauto]. subst.
    simplify_eq. eexists. split; [done|]. by split.
  - split; eauto. unfold link_up. simpl. by rewrite sent_link.
  - by split; eauto.
Qed.

Lemma prims_history fl fl' : rtc prim fl fl' -> history fl fl'.
Proof. induction 1 as [|f1 f2 f3 Hp _ IH]; [done|]. etrans; [by apply prim_history|done]. Qed.

(** Taking a message from a queue *)
Lemma queue_get_eq q fl :
  (queue_get q fl).2 = fl \/
  (queue_get q fl).2 = set_queue q (mkQueue (q_maxsize (queue_of fl q)) (q_put (queue_of fl q))
    (S (q_taken (queue_of fl q)))) fl.
Proof. unfold queue_get. run. destruct (q_items _); [by left|by right]. Qed.

Lemma queue_get_history q fl : history fl (queue_get q fl).2.
Proof.
  destruct (queue_get_eq q fl) as [->| ->]; [done|].
  split; eauto; intros q'; unfold queue_of; simpl; rewrite lookup_insert; case_decide; subst;
    simpl; eauto.
Qed.

(** The operations neither subscribe nor take messages, so a full queue stays full. *)
Lemma prims_full fl fl' q :
  rtc prim fl fl' -> full (queue_of fl q) = true -> full (queue_of fl' q) = true.
Proof.
  induction 1 as [|f1 f2 f3 Hp _ IH]; [done|]. intros Hf. apply IH. clear IH.
  destruct Hp; try exact Hf. rewrite queue_of_put. case_decide as Hq; [subst|done].
  unfold full, q_items, zlen in *. simpl. rewrite !length_drop, length_app in *. simpl.
  apply andb_true_iff in Hf as [Ha Hb]. apply andb_true_iff. split; [done|]. apply Z.leb_le in Hb. apply Z.leb_le. lia.
Qed.

Lemma prims_subscriptions fl fl' :
  rtc prim fl fl' -> subscriptions (session fl') = subscriptions (session fl).
Proof.
  induction 1 as [|f1 f2 f3 Hp _ IH]; [done|]. rewrite IH. destruct Hp; try done.
  unfold session. simpl. by rewrite sent_session.
Qed.

(** *** Flights *)

(** Nothing but PUBREL changes a flight. *)
Definition flights_kept fl fl' : Prop :=
  link_up fl' -> forall pid f, inflight_qos2_in (session fl) !! pid = Some f ->
    inflight_qos2_in (session fl') !! pid = Some f.

Lemma flights_kept_same fl fl' :
  inflight_qos2_in (session fl') = inflight_qos2_in (session fl) -> flights_kept fl fl'.
Proof. intros Hs _ pid f. by rewrite Hs. Qed.

Lemma flights_kept_trans f1 f2 f3 :
  (link_up f3 -> link_up f2) -> flights_kept f1 f2 -> flights_kept f2 f3 -> flights_kept f1 f3.
Proof. intros Hl H1 H2 H3 pid f Hf. eauto. Qed.

Lemma run_after_session k fl : session (run_after k fl).2 = session fl.
Proof. rewrite run_after_eq. destruct k; [done|]. unfold session. simpl. apply sent_session. Qed.

Lemma set_ack_callback_engine m cb fl : f_engine (set_ack_callback m cb fl) = f_engine fl.
Proof. unfold set_ack_callback. by destruct (f_messages fl !! m). Qed.

Lemma deliver_session r cb k fl : session (_deliver r cb k fl).2 = session fl.
Proof.
  rewrite deliver_eq. destruct (request r); [by rewrite run_after_session|].
  destruct (subscription r) as [it|]; [|by rewrite run_after_session]. rewrite put_eq.
  assert (Hs : session (with_callback r cb fl) = session fl).
  { unfold with_callback. destruct (request r), cb, (subscription r) as [it'|]; try done.
    destruct (auto_ack it'.2); [done|]. unfold session. by rewrite set_ack_callback_engine. }
  destruct (full _); [exact Hs|]. rewrite run_after_session. exact Hs.
Qed.

Lemma qos1_session p r fl : session (_deliver_qos1_publish p r fl).2 = session fl.
Proof.
  unfold _deliver_qos1_publish. destruct (pb_packet_id p); [|done].
  destruct (recipient_auto_ack r); apply deliver_session.
Qed.

Lemma accept_qos2_flights p r fl :
  (forall pid, pb_packet_id p = Some pid -> link_up fl ->
     inflight_qos2_in (session fl) !! pid = None) ->
  flights_kept fl (_accept_qos2_publish p r fl).2.
Proof.
  intros Hf. unfold _accept_qos2_publish. destruct (pb_packet_id p) as [pid|]; [|by intros _].
  specialize (Hf pid eq_refl). destruct (recipient_auto_ack r); run.
  - rewrite connection_send. intros Hl pid' f Hf'. unfold session, link_up in *. simpl in *.
    rewrite sent_session, sent_link in *. simpl in *. rewrite lookup_insert_ne; [done|].
    intros <-. rewrite Hf in Hf' by done. done.
  - apply flights_kept_same. rewrite deliver_session. done.
Qed.

Lemma buffer_step_session b p fl : session (buffer_step b p fl).2 = session fl.
Proof. unfold buffer_step. by destruct (negb _ && _). Qed.

Lemma select_or_buffer_session p fl : session (_select_recipient_or_buffer p fl).2 = session fl.
Proof.
  rewrite select_or_buffer_eq. cbv zeta. destruct (f_replay fl) as [| |b]; [done| |].
  - destruct (recipient_found _); [done|]. by rewrite buffer_step_session.
  - destruct (bool_decide _); [done|]. destruct (bool_decide _ && _); [done|].
    destruct (packet_id_in _ _); [done|]. by rewrite buffer_step_session.
Qed.

Lemma handle_publish_flights p fl : flights_kept fl (handle_publish p fl).2.
Proof.
  unfold handle_publish. pose proof (select_or_buffer_session p fl) as Hs. destruct (pb_qos p).
  - rewrite run_bind. destruct (_select_recipient_or_buffer p fl) as [[[r|]|x] fl1]; simpl in Hs;
      run; cbn [snd]; apply flights_kept_same; rewrite ?deliver_session; by rewrite Hs.
  - unfold _handle_qos1_publish. destruct (pb_packet_id p) as [pid|]; [|by apply flights_kept_same].
    run. destruct (replay_contains_packet_id _ _); [by apply flights_kept_same|]. rewrite run_bind.
    destruct (_select_recipient_or_buffer p fl) as [[[r|]|x] fl1]; simpl in Hs;
      run; cbn [snd]; apply flights_kept_same; rewrite ?qos1_session; by rewrite Hs.
  - unfold _handle_qos2_publish. destruct (pb_packet_id p) as [pid|] eqn:Hpid;
      [|by apply flights_kept_same].
    run. case_bool_decide as Hfl.
    { apply flights_kept_same. rewrite connection_send. unfold session. simpl. by rewrite sent_session. }
    case_bool_decide; [by apply flights_kept_same|].
    destruct (replay_contains_packet_id _ _); [by apply flights_kept_same|]. rewrite run_bind.
    destruct (_select_recipient_or_buffer p fl) as [[[r|]|x] fl1]; simpl in Hs;
      run; cbn [snd]; try (apply flights_kept_same; by rewrite Hs).
    eapply flights_kept_trans; [|by apply flights_kept_same; rewrite Hs|apply accept_qos2_flights].
    + apply prims_history, traces_qos2.
    + intros pid' Hpid' _. rewrite Hpid in Hpid'. simplify_eq. rewrite Hs.
      destruct (inflight_qos2_in (session fl) !! pid'); [by destruct Hfl|done].
Qed.

Lemma deliver_replay_flights p r fl :
  (forall pid, pb_qos p = EXACTLY_ONCE -> pb_packet_id p = Some pid -> link_up fl ->
     inflight_qos2_in (session fl) !! pid = None) ->
  flights_kept fl (deliver_replay p r fl).2.
Proof.
  intros Hf. unfold deliver_replay. destruct (pb_qos p).
  - apply flights_kept_same. by rewrite deliver_session.
  - apply flights_kept_same. by rewrite qos1_session.
  - apply accept_qos2_flights. eauto.
Qed.

(** The router changes when a claim is delivered, not otherwise. *)
Lemma run_after_router k fl : f_router (run_after k fl).2 = f_router fl.
Proof. rewrite run_after_eq. by destruct k. Qed.

Lemma deliver_router r cb k fl :
  request r = None -> f_router (_deliver r cb k fl).2 = f_router fl.
Proof.
  intros Hr. rewrite deliver_eq, Hr. destruct (subscription r) as [it|]; [|apply run_after_router].
  assert (Hc : f_router (with_callback r cb fl) = f_router fl).
  { unfold with_callback. rewrite Hr. destruct cb, (subscription r) as [it'|]; try done.
    destruct (auto_ack it'.2); [done|]. unfold set_ack_callback. by destruct (_ !! _). }
  rewrite put_eq. destruct (full _); [exact Hc|]. by rewrite run_after_router.
Qed.

End operations.

#[export] Hint Resolve traces_deliver traces_buffered_accept traces_select_or_buffer traces_qos1
  traces_qos2 traces_deliver_each traces_deliver_pending : traces.
