(* ===== verification/InboundInv.v ===== *)
(** * The invariant of the inbound publish flow

    Every message object has one owner, a packet identifier belongs to one receive
    exchange, the counters of the replay buffer describe its content; the flow as a
    transition system that keeps all three. *)

From stdpp Require Import fin_sets.
From S2P Require Import Prelude PyBytes Utf8 PropertyRecords Packets Codec CodecFacts CodecSound SubscriptionIndex State Routing Protocol ProtocolFacts Inbound InboundFacts.
Local Open Scope Z_scope.

#[local] Arguments encode : simpl never.
#[local] Arguments canon : simpl never.
#[local] Arguments send_packet : simpl never.
#[local] Arguments select : simpl never.
#[local] Arguments select_by_identifier : simpl never.

Section flow.
Context {R : Type} `{RequestRouter R}.

Notation F := (ST (Flow R)).
Implicit Types (fl : Flow R) (p : Publish) (r : InboundRecipient).

(** ** Owners of message objects *)

(** Where a message object can be: in a queue (even after it was taken), in a QoS 2
    flight that has not delivered it, with the suspended read loop, or in the hands
    of the running handler. *)
Inductive owner := InQueue (q i : nat) | InFlight (pid : Z) | InBlocked | InHand.

#[export] Instance owner_eq_dec : EqDecision owner.
Proof. solve_decision. Defined.

Definition owns fl (hand : option nat) (o : owner) (m : nat) : Prop :=
  match o with
  | InQueue q i => q_put (queue_of fl q) !! i = Some m
  | InFlight pid => exists f, inflight_qos2_in (session fl) !! pid = Some f /\
                      in_delivered f = false /\ message (in_recipient f) = m
  | InBlocked => exists b, f_blocked fl = Some b /\ bl_message b = m
  | InHand => hand = Some m
  end.

(** Every message object has one owner. *)
Record owned (hand : option nat) fl : Prop := {
  ow_once : forall o o' m, owns fl hand o m -> owns fl hand o' m -> o = o';
  ow_alloc : forall o m, owns fl hand o m -> is_Some (f_messages fl !! m);
}.

Definition grows fl fl' : Prop :=
  forall m, is_Some (f_messages fl !! m) -> is_Some (f_messages fl' !! m).

Lemma owned_sub h h' fl fl' :
  (forall o m, owns fl' h' o m -> owns fl h o m) -> grows fl fl' -> owned h fl -> owned h' fl'.
Proof. intros Hs Hg [H1 H2]. split; eauto. Qed.

(** A message passes from one owner to another. *)
Lemma owned_move src dst h h' fl fl' :
  (forall o m, owns fl' h' o m ->
     o = dst /\ owns fl h src m \/ o <> src /\ o <> dst /\ owns fl h o m) ->
  grows fl fl' -> owned h fl -> owned h' fl'.
Proof.
  intros Hs Hg [H1 H2]. split.
  - intros o o' m Ho Ho'.
    destruct (Hs _ _ Ho) as [[-> Ha]|(Hn & Hd & Ha)],
      (Hs _ _ Ho') as [[-> Hb]|(Hn' & Hd' & Hb)]; eauto.
    + destruct Hn'. by eapply H1.
    + destruct Hn. by eapply H1.
  - intros o m Ho. destruct (Hs _ _ Ho) as [[-> Ha]|(Hn & Hd & Ha)]; eauto.
Qed.

Lemma owned_drop h fl : owned h fl -> owned None fl.
Proof. apply owned_sub; [|by intros x]. by intros [] m Ho. Qed.

Lemma owned_select p fl : owned None fl -> owned (Some (new_ref fl)) (after_select p fl).
Proof.
  intros [H1 H2].
  assert (Hg : grows fl (after_select p fl)).
  { intros m Hm. simpl. rewrite lookup_insert. case_decide; [done|exact Hm]. }
  assert (Hold : forall o m, o <> InHand -> owns (after_select p fl) (Some (new_ref fl)) o m ->
            owns fl None o m /\ m <> new_ref fl).
  { intros o m Hne Ho. assert (Ho' : owns fl None o m) by (destruct o; done).
    split; [done|]. intros ->. apply H2 in Ho' as [x Hx]. by rewrite new_ref_fresh in Hx. }
  split.
  - intros o o' m Ho Ho'. destruct (decide (o = InHand)) as [->|Hne].
    + simpl in Ho. simplify_eq. destruct o'; try done; by apply Hold in Ho' as [_ ?].
    + destruct (Hold _ _ Hne Ho) as [Ha Hm]. destruct o'; try (by eapply H1; [done|]; apply Hold).
      simpl in Ho'. by simplify_eq.
  - intros o m Ho. destruct (decide (o = InHand)) as [->|Hne].
    + simpl in *. simplify_eq. rewrite lookup_insert_eq. by eexists.
    + apply Hg. by eapply H2, Hold.
Qed.

Lemma owned_put q m fl : owned (Some m) fl -> owned None (with_put q m fl).
Proof.
  apply (owned_move InHand (InQueue q (length (q_put (queue_of fl q))))); [|by intros x].
  intros o x Ho. destruct o as [q' i|pid| |]; simpl in *; [|by right..|done].
  rewrite queue_of_put in Ho. case_decide as Hq; simpl in Ho; [subst q'|right; split_and!; congruence].
  apply lookup_app_Some in Ho as [Ho|[Hi Ho]].
  - right. split_and!; [done| |done]. intros [= ->]. apply lookup_lt_Some in Ho. lia.
  - left. apply list_lookup_singleton_Some in Ho as [Hi' ->].
    split; [f_equal; lia|done].
Qed.

Lemma owned_block q m k fl :
  owned (Some m) fl -> owned None (set_blocked (Some (mkBlocked q m k)) fl).
Proof.
  apply (owned_move InHand InBlocked); [|by intros x].
  intros o x Ho. destruct o; simpl in *; [by right..| |done].
  left. destruct Ho as (b & [= <-] & <-). done.
Qed.

Lemma owned_resume b fl :
  f_blocked fl = Some b -> owned None fl -> owned (Some (bl_message b)) (set_blocked None fl).
Proof.
  intros Hb. apply (owned_move InBlocked InHand); [|by intros x].
  intros o x Ho. destruct o; simpl in *; [by right..| |].
  - by destruct Ho as (? & ? & _).
  - simplify_eq. left. eauto.
Qed.

(** Flights change, nothing else *)
Lemma owned_flights g h fl :
  (forall pid f, g (inflight_qos2_in (session fl)) !! pid = Some f -> in_delivered f = false ->
     inflight_qos2_in (session fl) !! pid = Some f) ->
  owned h fl -> owned h (upd_flights_in g fl).
Proof.
  intros Hg. apply owned_sub; [|by intros m]. intros [] m; simpl; try done.
  intros (f & Hf & Hd & Hm). exists f. split; [by apply Hg|done].
Qed.

Lemma owned_flight pid r fl :
  owned (Some (message r)) fl ->
  owned None (upd_flights_in <[pid := mkInFlight pid r false]> fl).
Proof.
  apply (owned_move InHand (InFlight pid)); [|by intros m].
  intros o m Ho. destruct o as [q i|pid'| |]; simpl in *; [by right| |by right|done].
  destruct Ho as (f & Hf & Hd & Hm). rewrite lookup_insert in Hf. case_decide.
  - simplify_eq. by left.
  - right. split_and!; [done|congruence|eauto].
Qed.

Lemma owned_pubrel pid f fl :
  inflight_qos2_in (session fl) !! pid = Some f -> in_delivered f = false ->
  owned None fl -> owned (Some (message (in_recipient f))) (upd_flights_in (delete pid) fl).
Proof.
  intros Hf Hd. apply (owned_move (InFlight pid) InHand); [|by intros m].
  intros o m Ho. destruct o as [q i|pid'| |]; simpl in *; [by right| |by right|].
  - destruct Ho as (f' & Hf' & Hd' & Hm). apply lookup_delete_Some in Hf' as [Hne Hf'].
    right. split_and!; [congruence|done|eauto].
  - simplify_eq. left. eauto.
Qed.

(** Changes that no owner sees *)
Definition same_owners fl fl' : Prop :=
  inflight_qos2_in (session fl') = inflight_qos2_in (session fl) /\
  (forall q, q_put (queue_of fl' q) = q_put (queue_of fl q)) /\
  f_blocked fl' = f_blocked fl /\ grows fl fl'.

Lemma owned_same h fl fl' : same_owners fl fl' -> owned h fl -> owned h fl'.
Proof.
  intros (H1 & H2 & H3 & H4). apply owned_sub; [|done].
  intros [] m; simpl; rewrite ?H1, ?H2, ?H3; done.
Qed.

Lemma same_owners_callback m cb fl : same_owners fl (set_ack_callback m cb fl).
Proof.
  unfold set_ack_callback. destruct (f_messages fl !! m) as [o|] eqn:Ho; [|by split_and!; try intros ?].
  split_and!; [done|done|done|]. intros x Hx. simpl. rewrite lookup_insert. by case_decide.
Qed.

Lemma same_owners_with_callback r cb fl : same_owners fl (with_callback r cb fl).
Proof.
  unfold with_callback.
  destruct (request r), cb, (subscription r) as [it|]; try by split_and!; try intros ?.
  destruct (auto_ack it.2); [by split_and!; try intros ?|apply same_owners_callback].
Qed.

Lemma owned_sent pk h fl : owned h fl -> owned h (set_engine (sent pk (f_engine fl)) fl).
Proof.
  apply owned_same. split_and!; try done; [|by intros x]. unfold session. simpl. by rewrite sent_session.
Qed.

(** ** Packet identifiers *)

(** The PUBLISH packets that [decode] returns *)
Definition received (p : Publish) : Prop :=
  match pb_qos p with
  | AT_MOST_ONCE => pb_packet_id p = None
  | _ => exists pid, pb_packet_id p = Some pid /\ 0 <= pid <= 65535
  end.

(** A message whose [ack] will send PUBREC for [pid] *)
Definition open_callback fl (m : nat) (pid : Z) r : Prop :=
  exists o, f_messages fl !! m = Some o /\ _ack_callback o = Some (PubrecCallback pid r) /\
    _resolved o = false.

(** The identifiers of QoS 2 exchanges: in one table at most, held by at most one
    message, and not those of the buffered messages [l]. *)
Record ids_ok (l : list Publish) fl : Prop := {
  id_disj : forall pid f, inflight_qos2_in (session fl) !! pid = Some f ->
    pid ∉ pending_ack_qos2_in (session fl);
  id_cb : forall m pid r, open_callback fl m pid r ->
    (pid ∈ pending_ack_qos2_in (session fl)) /\ message r = m /\ 0 <= pid <= 65535;
  id_cb_inj : forall m m' pid r r', open_callback fl m pid r -> open_callback fl m' pid r' -> m = m';
  id_buf : forall p pid, p ∈ l -> pb_qos p = EXACTLY_ONCE -> pb_packet_id p = Some pid ->
    inflight_qos2_in (session fl) !! pid = None /\ pid ∉ pending_ack_qos2_in (session fl);
}.

(** A failed write is the end of the connection, and nothing is claimed of the
    identifiers after it; under [G] only when a drain may have been cancelled in a
    write. *)
Definition live (G : Prop) fl : Prop := G /\ link_up fl.

Definition inv_at_if (G : Prop) (l : list Publish) (h : option nat) fl : Prop :=
  owned h fl /\ (live G fl -> ids_ok l fl).

Definition same_replay fl fl' : Prop :=
  f_replay fl' = f_replay fl /\ f_buffer_size fl' = f_buffer_size fl.

#[export] Instance same_replay_preorder : PreOrder same_replay.
Proof.
  split; [by intros fl|]. intros f1 f2 f3 [H1 H2] [H3 H4]. split; congruence.
Qed.

(** No QoS 2 exchange is open under [pid]. *)
Definition free (l : list Publish) (pid : Z) fl : Prop :=
  inflight_qos2_in (session fl) !! pid = None /\ (pid ∉ pending_ack_qos2_in (session fl)) /\
  forall p, p ∈ l -> pb_qos p = EXACTLY_ONCE -> pb_packet_id p <> Some pid.

(** Changes that concern neither owners nor identifiers *)
Definition same_ids fl fl' : Prop :=
  inflight_qos2_in (session fl') = inflight_qos2_in (session fl) /\
  pending_ack_qos2_in (session fl') = pending_ack_qos2_in (session fl) /\
  (link_up fl' -> link_up fl) /\
  (forall m pid r, open_callback fl' m pid r -> open_callback fl m pid r).

Lemma ids_ok_same l fl fl' : same_ids fl fl' -> ids_ok l fl -> ids_ok l fl'.
Proof.
  intros (H1 & H2 & H3 & H4) [D1 D2 D3 D4]. split; rewrite ?H1, ?H2; [done| |eauto|done].
  intros m pid r Ho. eauto.
Qed.

Section guarded.
Context {G : Prop}.

Notation inv_at := (inv_at_if G).

Lemma live_same fl fl' : same_ids fl fl' -> live G fl' -> live G fl.
Proof. intros (_ & _ & Hl & _) [HG H']. split; [done|by apply Hl]. Qed.

Lemma inv_at_same l h fl fl' :
  same_owners fl fl' -> same_ids fl fl' -> inv_at l h fl -> inv_at l h fl'.
Proof.
  intros Ho Hi [H1 H2]. split; [by eapply owned_same|]. intros Hl.
  eapply ids_ok_same; [done|]. apply H2. by eapply live_same.
Qed.

Lemma inv_at_ids l h h' fl fl' :
  (owned h fl -> owned h' fl') -> same_ids fl fl' -> inv_at l h fl -> inv_at l h' fl'.
Proof.
  intros Ho Hi [H1 H2]. split; [by apply Ho|]. intros Hl.
  eapply ids_ok_same; [done|]. apply H2. by eapply live_same.
Qed.

(** Fewer buffered messages *)
Lemma inv_at_sub l l' h fl : (forall p, p ∈ l' -> p ∈ l) -> inv_at l h fl -> inv_at l' h fl.
Proof.
  intros Hs [H1 H2]. split; [done|]. intros Hl. destruct (H2 Hl) as [D1 D2 D3 D4].
  split; eauto.
Qed.

Lemma inv_select l p fl :
  inv_at l None fl -> inv_at l (Some (message (selected p fl))) (after_select p fl).
Proof.
  rewrite message_selected. apply inv_at_ids; [apply owned_select|]. split_and!; try done.
  intros m pid r (o & Ho & Hc & Hr). simpl in Ho. rewrite lookup_insert in Ho.
  case_decide; [by simplify_eq|]. by exists o.
Qed.

Lemma inv_sent l h pk fl : inv_at l h fl -> inv_at l h (set_engine (sent pk (f_engine fl)) fl).
Proof.
  apply inv_at_ids; [apply owned_sent|].
  unfold same_ids, session, link_up; simpl; by rewrite sent_session, sent_link.
Qed.

Lemma inv_run_after l k fl :
  inv_at l None fl -> inv_at l None (run_after k fl).2 /\ same_replay fl (run_after k fl).2.
Proof.
  intros Hi. rewrite run_after_eq. destruct k; [by split|]. split; [by apply inv_sent|by split].
Qed.

Lemma inv_put l q m k fl :
  inv_at l (Some m) fl -> inv_at l None (put q m k fl).2 /\ same_replay fl (put q m k fl).2.
Proof.
  intros Hi. rewrite put_eq. destruct (full _).
  - split; [|by split]. revert Hi. apply inv_at_ids; [apply owned_block|]. by split_and!.
  - destruct (inv_run_after l k (with_put q m fl)) as [H1 H2]; [|split; [done|by etrans; [|exact H2]]].
    revert Hi. apply inv_at_ids; [apply owned_put|]. by split_and!.
Qed.

Lemma inv_deliver l r cb k fl :
  inv_at l (Some (message r)) (with_callback r cb fl) ->
  inv_at l None (_deliver r cb k fl).2 /\ same_replay fl (_deliver r cb k fl).2.
Proof.
  intros Hi. rewrite deliver_eq. unfold with_callback in *. destruct (request r) as [c|].
  - destruct (inv_run_after l k (set_router (deliver c <$> f_router fl) fl)) as [H1 H2];
      [|split; [done|by etrans; [|exact H2]]].
    revert Hi. apply inv_at_ids; [|by split_and!]. intros Ho. eapply owned_same; [|by eapply owned_drop].
    by split_and!; try intros ?.
  - destruct (subscription r) as [it|].
    + destruct (inv_put l (queue it.2) (message r) k _ Hi) as [H1 H2]. split; [done|].
      etrans; [|exact H2]. destruct cb as [cb|]; [|done]. destruct (auto_ack it.2); [done|].
      unfold set_ack_callback. by destruct (f_messages fl !! message r).
    + apply inv_run_after. revert Hi. apply inv_at_ids; [|by destruct cb; split_and!].
      destruct cb; apply owned_drop.
Qed.

(** *** Acknowledgements *)

Definition after_ok (k : after) : Prop :=
  match k with AfterNothing => True | AfterPuback pid => 0 <= pid <= 65535 end.

Lemma encode_ack pk pid v :
  0 <= pid <= 65535 ->
  pk = PPubAck (mkPubAck pid 0 None) \/ pk = PPubRec (mkPubAck pid 0 None) \/
    pk = PPubComp (mkPubAck pid 0 None) ->
  exists data, encode pk v = Ok data.
Proof.
  intros Hp Hk. destruct Hk as [->|[->| ->]]; unfold encode, _encode_pub_ack_variant, _packet_id_only;
    simpl; rewrite andb_false_r; pose proof (proj2 (pack_H_range pid) Hp) as HO;
    destruct (pack_H pid) as [bs|] eqn:Hb; try done; simpl; unfold _build_packet;
    rewrite (pack_H_len _ _ Hb); simpl; by eexists.
Qed.

(** Sending an acknowledgement writes it, or the connection is down. *)
Lemma send_ack pk pid e :
  0 <= pid <= 65535 ->
  pk = PPubAck (mkPubAck pid 0 None) \/ pk = PPubRec (mkPubAck pid 0 None) \/
    pk = PPubComp (mkPubAck pid 0 None) ->
  exists data, encode pk (e_version e) = Ok data /\
    send_packet pk e = if e_link e then (Ok tt, write data e) else (Err OSError, e).
Proof.
  intros Hp Hk. destruct (encode_ack pk pid (e_version e) Hp Hk) as (data & Hd).
  exists data. split; [done|]. by rewrite send_packet_eq, Hd.
Qed.

(** [m] raises only on a broken connection. *)
Definition raises_only_down (m : F unit) fl : Prop :=
  (m fl).1 = Ok tt \/ ~ link_up (m fl).2.

Lemma run_after_runs k fl : after_ok k -> raises_only_down (run_after k) fl.
Proof.
  unfold raises_only_down. rewrite run_after_eq. destruct k as [|pid]; [by left|]. intros Hp.
  destruct (send_ack (PPubAck (mkPubAck pid 0 None)) pid (f_engine fl) Hp) as (data & _ & Hs); [by left|].
  unfold sent. rewrite Hs. destruct (e_link _) eqn:Hl; [by left|]. right. unfold link_up. simpl. by rewrite Hl.
Qed.

Lemma put_runs q m k fl : after_ok k -> raises_only_down (put q m k) fl.
Proof.
  intros Hk. unfold raises_only_down. rewrite put_eq. destruct (full _); [by left|].
  by apply run_after_runs.
Qed.

Lemma deliver_runs r cb k fl : after_ok k -> raises_only_down (_deliver r cb k) fl.
Proof.
  intros Hk. unfold raises_only_down. rewrite deliver_eq. destruct (request r); [by apply run_after_runs|].
  destruct (subscription r); [by apply put_runs|by apply run_after_runs].
Qed.

(** What a delivery inside a larger operation leaves behind *)
Definition delivers (l : list Publish) (m : F unit) fl : Prop :=
  inv_at l None (m fl).2 /\ same_replay fl (m fl).2 /\ raises_only_down m fl.

Lemma with_callback_puback l h r pid b fl :
  inv_at l h fl -> inv_at l h (with_callback r (Some (PubackCallback pid b)) fl).
Proof.
  apply inv_at_same; [apply same_owners_with_callback|]. unfold with_callback.
  destruct (request r), (subscription r) as [it|]; try by split_and!.
  destruct (auto_ack it.2); [by split_and!|]. unfold set_ack_callback.
  destruct (f_messages fl !! message r) as [o|]; [|by split_and!]. split_and!; try done.
  intros m pid' r' (o' & Ho & Hc & Hr). simpl in Ho. rewrite lookup_insert in Ho.
  case_decide; [by simplify_eq|by exists o'].
Qed.

Lemma deliver_qos1 l p r fl :
  received p -> pb_qos p = AT_LEAST_ONCE -> inv_at l (Some (message r)) fl ->
  delivers l (_deliver_qos1_publish p r) fl.
Proof.
  unfold received. intros Hr Hq Hi. rewrite Hq in Hr. destruct Hr as (pid & Hpid & Hrange).
  unfold delivers, raises_only_down, _deliver_qos1_publish. rewrite Hpid.
  destruct (recipient_auto_ack r).
  - edestruct (inv_deliver l r None (AfterPuback pid) fl) as [H1 H2].
    { unfold with_callback. by destruct (request r). }
    split_and!; [done|apply H2..|by apply deliver_runs].
  - edestruct (inv_deliver l r (Some (PubackCallback pid false)) AfterNothing fl) as [H1 H2].
    { by apply with_callback_puback. }
    split_and!; [done|apply H2..|by apply deliver_runs].
Qed.

Lemma inv_flight l pid r fl :
  (live G fl -> free l pid fl) -> inv_at l (Some (message r)) fl ->
  inv_at l None (upd_flights_in <[pid := mkInFlight pid r false]> fl).
Proof.
  intros Hf [H1 H2]. split; [by apply owned_flight|]. intros Hl.
  destruct (H2 Hl) as [D1 D2 D3 D4]. destruct (Hf Hl) as (F1 & F2 & F3). split; simpl; try done.
  - intros pid' f. rewrite lookup_insert. case_decide; [by subst|apply D1].
  - intros p pid' Hp Hq Hpid. destruct (D4 p pid' Hp Hq Hpid) as [E1 E2]. split; [|done].
    rewrite lookup_insert_ne; [done|]. intros <-. by eapply F3.
Qed.

Lemma inv_pending l pid r fl :
  0 <= pid <= 65535 -> request r = None -> (exists it, subscription r = Some it /\ auto_ack it.2 = false) ->
  (live G fl -> free l pid fl) -> inv_at l (Some (message r)) fl ->
  inv_at l (Some (message r)) (with_callback r (Some (PubrecCallback pid r))
    (upd_pending_ack (fun s => {[pid]} ∪ s) fl)).
Proof.
  intros Hpid Hreq (it & Hsub & Hauto) Hf [H1 H2].
  assert (H1' : owned (Some (message r)) (upd_pending_ack (fun s => {[pid]} ∪ s) fl)).
  { eapply owned_same; [|done]. by split_and!; try intros ?. }
  split; [by eapply owned_same; [apply same_owners_with_callback|]|].
  destruct (ow_alloc _ _ H1 InHand (message r)) as [o Ho]; [done|].
  unfold with_callback. rewrite Hreq, Hsub, Hauto. unfold set_ack_callback. simpl. rewrite Ho.
  intros Hl. destruct (H2 Hl) as [D1 D2 D3 D4]. destruct (Hf Hl) as (F1 & F2 & F3).
  assert (Hold : forall m pid' r', open_callback
    (set_message (message r) (mkMessageObject (mo_message o) (Some (PubrecCallback pid r))
       (_resolved o)) (upd_pending_ack (fun s => {[pid]} ∪ s) fl)) m pid' r' ->
    m = message r /\ pid' = pid /\ r' = r \/ pid' <> pid /\ open_callback fl m pid' r').
  { intros m pid' r' (o' & Ho' & Hc & Hr). simpl in Ho'. rewrite lookup_insert in Ho'. case_decide.
    - simplify_eq/=. by left.
    - right. assert (Hop : open_callback fl m pid' r') by (by exists o').
      split; [|done]. intros ->. by apply D2 in Hop as [? _]. }
  split; simpl.
  - intros pid' f Hf'. apply not_elem_of_union. split; [|by eapply D1].
    rewrite elem_of_singleton. intros ->. unfold session in *. simpl in *. congruence.
  - intros m pid' r' Ho'. destruct (Hold _ _ _ Ho') as [(-> & -> & ->)|[Hne Hop]]; [set_solver|].
    apply D2 in Hop as (? & ? & ?). split; [set_solver|done].
  - intros m m' pid' r1 r2 Ho1 Ho2.
    destruct (Hold _ _ _ Ho1) as [(-> & -> & ->)|[Hne Hop]],
      (Hold _ _ _ Ho2) as [(-> & ? & ->)|[Hne' Hop']]; try done. by eapply D3.
  - intros p pid' Hp Hq Hpid'. destruct (D4 p pid' Hp Hq Hpid') as [E1 E2]. split; [done|].
    apply not_elem_of_union. split; [|done]. rewrite elem_of_singleton. intros ->. by eapply F3.
Qed.

Lemma auto_ack_false r :
  recipient_auto_ack r = false ->
  request r = None /\ exists it, subscription r = Some it /\ auto_ack it.2 = false.
Proof. unfold recipient_auto_ack. destruct (request r), (subscription r); eauto; done. Qed.

Lemma accept_qos2 l p r fl :
  received p -> pb_qos p = EXACTLY_ONCE ->
  (forall pid, pb_packet_id p = Some pid -> live G fl -> free l pid fl) ->
  inv_at l (Some (message r)) fl -> delivers l (_accept_qos2_publish p r) fl.
Proof.
  unfold received. intros Hr Hq Hf Hi. rewrite Hq in Hr. destruct Hr as (pid & Hpid & Hrange).
  specialize (Hf pid Hpid). unfold delivers, raises_only_down, _accept_qos2_publish. rewrite Hpid.
  destruct (recipient_auto_ack r) eqn:Ha.
  - rewrite run_bind, run_modify, connection_send. cbn [fst snd].
    split_and!; try done; [by apply inv_sent, inv_flight|].
    destruct (send_ack (PPubRec (mkPubAck pid 0 None)) pid
      (upd_session (fun s => upd_inbound (<[pid := mkInFlight pid r false]> (inflight_qos2_in s))
        (pending_ack_qos2_in s) (subscriptions s) s) (f_engine fl)) Hrange) as (data & _ & Hs);
      [by right; left|].
    unfold link_up. simpl. rewrite sent_link. simpl in Hs. rewrite Hs. simpl.
    destruct (e_link _) eqn:Hl; [by left|]. right. congruence.
  - destruct (auto_ack_false _ Ha) as [Hreq Hsub]. rewrite run_bind, run_modify.
    edestruct (inv_deliver l r (Some (PubrecCallback pid r)) AfterNothing
      (upd_pending_ack (fun s => {[pid]} ∪ s) fl)) as [H1 H2]; [by apply inv_pending|].
    split_and!; [done|apply H2..|]. by apply deliver_runs.
Qed.

(** ** The replay buffer *)

Definition count_topic (t : str) (l : list Publish) : nat :=
  length (filter (fun p => pb_topic p = t) l).

Definition ids_of (l : list Publish) : list Z := omap pb_packet_id l.

(** The counters of a buffer describe the messages it holds, the limit is kept, and
    no packet identifier is held twice. *)
Record buffer_ok (size : Z) (b : ReplayBuffer) : Prop := {
  bo_count : rb_message_count b = zlen (rb_publishes b);
  bo_topics : forall t, rb_topics b !! t =
    if decide (count_topic t (rb_publishes b) = 0%nat) then None
    else Some (Z.of_nat (count_topic t (rb_publishes b)));
  bo_ids : forall x, x ∈ rb_packet_ids b <-> x ∈ ids_of (rb_publishes b);
  bo_nodup : NoDup (ids_of (rb_publishes b));
  bo_bound : 0 < size -> rb_message_count b <= size;
  bo_received : forall p, p ∈ rb_publishes b -> received p;
}.

Lemma count_topic_app t l k : count_topic t (l ++ k) = (count_topic t l + count_topic t k)%nat.
Proof. unfold count_topic. by rewrite filter_app, length_app. Qed.

Lemma count_topic_one t p : count_topic t [p] = if decide (pb_topic p = t) then 1%nat else 0%nat.
Proof. unfold count_topic. rewrite filter_cons. by case_decide. Qed.

Lemma ids_of_app l k : ids_of (l ++ k) = ids_of l ++ ids_of k.
Proof. apply omap_app. Qed.

Lemma ids_of_cons p l :
  ids_of (p :: l) = match pb_packet_id p with Some i => i :: ids_of l | None => ids_of l end.
Proof. done. Qed.

Lemma elem_of_ids l p pid : p ∈ l -> pb_packet_id p = Some pid -> pid ∈ ids_of l.
Proof. intros Hp Hpid. apply list_elem_of_omap. by exists p. Qed.

Lemma buffer_ok_new size ref : buffer_ok size (new_buffer_state ref).
Proof.
  split; simpl; try done.
  - intros x. rewrite elem_of_nil. split; [by intros ?%not_elem_of_empty|done].
  - constructor.
  - lia.
  - by intros p ?%elem_of_nil.
Qed.

Lemma buffer_ok_append size b p :
  buffer_ok size b -> received p -> packet_id_in p (rb_packet_ids b) = false ->
  (0 < size -> rb_message_count b < size) -> buffer_ok size (buffer_append p b).
Proof.
  intros [B1 B2 B3 B4 B5 B6] Hr Hid Hs. split; simpl.
  - rewrite zlen_app, B1. reflexivity.
  - intros t. rewrite count_topic_app, count_topic_one, lookup_insert, !B2.
    repeat case_decide; simpl; subst; try done; try lia; f_equal; lia.
  - intros x. rewrite ids_of_app, elem_of_app, <- B3. unfold ids_of. simpl.
    destruct (pb_packet_id p) as [i|]; simpl.
    + rewrite elem_of_union, elem_of_singleton, list_elem_of_singleton. tauto.
    + rewrite elem_of_nil. tauto.
  - rewrite ids_of_app. apply NoDup_app. split; [done|]. unfold ids_of at 2 3. simpl.
    unfold packet_id_in in Hid. destruct (pb_packet_id p) as [i|]; simpl.
    + split; [|apply NoDup_singleton]. intros x Hx. rewrite list_elem_of_singleton. intros ->.
      apply bool_decide_eq_false in Hid. by rewrite B3 in Hid.
    + split; [|constructor]. intros x _. apply not_elem_of_nil.
  - intros H0. specialize (Hs H0). lia.
  - intros p' [Hp|Hp%list_elem_of_singleton]%elem_of_app; [by apply B6|by subst].
Qed.

Lemma buffer_ok_discard size b l1 p l2 :
  rb_publishes b = l1 ++ p :: l2 -> buffer_ok size b ->
  buffer_ok size (_discard p (set_publishes (l1 ++ l2) b)).
Proof.
  intros Hb [B1 B2 B3 B4 B5 B6]. rewrite Hb in *.
  assert (Hc : forall t, count_topic t (l1 ++ p :: l2) =
    (count_topic t (l1 ++ l2) + if decide (pb_topic p = t) then 1 else 0)%nat).
  { intros t. change (p :: l2) with ([p] ++ l2). rewrite !count_topic_app, count_topic_one. lia. }
  assert (Hi : Permutation (ids_of (l1 ++ p :: l2)) (ids_of (p :: l1 ++ l2))).
  { unfold ids_of. by rewrite Permutation_middle. }
  rewrite Hi, ids_of_cons in B4. split; simpl.
  - rewrite B1. rewrite !zlen_app, zlen_cons. lia.
  - intros t. specialize (Hc t). specialize (B2 t) as B2t. rewrite Hc in B2t.
    rewrite (B2 (pb_topic p)).
    assert (Hp : (count_topic (pb_topic p) (l1 ++ p :: l2) =
      count_topic (pb_topic p) (l1 ++ l2) + 1)%nat).
    { change (p :: l2) with ([p] ++ l2). rewrite !count_topic_app, count_topic_one, decide_True by done. lia. }
    rewrite Hp. rewrite decide_False by lia. simpl.
    destruct (Z.eqb_spec (Z.of_nat (count_topic (pb_topic p) (l1 ++ l2) + 1) - 1) 0) as [Hz|Hz].
    + rewrite lookup_delete. destruct (decide (pb_topic p = t)) as [<-|Hne].
      * by rewrite decide_True by lia.
      * by rewrite B2t, Nat.add_0_r.
    + rewrite lookup_insert. destruct (decide (pb_topic p = t)) as [<-|Hne].
      * rewrite decide_False by lia. f_equal. lia.
      * by rewrite B2t, Nat.add_0_r.
  - intros x. specialize (B3 x). rewrite Hi, ids_of_cons in B3.
    destruct (pb_packet_id p) as [i|]; [|done].
    rewrite elem_of_difference, elem_of_singleton, B3, elem_of_cons.
    apply NoDup_cons in B4 as [Hn _]. split; [tauto|]. intros Hx. split; [by right|]. by intros ->.
  - destruct (pb_packet_id p); [|done]. by apply NoDup_cons in B4 as [_ ?].
  - intros H0. specialize (B5 H0). lia.
  - intros p' Hp'. apply B6. revert Hp'. rewrite !elem_of_app, elem_of_cons. tauto.
Qed.

Definition replay_ok fl : Prop :=
  match f_replay fl with PersistentReplayBuffered b => buffer_ok (f_buffer_size fl) b | _ => True end.

(** ** The invariant of the flow *)

Definition flow_ok_if (G : Prop) fl : Prop := inv_at_if G (publishes_of fl) None fl /\ replay_ok fl.

(** While a drain is suspended it has messages of the buffer in its hands: [counted]
    are still in the counters of the buffer, [waiting] of them are not delivered yet. *)
Definition replay_with (counted : list Publish) fl : Prop :=
  match f_replay fl with
  | PersistentReplayBuffered b =>
      buffer_ok (f_buffer_size fl) (set_publishes (counted ++ rb_publishes b) b)
  | _ => counted = []
  end.

Definition flow_with_if (G : Prop) (counted waiting : list Publish) fl : Prop :=
  inv_at_if G (waiting ++ publishes_of fl) None fl /\ replay_with counted fl.

Notation flow_ok := (flow_ok_if G).
Notation flow_with := (flow_with_if G).

Lemma flow_with_nil fl : flow_with [] [] fl <-> flow_ok fl.
Proof.
  unfold flow_with_if, flow_ok_if, replay_with, replay_ok. cbn [app].
  destruct (f_replay fl) as [| |b]; [naive_solver..|]. by destruct b.
Qed.

Section held.
Context (counted waiting : list Publish) (Hwaiting : forall p, p ∈ waiting -> p ∈ counted).

Notation flow_held := (flow_with counted waiting).

Lemma same_replay_ok fl fl' :
  same_replay fl fl' -> inv_at (waiting ++ publishes_of fl) None fl' -> replay_with counted fl ->
  flow_held fl'.
Proof. intros [H1 H2] Hi Hr. unfold flow_with_if, publishes_of, replay_with. rewrite H1, H2. by split. Qed.

Lemma delivers_ok (m : F unit) fl fl' :
  same_replay fl' fl -> replay_with counted fl' -> delivers (waiting ++ publishes_of fl') m fl ->
  flow_held (m fl).2.
Proof. intros Hs Hr (H1 & H2 & _). apply (same_replay_ok fl'); [by etrans|done|done]. Qed.

(** Another packet identifier than those of the buffer *)
Lemma not_contained fl pid :
  replay_with counted fl -> replay_contains_packet_id (f_replay fl) pid = false ->
  forall p, p ∈ waiting ++ publishes_of fl -> pb_packet_id p <> Some pid.
Proof.
  unfold replay_with, replay_contains_packet_id, publishes_of.
  intros Hb Hc p Hp Hpid. assert (Hin : forall l, p ∈ waiting ++ l -> p ∈ counted ++ l).
  { intros l. rewrite !elem_of_app. intros [?|?]; [left; by apply Hwaiting|by right]. }
  apply Hin in Hp. destruct (f_replay fl) as [| |b]; [subst; by apply elem_of_nil in Hp..|].
  apply bool_decide_eq_false in Hc. apply Hc, (bo_ids _ _ Hb). by eapply elem_of_ids.
Qed.

Lemma inv_down l h fl : inv_at l h fl -> inv_at l h (connection abort fl).2.
Proof. intros [H1 H2]. split; [|by intros [_ ?]]. revert H1. apply owned_same. by split_and!; try intros ?. Qed.

Lemma selected_ok p fl : flow_held fl -> flow_held (after_select p fl).
Proof.
  intros [Hi Hr]. split; [|exact Hr]. apply (inv_select _ p) in Hi.
  revert Hi. apply inv_at_ids; [apply owned_drop|by split_and!].
Qed.

Lemma buffer_step_ok b p fl :
  flow_held fl -> buffer_ok (f_buffer_size fl) (set_publishes (counted ++ rb_publishes b) b) ->
  received p -> inv_at (waiting ++ rb_publishes b) None fl -> packet_id_in p (rb_packet_ids b) = false ->
  (forall pid, pb_qos p = EXACTLY_ONCE -> pb_packet_id p = Some pid -> live G fl ->
     inflight_qos2_in (session fl) !! pid = None /\ pid ∉ pending_ack_qos2_in (session fl)) ->
  flow_held (buffer_step b p fl).2.
Proof.
  intros [Hi Hr] Hb Hp [Ho Hids] Hid Hfree. unfold buffer_step.
  destruct (negb _ && _) eqn:Hlim; simpl; [split; [by apply (inv_down _ _ fl)|exact Hr]|].
  split.
  - split; [revert Ho; apply owned_same; by split_and!; try intros ?|]. intros Hl.
    destruct (Hids Hl) as [D1 D2 D3 D4]. split; [done..|]. unfold publishes_of. simpl. rewrite app_assoc.
    intros p' pid [Hp'|Hp'%list_elem_of_singleton]%elem_of_app Hq Hpid; [by eapply D4|].
    subst p'. by apply Hfree.
  - unfold replay_with. simpl. rewrite app_assoc.
    apply (buffer_ok_append _ (set_publishes (counted ++ rb_publishes b) b) p); try done. simpl.
    intros Hs. destruct (Z.eqb_spec (f_buffer_size fl) 0); simpl in Hlim; lia.
Qed.

Lemma select_or_buffer_ok p fl :
  flow_held fl -> received p ->
  (forall pid, pb_qos p = EXACTLY_ONCE -> pb_packet_id p = Some pid -> live G fl ->
     inflight_qos2_in (session fl) !! pid = None /\ pid ∉ pending_ack_qos2_in (session fl)) ->
  match _select_recipient_or_buffer p fl with
  | (Ok (Some r), fl') => r = selected p fl /\ fl' = after_select p fl
  | (_, fl') => flow_held fl'
  end.
Proof.
  intros Hok Hp Hfree. rewrite select_or_buffer_eq. cbv zeta.
  pose proof (selected_ok p fl Hok) as Hok1. pose proof (proj1 Hok) as [Ho Hids].
  assert (Hstep : forall b fl1, flow_held fl1 ->
    buffer_ok (f_buffer_size fl1) (set_publishes (counted ++ rb_publishes b) b) ->
    inv_at (waiting ++ rb_publishes b) None fl1 -> packet_id_in p (rb_packet_ids b) = false ->
    session fl1 = session fl -> (live G fl1 -> live G fl) ->
    match buffer_step b p fl1 with
    | (Ok (Some r), fl') => r = selected p fl /\ fl' = after_select p fl
    | (_, fl') => flow_held fl'
    end).
  { intros b fl1 H1 H2 H3 H4 H5 H6.
    assert (HB : flow_held (buffer_step b p fl1).2).
    { apply buffer_step_ok; try done. intros pid Hq Hpid Hl. rewrite H5. by eauto. }
    unfold buffer_step in *. by destruct (negb _ && _). }
  destruct (f_replay fl) as [| |b] eqn:Hre; [done| |].
  - destruct (recipient_found _); [done|].
    assert (Hok2 : flow_held (next_ref (after_select p fl))).
    { destruct Hok1 as [Hi Hr]. split; [|exact Hr]. revert Hi.
      apply inv_at_same; by split_and!; try intros ?. }
    apply Hstep; try done.
    + destruct Hok2 as [_ Hr]. unfold replay_with in Hr. simpl in Hr. rewrite Hre in Hr. rewrite Hr.
      apply buffer_ok_new.
    + simpl. eapply inv_at_sub; [|apply Hok2]. intros q. rewrite !elem_of_app. intros [?|?%elem_of_nil]; [|done].
      by left.
    + unfold packet_id_in. by destruct (pb_packet_id p).
  - destruct (bool_decide (request _ <> None)); [done|].
    destruct (bool_decide (subscription _ <> None) && _); [done|].
    destruct (packet_id_in p _) eqn:Hid; [done|].
    destruct Hok1 as [Hi1 Hr1]. unfold replay_with, publishes_of in *. simpl in *. rewrite Hre in *.
    apply Hstep; try done. by split; [|unfold replay_with; simpl; rewrite Hre];
      [unfold publishes_of; simpl; rewrite Hre|].
Qed.

(** ** Every operation preserves the invariant *)

Lemma handle_publish_held p fl : flow_held fl -> received p -> flow_held (handle_publish p fl).2.
Proof.
  intros Hok Hp. pose proof Hok as [Hi Hr]. pose proof Hp as Hp'. unfold received in Hp'.
  pose proof (inv_select _ p _ Hi) as His.
  assert (Hsel : same_replay fl (after_select p fl)) by done.
  unfold handle_publish. destruct (pb_qos p) eqn:Hq.
  - rewrite run_bind. pose proof (select_or_buffer_ok p fl Hok Hp ltac:(congruence)) as HS.
    destruct (_select_recipient_or_buffer p fl) as [[[r|]|x] fl']; try done.
    destruct HS as [-> ->].
    destruct (inv_deliver (waiting ++ publishes_of fl) (selected p fl) None AfterNothing (after_select p fl))
      as [H1 H2]; [unfold with_callback; by destruct (request _)|].
    apply (same_replay_ok fl); [by etrans|done|done].
  - unfold _handle_qos1_publish. destruct Hp' as (pid & -> & Hrange). rewrite run_bind, run_gets.
    destruct (replay_contains_packet_id _ _); [done|].
    rewrite run_bind. pose proof (select_or_buffer_ok p fl Hok Hp ltac:(congruence)) as HS.
    destruct (_select_recipient_or_buffer p fl) as [[[r|]|x] fl']; try done.
    destruct HS as [-> ->].
    by apply (delivers_ok _ _ fl), deliver_qos1.
  - unfold _handle_qos2_publish. destruct Hp' as (pid & Hpid & Hrange). rewrite Hpid, run_bind, run_gets.
    case_bool_decide as Hfl.
    { rewrite connection_send. simpl. apply (same_replay_ok fl); [done|by apply inv_sent|done]. }
    case_bool_decide as Hpe; [done|].
    destruct (replay_contains_packet_id _ _) eqn:Hc; [done|].
    assert (Hfree : inflight_qos2_in (session fl) !! pid = None)
      by (destruct (inflight_qos2_in (session fl) !! pid); [by destruct Hfl|done]).
    rewrite run_bind. pose proof (select_or_buffer_ok p fl Hok Hp) as HS.
    assert (HF : forall pid', pb_qos p = EXACTLY_ONCE -> pb_packet_id p = Some pid' -> live G fl ->
      inflight_qos2_in (session fl) !! pid' = None /\ pid' ∉ pending_ack_qos2_in (session fl)).
    { intros pid' _ Hpid'. rewrite Hpid in Hpid'. by simplify_eq. }
    specialize (HS HF).
    destruct (_select_recipient_or_buffer p fl) as [[[r|]|x] fl']; try done.
    destruct HS as [-> ->]. apply (delivers_ok _ _ fl); [done|done|].
    apply accept_qos2; [done|done| |done]. intros pid' Hpid' _. rewrite Hpid in Hpid'. simplify_eq.
    split; [done|]. split; [done|]. intros p' Hp1 _. by eapply (not_contained fl).
Qed.

Lemma ids_delete l pid fl : ids_ok l fl -> ids_ok l (upd_flights_in (delete pid) fl).
Proof.
  intros [D1 D2 D3 D4]. split; simpl; try done.
  - intros pid' f [_ Hf]%lookup_delete_Some. by eapply D1.
  - intros p pid' Hp Hq Hpid. destruct (D4 p pid' Hp Hq Hpid) as [E1 E2]. split; [|done].
    rewrite lookup_delete. by case_decide.
Qed.

Lemma handle_pubrel_held a fl : flow_held fl -> flow_held (handle_pubrel a fl).2.
Proof.
  intros [[Ho Hids] Hr]. unfold handle_pubrel. run.
  destruct (inflight_qos2_in (session fl) !! pa_packet_id a) as [f|] eqn:Hf; [|by split].
  run. rewrite connection_send.
  set (fl1 := upd_flights_in (delete (pa_packet_id a)) fl).
  assert (Hi1 : inv_at (waiting ++ publishes_of fl) (if in_delivered f then None
                  else Some (message (in_recipient f))) fl1).
  { split; [|intros Hl; by apply ids_delete, Hids]. destruct (in_delivered f) eqn:Hd.
    - apply owned_flights; [|done]. by intros pid f' [_ ?]%lookup_delete_Some.
    - by apply (owned_pubrel _ f). }
  apply (inv_sent _ _ (PPubComp (mkPubAck (pa_packet_id a) 0 None))) in Hi1.
  destruct (send_packet _ _).1 as [[]|x]; run; destruct (in_delivered f).
  - apply (same_replay_ok fl); done.
  - edestruct (inv_deliver (waiting ++ publishes_of fl) (in_recipient f) None AfterNothing) as [H1 H2].
    { unfold with_callback. destruct (request (in_recipient f)); exact Hi1. }
    apply (same_replay_ok fl); [by etrans; [|exact H2]|done|done].
  - apply (same_replay_ok fl); done.
  - apply (same_replay_ok fl); [done| |done]. split; [|apply Hi1].
    eapply owned_drop. apply Hi1.
Qed.

Lemma resume_held fl : flow_held fl -> flow_held (resume fl).2.
Proof.
  intros [[Ho Hids] Hr]. unfold resume. run. destruct (f_blocked fl) as [b|] eqn:Hb; [|by split].
  run. destruct (full _); [by split|]. run.
  edestruct (inv_put (waiting ++ publishes_of fl) (bl_queue b) (bl_message b) (bl_after b) (set_blocked None fl))
    as [H1 H2].
  - split; [by apply owned_resume|]. intros Hl. apply Hids in Hl.
    revert Hl. apply ids_ok_same. by split_and!.
  - apply (same_replay_ok fl); [by etrans; [|exact H2]|done|done].
Qed.

Lemma resolve_ok l m o cb fl :
  f_messages fl !! m = Some o -> inv_at l None fl ->
  inv_at l None (set_message m (mkMessageObject (mo_message o) cb true) fl).
Proof.
  intros Hm. apply inv_at_same.
  - split_and!; try done. intros x Hx. simpl. rewrite lookup_insert. by case_decide.
  - split_and!; try done. intros m' pid r (o' & Ho' & Hc & Hr). simpl in Ho'.
    rewrite lookup_insert in Ho'. case_decide; [by simplify_eq|by exists o'].
Qed.

(** What [_pubrec] does to the tables *)
Definition pubrec_tables pid r fl : Flow R :=
  upd_flights_in <[pid := mkInFlight pid r true]> (upd_pending_ack (fun s => s ∖ {[pid]}) fl).

Lemma pubrec_tables_ok l pid r fl :
  (live G fl -> forall m r', ~ open_callback fl m pid r') ->
  (live G fl -> pid ∈ pending_ack_qos2_in (session fl)) ->
  inv_at l None fl -> inv_at l None (pubrec_tables pid r fl).
Proof.
  intros Hno Hpe [Ho Hids]. split.
  - apply owned_flights; [|revert Ho; apply owned_same; by split_and!; try intros ?].
    intros pid' f. rewrite lookup_insert. case_decide; [by intros [= <-]|done].
  - intros Hl. destruct (Hids Hl) as [D1 D2 D3 D4]. specialize (Hno Hl). specialize (Hpe Hl).
    split; simpl.
    + intros pid' f. rewrite lookup_insert. case_decide as Hd; [set_solver|].
      intros Hf%D1. set_solver.
    + intros m pid' r' Hop. destruct (D2 _ _ _ Hop) as (H1 & H2 & H3). split; [|done].
      apply elem_of_difference. split; [done|]. rewrite elem_of_singleton. intros ->. by eapply Hno.
    + exact D3.
    + intros p pid' Hp Hq Hpid. destruct (D4 p pid' Hp Hq Hpid) as [E1 E2]. split; [|set_solver].
      rewrite lookup_insert_ne; [done|]. by intros <-.
Qed.

Lemma ack_held m fl : flow_held fl -> flow_held (ack m fl).2.
Proof.
  intros [Hi Hr]. unfold ack. run. destruct (f_messages fl !! m) as [o|] eqn:Hm; [|by split].
  destruct (_resolved o) eqn:Hres; [by split|].
  destruct (_ack_callback o) as [[pid acked|pid r]|] eqn:Hcb; run.
  - pose proof (resolve_ok _ _ _ (Some (PubackCallback pid true)) _ Hm Hi) as Hi1.
    destruct acked; [by apply (same_replay_ok fl)|]. rewrite connection_send.
    apply (same_replay_ok fl); [done|by apply inv_sent|done].
  - pose proof (resolve_ok _ _ _ (Some (PubrecCallback pid r)) _ Hm Hi) as Hi1.
    rewrite connection_send. apply (same_replay_ok fl); [done| |done]. apply inv_sent.
    apply pubrec_tables_ok; [| |done].
    + intros Hl m' r' Hop. destruct (proj2 Hi Hl) as [D1 D2 D3 D4].
      assert (Hop' : open_callback fl m' pid r').
      { destruct Hop as (o' & Ho' & Hc & Hr'). simpl in Ho'. rewrite lookup_insert in Ho'.
        case_decide; [by simplify_eq|by exists o']. }
      assert (m' = m) as -> by (eapply D3; [done|by exists o]).
      destruct Hop as (o' & Ho' & Hc & Hr'). simpl in Ho'. rewrite lookup_insert_eq in Ho'.
      by simplify_eq.
    + intros Hl. destruct (proj2 Hi Hl) as [D1 D2 D3 D4]. eapply (D2 m pid r). by exists o.
  - apply (same_replay_ok fl); [done| |done]. by apply resolve_ok.
Qed.

Lemma queue_get_held q fl : flow_held fl -> flow_held (queue_get q fl).2.
Proof.
  intros [Hi Hr]. unfold queue_get. run. destruct (q_items _) as [|m l]; [by split|]. run.
  apply (same_replay_ok fl); [done| |done]. revert Hi. apply inv_at_same; split_and!; try done.
  - intros q'. unfold queue_of. simpl. rewrite lookup_insert. by case_decide; subst.
  - by intros x.
Qed.

End held.

(** Without a drain in between *)
Lemma flow_ok_held fl fl' : (flow_with [] [] fl -> flow_with [] [] fl') -> flow_ok fl -> flow_ok fl'.
Proof. by rewrite !flow_with_nil. Qed.

(** *** Replaying *)

Lemma deliver_replay_ok l p r fl :
  received p ->
  (forall pid, pb_qos p = EXACTLY_ONCE -> pb_packet_id p = Some pid -> live G fl -> free l pid fl) ->
  inv_at l (Some (message r)) fl -> delivers l (deliver_replay p r) fl.
Proof.
  intros Hp Hf Hi. unfold deliver_replay. destruct (pb_qos p) eqn:Hq.
  - edestruct (inv_deliver l r None AfterNothing fl) as [H1 H2].
    { unfold with_callback. by destruct (request r). }
    split; [done|]. split; [done|]. by apply deliver_runs.
  - by apply deliver_qos1.
  - apply accept_qos2; eauto.
Qed.

(** The exchange of a buffered QoS 2 message is not open yet. *)
Lemma buffered_free l1 p l2 b fl pid :
  buffer_ok (f_buffer_size fl) (set_publishes (l1 ++ p :: l2) b) ->
  inv_at (l1 ++ p :: l2) None fl -> pb_qos p = EXACTLY_ONCE -> pb_packet_id p = Some pid ->
  live G fl -> free (l1 ++ l2) pid fl.
Proof.
  intros Hbo Hi Hq Hpid Hl. destruct (proj2 Hi Hl) as [D1 D2 D3 D4].
  destruct (D4 p pid) as [E1 E2]; [set_solver|done|done|].
  split; [done|]. split; [done|]. intros p' Hp' _ Hpid'.
  pose proof (bo_nodup _ _ Hbo) as Hnd. simpl in Hnd. unfold ids_of in Hnd.
  rewrite <- Permutation_middle in Hnd. simpl in Hnd. rewrite Hpid in Hnd.
  apply NoDup_cons in Hnd as [Hn _]. apply Hn. by eapply elem_of_ids.
Qed.

(** Forgetting the buffer *)
Lemma drop_buffer_ok s fl :
  match s with PersistentReplayBuffered _ => False | _ => True end ->
  flow_ok fl -> flow_ok (set_replay s fl).
Proof.
  intros Hs [Hi Hr]. split; [|by destruct s]. unfold publishes_of. simpl.
  apply (inv_at_sub (publishes_of fl)); [destruct s; try done; by intros ? ?%elem_of_nil|].
  revert Hi. apply inv_at_same; by split_and!; try intros ?.
Qed.

End guarded.
End flow.

(** No drain was cancelled in a write. *)
Notation inv_at := (inv_at_if True).
Notation flow_ok := (flow_ok_if True).
Notation flow_with := (flow_with_if True).

Section system.
Context {R : Type} `{RequestRouter R}.

Notation F := (ST (Flow R)).
Implicit Types (fl : Flow R) (p : Publish) (r : InboundRecipient).

Lemma deliver_each_ok pending unmatched b fl :
  f_replay fl = PersistentReplayBuffered b ->
  buffer_ok (f_buffer_size fl) (set_publishes (unmatched ++ pending) b) ->
  inv_at (unmatched ++ pending) None fl ->
  flow_ok (deliver_each pending unmatched fl).2 /\
  flights_kept fl (deliver_each pending unmatched fl).2 /\
  raises_only_down (deliver_each pending unmatched) fl.
Proof.
  revert unmatched b fl; induction pending as [|p pending IH]; intros unmatched b fl Hb Hbo Hi; simpl.
  { unfold raises_only_down. run. unfold upd_buffer. rewrite Hb. rewrite app_nil_r in *.
    split; [|by split; [apply flights_kept_same|left]].
    split; [|done]. revert Hi. apply inv_at_same; by split_and!; try intros ?. }
  unfold raises_only_down. simpl. run. rewrite select_recipient_eq. run.
  pose proof (inv_select _ p _ Hi) as Hi1. destruct (replay_holds _ _).
  { destruct (IH (unmatched ++ [p]) b (after_select p fl)) as [HA HB];
      [done|by rewrite <- app_assoc| |split; [exact HA|exact HB]].
    rewrite <- app_assoc. revert Hi1. apply inv_at_ids; [apply owned_drop|by split_and!]. }
  assert (Hrec : received p) by (apply (bo_received _ _ Hbo); simpl; set_solver).
  assert (Hi2 : inv_at (unmatched ++ pending) (Some (message (selected p fl))) (after_select p fl)).
  { eapply inv_at_sub; [|exact Hi1]. intros p'. rewrite !elem_of_app, elem_of_cons. tauto. }
  assert (Hfree : forall pid, pb_qos p = EXACTLY_ONCE -> pb_packet_id p = Some pid ->
    live True (after_select p fl) -> free (unmatched ++ pending) pid (after_select p fl)).
  { intros pid Hq Hpid Hl. by apply (buffered_free (G := True) _ p _ b fl). }
  pose proof (deliver_replay_ok _ p _ _ Hrec Hfree Hi2) as HD.
  assert (HF : flights_kept fl (deliver_replay p (selected p fl) (after_select p fl)).2).
  { apply (deliver_replay_flights p (selected p fl) (after_select p fl)).
    intros pid Hq Hpid Hl. by apply (Hfree pid Hq Hpid). }
  rewrite run_bind. unfold finally_on_error. destruct HD as (H1 & [H2 H2'] & H3).
  unfold raises_only_down in H3.
  destruct (deliver_replay p (selected p fl) (after_select p fl)) as [[[]|x] fl2]; simpl in *.
  - run. replace (upd_buffer (_discard p) fl2) with
      (set_replay (PersistentReplayBuffered (_discard p b)) fl2)
      by (unfold upd_buffer; by rewrite H2, Hb).
    destruct (IH unmatched (_discard p b) (set_replay (PersistentReplayBuffered (_discard p b)) fl2))
      as [HA HB]; [done| | |].
    + simpl. rewrite H2'. exact (buffer_ok_discard _ (set_publishes (unmatched ++ p :: pending) b)
        unmatched p pending eq_refl Hbo).
    + revert H1. apply inv_at_same; by split_and!; try intros ?.
    + destruct HB as [HB HR]. split; [done|]. split; [|exact HR].
      eapply flights_kept_trans; [|exact HF|exact HB].
      apply (prims_history (set_replay (PersistentReplayBuffered (_discard p b)) fl2)),
        traces_deliver_each.
  - destruct H3 as [|Hdown]; [done|]. unfold upd_buffer. rewrite H2, Hb.
    assert (Ho : owned None (set_replay (PersistentReplayBuffered
      (set_publishes (unmatched ++ p :: pending) b)) fl2)).
    { eapply owned_same; [|apply H1]. by split_and!; try intros ?. }
    split; [|split; [done|by right]]. split; [split; [exact Ho|by intros [_ ?]]|]. unfold replay_ok. simpl.
    by rewrite H2'.
Qed.

Lemma deliver_pending_ok b fl :
  f_replay fl = PersistentReplayBuffered b -> flow_ok fl ->
  flow_ok (_deliver_pending b fl).2 /\ flights_kept fl (_deliver_pending b fl).2 /\
  raises_only_down (_deliver_pending b) fl.
Proof.
  intros Hb [Hi Hr]. unfold raises_only_down, _deliver_pending. run. unfold upd_buffer. rewrite Hb.
  unfold publishes_of, replay_ok in *. rewrite Hb in *.
  apply (deliver_each_ok _ _ (set_publishes [] b)
    (set_replay (PersistentReplayBuffered (set_publishes [] b)) fl)); [done|by destruct b|].
  revert Hi. apply inv_at_same; by split_and!; try intros ?.
Qed.

Lemma drain_ok fl : flow_ok fl -> flow_ok (drain fl).2 /\ flights_kept fl (drain fl).2.
Proof.
  intros Hok. rewrite drain_eq. destruct (f_replay fl) as [| |b] eqn:Hb;
    [by split; [|apply flights_kept_same]..|].
  pose proof (deliver_pending_ok b fl Hb Hok) as (Hok1 & Hk & _).
  destruct (_deliver_pending b fl) as [[[]|x] fl1]; [|done]. cbn in Hok1, Hk |- *.
  destruct (f_replay fl1) as [| |b1]; [done..|].
  destruct (_ =? _); [split; [by apply drop_buffer_ok|exact Hk]|done].
Qed.

Lemma expire_replay_ok ref fl :
  flow_ok fl -> flow_ok (expire_replay ref fl).2 /\ flights_kept fl (expire_replay ref fl).2.
Proof.
  intros Hok. rewrite expire_replay_eq. destruct (f_replay fl) as [| |b] eqn:Hb;
    [by split; [|apply flights_kept_same]..|].
  case_decide; [|by split; [|apply flights_kept_same]].
  pose proof (deliver_pending_ok b fl Hb Hok) as (Hok1 & Hk & _).
  destruct (_deliver_pending b fl) as [[[]|x] fl1]; [|done]. cbn in Hok1, Hk |- *.
  destruct (f_replay fl1) as [| |b1]; [done..|].
  split; [apply drop_buffer_ok; [by destruct (_ =? _)|done]|exact Hk].
Qed.

Lemma expire_ok ref fl :
  flow_ok fl ->
  flow_ok (_expire_after_timeout ref fl).2 /\ flights_kept fl (_expire_after_timeout ref fl).2.
Proof.
  intros Hok. unfold _expire_after_timeout. cbv zeta. cbn [snd].
  pose proof (expire_replay_ok ref fl Hok) as Hex.
  match goal with |- flow_ok (upd_buffer _ ?x) /\ _ => set (fl1 := x) end.
  assert (Hok1 : flow_ok fl1 /\ flights_kept fl fl1).
  { unfold fl1. destruct (expire_replay ref fl) as [[[]|x] fl2]; [done|].
    destruct Hex as [[Hi Hr] Hk]. split; [split; [by apply (inv_down _ _ fl2)|exact Hr]|done]. }
  clearbody fl1. destruct Hok1 as [[Hi Hr] Hk]. unfold upd_buffer.
  destruct (f_replay fl1) as [| |b] eqn:Hb; [exact (conj (conj Hi Hr) Hk)..|].
  split; [|exact Hk].
  unfold flow_ok_if, publishes_of, replay_ok in *. simpl. rewrite Hb in *. case_decide; simpl.
  - split; [|by destruct Hr]. revert Hi. apply inv_at_same; by split_and!; try intros ?.
  - split; [|done]. revert Hi. apply inv_at_same; by split_and!; try intros ?.
Qed.

(** ** The flow as a transition system *)

Definition new_flow (v : MQTTVersion) (max_qos : QoS) (router : option R) (buffer_size : Z)
    (queues : gmap nat Queue) : Flow R :=
  mkFlow (new_engine v max_qos) router buffer_size NoSessionReplay 0 ∅ queues None.

(** The exit of [run]: the read loop is cancelled and the replay state cleared. *)
Definition exit_flow fl : Flow R :=
  set_blocked None (set_replay (replay_clear (f_replay fl)) (set_engine (run_exit (f_engine fl)) fl)).

Lemma exit_flow_ok {G} fl : flow_ok_if G fl -> flow_ok_if G (exit_flow fl).
Proof.
  intros [Hi Hr]%(drop_buffer_ok NoSessionReplay); [|done]. split; [|done].
  revert Hi. apply inv_at_ids; [|by split_and!].
  apply owned_sub; [|by intros x]. intros [] m; try done. by intros (b & ? & _).
Qed.

(** One atomic stretch.  The read loop handles a packet only when it is not
    suspended; the application acknowledges and takes messages, subscribes and waits
    for responses; the other operations of the engine run beside.  A connection
    that broke stays broken. *)
Inductive flow_step fl : Flow R -> Prop :=
| fs_publish p : f_blocked fl = None -> received p -> flow_step fl (handle_publish p fl).2
| fs_pubrel a : f_blocked fl = None -> 0 <= pa_packet_id a <= 65535 ->
    flow_step fl (handle_pubrel a fl).2
| fs_resume : flow_step fl (resume fl).2
| fs_ack m : flow_step fl (ack m fl).2
| fs_get q : flow_step fl (queue_get q fl).2
| fs_drain : flow_step fl (drain fl).2
| fs_expire ref : flow_step fl (_expire_after_timeout ref fl).2
| fs_begin present : flow_step fl (begin_session present fl).2
| fs_router router : flow_step fl (set_router router fl)
| fs_engine e :
    step (f_engine fl) e -> inflight_qos2_in (e_session e) = inflight_qos2_in (session fl) ->
    pending_ack_qos2_in (e_session e) = pending_ack_qos2_in (session fl) ->
    (e_link e = true -> link_up fl) -> flow_step fl (set_engine e fl)
| fs_exit : flow_step fl (exit_flow fl).

Definition flow_reachable (v : MQTTVersion) (max_qos : QoS) (router : option R) (buffer_size : Z)
    (queues : gmap nat Queue) : Flow R -> Prop :=
  rtc flow_step (new_flow v max_qos router buffer_size queues).

(** Queues that hold nothing yet *)
Definition empty_queues (queues : gmap nat Queue) : Prop :=
  forall q qu, queues !! q = Some qu -> q_put qu = [].

Lemma flow_ok_new v mq router size queues :
  empty_queues queues -> flow_ok (new_flow v mq router size queues).
Proof.
  intros Hq. assert (Hown : forall o m, ~ owns (new_flow v mq router size queues) None o m).
  { intros [q i|pid| |] m; simpl; [|by intros (? & ? & _)|by intros (? & ? & _)|done].
    unfold queue_of. simpl. destruct (queues !! q) as [qu|] eqn:Hqu; simpl; [|done].
    by rewrite (Hq _ _ Hqu). }
  split; [|done]. split; [split|]; try (intros o m Ho; by apply Hown in Ho).
  - intros o o' m Ho. by apply Hown in Ho.
  - intros _. split; [done|by intros m pid r (o & ? & _)|by intros m m' pid r r' (o & ? & _)|].
    by intros p pid ?%elem_of_nil.
Qed.

Lemma flow_step_ok fl fl' : flow_step fl fl' -> flow_ok fl -> flow_ok fl'.
Proof.
  destruct 1; intros Hok.
  - revert Hok. apply flow_ok_held. intros ?. by apply handle_publish_held.
  - revert Hok. by apply flow_ok_held, handle_pubrel_held.
  - revert Hok. by apply flow_ok_held, resume_held.
  - revert Hok. by apply flow_ok_held, ack_held.
  - revert Hok. by apply flow_ok_held, queue_get_held.
  - by apply drain_ok.
  - by apply expire_ok.
  - apply drop_buffer_ok; [by destruct present|done].
  - destruct Hok as [Hi Hr]. split; [|exact Hr]. revert Hi.
    apply inv_at_same; by split_and!; try intros ?.
  - destruct Hok as [Hi Hr]. split; [|exact Hr]. revert Hi.
    apply inv_at_same; split_and!; try done; by intros x.
  - by apply exit_flow_ok.
Qed.

Lemma flow_reachable_ok v mq router size queues fl :
  empty_queues queues -> flow_reachable v mq router size queues fl -> flow_ok fl.
Proof.
  intros Hq. unfold flow_reachable. pose proof (flow_ok_new v mq router size queues Hq) as H0.
  induction 1 as [|f1 f2 f3 Hs _ IH]; [done|]. by eapply IH, flow_step_ok.
Qed.

(** A step of the flow is a sequence of primitive changes, or a step of the engine
    beside it. *)
Lemma flow_step_prim fl fl' :
  flow_step fl fl' ->
  rtc prim fl fl' \/ (exists q, fl' = (queue_get q fl).2) \/ exists e, step (f_engine fl) e /\
    rtc prim (set_engine e fl) fl' /\ inflight_qos2_in (e_session e) = inflight_qos2_in (session fl) /\
    pending_ack_qos2_in (e_session e) = pending_ack_qos2_in (session fl).
Proof.
  destruct 1.
  - left. apply traces_handle_publish.
  - left. apply traces_handle_pubrel.
  - left. apply traces_resume.
  - left. apply traces_ack.
  - right. left. by exists q.
  - left. apply traces_drain.
  - left. apply traces_expire.
  - left. apply rtc_once, pr_replay.
  - left. apply rtc_once, pr_router.
  - right. right. by exists e.
  - right. right. exists (run_exit (f_engine fl)). split; [apply step_exit|]. split; [|done].
    eapply rtc_l; [apply pr_replay|]. apply rtc_once, pr_blocked.
Qed.

(** Each step of the flow is a few steps of the engine. *)
Lemma flow_step_engine fl fl' : flow_step fl fl' -> rtc step (f_engine fl) (f_engine fl').
Proof.
  assert (HT : forall e e', touches e e' -> rtc step e e').
  { intros e e' (a & b & c & d & l & ->). apply rtc_once, step_inbound. }
  intros [Hp|[[q ->]|(e & Hs & Hp & _)]]%flow_step_prim.
  - by apply HT, prims_touches.
  - by destruct (queue_get_eq q fl) as [->| ->].
  - eapply rtc_l; [exact Hs|]. by apply HT, (prims_touches (set_engine e fl)).
Qed.

Lemma flow_reachable_engine v mq router size queues fl :
  flow_reachable v mq router size queues fl -> reachable v mq (f_engine fl).
Proof.
  unfold flow_reachable, reachable. change (new_engine v mq)
    with (f_engine (new_flow v mq router size queues)).
  induction 1 as [|f1 f2 f3 Hs _ IH]; [done|]. by etrans; [apply flow_step_engine|].
Qed.

Lemma steps_history fl fl' : rtc flow_step fl fl' -> history fl fl'.
Proof.
  assert (Hin : forall e (f : Flow R), (e_link e = true -> link_up f) -> history f (set_engine e f))
    by (intros e f Hl; split; eauto).
  induction 1 as [|f1 f2 f3 Hs _ IH]; [done|]. etrans; [|exact IH]. clear IH.
  destruct Hs; try (apply prims_history; done).
  - apply prims_history, traces_handle_publish.
  - apply prims_history, traces_handle_pubrel.
  - apply prims_history, traces_resume.
  - apply prims_history, traces_ack.
  - apply queue_get_history.
  - apply prims_history, traces_drain.
  - apply prims_history, traces_expire.
  - apply prims_history, rtc_once, pr_replay.
  - apply prims_history, rtc_once, pr_router.
  - by apply Hin.
  - etrans; [by apply (Hin (run_exit (f_engine f1)) f1)|]. apply prims_history.
    eapply rtc_l; [apply (pr_replay _ NoSessionReplay)|]. apply rtc_once, pr_blocked.
Qed.


(** The protocol version of the connection never changes. *)
Lemma steps_version fl fl' :
  rtc flow_step fl fl' -> e_version (f_engine fl') = e_version (f_engine fl).
Proof.
  induction 1 as [|f1 f2 f3 Hs _ IH]; [done|]. rewrite IH. clear IH.
  apply flow_step_engine in Hs. induction Hs as [|e1 e2 e3 Hs _ IH]; [done|].
  rewrite IH. by apply step_version.
Qed.

End system.
