(* ===== verification/Delivery.v ===== *)
(** * Delivery of incoming messages

    The properties of the inbound flow: the life of a receive exchange, the QoS 1 and
    QoS 2 handshakes with automatic and manual acknowledgement, single delivery, and
    the persistent-session replay. *)

From stdpp Require Import fin_sets.
From S2P Require Import Prelude PyBytes Utf8 PropertyRecords Packets Codec CodecFacts CodecSound SubscriptionIndex State Routing Protocol ProtocolFacts Inbound InboundFacts InboundInv.
Local Open Scope Z_scope.

#[local] Arguments encode : simpl never.
#[local] Arguments canon : simpl never.
#[local] Arguments send_packet : simpl never.
#[local] Arguments select : simpl never.
#[local] Arguments select_by_identifier : simpl never.

Section flow.
Context {R : Type} `{RequestRouter R}.

Implicit Types (fl : Flow R) (p : Publish) (r : InboundRecipient).

Definition wire fl : list bytes := e_wire (f_engine fl).

(** [d] is an acknowledgement on the wire. *)
Definition encodes fl (pk : packet) (d : bytes) : Prop :=
  decode d (e_version (f_engine fl)) = Ok (Some (pk, zlen d)).

Definition ack_packet (pk : packet) (pid : Z) : Prop :=
  0 <= pid <= 65535 /\
  (pk = PPubAck (mkPubAck pid 0 None) \/ pk = PPubRec (mkPubAck pid 0 None) \/
   pk = PPubComp (mkPubAck pid 0 None)).

(** The bytes of an acknowledgement *)
Lemma ack_bytes pk pid fl :
  ack_packet pk pid ->
  exists d, encode pk (e_version (f_engine fl)) = Ok d /\ encodes fl pk d.
Proof.
  intros [Hp Hk]. destruct (encode_ack pk pid (e_version (f_engine fl)) Hp Hk) as (d & Hd).
  exists d. split; [done|]. unfold encodes. rewrite <- (app_nil_r d) at 1.
  rewrite (decode_encode _ _ _ [] Hd). destruct Hk as [->|[->| ->]]; by destruct (e_version _).
Qed.

Definition written (d : bytes) fl : Flow R := set_engine (write d (f_engine fl)) fl.

Lemma connection_ack pk pid fl d :
  ack_packet pk pid -> encode pk (e_version (f_engine fl)) = Ok d ->
  connection (send_packet pk) fl =
    if e_link (f_engine fl) then (Ok tt, written d fl) else (Err OSError, fl).
Proof.
  intros [Hp Hk] Hd. rewrite connection_eq, send_packet_eq, Hd. destruct (e_link _) eqn:Hl; [done|].
  simpl. by destruct fl.
Qed.

Lemma deliver_nothing r cb fl : f_engine (_deliver r cb AfterNothing fl).2 = f_engine fl.
Proof.
  rewrite deliver_eq. destruct (request r); [done|]. destruct (subscription r); [|done].
  rewrite put_eq. assert (He : f_engine (with_callback r cb fl) = f_engine fl).
  { unfold with_callback. destruct (request r), cb, (subscription r) as [it|]; try done.
    destruct (auto_ack it.2); [done|apply set_ack_callback_engine]. }
  by destruct (full _).
Qed.

(** ** The life of an exchange *)

Lemma ack_flights m fl : flow_ok fl -> flights_kept fl (ack m fl).2.
Proof.
  intros [Hi _]. unfold ack. run. destruct (f_messages fl !! m) as [o|] eqn:Hm;
    [|by apply flights_kept_same].
  destruct (_resolved o) eqn:Hr; [by apply flights_kept_same|].
  destruct (_ack_callback o) as [[pid acked|pid r]|] eqn:Hcb; run; [|..|by apply flights_kept_same].
  - destruct acked; [by apply flights_kept_same|]. rewrite connection_send. apply flights_kept_same.
    unfold session. simpl. by rewrite sent_session.
  - rewrite connection_send. intros Hl pid' f Hf. unfold session, link_up in *. simpl in *.
    rewrite sent_session, sent_link in *. simpl in *.
    destruct (proj2 Hi (conj I Hl)) as [D1 D2 D3 D4]. rewrite lookup_insert_ne; [done|]. intros <-.
    destruct (D2 m pid r) as (Hpe & _); [by exists o|]. by apply (D1 _ _ Hf).
Qed.

Lemma resume_session fl : session (resume fl).2 = session fl.
Proof.
  unfold resume. run. destruct (f_blocked fl) as [b|]; [|done]. run.
  destruct (full _); [done|]. run. rewrite put_eq. destruct (full _); [done|].
  by rewrite run_after_session.
Qed.

Lemma pubrel_eq a fl f d :
  inflight_qos2_in (session fl) !! pa_packet_id a = Some f ->
  0 <= pa_packet_id a <= 65535 ->
  encode (PPubComp (mkPubAck (pa_packet_id a) 0 None)) (e_version (f_engine fl)) = Ok d ->
  let fl1 := upd_flights_in (delete (pa_packet_id a)) fl in
  handle_pubrel a fl =
    if e_link (f_engine fl) then
      if in_delivered f then (Ok tt, written d fl1)
      else _deliver (in_recipient f) None AfterNothing (written d fl1)
    else (Err OSError, fl1).
Proof.
  intros Hf Hp Hd fl1. unfold handle_pubrel. run. rewrite Hf. run.
  rewrite (connection_ack (PPubComp (mkPubAck (pa_packet_id a) 0 None)) (pa_packet_id a) _ d);
    [|split; [done|by right; right]|exact Hd].
  change (e_link (f_engine (upd_flights_in _ fl))) with (e_link (f_engine fl)).
  destruct (e_link (f_engine fl)); [|done]. by destruct (in_delivered f).
Qed.

Lemma step_flights fl fl' x f :
  flow_ok fl -> flow_step fl fl' -> link_up fl' ->
  inflight_qos2_in (session fl) !! x = Some f ->
  inflight_qos2_in (session fl') !! x = Some f \/
  inflight_qos2_in (session fl') !! x = None /\
    exists d, wire fl' = wire fl ++ [d] /\ encodes fl (PPubComp (mkPubAck x 0 None)) d.
Proof.
  intros Hok Hs Hl Hf. destruct Hs; try (by left).
  - left. by apply handle_publish_flights.
  - destruct (inflight_qos2_in (session fl) !! pa_packet_id a) as [g|] eqn:Hg.
    2: { left. unfold handle_pubrel in *. revert Hl. run. by rewrite Hg. }
    destruct (ack_bytes (PPubComp (mkPubAck (pa_packet_id a) 0 None)) (pa_packet_id a) fl)
      as (d & Hd & Hdec); [by split; [|right; right]|].
    assert (Hses : session (handle_pubrel a fl).2 = session (upd_flights_in (delete (pa_packet_id a)) fl)).
    { rewrite (pubrel_eq a fl g d) by done. destruct (e_link _); [|done].
      destruct (in_delivered g); [done|]. by rewrite deliver_session. }
    rewrite Hses. simpl. destruct (decide (pa_packet_id a = x)) as [<-|Hne];
      [|left; by rewrite lookup_delete_ne].
    right. split; [apply lookup_delete_eq|]. exists d. split; [|done].
    rewrite (pubrel_eq a fl g d) in * by done.
    destruct (e_link (f_engine fl)) eqn:Hlk; [|unfold link_up in Hl; simpl in Hl; congruence].
    unfold wire. destruct (in_delivered g); [done|]. by rewrite deliver_nothing.
  - left. by rewrite resume_session.
  - left. by apply ack_flights.
  - left. unfold queue_get. run. by destruct (q_items _).
  - left. by apply drain_ok.
  - left. by apply expire_ok.
  - left. unfold session. simpl. by rewrite H1.
Qed.

(** ** Handshakes *)

(** The PUBLISH [p] goes to the subscription [it]: no pending request claims it, and
    no older message on its topic waits in the replay buffer. *)
Definition goes_to p fl (it : item) : Prop :=
  (offered p fl).1 = None /\
  recipient (_select_subscription (subscriptions (session fl)) p) = Some it /\
  match f_replay fl with
  | PersistentReplayBuffered b => rb_topics b !! pb_topic p = None
  | _ => True
  end.

Definition to_item fl (it : item) : InboundRecipient := mkRecipient (new_ref fl) None (Some it).

Lemma goes_to_select p fl it :
  goes_to p fl it ->
  _select_recipient_or_buffer p fl = (Ok (Some (to_item fl it)), after_select p fl).
Proof.
  intros (Ho & Hs & Hre). rewrite select_or_buffer_eq. cbv zeta.
  assert (Hsel : selected p fl = to_item fl it) by (unfold selected; by rewrite Ho, Hs).
  rewrite Hsel. destruct (f_replay fl) as [| |b]; [done|done|].
  cbn [request subscription to_item]. rewrite bool_decide_false by (by intros []).
  by rewrite !bool_decide_true by done.
Qed.

(** The packet identifier of a QoS 2 PUBLISH that is not a repetition *)
Definition unused (pid : Z) fl : Prop :=
  inflight_qos2_in (session fl) !! pid = None /\ (pid ∉ pending_ack_qos2_in (session fl)) /\
  replay_contains_packet_id (f_replay fl) pid = false.

Lemma handle_publish_qos2 p pid it fl :
  pb_qos p = EXACTLY_ONCE -> pb_packet_id p = Some pid -> unused pid fl -> goes_to p fl it ->
  handle_publish p fl = _accept_qos2_publish p (to_item fl it) (after_select p fl).
Proof.
  intros Hq Hpid (U1 & U2 & U3) Hg. unfold handle_publish, _handle_qos2_publish. rewrite Hq, Hpid. run.
  rewrite bool_decide_false by (rewrite U1; by intros [? ?]). rewrite bool_decide_false by done.
  rewrite U3, run_bind, (goes_to_select p fl it) by done. done.
Qed.

(** With automatic acknowledgement, the flight is opened and PUBREC is written. *)
Lemma handle_publish_pubrec p pid it fl rec :
  pb_qos p = EXACTLY_ONCE -> pb_packet_id p = Some pid -> unused pid fl -> goes_to p fl it ->
  auto_ack it.2 = true -> 0 <= pid <= 65535 -> link_up fl ->
  encode (PPubRec (mkPubAck pid 0 None)) (e_version (f_engine fl)) = Ok rec ->
  handle_publish p fl =
    (Ok tt, written rec (upd_flights_in <[pid := mkInFlight pid (to_item fl it) false]> (after_select p fl))).
Proof.
  intros Hq Hpid Hu Hg Hauto Hp Hl Hrec. rewrite (handle_publish_qos2 p pid it fl) by done.
  unfold _accept_qos2_publish. rewrite Hpid. unfold recipient_auto_ack.
  cbn [to_item request subscription]. rewrite Hauto. run.
  rewrite (connection_ack _ pid _ rec); [|by split; [|right; left]|exact Hrec].
  unfold link_up in Hl. simpl. by rewrite Hl.
Qed.

Lemma handle_publish_repeated p pid f fl :
  pb_qos p = EXACTLY_ONCE -> pb_packet_id p = Some pid ->
  inflight_qos2_in (session fl) !! pid = Some f ->
  handle_publish p fl = connection (send_packet (PPubRec (mkPubAck pid 0 None))) fl.
Proof.
  intros Hq Hpid Hf. unfold handle_publish, _handle_qos2_publish. rewrite Hq, Hpid. run.
  by rewrite bool_decide_true by (rewrite Hf; by eexists).
Qed.

(** An undelivered flight's message is in no queue. *)
Lemma undelivered_nowhere fl pid f q :
  flow_ok fl -> inflight_qos2_in (session fl) !! pid = Some f -> in_delivered f = false ->
  message (in_recipient f) ∉ q_put (queue_of fl q).
Proof.
  intros [[[Honce _] _] _] Hf Hd [i Hi]%list_elem_of_lookup_1.
  assert (InQueue q i = InFlight pid); [|done].
  apply (Honce _ _ (message (in_recipient f))); simpl; [done|eauto].
Qed.

(** The end of an exchange: PUBCOMP and the delivery *)
Lemma pubrel_delivers fl a f it :
  flow_ok fl -> link_up fl -> inflight_qos2_in (session fl) !! pa_packet_id a = Some f ->
  0 <= pa_packet_id a <= 65535 -> in_delivered f = false ->
  request (in_recipient f) = None -> subscription (in_recipient f) = Some it ->
  full (queue_of fl (queue it.2)) = false ->
  exists fl' c, handle_pubrel a fl = (Ok tt, fl') /\ wire fl' = wire fl ++ [c] /\
    encodes fl (PPubComp (mkPubAck (pa_packet_id a) 0 None)) c /\
    inflight_qos2_in (session fl') = delete (pa_packet_id a) (inflight_qos2_in (session fl)) /\
    f_messages fl' = f_messages fl /\
    (forall q, q_put (queue_of fl' q) = q_put (queue_of fl q) ++
       if decide (q = queue it.2) then [message (in_recipient f)] else []) /\
    forall q, message (in_recipient f) ∉ q_put (queue_of fl q).
Proof.
  intros Hok Hl Hf Hp Hd Hreq Hsub Hfull.
  destruct (ack_bytes (PPubComp (mkPubAck (pa_packet_id a) 0 None)) (pa_packet_id a) fl)
    as (c & Hc & Hdec); [by split; [|right; right]|].
  rewrite (pubrel_eq a fl f c) by done. unfold link_up in Hl. rewrite Hl, Hd, deliver_eq, Hreq, Hsub.
  unfold with_callback. rewrite Hreq, put_eq. cbn [f_queues written set_engine upd_flights_in].
  change (queue_of (written c _) (queue it.2)) with (queue_of fl (queue it.2)). rewrite Hfull, run_after_eq.
  eexists _, c. do 5 (split; [done|]). split.
  - intros q. rewrite queue_of_put. destruct (decide (queue it.2 = q)) as [<-|Hne].
    + by rewrite decide_True.
    + rewrite decide_False by congruence. by rewrite app_nil_r.
  - intros q. by apply (undelivered_nowhere fl (pa_packet_id a) f).
Qed.

(** ** Properties *)

(** The engine under a reachable inbound flow is reachable: routing, deliveries,
    acknowledgements and replays never disturb the outbound exchanges, so everything
    proved about the engine holds with them running beside it. *)
Theorem flow_refines_engine v mq router size queues fl :
  flow_reachable v mq router size queues fl -> reachable v mq (f_engine fl).
Proof. apply flow_reachable_engine. Qed.

(** C13: no message object is ever put twice, in one queue or in two; and while the
    connection is up, a packet identifier that waits for PUBREL is not also waiting
    for the application's acknowledgement. *)
Theorem message_put_once v mq router size queues fl :
  empty_queues queues -> flow_reachable v mq router size queues fl ->
  (forall q i q' i' m, q_put (queue_of fl q) !! i = Some m ->
     q_put (queue_of fl q') !! i' = Some m -> q = q' /\ i = i') /\
  (link_up fl -> forall pid, is_Some (inflight_qos2_in (session fl) !! pid) ->
     pid ∉ pending_ack_qos2_in (session fl)).
Proof.
  intros Hq Hr. destruct (flow_reachable_ok _ _ _ _ _ _ Hq Hr) as [[[Honce _] Hids] _]. split.
  - intros q i q' i' m H1 H2. assert (HE : InQueue q i = InQueue q' i') by (by eapply Honce).
    by injection HE.
  - intros Hl pid [f Hf]. by eapply (id_disj _ _ (Hids (conj I Hl))).
Qed.

(** C14: an open receive exchange only ends by its PUBREL: as long as the connection
    is up, any step leaves a QoS 2 flight exactly as it is, or writes PUBCOMP for it
    and removes it. *)
Theorem receive_flight_life v mq router size queues fl fl' x f :
  empty_queues queues -> flow_reachable v mq router size queues fl ->
  flow_step fl fl' -> link_up fl' -> inflight_qos2_in (session fl) !! x = Some f ->
  inflight_qos2_in (session fl') !! x = Some f \/
  inflight_qos2_in (session fl') !! x = None /\
    exists d, wire fl' = wire fl ++ [d] /\ encodes fl (PPubComp (mkPubAck x 0 None)) d.
Proof. intros Hq Hr%flow_reachable_ok; [|done]. by apply step_flights. Qed.

(** C15: a QoS 2 PUBLISH with automatic acknowledgement is answered with PUBREC and
    not delivered; while its flight is open, whatever else happens, every repetition
    of the PUBLISH writes the same PUBREC again and does nothing else, and PUBREL
    writes PUBCOMP and puts the message, for the first time, into the queue of the
    subscription selected when the PUBLISH came. *)
Theorem qos2_received_exactly_once v mq router size queues fl p pid it :
  empty_queues queues -> flow_reachable v mq router size queues fl -> link_up fl ->
  f_blocked fl = None -> received p -> pb_qos p = EXACTLY_ONCE -> pb_packet_id p = Some pid ->
  unused pid fl -> goes_to p fl it -> auto_ack it.2 = true ->
  exists fl1 rec m, handle_publish p fl = (Ok tt, fl1) /\
    wire fl1 = wire fl ++ [rec] /\ encodes fl (PPubRec (mkPubAck pid 0 None)) rec /\
    (forall q, queue_of fl1 q = queue_of fl q) /\
    let f := mkInFlight pid (mkRecipient m None (Some it)) false in
    inflight_qos2_in (session fl1) !! pid = Some f /\
    forall fl2, rtc flow_step fl1 fl2 -> link_up fl2 ->
      inflight_qos2_in (session fl2) !! pid = Some f ->
      (forall p', pb_qos p' = EXACTLY_ONCE -> pb_packet_id p' = Some pid ->
         handle_publish p' fl2 = (Ok tt, written rec fl2)) /\
      forall a, pa_packet_id a = pid -> full (queue_of fl2 (queue it.2)) = false ->
        exists fl3 comp, handle_pubrel a fl2 = (Ok tt, fl3) /\
          wire fl3 = wire fl2 ++ [comp] /\ encodes fl2 (PPubComp (mkPubAck pid 0 None)) comp /\
          inflight_qos2_in (session fl3) !! pid = None /\
          mo_message <$> f_messages fl3 !! m = Some (_make_message p) /\
          (forall q, q_put (queue_of fl3 q) = q_put (queue_of fl2 q) ++
             if decide (q = queue it.2) then [m] else []) /\
          forall q, m ∉ q_put (queue_of fl2 q).
Proof.
  intros Hqs Hr Hl Hb Hrcv Hq Hpid Hu Hg Hauto. pose proof Hrcv as Hrec.
  unfold received in Hrec. rewrite Hq in Hrec.
  destruct Hrec as (pid' & Hpid' & Hp). assert (pid' = pid) as -> by congruence.
  destruct (ack_bytes (PPubRec (mkPubAck pid 0 None)) pid fl) as (rec & Hrec & Hdec);
    [by split; [|right; left]|].
  set (f := mkInFlight pid (to_item fl it) false).
  assert (HP : handle_publish p fl = (Ok tt, written rec (upd_flights_in <[pid := f]> (after_select p fl)))).
  { by apply handle_publish_pubrec. }
  exists (handle_publish p fl).2, rec, (new_ref fl). rewrite HP. cbn [snd].
  do 4 (split; [done|]). cbv zeta. split; [apply lookup_insert_eq|].
  intros fl2 Hsteps Hl2 Hf2. pose proof (steps_version _ _ Hsteps) as Hver. split.
  - intros p' Hq' Hpid''. rewrite (handle_publish_repeated p' pid f fl2) by done.
    rewrite (connection_ack _ pid _ rec); [|by split; [|right; left]|by rewrite Hver].
    unfold link_up in Hl2. by rewrite Hl2.
  - intros a <- Hfull.
    assert (Hok2 : flow_ok fl2).
    { eapply flow_reachable_ok; [exact Hqs|]. unfold flow_reachable. etrans; [exact Hr|]. eapply rtc_l; [|exact Hsteps].
      replace (written _ _) with (handle_publish p fl).2 by (by rewrite HP).
      by apply fs_publish. }
    destruct (pubrel_delivers fl2 a f it) as (fl3 & c & H1 & H2 & H3 & H4 & H5 & H6 & H7); try done.
    exists fl3, c. do 3 (split; [done|]). split; [rewrite H4; apply lookup_delete_eq|].
    split; [|by split]. rewrite H5. apply steps_history in Hsteps.
    destruct (hi_message _ _ Hsteps (new_ref fl) (mkMessageObject (_make_message p) None false))
      as (o & -> & Ho & _); [simpl; by rewrite lookup_insert_eq|]. simpl. by rewrite Ho.
Qed.

(** ** Manual acknowledgement *)

Lemma handle_publish_waiting p pid m r fl :
  flow_ok fl -> link_up fl -> open_callback fl m pid r ->
  pb_qos p = EXACTLY_ONCE -> pb_packet_id p = Some pid -> handle_publish p fl = (Ok tt, fl).
Proof.
  intros [[_ Hids] _] Hl Hop Hq Hpid. destruct (Hids (conj I Hl)) as [D1 D2 D3 D4].
  destruct (D2 _ _ _ Hop) as (Hpe & _). unfold handle_publish, _handle_qos2_publish. rewrite Hq, Hpid.
  run. rewrite bool_decide_false by (intros [f Hf]; by apply (D1 _ _ Hf)).
  by rewrite bool_decide_true by done.
Qed.

Lemma ack_resolved m o fl :
  f_messages fl !! m = Some o -> _resolved o = true -> ack m fl = (Ok tt, fl).
Proof. intros Hm Hr. unfold ack. run. by rewrite Hm, Hr. Qed.

Lemma resolved_later m o fl fl' :
  rtc flow_step fl fl' -> f_messages fl !! m = Some o -> _resolved o = true ->
  ack m fl' = (Ok tt, fl').
Proof.
  intros Hs%steps_history Hm Hr. destruct (hi_message _ _ Hs m o Hm) as (o' & Hm' & _ & Hr').
  eapply ack_resolved; eauto.
Qed.

(** PUBREL of a message the application has acknowledged *)
Lemma pubrel_delivered fl a f :
  link_up fl -> inflight_qos2_in (session fl) !! pa_packet_id a = Some f ->
  0 <= pa_packet_id a <= 65535 -> in_delivered f = true ->
  exists c, encodes fl (PPubComp (mkPubAck (pa_packet_id a) 0 None)) c /\
    handle_pubrel a fl =
      (Ok tt, written c (upd_flights_in (delete (pa_packet_id a)) fl)).
Proof.
  intros Hl Hf Hp Hd.
  destruct (ack_bytes (PPubComp (mkPubAck (pa_packet_id a) 0 None)) (pa_packet_id a) fl)
    as (c & Hc & Hdec); [by split; [|right; right]|].
  exists c. split; [done|]. rewrite (pubrel_eq a fl f c) by done.
  unfold link_up in Hl. by rewrite Hl, Hd.
Qed.


Lemma ack_pubrec m pid r fl :
  flow_ok fl -> link_up fl -> open_callback fl m pid r ->
  exists o rec, encodes fl (PPubRec (mkPubAck pid 0 None)) rec /\
    ack m fl = (Ok tt, written rec (pubrec_tables pid r
      (set_message m (mkMessageObject (mo_message o) (Some (PubrecCallback pid r)) true) fl))).
Proof.
  intros [[_ Hids] _] Hl (o & Hm & Hcb & Hr). destruct (Hids (conj I Hl)) as [D1 D2 D3 D4].
  destruct (D2 m pid r) as (_ & _ & Hp); [by exists o|].
  destruct (ack_bytes (PPubRec (mkPubAck pid 0 None)) pid fl) as (rec & Hrec & Hdec);
    [by split; [|right; left]|].
  exists o, rec. split; [done|]. unfold ack. run. rewrite Hm, Hr, Hcb. run.
  rewrite (connection_ack _ pid _ rec); [|by split; [|right; left]|exact Hrec].
  change (e_link (f_engine _)) with (e_link (f_engine fl)). unfold link_up in Hl. by rewrite Hl.
Qed.

Lemma queue_of_callback m cb fl q : queue_of (set_ack_callback m cb fl) q = queue_of fl q.
Proof. unfold set_ack_callback. by destruct (f_messages fl !! m). Qed.

(** The delivery to a subscription with manual acknowledgement *)
Lemma deliver_manual fl r it cb o :
  request r = None -> subscription r = Some it -> auto_ack it.2 = false ->
  f_messages fl !! message r = Some o -> full (queue_of fl (queue it.2)) = false ->
  exists fl', _deliver r (Some cb) AfterNothing fl = (Ok tt, fl') /\
    f_engine fl' = f_engine fl /\
    f_messages fl' = <[message r := mkMessageObject (mo_message o) (Some cb) (_resolved o)]>
      (f_messages fl) /\
    forall q, q_put (queue_of fl' q) = q_put (queue_of fl q) ++
      if decide (q = queue it.2) then [message r] else [].
Proof.
  intros Hreq Hsub Hauto Hm Hfull. rewrite deliver_eq, Hreq, Hsub. unfold with_callback.
  rewrite Hreq, Hsub, Hauto, put_eq, queue_of_callback, Hfull, run_after_eq.
  eexists. split; [done|]. split; [unfold with_put; simpl; apply set_ack_callback_engine|]. split.
  - unfold with_put, set_ack_callback. simpl. by rewrite Hm.
  - intros q. rewrite queue_of_put, !queue_of_callback. destruct (decide (queue it.2 = q)) as [<-|Hne].
    + by rewrite decide_True.
    + rewrite decide_False by congruence. by rewrite app_nil_r.
Qed.

(** C16: manual acknowledgement of QoS 2.  The message is put into the queue at once,
    and nothing is written.  Until the application acknowledges it, repetitions of
    the PUBLISH are ignored; [ack] writes PUBREC and opens a flight that counts as
    delivered; from then on [ack] does nothing, and PUBREL writes PUBCOMP without a
    second delivery. *)
Theorem manual_ack_qos2 v mq router size queues fl :
  empty_queues queues -> flow_reachable v mq router size queues fl -> link_up fl ->
  (forall p pid it, received p -> pb_qos p = EXACTLY_ONCE ->
     pb_packet_id p = Some pid -> unused pid fl -> goes_to p fl it -> auto_ack it.2 = false ->
     full (queue_of fl (queue it.2)) = false ->
     exists fl1 m r, handle_publish p fl = (Ok tt, fl1) /\ wire fl1 = wire fl /\
       open_callback fl1 m pid r /\ mo_message <$> f_messages fl1 !! m = Some (_make_message p) /\
       forall q, q_put (queue_of fl1 q) = q_put (queue_of fl q) ++
         if decide (q = queue it.2) then [m] else []) /\
  (forall m pid r, open_callback fl m pid r ->
     (forall p, pb_qos p = EXACTLY_ONCE -> pb_packet_id p = Some pid ->
        handle_publish p fl = (Ok tt, fl)) /\
     exists rec fl1, encodes fl (PPubRec (mkPubAck pid 0 None)) rec /\
       ack m fl = (Ok tt, fl1) /\ wire fl1 = wire fl ++ [rec] /\
       (forall q, queue_of fl1 q = queue_of fl q) /\
       inflight_qos2_in (session fl1) !! pid = Some (mkInFlight pid r true) /\
       forall fl2, rtc flow_step fl1 fl2 ->
         ack m fl2 = (Ok tt, fl2) /\
         (link_up fl2 -> inflight_qos2_in (session fl2) !! pid = Some (mkInFlight pid r true) ->
          forall a, pa_packet_id a = pid -> exists comp fl3,
            handle_pubrel a fl2 = (Ok tt, fl3) /\ wire fl3 = wire fl2 ++ [comp] /\
            encodes fl2 (PPubComp (mkPubAck pid 0 None)) comp /\
            inflight_qos2_in (session fl3) !! pid = None /\
            forall q, queue_of fl3 q = queue_of fl2 q)).
Proof.
  intros Hqs Hr Hl. pose proof (flow_reachable_ok _ _ _ _ _ _ Hqs Hr) as Hok. split.
  - intros p pid it Hrcv Hq Hpid Hu Hg Hauto Hfull.
    rewrite (handle_publish_qos2 p pid it fl) by done. unfold _accept_qos2_publish. rewrite Hpid.
    unfold recipient_auto_ack. cbn [to_item request subscription]. rewrite Hauto. run.
    destruct (deliver_manual (upd_pending_ack (fun s => {[pid]} ∪ s) (after_select p fl))
      (to_item fl it) it (PubrecCallback pid (to_item fl it))
      (mkMessageObject (_make_message p) None false)) as (fl1 & -> & He & Hms & Hp);
      [done|done|done|by simpl; rewrite lookup_insert_eq|done|].
    exists fl1, (new_ref fl), (to_item fl it). split; [done|]. split; [by unfold wire; rewrite He|].
    split; [|split].
    + eexists. rewrite Hms. simpl. rewrite lookup_insert_eq. by split_and!.
    + rewrite Hms. simpl. by rewrite lookup_insert_eq.
    + exact Hp.
  - intros m pid r Hop. split; [intros p; by apply (handle_publish_waiting p pid m r)|].
    destruct (ack_pubrec m pid r fl Hok Hl Hop) as (o & rec & Hdec & Hack).
    exists rec. eexists. split; [done|]. split; [exact Hack|]. do 2 (split; [done|]).
    split; [apply lookup_insert_eq|]. intros fl2 Hs. split.
    + eapply (resolved_later m); [exact Hs|simpl; by rewrite lookup_insert_eq|done].
    + intros Hl2 Hf a <-.
      destruct (proj2 (proj1 Hok) (conj I Hl)) as [D1 D2 D3 D4]. destruct (D2 _ _ _ Hop) as (_ & _ & Hp).
      destruct (pubrel_delivered fl2 a _ Hl2 Hf Hp eq_refl) as (c & Hc & Hrel).
      exists c. eexists. split; [exact Hrel|]. do 2 (split; [done|]).
      split; [apply lookup_delete_eq|done].
Qed.

(** ** QoS 1 *)

Lemma handle_publish_qos1 p pid it fl :
  pb_qos p = AT_LEAST_ONCE -> pb_packet_id p = Some pid ->
  replay_contains_packet_id (f_replay fl) pid = false -> goes_to p fl it ->
  handle_publish p fl = _deliver_qos1_publish p (to_item fl it) (after_select p fl).
Proof.
  intros Hq Hpid Hc Hg. unfold handle_publish, _handle_qos1_publish. rewrite Hq, Hpid. run.
  by rewrite Hc, run_bind, (goes_to_select p fl it).
Qed.

(** A message is put, then PUBACK is written. *)
Lemma put_puback q m pid fl :
  0 <= pid <= 65535 -> link_up fl -> full (queue_of fl q) = false ->
  exists d, encodes fl (PPubAck (mkPubAck pid 0 None)) d /\
    put q m (AfterPuback pid) fl = (Ok tt, written d (with_put q m fl)).
Proof.
  intros Hp Hl Hf. destruct (ack_bytes (PPubAck (mkPubAck pid 0 None)) pid fl) as (d & Hd & Hdec);
    [by split; [|left]|].
  exists d. split; [done|]. rewrite put_eq, Hf. unfold run_after.
  rewrite (connection_ack _ pid _ d); [|by split; [|left]|exact Hd].
  change (e_link (f_engine _)) with (e_link (f_engine fl)). unfold link_up in Hl. by rewrite Hl.
Qed.

Lemma put_grows q m fl q' :
  q_put (queue_of (with_put q m fl) q') =
    q_put (queue_of fl q') ++ if decide (q' = q) then [m] else [].
Proof.
  rewrite queue_of_put. destruct (decide (q = q')) as [<-|Hne]; [by rewrite decide_True|].
  rewrite decide_False by congruence. by rewrite app_nil_r.
Qed.

(** The read loop that waited for room puts the message and then writes PUBACK. *)
Lemma resume_puback q m pid fl :
  f_blocked fl = Some (mkBlocked q m (AfterPuback pid)) -> link_up fl -> 0 <= pid <= 65535 ->
  if full (queue_of fl q) then resume fl = (Ok tt, fl)
  else exists d fl', resume fl = (Ok tt, fl') /\ wire fl' = wire fl ++ [d] /\
    encodes fl (PPubAck (mkPubAck pid 0 None)) d /\ f_blocked fl' = None /\
    forall q', q_put (queue_of fl' q') = q_put (queue_of fl q') ++ if decide (q' = q) then [m] else [].
Proof.
  intros Hb Hl Hp. unfold resume. run. rewrite Hb. run. cbn [bl_queue bl_message bl_after].
  destruct (full (queue_of fl q)) eqn:Hf; [done|]. run.
  destruct (put_puback q m pid (set_blocked None fl)) as (d & Hd & ->); [done..|].
  exists d. eexists. do 4 (split; [done|]). intros q'. exact (put_grows q m (set_blocked None fl) q').
Qed.

(** C17: PUBACK is never written before the message is in the application's queue.
    With automatic acknowledgement it is written right after the message was put; on
    a full queue the read loop waits with nothing written, and does both when there
    is room.  With manual acknowledgement nothing is written until [ack], which
    writes PUBACK once. *)
Theorem puback_after_delivery v mq router size queues fl p pid it :
  empty_queues queues -> flow_reachable v mq router size queues fl -> link_up fl ->
  received p -> pb_qos p = AT_LEAST_ONCE -> pb_packet_id p = Some pid ->
  replay_contains_packet_id (f_replay fl) pid = false -> goes_to p fl it ->
  exists fl1 m, handle_publish p fl = (Ok tt, fl1) /\
    mo_message <$> f_messages fl1 !! m = Some (_make_message p) /\
    if full (queue_of fl (queue it.2)) then
      wire fl1 = wire fl /\ (forall q, queue_of fl1 q = queue_of fl q) /\
      let k := if auto_ack it.2 then AfterPuback pid else AfterNothing in
      f_blocked fl1 = Some (mkBlocked (queue it.2) m k) /\
      (auto_ack it.2 = true -> forall fl2, f_blocked fl2 = f_blocked fl1 -> link_up fl2 ->
         if full (queue_of fl2 (queue it.2)) then resume fl2 = (Ok tt, fl2)
         else exists d fl3, resume fl2 = (Ok tt, fl3) /\ wire fl3 = wire fl2 ++ [d] /\
           encodes fl2 (PPubAck (mkPubAck pid 0 None)) d /\ f_blocked fl3 = None /\
           forall q, q_put (queue_of fl3 q) = q_put (queue_of fl2 q) ++
             if decide (q = queue it.2) then [m] else [])
    else
      (forall q, q_put (queue_of fl1 q) = q_put (queue_of fl q) ++
         if decide (q = queue it.2) then [m] else []) /\
      if auto_ack it.2 then
        exists d, wire fl1 = wire fl ++ [d] /\ encodes fl (PPubAck (mkPubAck pid 0 None)) d
      else
        wire fl1 = wire fl /\
        exists d fl2, ack m fl1 = (Ok tt, fl2) /\ wire fl2 = wire fl1 ++ [d] /\
          encodes fl (PPubAck (mkPubAck pid 0 None)) d /\
          forall fl3, rtc flow_step fl2 fl3 -> ack m fl3 = (Ok tt, fl3).
Proof.
  intros Hqs Hr Hl Hrcv Hq Hpid Hc Hg. unfold received in Hrcv. rewrite Hq in Hrcv.
  destruct Hrcv as (pid' & Hpid' & Hp). assert (pid' = pid) as -> by congruence.
  rewrite (handle_publish_qos1 p pid it fl) by done. unfold _deliver_qos1_publish. rewrite Hpid.
  unfold recipient_auto_ack. cbn [to_item request subscription].
  assert (Hm : forall fl1, f_messages fl1 = f_messages (after_select p fl) ->
    mo_message <$> f_messages fl1 !! new_ref fl = Some (_make_message p)).
  { intros fl1 ->. simpl. by rewrite lookup_insert_eq. }
  destruct (full (queue_of fl (queue it.2))) eqn:Hfull; destruct (auto_ack it.2) eqn:Hauto.
  - rewrite deliver_eq. cbn [to_item request subscription]. unfold with_callback. cbn [to_item request].
    rewrite put_eq. change (queue_of (after_select p fl)) with (queue_of fl). rewrite Hfull.
    eexists _, (new_ref fl). split; [done|]. split; [by apply Hm|]. do 3 (split; [done|]).
    intros _ fl2 Hb Hl2. by apply resume_puback.
  - rewrite deliver_eq. simpl. unfold with_callback. simpl. rewrite Hauto, put_eq, queue_of_callback.
    change (queue_of (after_select p fl)) with (queue_of fl). rewrite Hfull.
    eexists _, (new_ref fl). split; [done|]. split.
    { unfold set_ack_callback. simpl. rewrite lookup_insert_eq. simpl. by rewrite lookup_insert_eq. }
    split; [by unfold wire; simpl; rewrite set_ack_callback_engine|].
    split; [intros q; apply (queue_of_callback _ _ (after_select p fl))|]. by split.
  - rewrite deliver_eq. cbn [to_item request subscription message]. unfold with_callback.
    cbn [to_item request].
    destruct (put_puback (queue it.2) (new_ref fl) pid (after_select p fl)) as (d & Hd & ->);
      [done|done|done|].
    eexists _, (new_ref fl). split; [done|]. split; [by apply Hm|]. split; [|by exists d].
    intros q. exact (put_grows (queue it.2) (new_ref fl) (after_select p fl) q).
  - destruct (deliver_manual (after_select p fl) (to_item fl it) it (PubackCallback pid false)
      (mkMessageObject (_make_message p) None false)) as (fl1 & -> & He & Hms & Hput);
      [done|done|done|by simpl; rewrite lookup_insert_eq|done|].
    exists fl1, (new_ref fl). split; [done|].
    assert (Hlook : f_messages fl1 !! new_ref fl =
      Some (mkMessageObject (_make_message p) (Some (PubackCallback pid false)) false))
      by (rewrite Hms; apply lookup_insert_eq).
    split; [by rewrite Hlook|]. split; [exact Hput|]. split; [by unfold wire; rewrite He|].
    destruct (ack_bytes (PPubAck (mkPubAck pid 0 None)) pid fl) as (d & Hd & Hdec);
      [by split; [|left]|].
    exists d. eexists. split; [|split; [|split; [done|]]].
    + unfold ack. run. rewrite Hlook. cbn. rewrite run_bind, run_modify.
      rewrite (connection_ack _ pid _ d); [|by split; [|left]|simpl; by rewrite He].
      cbn [f_engine set_message]. rewrite He. unfold link_up in Hl.
      change (f_engine (after_select p fl)) with (f_engine fl). by rewrite Hl.
    + done.
    + intros fl3 Hs. eapply (resolved_later (new_ref fl)); [exact Hs|simpl; by rewrite lookup_insert_eq|done].
Qed.

(** ** The replay of a resumed session *)

(** No subscription takes [p] now, or its queue is full. *)
Definition stuck p fl : Prop :=
  match recipient (_select_subscription (subscriptions (session fl)) p) with
  | None => True
  | Some it => full (queue_of fl (queue it.2)) = true
  end.

Lemma prims_stuck p fl fl' : rtc prim fl fl' -> stuck p fl -> stuck p fl'.
Proof.
  intros Hp. unfold stuck. rewrite (prims_subscriptions fl fl' Hp).
  destruct (recipient _); [by apply prims_full|done].
Qed.

(** [p] has become a message object of the application: in a queue, or in a flight
    that PUBREL will deliver. *)
Definition received_by_application p fl fl' : Prop :=
  exists m o, f_messages fl !! m = None /\ f_messages fl' !! m = Some o /\
    mo_message o = _make_message p /\
    ((exists q, m ∈ q_put (queue_of fl' q)) \/
     exists pid f, inflight_qos2_in (session fl') !! pid = Some f /\ message (in_recipient f) = m).

(** A pending request claimed [p] on the way: it got its response, or PUBREL will
    deliver the claim. *)
Definition received_by_request p fl fl' : Prop :=
  exists fl1 fl2 c, rtc prim fl fl1 /\ (offered p fl1).1 = Some c /\ rtc prim fl2 fl' /\
    (f_router fl2 = deliver c <$> (offered p fl1).2 \/
     exists pid f, inflight_qos2_in (session fl') !! pid = Some f /\ request (in_recipient f) = Some c).

Definition handed_over p fl fl' : Prop :=
  received_by_application p fl fl' \/ received_by_request p fl fl'.

Lemma handed_over_later p f1 f2 f3 :
  rtc prim f2 f3 -> flights_kept f2 f3 -> link_up f3 -> handed_over p f1 f2 -> handed_over p f1 f3.
Proof.
  intros Hp Hk Hl [(m & o & H1 & H2 & H3 & H4)|(g1 & g2 & c & H1 & H2 & H3 & H4)].
  - left. pose proof (prims_history _ _ Hp) as Hh.
    destruct (hi_message _ _ Hh m o H2) as (o' & H2' & H3' & _).
    exists m, o'. split; [done|]. split; [done|]. split; [congruence|].
    destruct H4 as [[q Hq]|(pid & f & Hf & Hm)].
    + left. exists q. eapply elem_of_prefix; [exact Hq|apply (hi_put _ _ Hh)].
    + right. exists pid, f. by split; [apply Hk|].
  - right. exists g1, g2, c. split; [done|]. split; [done|]. split; [by etrans|].
    destruct H4 as [?|(pid & f & Hf & Hr)]; [by left|]. right. exists pid, f. by split; [apply Hk|].
Qed.

Lemma handed_over_earlier p f1 f2 f3 :
  rtc prim f1 f2 -> handed_over p f2 f3 -> handed_over p f1 f3.
Proof.
  intros Hp [(m & o & H1 & H2)|(g1 & g2 & c & H1 & H2)].
  - left. exists m, o. split; [|exact H2]. apply prims_history in Hp.
    destruct (f_messages f1 !! m) as [o1|] eqn:Hm; [|done].
    destruct (hi_message _ _ Hp m o1 Hm) as (o' & Ho' & _). congruence.
  - right. exists g1, g2, c. split; [by etrans|exact H2].
Qed.

Lemma handed_over_replay p s fl fl' : handed_over p fl fl' -> handed_over p fl (set_replay s fl').
Proof.
  intros [Ha|(g1 & g2 & c & H1 & H2 & H3 & H4)]; [by left|]. right. exists g1, g2, c.
  split; [done|]. split; [done|]. split; [|exact H4]. eapply rtc_r; [exact H3|apply pr_replay].
Qed.

Lemma put_hands q m k fl :
  full (queue_of fl q) = false -> m ∈ q_put (queue_of (put q m k fl).2 q).
Proof.
  intros Hf. rewrite put_eq, Hf.
  assert (Hp : history (with_put q m fl) (run_after k (with_put q m fl)).2).
  { rewrite run_after_eq. destruct k; [done|]. apply prims_history, rtc_once, pr_sent. }
  eapply elem_of_prefix; [|apply (hi_put _ _ Hp)]. rewrite put_grows, decide_True by done. set_solver.
Qed.

Lemma deliver_hands r it cb k fl :
  request r = None -> subscription r = Some it -> full (queue_of fl (queue it.2)) = false ->
  message r ∈ q_put (queue_of (_deliver r cb k fl).2 (queue it.2)).
Proof.
  intros Hreq Hsub Hf. rewrite deliver_eq, Hreq, Hsub. apply put_hands. rewrite <- Hf. f_equal.
  unfold with_callback. rewrite Hreq, Hsub. destruct cb; [|done]. destruct (auto_ack it.2); [done|].
  apply queue_of_callback.
Qed.

(** What is not held back is handed over. *)
Lemma replay_hands p it fl :
  received p -> selected p fl = to_item fl it -> full (queue_of fl (queue it.2)) = false ->
  (deliver_replay p (selected p fl) (after_select p fl)).1 = Ok tt ->
  received_by_application p fl (deliver_replay p (selected p fl) (after_select p fl)).2.
Proof.
  intros Hrcv Hsel Hf Hres. unfold received in Hrcv.
  assert (Hh : history (after_select p fl) (deliver_replay p (selected p fl) (after_select p fl)).2).
  { apply prims_history. unfold deliver_replay. destruct (pb_qos p);
      [apply traces_deliver|apply traces_qos1|apply traces_qos2]. }
  destruct (hi_message _ _ Hh (new_ref fl) (mkMessageObject (_make_message p) None false))
    as (o & Ho & Hc & _); [simpl; apply lookup_insert_eq|].
  exists (new_ref fl), o. split; [apply new_ref_fresh|]. split; [done|]. split; [done|].
  clear Hh Ho Hc. rewrite Hsel in *. unfold deliver_replay in *.
  assert (Hd : forall cb k, new_ref fl ∈
    q_put (queue_of (_deliver (to_item fl it) cb k (after_select p fl)).2 (queue it.2)))
    by (intros cb k; by apply (deliver_hands (to_item fl it) it cb k (after_select p fl))).
  destruct (pb_qos p) eqn:Hq.
  - left. eauto.
  - left. destruct Hrcv as (pid & Hpid & _). unfold _deliver_qos1_publish. rewrite Hpid.
    destruct (recipient_auto_ack _); eauto.
  - destruct Hrcv as (pid & Hpid & _). unfold _accept_qos2_publish in *. rewrite Hpid in *.
    destruct (recipient_auto_ack _).
    + right. exists pid, (mkInFlight pid (to_item fl it) false). split; [|done].
      run. rewrite connection_send. unfold session. simpl. rewrite sent_session. apply lookup_insert_eq.
    + left. exists (queue it.2). run. by apply (deliver_hands (to_item fl it) it).
Qed.

Lemma deliver_claim r c cb k fl :
  request r = Some c -> f_router (_deliver r cb k fl).2 = deliver c <$> f_router fl.
Proof. intros Hr. by rewrite deliver_eq, Hr, run_after_router. Qed.

(** So is what a request claims. *)
Lemma replay_claimed p c fl :
  received p -> (offered p fl).1 = Some c ->
  (deliver_replay p (selected p fl) (after_select p fl)).1 = Ok tt ->
  received_by_request p fl (deliver_replay p (selected p fl) (after_select p fl)).2.
Proof.
  intros Hrcv Hc Hres. unfold received in Hrcv.
  assert (Hsel : selected p fl = mkRecipient (new_ref fl) (Some c) None)
    by (unfold selected; by rewrite Hc).
  exists fl, (deliver_replay p (selected p fl) (after_select p fl)).2, c.
  split; [done|]. split; [done|]. split; [done|].
  assert (Hd : forall k, f_router (_deliver (selected p fl) None k (after_select p fl)).2 =
    deliver c <$> (offered p fl).2) by (intros k; apply deliver_claim; by rewrite Hsel).
  unfold deliver_replay in *. destruct (pb_qos p) eqn:Hq.
  - left. apply Hd.
  - left. destruct Hrcv as (pid & Hpid & _). unfold _deliver_qos1_publish. rewrite Hpid.
    replace (recipient_auto_ack (selected p fl)) with true by (by rewrite Hsel). apply Hd.
  - right. destruct Hrcv as (pid & Hpid & _). unfold _accept_qos2_publish in *. rewrite Hpid in *.
    replace (recipient_auto_ack (selected p fl)) with true in * by (by rewrite Hsel).
    exists pid, (mkInFlight pid (selected p fl) false). split; [|by rewrite Hsel].
    run. rewrite connection_send. unfold session. simpl. rewrite sent_session. apply lookup_insert_eq.
Qed.

Lemma deliver_each_cons p pending unmatched fl :
  deliver_each (p :: pending) unmatched fl =
    if replay_holds (selected p fl) (after_select p fl)
    then deliver_each pending (unmatched ++ [p]) (after_select p fl)
    else (_ ← finally_on_error (deliver_replay p (selected p fl))
              (upd_buffer (set_publishes (unmatched ++ [p] ++ pending)));
        _ ← modify (upd_buffer (_discard p));
        deliver_each pending unmatched) (after_select p fl).
Proof. simpl. run. rewrite select_recipient_eq. run. by destruct (replay_holds _ _). Qed.

Lemma after_select_traces p fl : rtc prim fl (after_select p fl).
Proof. pose proof (traces_select p fl) as Hts. by rewrite select_recipient_eq in Hts. Qed.

Lemma deliver_replay_traces p r : traces (deliver_replay p r).
Proof.
  unfold deliver_replay. destruct (pb_qos p);
    [apply traces_deliver|apply traces_qos1|apply traces_qos2].
Qed.

Lemma replay_hands_over p fl :
  received p -> replay_holds (selected p fl) (after_select p fl) = false ->
  (deliver_replay p (selected p fl) (after_select p fl)).1 = Ok tt ->
  handed_over p fl (deliver_replay p (selected p fl) (after_select p fl)).2.
Proof.
  intros Hrcv Hheld Hres. destruct ((offered p fl).1) as [c|] eqn:Hc; [right; by eapply replay_claimed|].
  left. unfold replay_holds in Hheld.
  assert (Hsel : selected p fl = mkRecipient (new_ref fl) None
    (recipient (_select_subscription (subscriptions (session fl)) p))) by (unfold selected; by rewrite Hc).
  destruct (recipient _) as [it|]; [|by rewrite Hsel in Hheld].
  apply (replay_hands p it); try done. rewrite Hsel in Hheld. simpl in Hheld. by destruct it.
Qed.

Lemma replay_held_stuck p fl :
  replay_holds (selected p fl) (after_select p fl) = true -> stuck p (after_select p fl).
Proof.
  unfold replay_holds, selected, stuck. destruct ((offered p fl).1); [done|]. simpl.
  change (session (after_select p fl)) with (session fl). by destruct (recipient _) as [[fi en]|].
Qed.

(** *** The order of what is put *)

Definition holds_message fl (m : nat) p : Prop :=
  exists o, f_messages fl !! m = Some o /\ mo_message o = _make_message p.

(** Every queue got some of the messages [l], in their order, and nothing else. *)
Definition put_in_order (l : list Publish) fl fl' : Prop :=
  forall q, exists ms ps, q_put (queue_of fl' q) = q_put (queue_of fl q) ++ ms /\
    ps `sublist_of` l /\ Forall2 (holds_message fl') ms ps.

Lemma put_in_order_app l1 l2 f1 f2 f3 :
  put_in_order l1 f1 f2 -> put_in_order l2 f2 f3 -> history f2 f3 -> put_in_order (l1 ++ l2) f1 f3.
Proof.
  intros H1 H2 Hh q. destruct (H1 q) as (ms1 & ps1 & A1 & A2 & A3), (H2 q) as (ms2 & ps2 & B1 & B2 & B3).
  exists (ms1 ++ ms2), (ps1 ++ ps2). split; [by rewrite B1, A1, app_assoc|].
  split; [by apply sublist_app|]. apply Forall2_app; [|done]. eapply Forall2_impl; [exact A3|].
  intros m p (o & Ho & Hc). destruct (hi_message _ _ Hh m o Ho) as (o' & Ho' & Hc' & _).
  exists o'. split; [done|]. congruence.
Qed.

(** At most the message [m] is put into each queue. *)
Definition puts_one (m : nat) fl fl' : Prop :=
  forall q, q_put (queue_of fl' q) = q_put (queue_of fl q) \/
    q_put (queue_of fl' q) = q_put (queue_of fl q) ++ [m].

Lemma deliver_puts_one r cb k fl : puts_one (message r) fl (_deliver r cb k fl).2.
Proof.
  intros q. rewrite deliver_eq.
  assert (Ha : forall fl1, queue_of (run_after k fl1).2 = queue_of fl1)
    by (intros fl1; rewrite run_after_eq; by destruct k).
  destruct (request r); [left; by rewrite Ha|]. destruct (subscription r) as [it|]; [|left; by rewrite Ha].
  assert (Hc : queue_of (with_callback r cb fl) q = queue_of fl q).
  { unfold with_callback. destruct (request r), cb, (subscription r) as [it'|]; try done.
    destruct (auto_ack it'.2); [done|]. apply queue_of_callback. }
  rewrite put_eq, <- Hc. destruct (full _); [by left|]. rewrite Ha, queue_of_put.
  case_decide; [subst; by right|by left].
Qed.

Lemma deliver_replay_puts_one p r fl : puts_one (message r) fl (deliver_replay p r fl).2.
Proof.
  unfold deliver_replay, _deliver_qos1_publish, _accept_qos2_publish, no_packet_id.
  destruct (pb_qos p); [apply deliver_puts_one|..];
    (destruct (pb_packet_id p); [|by left]); destruct (recipient_auto_ack r);
    try apply deliver_puts_one; run; [intros q; left; by rewrite connection_send|].
  match goal with |- puts_one _ _ (_deliver _ ?cb ?k ?f).2 => apply (deliver_puts_one r cb k f) end.
Qed.

Lemma replay_put_in_order p fl :
  put_in_order [p] fl (deliver_replay p (selected p fl) (after_select p fl)).2.
Proof.
  intros q. pose proof (prims_history _ _ (deliver_replay_traces p (selected p fl) (after_select p fl))) as Hh.
  destruct (hi_message _ _ Hh (new_ref fl) (mkMessageObject (_make_message p) None false))
    as (o & Ho & Hc & _); [simpl; apply lookup_insert_eq|].
  assert (Hm : message (selected p fl) = new_ref fl) by (unfold selected; by destruct ((offered p fl).1)).
  destruct (deliver_replay_puts_one p (selected p fl) (after_select p fl) q) as [Hq|Hq]; rewrite Hq.
  - exists [], []. rewrite app_nil_r. split; [done|]. split; [apply sublist_nil_l|constructor].
  - exists [new_ref fl], [p]. split; [by rewrite Hm|]. split; [reflexivity|].
    constructor; [by exists o|constructor].
Qed.

(** What the loop over the buffer relies on *)
Record replaying_if (G : Prop) (l : list Publish) (b : ReplayBuffer) fl : Prop := {
  rp_buffer : f_replay fl = PersistentReplayBuffered b;
  rp_ok : buffer_ok (f_buffer_size fl) (set_publishes l b);
  rp_inv : inv_at_if G l None fl;
}.

(** A message that is not held back is handed over, or the connection broke. *)
Record delivered_one (G : Prop) (l : list Publish) fl fl' : Prop := {
  do_replay : same_replay fl fl';
  do_inv : inv_at_if G l None fl';
  do_prims : rtc prim fl fl';
  do_flights : G -> flights_kept fl fl';
}.

Section guarded.
Context {G : Prop}.

Notation replaying := (replaying_if G).
Notation inv_at := (inv_at_if G).

Lemma replay_one l1 p l2 b fl :
  replaying (l1 ++ p :: l2) b fl -> replay_holds (selected p fl) (after_select p fl) = false ->
  match deliver_replay p (selected p fl) (after_select p fl) with
  | (Ok _, fl') => delivered_one G (l1 ++ l2) fl fl' /\ handed_over p fl fl' /\ put_in_order [p] fl fl'
  | (Err _, fl') => delivered_one G (l1 ++ l2) fl fl' /\ ~ link_up fl'
  end.
Proof.
  intros [Hb Hbo Hi] Hheld.
  assert (Hrcv : received p) by (apply (bo_received _ _ Hbo); simpl; set_solver).
  assert (Hi2 : inv_at (l1 ++ l2) (Some (message (selected p fl))) (after_select p fl)).
  { eapply inv_at_sub; [|apply (inv_select _ p _ Hi)]. intros p'. rewrite !elem_of_app, elem_of_cons. tauto. }
  assert (Hfree : forall pid, pb_qos p = EXACTLY_ONCE -> pb_packet_id p = Some pid ->
    live G (after_select p fl) -> free (l1 ++ l2) pid (after_select p fl)).
  { intros pid Hq Hpid Hl'. by apply (buffered_free (G := G) _ p _ b fl). }
  pose proof (deliver_replay_ok _ p _ _ Hrcv Hfree Hi2) as (H1 & H2 & H3).
  pose proof (replay_hands_over p fl Hrcv Hheld) as Hhand.
  pose proof (replay_put_in_order p fl) as Hord.
  assert (HD : delivered_one G (l1 ++ l2) fl (deliver_replay p (selected p fl) (after_select p fl)).2).
  { split; [done|done| |].
    - etrans; [apply after_select_traces|apply deliver_replay_traces].
    - intros HG. apply (deliver_replay_flights p (selected p fl) (after_select p fl)).
      intros pid Hq Hpid Hl. by apply (Hfree pid). }
  unfold raises_only_down in H3.
  destruct (deliver_replay p (selected p fl) (after_select p fl)) as [[[]|x] fl2]; simpl in *.
  - split; [done|]. by split; [apply Hhand|].
  - split; [done|]. by destruct H3.
Qed.

(** A message that was handed over leaves the buffer. *)
Lemma discard_replaying l1 p l2 b fl :
  f_replay fl = PersistentReplayBuffered b ->
  buffer_ok (f_buffer_size fl) (set_publishes (l1 ++ p :: l2) b) -> inv_at (l1 ++ l2) None fl ->
  upd_buffer (_discard p) fl = set_replay (PersistentReplayBuffered (_discard p b)) fl /\
  replaying (l1 ++ l2) (_discard p b) (set_replay (PersistentReplayBuffered (_discard p b)) fl).
Proof.
  intros Hb Hbo Hi. unfold upd_buffer. rewrite Hb. split; [done|]. split; [done| |].
  - exact (buffer_ok_discard _ (set_publishes (l1 ++ p :: l2) b) l1 p l2 eq_refl Hbo).
  - revert Hi. apply inv_at_same; by split_and!; try intros ?.
Qed.

Lemma replaying_discard l1 p l2 b fl fl' :
  replaying (l1 ++ p :: l2) b fl -> same_replay fl fl' -> inv_at (l1 ++ l2) None fl' ->
  upd_buffer (_discard p) fl' = set_replay (PersistentReplayBuffered (_discard p b)) fl' /\
  replaying (l1 ++ l2) (_discard p b) (set_replay (PersistentReplayBuffered (_discard p b)) fl').
Proof. intros [Hb Hbo _] [H1 H2] Hi. apply discard_replaying; [by rewrite H1|by rewrite H2|done]. Qed.

Lemma deliver_one l1 p l2 b fl :
  replaying (l1 ++ p :: l2) b fl -> replay_holds (selected p fl) (after_select p fl) = false ->
  (exists fl', deliver_each (p :: l2) l1 fl = deliver_each l2 l1 fl' /\
     replaying (l1 ++ l2) (_discard p b) fl' /\ rtc prim fl fl' /\ handed_over p fl fl' /\
     put_in_order [p] fl fl') \/
  ~ link_up (deliver_each (p :: l2) l1 fl).2.
Proof.
  intros Hrp Hheld. pose proof (replay_one l1 p l2 b fl Hrp Hheld) as HO.
  rewrite deliver_each_cons, Hheld, run_bind. unfold finally_on_error.
  destruct (deliver_replay p (selected p fl) (after_select p fl)) as [[[]|x] fl2].
  - left. destruct HO as ([H1 H2 H3 _] & Hhand & Hord).
    destruct (replaying_discard l1 p l2 b fl fl2 Hrp H1 H2) as [He Hrp2]. rewrite <- He in Hrp2.
    exists (upd_buffer (_discard p) fl2). split; [done|]. split; [done|]. rewrite He.
    split; [by eapply rtc_r; [exact H3|apply pr_replay]|].
    split; [by apply handed_over_replay|exact Hord].
  - right. destruct HO as [_ Hdown]. intros Hl. apply Hdown. cbn in Hl. unfold upd_buffer in Hl.
    by destruct (f_replay fl2).
Qed.

Lemma replaying_held l1 p l2 b fl :
  replaying (l1 ++ p :: l2) b fl -> replaying ((l1 ++ [p]) ++ l2) b (after_select p fl).
Proof.
  intros [Hb Hbo Hi]. rewrite <- app_assoc. split; [done..|].
  generalize (inv_select _ p _ Hi). apply inv_at_ids; [apply owned_drop|by split_and!].
Qed.

End guarded.

Notation replaying := (replaying_if True).

Lemma deliver_each_spec l2 l1 b fl :
  replaying (l1 ++ l2) b fl ->
  let fl' := (deliver_each l2 l1 fl).2 in
  link_up fl' ->
  exists kept b', f_replay fl' = PersistentReplayBuffered b' /\
    rb_publishes b' = l1 ++ kept /\ kept `sublist_of` l2 /\
    (forall p, p ∈ kept -> stuck p fl') /\
    (forall p, p ∈ l2 -> p ∈ kept \/ handed_over p fl fl') /\
    put_in_order l2 fl fl'.
Proof.
  cbv zeta. revert l1 b fl; induction l2 as [|p l2 IH]; intros l1 b fl Hrp Hl.
  { exists [], (set_publishes l1 b). simpl. rewrite app_nil_r. unfold upd_buffer.
    rewrite (rp_buffer _ _ _ _ Hrp). split_and!; try done; [by intros p ?%elem_of_nil..|].
    intros q. exists [], []. rewrite app_nil_r. by split. }
  destruct (replay_holds (selected p fl) (after_select p fl)) eqn:Hheld.
  - pose proof (deliver_each_cons p l2 l1 fl) as Hstep. rewrite Hheld in Hstep. rewrite Hstep in *.
    destruct (IH (l1 ++ [p]) b (after_select p fl)) as (kept & b' & K1 & K2 & K3 & K4 & K5 & K6);
      [by apply replaying_held|done|].
    exists (p :: kept), b'. split; [done|]. split; [by rewrite K2, <- app_assoc|].
    split; [by apply sublist_skip|]. split; [|split]; [intros p' [->|Hp']%elem_of_cons..|].
    + eapply prims_stuck; [apply (traces_deliver_each l2 (l1 ++ [p]) (after_select p fl))|].
      by apply replay_held_stuck.
    + by apply K4.
    + left. by left.
    + destruct (K5 p' Hp') as [?|Hh]; [left; by right|]. right.
      exact (handed_over_earlier p' fl (after_select p fl) _ (after_select_traces p fl) Hh).
    + intros q. destruct (K6 q) as (ms & ps & A1 & A2 & A3). exists ms, ps.
      split; [exact A1|]. split; [by apply sublist_cons|done].
  - destruct (deliver_one l1 p l2 b fl Hrp Hheld) as [(fl3 & Hstep & Hrp3 & Hts & Hhand & Hord)|Hdown]; [|done].
    rewrite Hstep in *. destruct (IH l1 _ fl3 Hrp3 Hl) as (kept & b' & K1 & K2 & K3 & K4 & K5 & K6).
    destruct (deliver_each_ok l2 l1 _ fl3 (rp_buffer _ _ _ _ Hrp3) (rp_ok _ _ _ _ Hrp3)
      (rp_inv _ _ _ _ Hrp3)) as (_ & Hk3 & _).
    exists kept, b'. do 2 (split; [done|]). split; [by apply sublist_cons|]. split; [done|].
    split; [|apply (put_in_order_app [p] l2 fl fl3); [done..|];
             apply prims_history, (traces_deliver_each l2 l1 fl3)].
    intros p' [->|Hp']%elem_of_cons.
    + right. apply (handed_over_later p fl fl3); try done. apply (traces_deliver_each l2 l1 fl3).
    + destruct (K5 p' Hp') as [?|Hh]; [by left|]. right. exact (handed_over_earlier p' fl fl3 _ Hts Hh).
Qed.

Lemma prims_size fl fl' : rtc prim fl fl' -> f_buffer_size fl' = f_buffer_size fl.
Proof. induction 1 as [|g1 g2 g3 Hp _ IH]; [done|]. rewrite IH. by destruct Hp. Qed.

Lemma flow_step_size fl fl' : flow_step fl fl' -> f_buffer_size fl' = f_buffer_size fl.
Proof.
  intros [Hp|[[q ->]|(e & _ & Hp & _)]]%flow_step_prim.
  - by apply prims_size.
  - by destruct (queue_get_eq q fl) as [->| ->].
  - by rewrite (prims_size _ _ Hp).
Qed.

Lemma reachable_size v mq router size queues fl :
  flow_reachable v mq router size queues fl -> f_buffer_size fl = size.
Proof.
  unfold flow_reachable. intros Hr.
  enough (f_buffer_size fl = f_buffer_size (new_flow v mq router size queues)) by done.
  induction Hr as [|f1 f2 f3 Hs _ IH]; [done|]. rewrite IH. by apply flow_step_size.
Qed.

(** C18: the replay buffer of a resumed session is consistent and bounded: its
    counters describe the messages it holds, no packet identifier is held twice, and
    it never holds more than the configured number of messages.  One message more
    closes the connection and is neither held, delivered nor acknowledged. *)
Theorem replay_buffer_bounded v mq router size queues fl b :
  empty_queues queues -> flow_reachable v mq router size queues fl ->
  f_replay fl = PersistentReplayBuffered b ->
  rb_message_count b = zlen (rb_publishes b) /\ (0 < size -> rb_message_count b <= size) /\
  (forall t, default 0 (rb_topics b !! t) = Z.of_nat (count_topic t (rb_publishes b))) /\
  (forall x, x ∈ rb_packet_ids b <-> x ∈ ids_of (rb_publishes b)) /\ NoDup (ids_of (rb_publishes b)) /\
  forall p, received p -> (offered p fl).1 = None ->
    recipient (_select_subscription (subscriptions (session fl)) p) = None ->
    (forall pid, pb_packet_id p = Some pid -> unused pid fl) ->
    0 < size -> rb_message_count b = size ->
    exists fl', handle_publish p fl =
        (Err (MQTTProtocolError "Persistent-session replay buffer limit exceeded"), fl') /\
      ~ link_up fl' /\ wire fl' = wire fl /\ f_replay fl' = f_replay fl /\
      forall q, queue_of fl' q = queue_of fl q.
Proof.
  intros Hqs Hr Hb. destruct (flow_reachable_ok _ _ _ _ _ _ Hqs Hr) as [_ Hok].
  unfold replay_ok in Hok. rewrite Hb, (reachable_size _ _ _ _ _ _ Hr) in Hok.
  destruct Hok as [B1 B2 B3 B4 B5 B6]. split; [done|]. split; [done|]. split.
  { intros t. rewrite B2. case_decide as Hz; [by rewrite Hz|done]. }
  split; [done|]. split; [done|].
  intros p Hrcv Hoff Hrec Hun Hpos Hfull.
  assert (Hsel : selected p fl = mkRecipient (new_ref fl) None None)
    by (unfold selected; by rewrite Hoff, Hrec).
  assert (Hid : packet_id_in p (rb_packet_ids b) = false).
  { unfold packet_id_in. destruct (pb_packet_id p) as [i|] eqn:Hpid; [|done].
    destruct (Hun i eq_refl) as (_ & _ & U). unfold replay_contains_packet_id in U. by rewrite Hb in U. }
  assert (HS : _select_recipient_or_buffer p fl =
    (Err (MQTTProtocolError "Persistent-session replay buffer limit exceeded"),
     (connection abort (after_select p fl)).2)).
  { rewrite select_or_buffer_eq. cbv zeta. rewrite Hb, Hsel. cbn [request subscription].
    rewrite !bool_decide_false by (by intros []). cbn [andb]. rewrite Hid. unfold buffer_step.
    change (f_buffer_size (after_select p fl)) with (f_buffer_size fl).
    rewrite (reachable_size _ _ _ _ _ _ Hr), Hfull.
    replace (negb (size =? 0) && (size <=? size)) with true; [done|].
    symmetry. apply andb_true_iff. split; [apply negb_true_iff, Z.eqb_neq; lia|apply Z.leb_le; lia]. }
  exists (connection abort (after_select p fl)).2. split; [|by split_and!].
  unfold handle_publish, _handle_qos1_publish, _handle_qos2_publish.
  unfold received in Hrcv. destruct (pb_qos p); [by rewrite run_bind, HS|..];
    destruct Hrcv as (pid & Hpid & _); destruct (Hun pid Hpid) as (U1 & U2 & U3); rewrite Hpid; run.
  - by rewrite U3, run_bind, HS.
  - rewrite bool_decide_false by (rewrite U1; by intros [? ?]). rewrite bool_decide_false by done.
    by rewrite U3, run_bind, HS.
Qed.

(** C19: draining the replay buffer is complete and loses nothing.  As long as the
    connection holds it does not raise; what it leaves in the buffer, in the same
    order, has no subscription or a full queue; every message that left has become a
    message of the application, in a queue or in a flight that PUBREL will deliver, or
    the response of a pending request; each queue gets its messages in the order of
    the buffer; an empty buffer ends the buffering. *)
Theorem drain_complete v mq router size queues fl b :
  empty_queues queues -> flow_reachable v mq router size queues fl ->
  f_replay fl = PersistentReplayBuffered b ->
  let fl' := (drain fl).2 in
  link_up fl' ->
  (drain fl).1 = Ok tt /\ publishes_of fl' `sublist_of` rb_publishes b /\
  (forall p, p ∈ publishes_of fl' -> stuck p fl') /\
  (forall p, p ∈ rb_publishes b -> p ∈ publishes_of fl' \/ handed_over p fl fl') /\
  put_in_order (rb_publishes b) fl fl' /\
  (publishes_of fl' = [] -> f_replay fl' = PersistentReplayIdle).
Proof.
  intros Hqs Hr Hb fl' Hl'. pose proof (flow_reachable_ok _ _ _ _ _ _ Hqs Hr) as Hok.
  destruct (deliver_pending_ok b fl Hb Hok) as (Hok1 & _ & Hrun).
  set (fl0 := set_replay (PersistentReplayBuffered (set_publishes [] b)) fl).
  assert (Hdp : _deliver_pending b fl = deliver_each (rb_publishes b) [] fl0).
  { unfold _deliver_pending. run. unfold upd_buffer. by rewrite Hb. }
  assert (Hrp : replaying ([] ++ rb_publishes b) (set_publishes [] b) fl0).
  { destruct Hok as [Hi Hrep]. unfold replay_ok, publishes_of in *. rewrite Hb in *.
    split; [done|by destruct b|]. revert Hi. apply inv_at_same; by split_and!; try intros ?. }
  pose proof (deliver_each_spec (rb_publishes b) [] (set_publishes [] b) fl0 Hrp) as HS. cbv zeta in HS.
  unfold raises_only_down in Hrun. subst fl'. rewrite drain_eq in *. revert Hl'. rewrite Hb.
  rewrite Hdp in *. destruct (deliver_each (rb_publishes b) [] fl0) as [[[]|x] fl1]; simpl in *.
  2: { intros Hl1. by destruct Hrun as [?|?]. }
  run. intros Hl'.
  assert (Hl1 : link_up fl1).
  { destruct (f_replay fl1) as [| |b1]; [done..|]. by destruct (rb_message_count b1 =? 0). }
  destruct (HS Hl1) as (kept & b' & K1 & K2 & K3 & K4 & K5 & K6). clear Hl'.
  assert (Hfl0 : rtc prim fl fl0) by apply rtc_once, pr_replay.
  destruct Hok1 as [_ Hrep]. unfold replay_ok in Hrep. rewrite K1 in *. cbn [app] in K2.
  pose proof (bo_count _ _ Hrep) as Hcnt. rewrite K2 in Hcnt.
  destruct (Z.eqb_spec (rb_message_count b') 0) as [Hz|Hz].
  - assert (kept = []) as -> by (destruct kept; [done|rewrite zlen_cons in Hcnt; pose proof (zlen_nonneg kept); lia]).
    cbn. split; [done|]. split; [apply sublist_nil_l|]. split; [by intros p ?%elem_of_nil|].
    split; [|by split]. intros p Hp. right. destruct (K5 p Hp) as [?%elem_of_nil|Hh]; [done|].
    apply handed_over_replay. by apply (handed_over_earlier p fl fl0).
  - unfold publishes_of. cbn [fst snd]. run. cbn [fst snd]. rewrite K1, K2.
    split; [done|]. split; [done|]. split; [done|]. split.
    + intros p Hp. destruct (K5 p Hp) as [?|Hh]; [by left|right]. by apply (handed_over_earlier p fl fl0).
    + split; [exact K6|]. intros ->. by rewrite zlen_nil in Hcnt.
Qed.

End flow.

Notation replaying := (replaying_if True).

(** ** Concrete flows *)

Definition sample_item (filter_ : str) (auto : bool) : item :=
  (filter_, mkEntry 0 7 auto filter_ None).

Definition sample_index (auto : bool) : SubscriptionIndex :=
  add new_index (lit "a/#") (sample_item (lit "a/#") auto).2.

Definition flow0 (ix : SubscriptionIndex) (present : bool) : Flow unit :=
  (begin_session present (set_engine (inbound_effect ∅ ∅ ix [] true (new_engine V5 EXACTLY_ONCE))
    (new_flow V5 EXACTLY_ONCE None 1 ∅))).2.

Definition incoming (topic : string) (qos : QoS) (pid : option Z) : Publish :=
  mkPublish (lit topic) [x01] qos false false pid None.

Lemma no_queues : empty_queues ∅.
Proof. by intros q qu ?%lookup_empty_Some. Qed.

Lemma reachable_flow0 ix present :
  flow_reachable V5 EXACTLY_ONCE None 1 ∅ (flow0 ix present).
Proof.
  eapply rtc_l; [|apply rtc_once, fs_begin]. apply fs_engine; try done. apply step_inbound.
Qed.

(** A QoS 2 message waits for PUBREL; a message without a subscription waits in the
    replay buffer. *)
Definition flow1 : Flow unit :=
  (handle_publish (incoming "a/b" EXACTLY_ONCE (Some 5)) (flow0 (sample_index true) false)).2.

Definition flow2 : Flow unit :=
  (handle_publish (incoming "x" AT_LEAST_ONCE (Some 6)) (flow0 (sample_index true) true)).2.

Lemma reachable_flow1 : flow_reachable V5 EXACTLY_ONCE None 1 ∅ flow1.
Proof.
  eapply rtc_r; [apply reachable_flow0|]. apply fs_publish; [done|]. exists 5. split; [done|lia].
Qed.

Lemma reachable_flow2 : flow_reachable V5 EXACTLY_ONCE None 1 ∅ flow2.
Proof.
  eapply rtc_r; [apply reachable_flow0|]. apply fs_publish; [done|]. exists 6. split; [done|lia].
Qed.

Lemma flow_refines_engine_witness : reachable V5 EXACTLY_ONCE (f_engine flow1).
Proof. exact (flow_refines_engine _ _ _ _ _ _ reachable_flow1). Defined.

Lemma message_put_once_witness :
  is_Some (inflight_qos2_in (session flow1) !! 5) /\ 5 ∉ pending_ack_qos2_in (session flow1).
Proof.
  assert (Hs : is_Some (inflight_qos2_in (session flow1) !! 5))
    by (vm_compute; eexists; reflexivity).
  split; [exact Hs|].
  exact (proj2 (message_put_once _ _ _ _ _ _ no_queues reachable_flow1) eq_refl 5 Hs).
Defined.

Lemma receive_flight_life_witness :
  exists d, wire (handle_pubrel (mkPubAck 5 0 None) flow1).2 = wire flow1 ++ [d] /\
    encodes flow1 (PPubComp (mkPubAck 5 0 None)) d.
Proof.
  destruct (inflight_qos2_in (session flow1) !! 5) as [f|] eqn:Hf; [|vm_compute in Hf; discriminate Hf].
  destruct (receive_flight_life _ _ _ _ _ flow1 _ 5 f no_queues reachable_flow1
    (fs_pubrel flow1 (mkPubAck 5 0 None) eq_refl ltac:(simpl; lia)) eq_refl Hf) as [H|[_ H]].
  - vm_compute in H. discriminate H.
  - exact H.
Defined.

Lemma qos2_received_exactly_once_witness :
  exists fl1 rec, handle_publish (incoming "a/b" EXACTLY_ONCE (Some 5)) (flow0 (sample_index true) false)
      = (Ok tt, fl1) /\
    encodes (flow0 (sample_index true) false) (PPubRec (mkPubAck 5 0 None)) rec /\
    handle_publish (incoming "a/b" EXACTLY_ONCE (Some 5)) fl1 = (Ok tt, written rec fl1) /\
    exists fl3 m, handle_pubrel (mkPubAck 5 0 None) fl1 = (Ok tt, fl3) /\
      q_put (queue_of fl3 7) = q_put (queue_of fl1 7) ++ [m].
Proof.
  destruct (qos2_received_exactly_once V5 EXACTLY_ONCE None 1 ∅ (flow0 (sample_index true) false)
    (incoming "a/b" EXACTLY_ONCE (Some 5)) 5 (sample_item (lit "a/#") true))
    as (fl1 & rec & m & H1 & _ & H3 & _ & H5 & H6).
  - apply no_queues.
  - apply reachable_flow0.
  - reflexivity.
  - reflexivity.
  - exists 5. split; [reflexivity|lia].
  - reflexivity.
  - reflexivity.
  - split; [reflexivity|]. split; [|reflexivity]. apply not_elem_of_empty.
  - split; [reflexivity|]. split; [vm_compute; reflexivity|exact I].
  - reflexivity.
  - assert (Hl : link_up fl1).
    { replace fl1 with flow1 by (unfold flow1; rewrite H1; reflexivity). reflexivity. }
    assert (Hq : full (queue_of fl1 7) = false).
    { replace fl1 with flow1 by (unfold flow1; rewrite H1; reflexivity). vm_compute. reflexivity. }
    destruct (H6 fl1 (rtc_refl _ _) Hl H5) as [H7 H8].
    destruct (H8 (mkPubAck 5 0 None) eq_refl Hq) as (fl3 & comp & H9 & _ & _ & _ & _ & H10 & _).
    exists fl1, rec. split; [exact H1|]. split; [exact H3|].
    split; [exact (H7 (incoming "a/b" EXACTLY_ONCE (Some 5)) eq_refl eq_refl)|].
    exists fl3, m. split; [exact H9|exact (H10 7%nat)].
Defined.

Lemma manual_ack_qos2_witness :
  exists fl1 m rec fl2,
    handle_publish (incoming "a/b" EXACTLY_ONCE (Some 5)) (flow0 (sample_index false) false)
      = (Ok tt, fl1) /\
    wire fl1 = [] /\ ack m fl1 = (Ok tt, fl2) /\ wire fl2 = [rec] /\ ack m fl2 = (Ok tt, fl2).
Proof.
  destruct (proj1 (manual_ack_qos2 V5 EXACTLY_ONCE None 1 ∅ (flow0 (sample_index false) false)
    no_queues (reachable_flow0 _ _) eq_refl) (incoming "a/b" EXACTLY_ONCE (Some 5)) 5
    (sample_item (lit "a/#") false)) as (fl1 & m & r & H1 & H2 & H3 & _).
  - exists 5. split; [reflexivity|lia].
  - reflexivity.
  - reflexivity.
  - split; [reflexivity|]. split; [|reflexivity]. apply not_elem_of_empty.
  - split; [reflexivity|]. split; [vm_compute; reflexivity|exact I].
  - reflexivity.
  - vm_compute. reflexivity.
  - assert (Hr1 : flow_reachable V5 EXACTLY_ONCE None 1 ∅ fl1).
    { eapply rtc_r; [apply (reachable_flow0 (sample_index false) false)|].
      replace fl1 with (handle_publish (incoming "a/b" EXACTLY_ONCE (Some 5))
        (flow0 (sample_index false) false)).2 by (rewrite H1; reflexivity).
      apply fs_publish; [reflexivity|]. exists 5. split; [reflexivity|lia]. }
    assert (Hl1 : link_up fl1).
    { replace fl1 with (handle_publish (incoming "a/b" EXACTLY_ONCE (Some 5))
        (flow0 (sample_index false) false)).2 by (rewrite H1; reflexivity). vm_compute. reflexivity. }
    destruct (proj2 (manual_ack_qos2 V5 EXACTLY_ONCE None 1 ∅ fl1 no_queues Hr1 Hl1) m 5 r H3)
      as (_ & rec & fl2 & _ & H5 & H6 & _ & _ & H7).
    exists fl1, m, rec, fl2. split; [exact H1|]. split; [exact H2|]. split; [exact H5|].
    split; [rewrite H6, H2; reflexivity|]. exact (proj1 (H7 fl2 (rtc_refl _ _))).
Defined.

Lemma puback_after_delivery_witness :
  exists fl1 m d,
    handle_publish (incoming "a/b" AT_LEAST_ONCE (Some 5)) (flow0 (sample_index true) false)
      = (Ok tt, fl1) /\
    q_put (queue_of fl1 7) = [m] /\ wire fl1 = [d] /\
    encodes (flow0 (sample_index true) false) (PPubAck (mkPubAck 5 0 None)) d.
Proof.
  destruct (puback_after_delivery V5 EXACTLY_ONCE None 1 ∅ (flow0 (sample_index true) false)
    (incoming "a/b" AT_LEAST_ONCE (Some 5)) 5 (sample_item (lit "a/#") true))
    as (fl1 & m & H1 & _ & H3).
  - apply no_queues.
  - apply reachable_flow0.
  - reflexivity.
  - exists 5. split; [reflexivity|lia].
  - reflexivity.
  - reflexivity.
  - reflexivity.
  - split; [reflexivity|]. split; [vm_compute; reflexivity|exact I].
  - change (full (queue_of (flow0 (sample_index true) false) (queue (sample_item (lit "a/#") true).2)))
      with false in H3. cbv iota in H3. change (auto_ack (sample_item (lit "a/#") true).2) with true in H3.
    cbv iota in H3. destruct H3 as (H4 & d & H5 & H6). exists fl1, m, d.
    split; [exact H1|]. split; [exact (H4 7%nat)|]. split; [exact H5|exact H6].
Defined.

Lemma replay_buffer_bounded_witness :
  exists b fl', f_replay flow2 = PersistentReplayBuffered b /\ rb_message_count b = 1 /\
    handle_publish (incoming "y" AT_LEAST_ONCE (Some 8)) flow2 =
      (Err (MQTTProtocolError "Persistent-session replay buffer limit exceeded"), fl').
Proof.
  destruct (f_replay flow2) as [| |b] eqn:Hb; [vm_compute in Hb; discriminate Hb..|].
  destruct (replay_buffer_bounded V5 EXACTLY_ONCE None 1 ∅ flow2 b no_queues reachable_flow2 Hb)
    as (H1 & _ & _ & _ & _ & H6).
  assert (Hc : rb_message_count b = 1) by (vm_compute in Hb; injection Hb as <-; reflexivity).
  destruct (H6 (incoming "y" AT_LEAST_ONCE (Some 8))) as (fl' & H7 & _).
  - exists 8. split; [reflexivity|lia].
  - reflexivity.
  - vm_compute. reflexivity.
  - intros pid [= <-]. split; [vm_compute; reflexivity|].
    split; [apply not_elem_of_empty|vm_compute; reflexivity].
  - lia.
  - exact Hc.
  - exists b, fl'. split; [reflexivity|]. split; [exact Hc|exact H7].
Defined.

Lemma drain_complete_witness :
  (drain flow2).1 = Ok tt /\ publishes_of flow2 = [incoming "x" AT_LEAST_ONCE (Some 6)] /\
  forall p, p ∈ publishes_of (drain flow2).2 -> stuck p (drain flow2).2.
Proof.
  destruct (f_replay flow2) as [| |b] eqn:Hb; [vm_compute in Hb; discriminate Hb..|].
  assert (Hl : link_up (drain flow2).2) by (vm_compute; reflexivity).
  destruct (drain_complete V5 EXACTLY_ONCE None 1 ∅ flow2 b no_queues reachable_flow2 Hb Hl)
    as (H1 & _ & H3 & _).
  split; [exact H1|]. split; [vm_compute; reflexivity|exact H3].
Defined.

(** A message taken with [get_message] is lost when the drain that follows raises: one
    message waits in a queue, another in the replay buffer for a subscription that is
    there now, and the PUBACK of the second cannot be written. *)
Definition capacity_flow : Flow unit :=
  let fl := (handle_publish (incoming "a/b" AT_MOST_ONCE None) flow2).2 in
  set_engine (set_link false (upd_session (fun s =>
    upd_inbound (inflight_qos2_in s) (pending_ack_qos2_in s)
      (add (subscriptions s) (lit "x") (lit "x", mkEntry 1 8 true (lit "x") None).2) s)
    (f_engine fl))) fl.

Example taken_message_lost :
  length (q_items (queue_of capacity_flow 7)) = 1%nat /\
  (get_and_notify 7 capacity_flow).1 = Err OSError /\
  q_items (queue_of (get_and_notify 7 capacity_flow).2 7) = [].
Proof. by vm_compute. Qed.
