(* ===== verification/Connection.v ===== *)
(** * Connecting and reading ([protocol.py])

    The handshake, the dispatch of decoded packets to their handlers, the read loop
    and the way [run] ends.

    A read of the transport delivers bytes, reports that the remote closed, or raises the
    error of a broken connection; the reads are a list.  The loops run until the reads are used up, which is a suspension, and
    say which are left. *)

From S2P Require Import Prelude PyBytes Utf8 PropertyRecords Packets Codec Reader SubscriptionIndex State Routing Protocol Inbound.
Local Open Scope Z_scope.

(** [self._transport.read(4096)] *)
Inductive read_event := Data (data : bytes) | Closed | Broken.

(** The engine, its packet buffer and its flags *)
Record Connection (R : Type) := mkConnection {
  c_flow : Flow R;
  c_buf : PacketBuffer;
  c_disconnecting : bool;
}.
Arguments mkConnection {R}.
Arguments c_flow {R}.
Arguments c_buf {R}.
Arguments c_disconnecting {R}.

Definition set_max_publish_qos (q : QoS) (e : Engine) : Engine :=
  mkEngine (e_session e) (e_version e) (e_dead e) q (e_ping_waiters e) (e_futures e) (e_wire e)
    (e_link e).

Definition connect_error (c : ConnAck) : exn :=
  MQTTConnectError (ca_return_code c) (ca_properties c ≫= cap_reason_string)
    (match ca_properties c with Some p => cap_user_properties p | None => [] end)
    (ca_properties c ≫= cap_server_reference).

(** [QoS(max_qos)], or no limit *)
Definition accepted_qos (version : MQTTVersion) (c : ConnAck) : result QoS :=
  match version, ca_properties c with
  | V5, Some p => match cap_maximum_qos p with None => Ok EXACTLY_ONCE | Some q => qos_of q end
  | _, _ => Ok EXACTLY_ONCE
  end.

Section connection.
Context {R : Type} `{RequestRouter R}.

Notation F := (ST (Flow R)).
Notation C := (ST (Connection R)).

Definition set_flow (fl : Flow R) (c : Connection R) : Connection R :=
  mkConnection fl (c_buf c) (c_disconnecting c).

Definition set_buf (b : PacketBuffer) (c : Connection R) : Connection R :=
  mkConnection (c_flow c) b (c_disconnecting c).

Definition on_flow {A} (m : F A) : C A := zoom c_flow set_flow m.

Definition version_of (fl : Flow R) : MQTTVersion := e_version (f_engine fl).

(** The next packet of [for pkt in self._buf] *)
Definition next_packet : C (option packet) := fun c =>
  match buffer_next (c_buf c) with (r, b) => (r, set_buf b c) end.

(** ** The handshake *)

(** What is done with the CONNACK *)
Definition connack_accepted (ack : ConnAck) : F ConnAck :=
  if negb (ca_return_code ack =? 0) then raise (connect_error ack)
  else
    version ← gets version_of;
    q ← lift (accepted_qos version ack);
    _ ← connection (modify (set_max_publish_qos q));
    _ ← begin_session (ca_session_present ack);
    mret ack.

(** [_await_connack]: the CONNACK and the reads left, or that all reads are used up *)
Fixpoint _await_connack (reads : list read_event) : C (option (ConnAck * list read_event)) :=
  match reads with
  | [] => mret None
  | Closed :: _ => raise (MQTTDisconnectedError "Connection closed by remote")
  | Broken :: _ => raise OSError
  | Data data :: reads' =>
      _ ← modify (fun c => set_buf (feed (c_buf c) data) c);
      pkt ← next_packet;
      match pkt with
      | None => _await_connack reads'
      | Some (PConnAck ack) => ack ← on_flow (connack_accepted ack); mret (Some (ack, reads'))
      | Some _ => raise (MQTTProtocolError "Expected CONNACK")
      end
  end.

(** [connect]: no CONNACK before the timeout is an error *)
Definition connect (p : Connect) (reads : list read_event) : C (ConnAck * list read_event) :=
  _ ← on_flow (connection (send_packet (PConnect p)));
  r ← _await_connack reads;
  match r with
  | Some r => mret r
  | None => raise (MQTTTimeoutError "CONNACK not received within timeout")
  end.

(** ** Dispatch *)

Definition _dispatch (p : packet) : F unit :=
  match p with
  | PPublish p => handle_publish p
  | PPubAck p => connection (_handle_puback p)
  | PPubRec p => connection (_handle_pubrec p)
  | PPubRel p => handle_pubrel p
  | PPubComp p => connection (_handle_pubcomp p)
  | PSubAck p => connection (_handle_suback p)
  | PUnsubAck p => connection (_handle_unsuback p)
  | PPingResp => connection _handle_pingresp
  | PDisconnect _ => raise (MQTTDisconnectedError "Broker sent DISCONNECT")
  | PAuth _ =>
      version ← gets version_of;
      match version with
      | V5 => mret tt
      | V311 => raise (MQTTProtocolError "Received AUTH packet in MQTT 3.1.1 session")
      end
  | PConnect _ | PConnAck _ | PSubscribe _ | PUnsubscribe _ | PPingReq =>
      raise (MQTTProtocolError "Unexpected packet from broker")
  end.

(** ** The read loop *)

(** Why the loop does not run: it waits for data or for room in a queue, or it has
    returned. *)
Inductive loop_state := AwaitsData | AwaitsQueue | LoopReturned.

Definition is_blocked (fl : Flow R) : bool :=
  match f_blocked fl with Some _ => true | None => false end.

(** [for packet in self._buf: await self._dispatch(packet)]: whether the iteration
    ended.  Every packet takes bytes off the buffer, so its length is fuel enough. *)
Fixpoint dispatch_buffered (fuel : nat) : C bool :=
  match fuel with
  | O => raise NonTermination
  | S fuel' =>
      blocked ← gets (fun c => is_blocked (c_flow c));
      if blocked : bool then mret false
      else
        pkt ← next_packet;
        match pkt with
        | None => mret true
        | Some p => _ ← on_flow (_dispatch p); dispatch_buffered fuel'
        end
  end.

Definition dispatch_all : C bool := fun c => dispatch_buffered (S (length (_buf (c_buf c)))) c.

Fixpoint _read_loop (reads : list read_event) : C loop_state :=
  ended ← dispatch_all;
  if negb ended then mret AwaitsQueue
  else
    match reads with
    | [] => mret AwaitsData
    | Closed :: _ =>
        disconnecting ← gets c_disconnecting;
        if disconnecting : bool then mret LoopReturned
        else raise (MQTTDisconnectedError "Connection closed by remote")
    | Broken :: _ => raise OSError
    | Data data :: reads' =>
        _ ← modify (fun c => set_buf (feed (c_buf c) data) c);
        _read_loop reads'
    end.

(** ** The end of a connection *)

(** The end of [run]: the read loop is cancelled, then [_cancel_pending] fails what is
    pending and clears the replay state. *)
Definition run_finally (c : Connection R) : Connection R :=
  let fl := set_blocked None (c_flow c) in
  set_flow (inbound_clear (set_engine (run_exit (f_engine fl)) fl)).2 c.

(** [disconnect]: the packet is sent if that is possible, the transport is closed. *)
Definition disconnect : C unit := fun c =>
  let c1 := mkConnection (c_flow c) (c_buf c) true in
  let c2 := (on_flow (connection (send_packet (PDisconnect (mkDisconnect 0 None)))) c1).2 in
  on_flow (connection abort) c2.

End connection.
