(* ===== verification/ConnectionFacts.v ===== *)
(** * Correctness of connecting and reading

    The read loop serves the stream of packets whatever chunks it arrives in, from the
    handshake on, and never leaves the reachable states of the inbound flow. *)

From S2P Require Import Prelude PyBytes Utf8 Wire PropertyRecords Packets Codec CodecFacts CodecSound Reader SubscriptionIndex State Routing Protocol ProtocolFacts Inbound InboundFacts InboundInv ProtocolFrames Connection.
Local Open Scope Z_scope.

(** ** Decoded packets *)

Lemma decode_publish_received buf flags v p : _decode_publish buf flags v = Ok p -> received p.
Proof.
  unfold _decode_publish. intros Hd. apply bind_Ok in Hd as (qos & _ & Hd).
  apply bind_Ok in Hd as ([topic pos] & _ & Hd). apply bind_Ok in Hd as ([pid pos'] & Hpid & Hd).
  apply bind_Ok in Hd as ([props pos''] & _ & [= <-]). unfold received. simpl.
  destruct qos; simpl in Hpid; [by injection Hpid as <- _|..];
    (destruct (zlen buf <? pos + 2); [done|]);
    apply bind_Ok in Hpid as (i & Hi%unpack_H_range & [= <- _]); by exists i.
Qed.

Lemma decode_pub_ack_range buf v a :
  _decode_pub_ack_variant buf v = Ok a -> 0 <= pa_packet_id a <= 65535.
Proof.
  unfold _decode_pub_ack_variant. intros Hd. destruct (zlen buf <? 2); [done|].
  apply bind_Ok in Hd as (pid & Hpid%unpack_H_range & Hd).
  destruct (_ && _); res_inv; done.
Qed.

(** What the handlers rely on: decoded packet identifiers are 16-bit, and only QoS 0
    comes without one. *)
Definition decoded (p : packet) : Prop :=
  match p with
  | PPublish p => received p
  | PPubRel a => 0 <= pa_packet_id a <= 65535
  | _ => True
  end.

Lemma decode_decoded buf v p n : decode buf v = Ok (Some (p, n)) -> decoded p.
Proof.
  unfold decode. intros Hd. destruct (zlen buf <? 2); [done|]. res_inv.
  destruct v2; simpl in E2; try (apply fmap_Ok in E2 as (x & Hx & ->)); try (by injection E2 as <-);
    try done; simpl; [by eapply decode_publish_received|by eapply decode_pub_ack_range].
Qed.

Lemma buffer_next_decoded b p b' : buffer_next b = (Ok (Some p), b') -> decoded p.
Proof.
  unfold buffer_next. destruct (decode _ _) as [[[q n]|]|] eqn:Hd; try done. intros [= <- _].
  by eapply decode_decoded.
Qed.

Lemma ack_handler_step p m e : ack_handler p = Some m -> step e (m e).2.
Proof. destruct p; intros [= <-]; constructor. Qed.

Section connection.
Context {R : Type} `{RequestRouter R}.

Notation F := (ST (Flow R)).
Implicit Types (fl : Flow R) (c : Connection R).

(** ** Serving a stream of packets *)

(** The packets are handled in order until one raises or suspends the loop; after the
    last one the loop waits for data, or fails with what ended the stream. *)
Fixpoint serve (ps : list packet) (e : option exn) : F loop_state :=
  blocked ← gets is_blocked;
  if blocked : bool then mret AwaitsQueue
  else
    match ps with
    | [] => match e with None => mret AwaitsData | Some x => raise x end
    | p :: ps' => _ ← _dispatch p; serve ps' e
    end.

Lemma serve_cons p ps e fl :
  serve (p :: ps) e fl =
    if is_blocked fl then (Ok AwaitsQueue, fl)
    else match _dispatch p fl with
         | (Ok _, fl') => serve ps e fl'
         | (Err x, fl') => (Err x, fl')
         end.
Proof. cbn [serve]. run. by destruct (is_blocked fl). Qed.

Lemma serve_app ps qs e fl :
  serve (ps ++ qs) e fl =
    match serve ps None fl with
    | (Ok AwaitsData, fl') => serve qs e fl'
    | r => r
    end.
Proof.
  revert fl; induction ps as [|p ps IH]; intros fl; cbn [app].
  - cbn [serve]. run. destruct (is_blocked fl) eqn:Hb; [|done].
    destruct qs; cbn [serve]; run; by rewrite Hb.
  - rewrite !serve_cons. destruct (is_blocked fl); [done|].
    destruct (_dispatch p fl) as [[]fl']; [apply IH|done].
Qed.

Lemma serve_last (pk : packet) fl :
  f_blocked fl = None ->
  serve [pk] None fl =
    match _dispatch pk fl with
    | (Ok _, fl') => if is_blocked fl' then (Ok AwaitsQueue, fl') else (Ok AwaitsData, fl')
    | (Err x, fl') => (Err x, fl')
    end.
Proof.
  intros Hb. rewrite serve_cons. unfold is_blocked at 1. rewrite Hb.
  destruct (_dispatch pk fl) as [[u|x] fl']; [|done]. cbn [serve]. run. by destruct (is_blocked fl').
Qed.

Lemma serve_one_packet (pk : packet) fl fl' :
  f_blocked fl = None -> _dispatch pk fl = (Ok tt, fl') -> f_blocked fl' = None ->
  serve [pk] None fl = (Ok AwaitsData, fl').
Proof. intros Hb Hd Hb'. rewrite serve_last, Hd by done. unfold is_blocked. by rewrite Hb'. Qed.

(** *** One pass over the buffer *)

Lemma dispatch_buffered_fuel f1 f2 c :
  (length (_buf (c_buf c)) < f1)%nat -> (length (_buf (c_buf c)) < f2)%nat ->
  dispatch_buffered f1 c = dispatch_buffered f2 c.
Proof.
  revert f2 c; induction f1 as [|f1 IH]; intros [|f2] c H1 H2; [lia..|]. cbn [dispatch_buffered].
  run. destruct (is_blocked (c_flow c)); [done|]. unfold next_packet. run.
  destruct (buffer_next (c_buf c)) as [[[p|]|] b] eqn:Hn; [|done..]. apply buffer_next_len in Hn.
  run. unfold on_flow, zoom. simpl. destruct (_dispatch p (c_flow c)) as [[] fl]; [|done].
  apply IH; simpl; lia.
Qed.

(** The equation of the Python loop, without fuel *)
Lemma dispatch_all_eq c :
  dispatch_all c =
    if is_blocked (c_flow c) then (Ok false, c)
    else match buffer_next (c_buf c) with
         | (Err e, b) => (Err e, set_buf b c)
         | (Ok None, b) => (Ok true, set_buf b c)
         | (Ok (Some p), b) =>
             match _dispatch p (c_flow c) with
             | (Ok _, fl) => dispatch_all (set_flow fl (set_buf b c))
             | (Err x, fl) => (Err x, set_flow fl (set_buf b c))
             end
         end.
Proof.
  unfold dispatch_all at 1. cbn [dispatch_buffered]. run.
  destruct (is_blocked (c_flow c)); [done|]. unfold next_packet. run.
  destruct (buffer_next (c_buf c)) as [[[p|]|] b] eqn:Hn; [|done..]. apply buffer_next_len in Hn.
  run. unfold on_flow, zoom. simpl. destruct (_dispatch p (c_flow c)) as [[] fl]; [|done].
  apply dispatch_buffered_fuel; simpl; lia.
Qed.

(** How a pass over the buffer looks from outside *)
Definition pass_state (r : result bool) : result loop_state :=
  match r with Ok true => Ok AwaitsData | Ok false => Ok AwaitsQueue | Err x => Err x end.

Lemma dispatch_all_serve c :
  let '(ps, e, b) := packets_of (c_buf c) in
  let '(r, c') := dispatch_all c in
  serve ps e (c_flow c) = (pass_state r, c_flow c') /\
  c_disconnecting c' = c_disconnecting c /\
  (r = Ok true -> e = None /\ c_buf c' = b).
Proof.
  remember (c_buf c) as b0 eqn:Hb0. revert c Hb0.
  induction b0 as [b0 IH] using buffer_ind. intros c Hb0.
  rewrite (packets_of_eq b0), dispatch_all_eq, <- Hb0.
  destruct (buffer_next b0) as [[[p|]|x] b1] eqn:Hn.
  - specialize (IH p b1 eq_refl). destruct (packets_of b1) as [[ps e] b] eqn:Hp.
    rewrite serve_cons. destruct (is_blocked (c_flow c)); [done|].
    destruct (_dispatch p (c_flow c)) as [[u|x] fl]; [|done].
    exact (IH (set_flow fl (set_buf b1 c)) eq_refl).
  - cbn [serve]. run. by destruct (is_blocked (c_flow c)).
  - cbn [serve]. run. by destruct (is_blocked (c_flow c)).
Qed.

(** *** All passes *)

Lemma read_loop_stream c chunks :
  let '(ps, e, _) := packets_of (feed (c_buf c) (concat chunks)) in
  let '(r, c') := _read_loop (Data <$> chunks) c in
  serve ps e (c_flow c) = (r, c_flow c').
Proof.
  revert c; induction chunks as [|data chunks IH]; intros c.
  - cbn [concat fmap list_fmap _read_loop]. rewrite feed_nil. pose proof (dispatch_all_serve c) as HS.
    run. destruct (packets_of (c_buf c)) as [[ps e] b]. destruct (dispatch_all c) as [r c'].
    destruct HS as [-> _]. by destruct r as [[]|].
  - cbn [concat fmap list_fmap _read_loop]. pose proof (dispatch_all_serve c) as HS.
    pose proof (packets_of_feed (c_buf c) (data ++ concat chunks)) as HF.
    run. destruct (packets_of (c_buf c)) as [[ps0 e0] b0].
    destruct (dispatch_all c) as [r c1].
    destruct (packets_of (feed (c_buf c) (data ++ concat chunks))) as [[ps e] b].
    destruct HS as (HS & _ & Hb). destruct r as [[]|x]; cbn [negb]; cbn iota.
    + destruct (Hb eq_refl) as [-> <-]. run.
      specialize (IH (set_buf (feed (c_buf c1) data) c1)).
      simpl c_buf in IH. simpl c_flow in IH. rewrite feed_feed in IH.
      destruct (packets_of (feed (c_buf c1) (data ++ concat chunks))) as [[rs e1] b1].
      injection HF as -> -> ->. destruct (_read_loop _ _) as [r c']. by rewrite serve_app, HS.
    + destruct e0 as [x|]; [destruct HF as [-> ->]; exact HS|].
      destruct (packets_of (feed b0 (data ++ concat chunks))) as [[rs e1] b1].
      injection HF as -> -> ->. by rewrite serve_app, HS.
    + destruct e0 as [x0|]; [destruct HF as [-> ->]; exact HS|].
      destruct (packets_of (feed b0 (data ++ concat chunks))) as [[rs e1] b1].
      injection HF as -> -> ->. by rewrite serve_app, HS.
Qed.

(** C30: the read loop serves the stream.  However TCP cuts the bytes into reads, it
    handles exactly the packets of the buffered and the received bytes, in order, each
    by its handler, up to the first exception or suspension; a malformed packet raises
    only after the packets before it were handled. *)
Theorem read_loop_serves_stream c chunks :
  let '(ps, e, _) := packets_of (feed (c_buf c) (concat chunks)) in
  let '(r, c') := _read_loop (Data <$> chunks) c in
  serve ps e (c_flow c) = (r, c_flow c').
Proof. apply read_loop_stream. Qed.

(** ** The handshake *)

(** The reads up to the one that completes the first packet *)
Lemma await_first chunks : forall c p b,
  buffer_next (c_buf c) = (Ok None, c_buf c) ->
  buffer_next (feed (c_buf c) (concat chunks)) = (Ok (Some p), b) ->
  exists chunks' b1, feed b1 (concat chunks') = b /\
    _await_connack (Data <$> chunks) c =
      match p with
      | PConnAck ack =>
          (ack ← on_flow (connack_accepted ack); mret (Some (ack, Data <$> chunks'))) (set_buf b1 c)
      | _ => (Err (MQTTProtocolError "Expected CONNACK"), set_buf b1 c)
      end.
Proof.
  induction chunks as [|data chunks IH]; intros c p b Hnone Hp.
  { simpl in Hp. rewrite feed_nil, Hnone in Hp. done. }
  cbn [fmap list_fmap _await_connack]. run. unfold next_packet. simpl c_buf.
  cbn [concat] in Hp. rewrite <- feed_feed in Hp.
  pose proof (buffer_next_feed (feed (c_buf c) data) (concat chunks)) as HF.
  destruct (buffer_next (feed (c_buf c) data)) as [[[p1|]|x] b1] eqn:Hn.
  - rewrite HF in Hp. injection Hp as <- <-. exists chunks, b1. split; [done|].
    change (set_buf b1 (set_buf (feed (c_buf c) data) c)) with (set_buf b1 c).
    by destruct p1.
  - subst b1. destruct (IH (set_buf (feed (c_buf c) data) c) p b Hn Hp) as (chunks' & b1 & H1 & H2).
    exists chunks', b1. split; [done|]. exact H2.
  - by rewrite HF in Hp.
Qed.

(** Not even one packet: the handshake waits until its timeout. *)
Lemma await_none chunks : forall c,
  buffer_next (feed (c_buf c) (concat chunks)) = (Ok None, feed (c_buf c) (concat chunks)) ->
  exists c', _await_connack (Data <$> chunks) c = (Ok None, c') /\ c_flow c' = c_flow c.
Proof.
  induction chunks as [|data chunks IH]; intros c Hn; [by exists c|].
  cbn [fmap list_fmap _await_connack]. run. unfold next_packet. simpl c_buf.
  cbn [concat] in Hn. rewrite <- feed_feed in Hn.
  pose proof (buffer_next_feed (feed (c_buf c) data) (concat chunks)) as HF.
  destruct (buffer_next (feed (c_buf c) data)) as [[[p1|]|x] b1] eqn:Hb.
  - by rewrite HF in Hn.
  - subst b1. destruct (IH (set_buf (feed (c_buf c) data) c) Hn) as (c' & H1 & H2).
    exists c'. split; [exact H1|done].
  - by rewrite HF in Hn.
Qed.

(** A malformed first packet raises what [decode] raises. *)
Lemma await_error chunks : forall c x b,
  buffer_next (c_buf c) = (Ok None, c_buf c) ->
  buffer_next (feed (c_buf c) (concat chunks)) = (Err x, b) ->
  (_await_connack (Data <$> chunks) c).1 = Err x.
Proof.
  induction chunks as [|data chunks IH]; intros c x b Hnone Hn.
  { simpl in Hn. by rewrite feed_nil, Hnone in Hn. }
  cbn [fmap list_fmap _await_connack]. run. unfold next_packet. simpl c_buf.
  cbn [concat] in Hn. rewrite <- feed_feed in Hn.
  pose proof (buffer_next_feed (feed (c_buf c) data) (concat chunks)) as HF.
  destruct (buffer_next (feed (c_buf c) data)) as [[[p1|]|y] b1] eqn:Hb.
  - by rewrite HF in Hn.
  - subst b1. exact (IH (set_buf (feed (c_buf c) data) c) x b Hb Hn).
  - rewrite HF in Hn. by injection Hn as -> _.
Qed.

(** What an accepted CONNACK does to the flow *)
Definition accepted (q : QoS) (present : bool) (fl : Flow R) : Flow R :=
  set_replay (if present then PersistentReplayIdle else NoSessionReplay)
    (set_engine (set_max_publish_qos q (f_engine fl)) fl).

Lemma connack_accepted_eq ack fl :
  connack_accepted ack fl =
    if ca_return_code ack =? 0 then
      match accepted_qos (version_of fl) ack with
      | Ok q => (Ok ack, accepted q (ca_session_present ack) fl)
      | Err x => (Err x, fl)
      end
    else (Err (connect_error ack), fl).
Proof.
  unfold connack_accepted. destruct (ca_return_code ack =? 0); [|done]. cbn [negb]. run.
  unfold lift. by destruct (accepted_qos (version_of fl) ack).
Qed.

Definition sent_connect (data : bytes) (c : Connection R) : Connection R :=
  set_flow (set_engine (write data (f_engine (c_flow c))) (c_flow c)) c.

(** CONNECT is written first, or the exception of the encoder or of the transport is
    raised. *)
Lemma connect_eq p reads c :
  connect p reads c =
    match encode (PConnect p) (version_of (c_flow c)) with
    | Err x => (Err x, c)
    | Ok data =>
        if e_link (f_engine (c_flow c)) then
          match _await_connack reads (sent_connect data c) with
          | (Ok (Some r), c') => (Ok r, c')
          | (Ok None, c') => (Err (MQTTTimeoutError "CONNACK not received within timeout"), c')
          | (Err x, c') => (Err x, c')
          end
        else (Err OSError, c)
    end.
Proof.
  unfold connect. rewrite run_bind. unfold on_flow, connection, zoom, send_packet, _encode.
  run. unfold lift, version_of. destruct (encode _ _) as [data|x]; [|by destruct c as [[]]].
  unfold _send. destruct (e_link _); [|by destruct c as [[]]]. rewrite run_bind.
  change (set_flow _ _) with (sent_connect data c).
  by destruct (_await_connack reads (sent_connect data c)) as [[[r|]|x] c'].
Qed.

(** The handshake.  CONNECT is the first thing written; then the first packet of
    the stream decides, in whatever reads it arrives: a CONNACK that accepts sets the
    Maximum QoS and the replay state of the session and is returned, one that refuses
    raises its error, any other packet is a protocol error, and a stream without a
    whole packet times out.  Nothing that follows the CONNACK is lost: the read loop
    then serves the rest of the stream. *)
Theorem handshake_outcome p v router size queues chunks data :
  let c := mkConnection (new_flow v EXACTLY_ONCE router size queues) (new_buffer v) false in
  encode (PConnect p) v = Ok data ->
  let fl0 := c_flow (sent_connect data c) in
  e_wire (f_engine fl0) = [data] /\
  match buffer_next (feed (new_buffer v) (concat chunks)) with
  | (Ok None, _) =>
      (connect p (Data <$> chunks) c).1 = Err (MQTTTimeoutError "CONNACK not received within timeout")
  | (Err x, _) => (connect p (Data <$> chunks) c).1 = Err x
  | (Ok (Some (PConnAck ack)), b) =>
      if ca_return_code ack =? 0 then
        match accepted_qos v ack with
        | Err x => (connect p (Data <$> chunks) c).1 = Err x
        | Ok q =>
            exists reads c', connect p (Data <$> chunks) c = (Ok (ack, reads), c') /\
              c_flow c' = accepted q (ca_session_present ack) fl0 /\
              let '(ps, e, _) := packets_of b in
              let '(r, c2) := _read_loop reads c' in
              serve ps e (c_flow c') = (r, c_flow c2)
        end
      else (connect p (Data <$> chunks) c).1 = Err (connect_error ack)
  | (Ok (Some _), _) =>
      (connect p (Data <$> chunks) c).1 = Err (MQTTProtocolError "Expected CONNACK")
  end.
Proof.
  intros c Henc fl0. split; [done|].
  assert (Hc : connect p (Data <$> chunks) c =
    match _await_connack (Data <$> chunks) (sent_connect data c) with
    | (Ok (Some r), c') => (Ok r, c')
    | (Ok None, c') => (Err (MQTTTimeoutError "CONNACK not received within timeout"), c')
    | (Err x, c') => (Err x, c')
    end).
  { rewrite connect_eq. change (version_of (c_flow c)) with v. by rewrite Henc. }
  rewrite Hc. clear Hc.
  destruct (buffer_next (feed (new_buffer v) (concat chunks))) as [[[pk|]|x] b] eqn:Hn.
  - destruct (await_first chunks (sent_connect data c) pk b) as (chunks' & b1 & Hb & ->); [done|done|].
    destruct pk as [| ack | | | | | | | | | | | | |]; try done.
    rewrite run_bind. unfold on_flow, zoom. simpl c_flow. rewrite connack_accepted_eq.
    change (version_of _) with v. destruct (ca_return_code ack =? 0); [|done].
    destruct (accepted_qos v ack) as [q|x]; [|done].
    eexists _, _. split; [done|]. split; [done|].
    pose proof (read_loop_stream (set_flow (accepted q (ca_session_present ack) fl0)
      (set_buf b1 (sent_connect data c))) chunks') as HS.
    simpl c_buf in HS. by rewrite Hb in HS.
  - assert (b = feed (new_buffer v) (concat chunks)) as ->.
    { pose proof (buffer_next_feed (feed (new_buffer v) (concat chunks)) []) as HF. by rewrite Hn in HF. }
    destruct (await_none chunks (sent_connect data c) Hn) as (c' & -> & _). done.
  - pose proof (await_error chunks (sent_connect data c) x b eq_refl Hn) as He.
    destruct (_await_connack _ _) as [[[r|]|y] c']; simpl in *; congruence.
Qed.

(** ** Whatever the broker sends *)

Lemma dispatch_ack p m fl :
  ack_handler p = Some m -> _dispatch p fl = connection m fl.
Proof. by destruct p; intros [= <-]. Qed.

Lemma dispatch_steps p fl :
  decoded p -> is_blocked fl = false -> rtc flow_step fl (_dispatch p fl).2.
Proof.
  intros Hd Hb. assert (f_blocked fl = None) as Hnb.
  { unfold is_blocked in Hb. by destruct (f_blocked fl). }
  destruct (ack_handler p) as [m|] eqn:Hm.
  - rewrite (dispatch_ack p m) by done. rewrite connection_eq. apply rtc_once.
    destruct (ack_handler_outbound p m Hm (f_engine fl)) as (H1 & H2 & _ & H3).
    apply fs_engine; [by eapply ack_handler_step|done|done|]. unfold link_up. congruence.
  - destruct p; try done; simpl.
    + apply rtc_once. by apply fs_publish.
    + apply rtc_once. by apply fs_pubrel.
    + unfold version_of. run. by destruct (e_version (f_engine fl)).
Qed.

Lemma dispatch_all_steps c : rtc flow_step (c_flow c) (c_flow (dispatch_all c).2).
Proof.
  remember (c_buf c) as b0 eqn:Hb0. revert c Hb0.
  induction b0 as [b0 IH] using buffer_ind. intros c Hb0.
  rewrite dispatch_all_eq, <- Hb0. destruct (is_blocked (c_flow c)) eqn:Hbl; [done|].
  destruct (buffer_next b0) as [[[p|]|x] b1] eqn:Hn; [|done..].
  pose proof (dispatch_steps p (c_flow c) (buffer_next_decoded _ _ _ Hn) Hbl) as Hst.
  destruct (_dispatch p (c_flow c)) as [[u|x] fl]; [|done]. etrans; [exact Hst|].
  exact (IH p b1 eq_refl (set_flow fl (set_buf b1 c)) eq_refl).
Qed.

Lemma read_loop_steps reads : forall c, rtc flow_step (c_flow c) (c_flow (_read_loop reads c).2).
Proof.
  induction reads as [|ev reads IH]; intros c; cbn [_read_loop]; rewrite run_bind;
    pose proof (dispatch_all_steps c) as Hst; destruct (dispatch_all c) as [[[]|x] c1]; try done.
  destruct ev as [data| |].
  - run. etrans; [exact Hst|]. exact (IH (set_buf (feed (c_buf c1) data) c1)).
  - simpl. run. destruct (c_disconnecting c1); exact Hst.
  - exact Hst.
Qed.

Lemma await_accepts reads : forall c ack rest c',
  _await_connack reads c = (Ok (Some (ack, rest)), c') ->
  ca_return_code ack = 0 /\
  exists q, accepted_qos (version_of (c_flow c)) ack = Ok q /\
    c_flow c' = accepted q (ca_session_present ack) (c_flow c).
Proof.
  induction reads as [|[data| |] reads IH]; intros c ack rest c'; [done| |done..].
  cbn [_await_connack]. run. unfold next_packet. simpl c_buf.
  destruct (buffer_next (feed (c_buf c) data)) as [[[p|]|x] b1]; [| |done].
  - destruct p as [| ack1 | | | | | | | | | | | | |]; try done.
    rewrite run_bind. unfold on_flow, zoom. simpl c_flow. rewrite connack_accepted_eq.
    destruct (Z.eqb_spec (ca_return_code ack1) 0) as [Hz|]; [|done].
    destruct (accepted_qos _ ack1) as [q|] eqn:Hq; [|done]. intros [= <- _ <-].
    split; [done|]. by exists q.
  - intros Hr. exact (IH (set_buf b1 (set_buf (feed (c_buf c) data) c)) ack rest c' Hr).
Qed.

(** The state after the handshake is one the flow can reach. *)
Lemma accepted_reachable v router size queues q present data :
  let fl := set_engine (write data (new_engine v EXACTLY_ONCE)) (new_flow v EXACTLY_ONCE router size queues) in
  flow_reachable v q router size queues (accepted q present fl).
Proof.
  eapply rtc_l.
  - eapply (fs_engine _ (inbound_effect ∅ ∅ new_index [data] true (new_engine v q)));
      [apply step_inbound|done|done|done].
  - apply rtc_once. apply (fs_begin _ present).
Qed.

(** C31: whatever the broker sends, in whatever reads, the connection stays in the
    states for which the guarantees of the engine and of the inbound flow are proved:
    after an accepted handshake, after any number of reads of the read loop (up to an
    exception too), and after the exit of [run]. *)
Theorem session_stays_reachable p v router size queues reads ack rest c1 :
  connect p reads (mkConnection (new_flow v EXACTLY_ONCE router size queues) (new_buffer v) false)
    = (Ok (ack, rest), c1) ->
  ca_return_code ack = 0 /\
  exists q, accepted_qos v ack = Ok q /\
    flow_reachable v q router size queues (c_flow c1) /\
    forall reads', let c2 := (_read_loop reads' c1).2 in
      flow_reachable v q router size queues (c_flow c2) /\
      flow_reachable v q router size queues (c_flow (run_finally c2)).
Proof.
  rewrite connect_eq.
  change (version_of (c_flow (mkConnection (new_flow v _ router size queues) _ _))) with v.
  destruct (encode (PConnect p) v) as [data|x]; [|done].
  destruct (_await_connack reads _) as [[[[ack1 rest1]|]|x] c'] eqn:Hw; [|done..].
  intros [= -> -> ->]. apply await_accepts in Hw as (Hz & q & Hq & Hfl). split; [done|].
  exists q. split; [exact Hq|].
  assert (Hr : flow_reachable v q router size queues (c_flow c1)).
  { rewrite Hfl. apply accepted_reachable. }
  split; [done|]. intros reads' c2.
  assert (Hr2 : flow_reachable v q router size queues (c_flow c2)).
  { unfold flow_reachable. etrans; [exact Hr|apply read_loop_steps]. }
  split; [done|]. eapply rtc_r; [exact Hr2|exact (fs_exit (c_flow c2))].
Qed.

End connection.

(** ** A concrete connection *)

Definition sample_connect : Connect := mkConnect (lit "c") true 60 None None None None.

(** CONNACK, then an unsolicited PINGRESP, cut in the middle of the CONNACK *)
Definition sample_chunks : list bytes := [[x20; x03; x00]; [x00; x00; xd0]; [x00]].

Definition fresh_connection : Connection unit :=
  mkConnection (new_flow V5 EXACTLY_ONCE None 1 ∅) (new_buffer V5) false.

Lemma handshake_outcome_witness :
  exists ack reads c', connect sample_connect (Data <$> sample_chunks) fresh_connection
    = (Ok (ack, reads), c') /\ ca_return_code ack = 0.
Proof.
  destruct (encode (PConnect sample_connect) V5) as [data|] eqn:Henc;
    [|vm_compute in Henc; discriminate Henc].
  pose proof (handshake_outcome sample_connect V5 (@None unit) 1 ∅ sample_chunks data Henc) as [_ H].
  destruct (buffer_next (feed (new_buffer V5) (concat sample_chunks))) as [r b] eqn:Hn.
  vm_compute in Hn. injection Hn as <- <-. simpl in H.
  destruct H as (reads & c' & H & _). exists (mkConnAck false 0 None), reads, c'.
  split; [exact H|reflexivity].
Defined.

Lemma session_stays_reachable_witness :
  exists ack rest c1,
    connect sample_connect (Data <$> sample_chunks) fresh_connection = (Ok (ack, rest), c1) /\
    flow_reachable V5 EXACTLY_ONCE None 1 ∅ (c_flow (_read_loop rest c1).2).
Proof.
  destruct (connect sample_connect (Data <$> sample_chunks) fresh_connection) as [[[ack rest]|x] c1] eqn:Hc;
    [|vm_compute in Hc; discriminate Hc].
  exists ack, rest, c1. split; [reflexivity|].
  destruct (session_stays_reachable sample_connect V5 None 1 ∅ _ ack rest c1 Hc) as (_ & q & Hq & _ & H).
  assert (q = EXACTLY_ONCE) as ->.
  { vm_compute in Hc. injection Hc as <- _ _. vm_compute in Hq. by injection Hq as <-. }
  exact (proj1 (H rest)).
Defined.
