(* ===== verification/Answers.v ===== *)
(** * What the broker answers to published messages

    The outbound handshakes as the broker sees them: what it owes for each open PUBLISH,
    and any stream of its answers, in any order and any chunks, on the read loop. *)

From stdpp Require Import fin_sets.
From S2P Require Import Prelude PyBytes Utf8 PropertyRecords Packets Codec CodecFacts CodecSound Reader SubscriptionIndex State Routing Protocol ProtocolFacts ProtocolFrames Inbound InboundFacts InboundInv Delivery Connection ConnectionFacts.
Local Open Scope Z_scope.

#[local] Arguments encode : simpl never.
#[local] Arguments canon : simpl never.

(** ** What is owed *)

Inductive debt := OwesPubAck | OwesPubRec | OwesPubComp.

Definition debt_of (st : OutboundQoS2State) : debt :=
  match st with PENDING_PUBREC => OwesPubRec | PENDING_PUBCOMP => OwesPubComp end.

(** The answers the session waits for, by packet identifier *)
Definition debts (s : SessionState) : gmap Z debt :=
  ((fun _ => OwesPubAck) <$> inflight_qos1 s) ∪
  ((fun fl => debt_of (q2_state fl)) <$> inflight_qos2_out s).

(** What is owed after the answer [p]; [None]: [p] is not owed.  A PUBCOMP ends the
    exchange even where the PUBREC is missing. *)
Definition pays (p : packet) (d : gmap Z debt) : option (gmap Z debt) :=
  match p with
  | PPubAck a =>
      match d !! pa_packet_id a with
      | Some OwesPubAck => Some (delete (pa_packet_id a) d)
      | _ => None
      end
  | PPubRec a =>
      match d !! pa_packet_id a with
      | Some OwesPubRec =>
          Some (if 0x80 <=? pa_reason_code a then delete (pa_packet_id a) d
                else <[pa_packet_id a := OwesPubComp]> d)
      | _ => None
      end
  | PPubComp a =>
      match d !! pa_packet_id a with
      | Some OwesPubRec | Some OwesPubComp => Some (delete (pa_packet_id a) d)
      | _ => None
      end
  | _ => None
  end.

Fixpoint pays_all (ps : list packet) (d : gmap Z debt) : option (gmap Z debt) :=
  match ps with
  | [] => Some d
  | p :: ps => d' ← pays p d; pays_all ps d'
  end.

(** The identifier the answer [p] closes, and what the caller gets *)
Definition closes_with (p : packet) : option (Z * fut_state) :=
  match p with
  | PPubAck a => Some (pa_packet_id a, Result (VPubAck a))
  | PPubRec a =>
      if 0x80 <=? pa_reason_code a then Some (pa_packet_id a, Failed (_publish_error a)) else None
  | PPubComp a => Some (pa_packet_id a, Result (VPubComp a))
  | _ => None
  end.

(** What the answers [ps] say about the identifier [x], if they close it *)
Fixpoint verdict (x : Z) (ps : list packet) : option fut_state :=
  match ps with
  | [] => None
  | p :: ps =>
      match closes_with p with
      | Some (y, st) => if decide (x = y) then Some st else verdict x ps
      | None => verdict x ps
      end
  end.

(** The packets the client sends for an answer *)
Definition replies (p : packet) : list packet :=
  match p with
  | PPubRec a => if 0x80 <=? pa_reason_code a then [] else [PPubRel (mkPubAck (pa_packet_id a) 0 None)]
  | _ => []
  end.

(** ** One answer *)

Lemma qos1_alone e x fl :
  engine_ok e -> inflight_qos1 (e_session e) !! x = Some fl -> inflight_qos2_out (e_session e) !! x = None.
Proof.
  intros He H1. destruct (inflight_qos2_out (e_session e) !! x) as [fl2|] eqn:H2; [|done].
  destruct (so_uniq _ _ (eo_session _ He) KQos1 x (q1_future fl) KQos2 x (q2_future fl2)) as [? _];
    simpl; rewrite ?H1, ?H2; by auto.
Qed.

Lemma lookup_debts e x :
  engine_ok e ->
  debts (e_session e) !! x =
    match inflight_qos2_out (e_session e) !! x with
    | Some fl => Some (debt_of (q2_state fl))
    | None => (fun _ => OwesPubAck) <$> inflight_qos1 (e_session e) !! x
    end.
Proof.
  intros He. unfold debts. rewrite lookup_union, !lookup_fmap.
  destruct (inflight_qos1 (e_session e) !! x) as [fl|] eqn:H1; simpl.
  - by rewrite (qos1_alone e x fl).
  - by destruct (inflight_qos2_out (e_session e) !! x).
Qed.

(** What became of the exchanges when the answers [ps] were served *)
Record answered (ps : list packet) (e e' : Engine) : Prop := {
  an_debts : pays_all ps (debts (e_session e)) = Some (debts (e_session e'));
  an_exchanges : forall k x, exchange (e_session e') k x =
    if verdict x ps then None else exchange (e_session e) k x;
  an_in_use : forall x, x ∈ _in_use (packet_ids (e_session e')) <->
    x ∈ _in_use (packet_ids (e_session e)) /\ verdict x ps = None;
  an_futures : forall k x f, exchange (e_session e) k x = Some f ->
    fut f e' = match verdict x ps with
               | Some st => if fut_done (fut f e) then fut f e else st
               | None => fut f e
               end;
  an_others : forall f, (forall k x, exchange (e_session e) k x <> Some f) -> fut f e' = fut f e;
  an_wire : exists ds, e_wire e' = e_wire e ++ ds /\
    Forall2 (fun p d => decode d (e_version e) = Ok (Some (p, zlen d))) (ps ≫= replies) ds;
  an_link : e_link e' = e_link e;
  an_version : e_version e' = e_version e;
}.

Section closed.
Context (k : kind) (pid : Z) (rm : SessionState -> SessionState) (e : Engine) (f : nat).
Context (Hcl : closes k pid rm) (Hf : exchange (e_session e) k pid = Some f) (He : engine_ok e).

Let e' (st : fut_state) : Engine := set_future f st (upd_session rm e).

Lemma fut_closed st g :
  fut g (e' st) = if decide (f = g) then if fut_done (fut g e) then fut g e else st else fut g e.
Proof.
  unfold e', set_future. change (fut f (upd_session rm e)) with (fut f e).
  destruct (fut_done (fut f e)) eqn:Hd.
  - case_decide; [subst; by rewrite Hd|done].
  - rewrite fut_insert. case_decide; [subst; by rewrite Hd|done].
Qed.

Lemma exchange_closed st k' x :
  exchange (e_session (e' st)) k' x = if decide (x = pid) then None else exchange (e_session e) k' x.
Proof.
  unfold e'. rewrite session_set_future. change (e_session (upd_session rm e)) with (rm (e_session e)).
  rewrite (cl_exchange _ _ _ Hcl). case_decide as H1; [destruct H1 as [-> ->]; by rewrite decide_True|].
  case_decide as H2; [|done]. subst x. destruct (exchange (e_session e) k' pid) as [g|] eqn:Hg; [|done].
  destruct H1. split; [|done]. eapply (so_uniq _ _ (eo_session _ He) k' pid g k pid f); eauto.
Qed.

(** A closing answer *)
Lemma answered_close p st :
  closes_with p = Some (pid, st) -> replies p = [] ->
  pays p (debts (e_session e)) = Some (debts (rm (e_session e))) ->
  answered [p] e (e' st).
Proof.
  intros Hp Hr Hd. split; simpl; rewrite ?Hp, ?Hr, ?Hd.
  - unfold e'. by rewrite session_set_future.
  - intros k' x. rewrite exchange_closed. by case_decide.
  - intros x. unfold e'. rewrite session_set_future.
    change (e_session (upd_session rm e)) with (rm (e_session e)).
    rewrite (cl_ids _ _ _ Hcl). simpl. rewrite elem_of_difference, elem_of_singleton.
    case_decide; naive_solver.
  - intros k' x g Hg. rewrite fut_closed. destruct (decide (f = g)) as [<-|Hne].
    + destruct (so_uniq _ _ (eo_session _ He) k' x f k pid f Hg Hf) as [_ ->]; [by right|].
      by rewrite decide_True.
    + case_decide; [|done]. subst x. destruct Hne.
      destruct (so_uniq _ _ (eo_session _ He) k' pid g k pid f Hg Hf) as [-> _]; [by left|]. congruence.
  - intros g Hg. rewrite fut_closed. case_decide; [|done]. subst g. by destruct (Hg k pid).
  - exists []. unfold e'. by rewrite wire_set_future, app_nil_r.
  - unfold e', set_future. by destruct (fut_done _).
  - unfold e', set_future. by destruct (fut_done _).
Qed.

End closed.

Lemma debts_drop_qos1 e x fl :
  engine_ok e -> inflight_qos1 (e_session e) !! x = Some fl ->
  debts (drop_qos1 x (e_session e)) = delete x (debts (e_session e)).
Proof.
  intros He Hx. pose proof (engine_ok_close _ _ _ (q1_future fl) e (closes_qos1 x)) as Hok.
  simpl in Hok. rewrite Hx in Hok. specialize (Hok eq_refl He). apply map_eq. intros y.
  rewrite (lookup_debts (upd_session (drop_qos1 x) e)) by done. simpl.
  rewrite !lookup_delete, (lookup_debts e y He). case_decide as Hy; [|done]. subst y.
  by rewrite (qos1_alone e x fl).
Qed.

Lemma debts_drop_qos2 e x fl :
  engine_ok e -> inflight_qos2_out (e_session e) !! x = Some fl ->
  debts (drop_qos2 x (e_session e)) = delete x (debts (e_session e)).
Proof.
  intros He Hx. pose proof (engine_ok_close _ _ _ (q2_future fl) e (closes_qos2 x)) as Hok.
  simpl in Hok. rewrite Hx in Hok. specialize (Hok eq_refl He). apply map_eq. intros y.
  rewrite (lookup_debts (upd_session (drop_qos2 x) e)) by done. simpl.
  rewrite !lookup_delete, (lookup_debts e y He). case_decide as Hy; [|done]. subst y.
  destruct (inflight_qos1 (e_session e) !! x) as [fl1|] eqn:H1; [|done].
  by rewrite (qos1_alone e x fl1) in Hx.
Qed.

(** The PUBREC of a waiting flight *)
Definition relayed (x : Z) (fl : OutboundQoS2Flight) (data : bytes) (e : Engine) : Engine :=
  write data (upd_session (upd_qos2 <[x := to_pubcomp fl]>) e).

Lemma exchange_relayed x fl data e k y :
  inflight_qos2_out (e_session e) !! x = Some fl ->
  exchange (e_session (relayed x fl data e)) k y = exchange (e_session e) k y.
Proof.
  intros Hx. destruct k; try done. simpl. rewrite lookup_insert. case_decide; [|done].
  subst y. by rewrite Hx.
Qed.

Lemma engine_ok_relayed x fl data e :
  engine_ok e -> inflight_qos2_out (e_session e) !! x = Some fl -> engine_ok (relayed x fl data e).
Proof.
  intros [Hs Hf] Hx. split.
  - apply (session_ok_same _ _ Hs); [done| |done]. intros k y. by apply exchange_relayed.
  - destruct Hf as [F1 F2]. split; [exact F1|]. intros y fl'. simpl. rewrite lookup_insert.
    case_decide; [|apply F2]. intros [= <-]. subst y. by apply F2 in Hx.
Qed.

Lemma debts_relayed x fl data e :
  engine_ok e -> inflight_qos2_out (e_session e) !! x = Some fl ->
  debts (e_session (relayed x fl data e)) = <[x := OwesPubComp]> (debts (e_session e)).
Proof.
  intros He Hx. apply map_eq. intros y.
  rewrite (lookup_debts (relayed x fl data e)) by (by apply engine_ok_relayed). simpl.
  rewrite !lookup_insert. case_decide; [done|]. by rewrite lookup_debts.
Qed.

Lemma answered_relay a fl data e :
  engine_ok e -> inflight_qos2_out (e_session e) !! pa_packet_id a = Some fl ->
  q2_state fl = PENDING_PUBREC -> pa_reason_code a < 0x80 ->
  encode (PPubRel (mkPubAck (pa_packet_id a) 0 None)) (e_version e) = Ok data ->
  answered [PPubRec a] e (relayed (pa_packet_id a) fl data e).
Proof.
  intros He Hx Hst Hrc Hd. assert (Hlt : (128 <=? pa_reason_code a) = false) by lia.
  split; cbn [pays_all pays verdict closes_with replies mbind list_bind app].
  - rewrite (lookup_debts e) by done. rewrite Hx, Hst, Hlt. simpl debt_of. cbn iota.
    by rewrite <- (debts_relayed _ fl data).
  - intros k x. rewrite Hlt. by apply exchange_relayed.
  - intros x. rewrite Hlt. simpl. tauto.
  - intros k x f _. by rewrite Hlt.
  - done.
  - rewrite Hlt. exists [data]. split; [done|]. constructor; [|constructor].
    rewrite <- (app_nil_r data) at 1. rewrite (decode_encode _ _ _ [] Hd). by destruct (e_version e).
  - done.
  - done.
Qed.

Lemma answer_puback a e d :
  engine_ok e -> pays (PPubAck a) (debts (e_session e)) = Some d ->
  exists e', _handle_puback a e = (Ok tt, e') /\ answered [PPubAck a] e e'.
Proof.
  intros He Hp. pose proof (puback_eq a e) as HE. simpl in Hp. rewrite (lookup_debts e) in Hp by done.
  destruct (inflight_qos2_out (e_session e) !! _) as [fl2|]; [by destruct (q2_state fl2)|].
  destruct (inflight_qos1 (e_session e) !! _) as [fl|] eqn:Hx; [|done].
  eexists. split; [exact HE|].
  apply (answered_close KQos1 (pa_packet_id a)); [apply closes_qos1|by simpl; rewrite Hx|done..|].
  simpl. rewrite (lookup_debts e), Hx by done.
  destruct (inflight_qos2_out (e_session e) !! _) as [fl2|] eqn:H2.
  - by rewrite (qos1_alone e _ fl) in H2.
  - simpl. by rewrite (debts_drop_qos1 e _ fl).
Qed.

Lemma owed_qos2 e x d :
  engine_ok e -> debts (e_session e) !! x = Some d -> d <> OwesPubAck ->
  exists fl, inflight_qos2_out (e_session e) !! x = Some fl /\ debt_of (q2_state fl) = d.
Proof.
  intros He. rewrite lookup_debts by done.
  destruct (inflight_qos2_out (e_session e) !! x) as [fl|]; [intros [= <-]; eauto|].
  destruct (inflight_qos1 (e_session e) !! x); [|done]. by intros [= <-].
Qed.

(** Answers that close a QoS 2 exchange *)
Lemma answered_qos2 p x fl st e :
  engine_ok e -> inflight_qos2_out (e_session e) !! x = Some fl ->
  closes_with p = Some (x, st) -> replies p = [] ->
  pays p (debts (e_session e)) = Some (delete x (debts (e_session e))) ->
  answered [p] e (set_future (q2_future fl) st (upd_session (drop_qos2 x) e)).
Proof.
  intros He Hx Hc Hr Hp. apply (answered_close KQos2 x); [apply closes_qos2|by simpl; rewrite Hx|done..|].
  by rewrite (debts_drop_qos2 e x fl).
Qed.

Lemma answer_pubcomp a e d :
  engine_ok e -> pays (PPubComp a) (debts (e_session e)) = Some d ->
  exists e', _handle_pubcomp a e = (Ok tt, e') /\ answered [PPubComp a] e e'.
Proof.
  intros He Hp. pose proof (pubcomp_eq a e) as HE. pose proof Hp as Hp'. cbn [pays] in Hp'.
  destruct (debts (e_session e) !! _) as [dt|] eqn:Hdt; [|done].
  destruct (owed_qos2 e (pa_packet_id a) dt He Hdt) as (fl & Hx & _); [by intros ->|].
  rewrite Hx in HE. eexists. split; [exact HE|].
  apply answered_qos2; [done..|]. rewrite Hp. destruct dt; congruence.
Qed.

Lemma answer_pubrec a e d :
  engine_ok e -> e_link e = true -> pays (PPubRec a) (debts (e_session e)) = Some d ->
  exists e', _handle_pubrec a e = (Ok tt, e') /\ answered [PPubRec a] e e'.
Proof.
  intros He Hl Hp. pose proof Hp as Hp'. cbn [pays] in Hp'.
  destruct (debts (e_session e) !! _) as [dt|] eqn:Hdt; [|done].
  destruct dt; try done.
  destruct (owed_qos2 e (pa_packet_id a) _ He Hdt) as (fl & Hx & Hst); [done|].
  assert (Hst' : q2_state fl = PENDING_PUBREC) by (by destruct (q2_state fl)).
  destruct (encode_pubrel (pa_packet_id a) (e_version e)) as (data & Hdata).
  { pose proof (so_pool _ _ (eo_session _ He)) as Hpool.
    enough (1 <= pa_packet_id a <= 65535) by lia. apply (pool_range _ Hpool).
    apply (so_used _ _ (eo_session _ He)). exists KQos2, (q2_future fl). simpl. by rewrite Hx. }
  pose proof (pubrec_eq a e fl data Hx Hst' Hl Hdata) as HE. eexists. split; [exact HE|].
  destruct (Z.leb_spec 0x80 (pa_reason_code a)) as [Hrc|Hrc].
  - assert (Hle : (0x80 <=? pa_reason_code a) = true) by lia.
    apply answered_qos2; [done..|by simpl; rewrite Hle|by simpl; rewrite Hle|]. rewrite Hp.
    congruence.
  - by apply answered_relay.
Qed.

Lemma answer_step p e d :
  engine_ok e -> e_link e = true -> pays p (debts (e_session e)) = Some d ->
  exists m e', ack_handler p = Some m /\ m e = (Ok tt, e') /\ answered [p] e e' /\ engine_ok e'.
Proof.
  intros He Hl Hp. destruct p as [| | |a|a| |a| | | | | | | |]; try done.
  - destruct (answer_puback a e d He Hp) as (e' & H1 & H2). exists (_handle_puback a), e'.
    pose proof (handle_puback_preserves a e He) as H3. by rewrite H1 in H3.
  - destruct (answer_pubrec a e d He Hl Hp) as (e' & H1 & H2). exists (_handle_pubrec a), e'.
    pose proof (handle_pubrec_preserves a e He) as H3. by rewrite H1 in H3.
  - destruct (answer_pubcomp a e d He Hp) as (e' & H1 & H2). exists (_handle_pubcomp a), e'.
    pose proof (handle_pubcomp_preserves a e He) as H3. by rewrite H1 in H3.
Qed.

(** ** Many answers *)

Lemma answered_nil e : answered [] e e.
Proof. split; try done; [naive_solver|]. exists []. by rewrite app_nil_r. Qed.

Lemma verdict_cons x p ps :
  verdict x (p :: ps) = match verdict x [p] with Some st => Some st | None => verdict x ps end.
Proof. simpl. destruct (closes_with p) as [[y st]|]; [by case_decide|done]. Qed.

(** A settled exchange is no longer open, so its future stays as it is. *)
Lemma answered_cons p ps e e1 e2 :
  engine_ok e -> answered [p] e e1 -> answered ps e1 e2 -> answered (p :: ps) e e2.
Proof.
  intros He [A1 A2 A3 A4 A5 (ds1 & A6 & A7) A8 A9] [B1 B2 B3 B4 B5 (ds2 & B6 & B7) B8 B9]. split.
  - simpl in *. destruct (pays p _) as [d|]; [|done]. simpl in *. by injection A1 as ->.
  - intros k x. rewrite verdict_cons, B2, A2. by destruct (verdict x [p]), (verdict x ps).
  - intros x. rewrite verdict_cons, B3, A3. by destruct (verdict x [p]); naive_solver.
  - intros k x f Hf. rewrite verdict_cons. destruct (verdict x [p]) as [st|] eqn:Hv.
    + rewrite B5; [by rewrite (A4 k x f), Hv|]. intros k' x' Hf'. rewrite A2 in Hf'.
      destruct (verdict x' [p]) eqn:Hv'; [done|].
      destruct (so_uniq _ _ (eo_session _ He) k x f k' x' f Hf Hf') as [_ ->]; [by right|]. congruence.
    + rewrite (B4 k x f); [|by rewrite A2, Hv]. by rewrite (A4 k x f), Hv.
  - intros f Hf. rewrite B5; [by apply A5|]. intros k x. rewrite A2.
    destruct (verdict x [p]); [done|apply Hf].
  - exists (ds1 ++ ds2). rewrite B6, A6, app_assoc. split; [done|]. rewrite bind_cons.
    apply Forall2_app; [by rewrite bind_cons, app_nil_r in A7|]. by rewrite <- A9.
  - congruence.
  - congruence.
Qed.

(** ** Answers that nobody waits for *)

(** The packets of the outbound handshakes *)
Definition is_answer (p : packet) : Prop :=
  match p with PPubAck _ | PPubRec _ | PPubComp _ => True | _ => False end.

Lemma unowed_raises p e :
  engine_ok e -> is_answer p -> pays p (debts (e_session e)) = None ->
  exists m msg, ack_handler p = Some m /\ m e = (Err (MQTTProtocolError msg), e).
Proof.
  intros He Hi Hp. destruct p as [| | |a|a| |a| | | | | | | |]; try done; cbn [pays] in Hp.
  - exists (_handle_puback a). eexists. split; [done|]. rewrite puback_eq.
    destruct (inflight_qos1 (e_session e) !! _) as [fl|] eqn:H1; [|done].
    rewrite (lookup_debts e), (qos1_alone e _ fl He H1), H1 in Hp by done. done.
  - exists (_handle_pubrec a). unfold _handle_pubrec. rewrite run_bind. simpl.
    rewrite (lookup_debts e) in Hp by done.
    destruct (inflight_qos2_out (e_session e) !! _) as [fl|] eqn:H2; [|by eexists].
    destruct (q2_state fl); [done|]. by eexists.
  - exists (_handle_pubcomp a). eexists. split; [done|]. rewrite pubcomp_eq.
    destruct (inflight_qos2_out (e_session e) !! _) as [fl|] eqn:H2; [|done].
    rewrite (lookup_debts e), H2 in Hp by done. by destruct (q2_state fl).
Qed.

Section flow.
Context {R : Type} `{RequestRouter R, !RouterLaws R}.

Implicit Types (fl : Flow R) (ps : list packet).

(** ** On the read loop *)

(** The first answer nobody waits for ends the loop; the ones before it are served. *)
Definition refused ps fl (r : result loop_state) fl' : Prop :=
  exists qs p rest d msg e', ps = qs ++ p :: rest /\
    pays_all qs (debts (session fl)) = Some d /\ pays p d = None /\
    r = Err (MQTTProtocolError msg) /\ fl' = set_engine e' fl /\ answered qs (f_engine fl) e'.

(** Every answer is owed when it arrives: all are served. *)
Definition answers_served ps fl (r : result loop_state) fl' : Prop :=
  exists e', r = Ok AwaitsData /\ fl' = set_engine e' fl /\ answered ps (f_engine fl) e'.

Lemma serve_answers ps : forall fl,
  engine_ok (f_engine fl) -> link_up fl -> f_blocked fl = None -> Forall is_answer ps ->
  let '(r, fl') := serve ps None fl in
  match pays_all ps (debts (session fl)) with
  | Some _ => answers_served ps fl r fl'
  | None => refused ps fl r fl'
  end.
Proof.
  induction ps as [|p ps IH]; intros fl He Hl Hb Hps.
  - cbn [serve pays_all]. run. unfold is_blocked. rewrite Hb. exists (f_engine fl).
    split; [done|]. split; [by destruct fl|apply answered_nil].
  - apply Forall_cons in Hps as [Hp Hps]. rewrite serve_cons. unfold is_blocked. rewrite Hb.
    cbn [pays_all]. destruct (pays p (debts (session fl))) as [d|] eqn:Hd; simpl.
    + destruct (answer_step p (f_engine fl) d He Hl Hd) as (m & e1 & Hm & Hrun & Ha & He1).
      rewrite (dispatch_ack p m), connection_eq, Hrun by done. cbn [fst snd].
      specialize (IH (set_engine e1 fl) He1). pose proof (an_debts _ _ _ Ha) as Hd1.
      simpl in Hd1. fold (session fl) in Hd1. rewrite Hd in Hd1. injection Hd1 as ->.
      destruct (serve ps None (set_engine e1 fl)) as [r fl'].
      change (session (set_engine e1 fl)) with (e_session e1) in IH.
      assert (Hl1 : link_up (set_engine e1 fl)) by (unfold link_up; simpl; by rewrite (an_link _ _ _ Ha)).
      specialize (IH Hl1 Hb Hps). destruct (pays_all ps (debts (e_session e1))).
      * destruct IH as (e2 & -> & -> & Ha2). exists e2. split; [done|]. split; [done|].
        by apply (answered_cons p ps _ e1).
      * destruct IH as (qs & q & rest & d2 & msg & e2 & -> & H1 & H2 & -> & -> & Ha2).
        exists (p :: qs), q, rest, d2, msg, e2. split; [done|]. cbn [pays_all]. rewrite Hd.
        split; [done|]. split; [done|]. split; [done|]. split; [done|].
        by apply (answered_cons p qs _ e1).
    + destruct (unowed_raises p (f_engine fl) He Hp Hd) as (m & msg & Hm & Hrun).
      rewrite (dispatch_ack p m), connection_eq, Hrun by done. cbn [fst snd].
      exists [], p, ps, (debts (session fl)), msg, (f_engine fl).
      do 4 (split; [done|]). split; [done|apply answered_nil].
Qed.

Lemma is_answer_canon v p : is_answer p -> is_answer (canon v p).
Proof. by destruct p. Qed.

(** C4: the broker's answers to what was published.  Let [ps] be any PUBACK, PUBREC
    and PUBCOMP packets, whatever their order, identifiers and reason codes, whose bytes
    TCP cuts anyhow.  If each of them is owed when it arrives, the read loop serves them
    all and waits for more: exactly the exchanges they close are closed and their
    identifiers freed, the callers of these get the answers unless they are done, all
    other futures stay, and one PUBREL is written per positive PUBREC, in order.
    Otherwise the answers before the first that is not owed are served so, and the loop
    raises [MQTTProtocolError]. *)
Theorem answers_complete_exchanges v mq router size queues (c : Connection R) ps bs chunks :
  flow_reachable v mq router size queues (c_flow c) ->
  c_buf c = new_buffer v -> f_blocked (c_flow c) = None -> link_up (c_flow c) ->
  Forall is_answer ps -> res_mapM (fun p => encode p v) ps = Ok bs ->
  concat chunks = concat bs ->
  let '(r, c') := _read_loop (Data <$> chunks) c in
  match pays_all (canon v <$> ps) (debts (session (c_flow c))) with
  | Some _ => answers_served (canon v <$> ps) (c_flow c) r (c_flow c')
  | None => refused (canon v <$> ps) (c_flow c) r (c_flow c')
  end.
Proof.
  intros Hreach Hbuf Hb Hl Hps Hbs Hch.
  pose proof (reachable_ok _ _ _ (flow_reachable_engine _ _ _ _ _ _ Hreach)) as He.
  pose proof (serve_answers (canon v <$> ps) (c_flow c) He Hl Hb) as HS.
  pose proof (read_loop_stream c chunks) as HL. rewrite Hbuf, Hch in HL.
  unfold feed in HL. cbn [new_buffer _buf _version app] in HL.
  rewrite <- (app_nil_r (concat bs)), (packets_of_encoded v _ bs []) in HL by done.
  destruct (_read_loop _ c) as [r c']. rewrite HL in HS. apply HS.
  apply Forall_fmap. eapply Forall_impl; [exact Hps|]. apply is_answer_canon.
Qed.

End flow.

(** ** A concrete stream *)

(** Two messages are published, the answers to them come interleaved. *)
Definition publishing : Connection unit :=
  mkConnection (set_engine engine2 (new_flow V5 EXACTLY_ONCE None 1 ∅)) (new_buffer V5) false.

Lemma reachable_publishing : flow_reachable V5 EXACTLY_ONCE None 1 ∅ (c_flow publishing).
Proof.
  eapply rtc_l; [|apply rtc_once].
  - apply (fs_engine _ engine1); [apply step_publish|done..].
  - apply (fs_engine (set_engine engine1 _) engine2); [apply step_publish|done..].
Qed.

Definition sample_answers : list packet :=
  [PPubRec (mkPubAck 2 0 None); PPubAck (mkPubAck 1 16 None); PPubComp (mkPubAck 2 0 None)].

Definition sample_answer_bytes : list bytes :=
  match res_mapM (fun p => encode p V5) sample_answers with Ok bs => bs | Err _ => [] end.

Lemma answers_complete_exchanges_witness :
  exists f g c', exchange (session (c_flow publishing)) KQos1 1 = Some f /\
    exchange (session (c_flow publishing)) KQos2 2 = Some g /\
    _read_loop (Data <$> [take 3 (concat sample_answer_bytes); drop 3 (concat sample_answer_bytes)])
      publishing = (Ok AwaitsData, c') /\
    fut f (f_engine (c_flow c')) = Result (VPubAck (mkPubAck 1 16 None)) /\
    fut g (f_engine (c_flow c')) = Result (VPubComp (mkPubAck 2 0 None)).
Proof.
  pose proof (answers_complete_exchanges V5 EXACTLY_ONCE None 1 ∅ publishing sample_answers
    sample_answer_bytes [take 3 (concat sample_answer_bytes); drop 3 (concat sample_answer_bytes)]
    reachable_publishing eq_refl eq_refl eq_refl ltac:(by repeat constructor)
    ltac:(vm_compute; reflexivity) ltac:(vm_compute; reflexivity)) as HS.
  destruct (_read_loop _ publishing) as [r c'].
  destruct (pays_all _ _) as [d|] eqn:Hd;
    [|apply (f_equal (fun o : option (gmap Z debt) => if o then true else false)) in Hd;
      vm_compute in Hd; discriminate Hd].
  destruct HS as (e' & -> & He & Ha).
  destruct (exchange (session (c_flow publishing)) KQos1 1) as [f|] eqn:Hf;
    [|vm_compute in Hf; discriminate Hf].
  destruct (exchange (session (c_flow publishing)) KQos2 2) as [g|] eqn:Hg;
    [|vm_compute in Hg; discriminate Hg].
  exists f, g, c'. do 3 (split; [reflexivity|]). rewrite He. split.
  - etransitivity; [exact (an_futures _ _ _ Ha KQos1 1 f Hf)|]. vm_compute in Hf.
    injection Hf as <-. vm_compute. reflexivity.
  - etransitivity; [exact (an_futures _ _ _ Ha KQos2 2 g Hg)|]. vm_compute in Hg.
    injection Hg as <-. vm_compute. reflexivity.
Defined.
