(* ===== verification/EndToEnd.v ===== *)
(** * From bytes to the application

    The whole receiving path at once: bytes from the broker, in whatever reads, through
    the packet buffer, the decoder, the dispatch, the index and the receive handshakes
    into the queues of the subscriptions, and the acknowledgements back on the wire. *)

From stdpp Require Import fin_sets.
From S2P Require Import Prelude PyBytes Utf8 PropertyRecords Packets Codec CodecFacts CodecSound Reader SubscriptionIndex State Routing Protocol ProtocolFacts Inbound InboundFacts InboundInv Delivery Connection ConnectionFacts.
Local Open Scope Z_scope.

#[local] Arguments encode : simpl never.
#[local] Arguments canon : simpl never.
#[local] Arguments send_packet : simpl never.
#[local] Arguments select : simpl never.
#[local] Arguments select_by_identifier : simpl never.

(** ** What the broker sends *)

(** A PUBLISH as its receiver decodes it *)
Definition as_received (v : MQTTVersion) (p : Publish) : Publish :=
  mkPublish (pb_topic p) (pb_payload p) (pb_qos p) (pb_retain p) (pb_dup p)
    (if bool_decide (pb_qos p <> AT_MOST_ONCE) then pb_packet_id p else None)
    (canon_props v publish_dict (pb_properties p)).

Lemma canon_publish v p : canon v (PPublish p) = PPublish (as_received v p).
Proof. done. Qed.

Definition packet_id_of (p : Publish) : Z := default 0 (pb_packet_id p).

Definition ack_of (p : Publish) : PubAck := mkPubAck (packet_id_of p) 0 None.

(** The packets of the broker for one message, and those that answer them *)
Definition sends (p : Publish) : list packet :=
  match pb_qos p with
  | EXACTLY_ONCE => [PPublish p; PPubRel (ack_of p)]
  | _ => [PPublish p]
  end.

Definition answers (p : Publish) : list packet :=
  match pb_qos p with
  | AT_MOST_ONCE => []
  | AT_LEAST_ONCE => [PPubAck (ack_of p)]
  | EXACTLY_ONCE => [PPubRec (ack_of p); PPubComp (ack_of p)]
  end.

Section receiving.
Context {R : Type} `{RequestRouter R, !RouterLaws R}.

Implicit Types (fl : Flow R) (p : Publish) (ms : list (Publish * item)).

(** ** A connection that receives *)

(** The read loop runs, writes succeed, and no message waits to be replayed. *)
Record receiving fl : Prop := {
  rc_runs : f_blocked fl = None;
  rc_link : link_up fl;
  rc_replay : forall b, f_replay fl <> PersistentReplayBuffered b;
}.

(** The decoded PUBLISH [p] is for the subscription [it], which acknowledges
    automatically: no pending request waits for it, the index selects [it], and its
    packet identifier is free if it is of QoS 2. *)
Record destined fl p (it : item) : Prop := {
  ds_unclaimed : match f_router fl with
    | Some r => forall m, (claim m (_make_message p) r).1 = None
    | None => True
    end;
  ds_selected : recipient (_select_subscription (subscriptions (session fl)) p) = Some it;
  ds_auto_ack : auto_ack it.2 = true;
  ds_unused : pb_qos p = EXACTLY_ONCE ->
    inflight_qos2_in (session fl) !! packet_id_of p = None /\
    packet_id_of p ∉ pending_ack_qos2_in (session fl);
}.

Definition for_queue (q : nat) ms : list Publish :=
  omap (fun x => if decide (queue x.2.2 = q) then Some x.1 else None) ms.

(** The queues have room for all of [ms]. *)
Definition room fl ms : Prop :=
  forall q, q_maxsize (queue_of fl q) <= 0 \/
    zlen (q_items (queue_of fl q)) + zlen (for_queue q ms) <= q_maxsize (queue_of fl q).

(** ** One message *)

Definition write_all (ds : list bytes) (e : Engine) : Engine := foldl (fun e d => write d e) e ds.

Lemma write_all_fields ds e :
  e_session (write_all ds e) = e_session e /\ e_link (write_all ds e) = e_link e /\
  e_version (write_all ds e) = e_version e /\ e_wire (write_all ds e) = e_wire e ++ ds.
Proof.
  revert e; induction ds as [|d ds IH]; intros e; simpl; [by rewrite app_nil_r|].
  destruct (IH (write d e)) as (-> & -> & -> & ->). simpl. by rewrite <- app_assoc.
Qed.

(** The message [p] arrived: a new message object in the queue of [it], the answers on
    the wire, and nothing else. *)
Record handed fl p (it : item) (ds : list bytes) fl' : Prop := {
  hd_messages : f_messages fl' = <[new_ref fl := mkMessageObject (_make_message p) None false]> (f_messages fl);
  hd_queues : forall q, queue_of fl' q =
    if decide (queue it.2 = q)
    then mkQueue (q_maxsize (queue_of fl q)) (q_put (queue_of fl q) ++ [new_ref fl]) (q_taken (queue_of fl q))
    else queue_of fl q;
  hd_engine : f_engine fl' = write_all ds (f_engine fl);
  hd_router : f_router fl' = f_router fl;
  hd_replay : f_replay fl' = f_replay fl;
  hd_runs : f_blocked fl' = None;
}.

Lemma offered_refused fl p it :
  destined fl p it -> offered p fl = (None, f_router fl).
Proof.
  intros [Hu _ _ _]. unfold offered. destruct (f_router fl) as [r|]; [|done].
  specialize (Hu (new_ref fl)). destruct (claim (new_ref fl) (_make_message p) r) as [c r'] eqn:Hc.
  simpl in Hu. subst c. by apply claim_refused in Hc as ->.
Qed.

Lemma destined_goes_to fl p it : receiving fl -> destined fl p it -> goes_to p fl it.
Proof.
  intros Hr Hd. split; [by rewrite (offered_refused fl p it)|]. split; [apply Hd|].
  destruct (f_replay fl) as [| |b] eqn:Hb; [done|done|]. by destruct (rc_replay _ Hr b).
Qed.

Lemma not_replayed fl pid : receiving fl -> replay_contains_packet_id (f_replay fl) pid = false.
Proof. intros Hr. destruct (f_replay fl) as [| |b] eqn:Hb; try done. by destruct (rc_replay _ Hr b). Qed.

Lemma room_not_full fl p it ms :
  room fl ((p, it) :: ms) -> full (queue_of fl (queue it.2)) = false.
Proof.
  intros Hr. specialize (Hr (queue it.2)). unfold for_queue in Hr. cbn [omap list_omap fst snd] in Hr.
  rewrite decide_True in Hr by done. rewrite zlen_cons in Hr. unfold full.
  pose proof (zlen_nonneg (for_queue (queue it.2) ms)). unfold for_queue in *.
  destruct (Z.ltb_spec 0 (q_maxsize (queue_of fl (queue it.2)))); [|done]. simpl. lia.
Qed.

(** The state after the selection, and after the put *)
Lemma handed_put fl p it :
  f_blocked fl = None -> destined fl p it ->
  handed fl p it [] (with_put (queue it.2) (new_ref fl) (after_select p fl)).
Proof.
  intros Hr Hd. split; try done; [|simpl; by rewrite (offered_refused fl p it)].
  intros q. rewrite queue_of_put. by case_decide; subst.
Qed.

(** More writes *)
Lemma handed_written fl p it ds fl' d :
  handed fl p it ds fl' -> handed fl p it (ds ++ [d]) (written d fl').
Proof.
  intros [H1 H2 H3 H4 H5 H6]. split; try done. simpl. rewrite H3. unfold write_all.
  by rewrite foldl_app.
Qed.

Lemma deliver_room fl p it fl1 :
  full (queue_of fl1 (queue it.2)) = false -> auto_ack it.2 = true -> forall cb k,
  _deliver (to_item fl it) cb k fl1 = run_after k (with_put (queue it.2) (new_ref fl) fl1).
Proof.
  intros Hf Ha cb k. rewrite deliver_eq. cbn [to_item request subscription message].
  unfold with_callback. cbn [to_item request subscription]. destruct cb; rewrite ?Ha, put_eq, Hf; done.
Qed.

Lemma serve_qos0 fl p it ms :
  receiving fl -> destined fl p it -> pb_qos p = AT_MOST_ONCE -> room fl ((p, it) :: ms) ->
  exists fl', serve [PPublish p] None fl = (Ok AwaitsData, fl') /\ handed fl p it [] fl'.
Proof.
  intros Hr Hd Hq Hroom. eexists. pose proof (handed_put fl p it (rc_runs _ Hr) Hd) as Hh. split; [|exact Hh].
  apply serve_one_packet; [apply Hr| |apply Hh]. simpl. unfold handle_publish. rewrite Hq, run_bind.
  rewrite (goes_to_select p fl it) by (by apply destined_goes_to).
  rewrite (deliver_room fl p it); [done|by eapply room_not_full|apply Hd].
Qed.

Lemma serve_qos1 fl p it pid ms :
  receiving fl -> destined fl p it -> pb_qos p = AT_LEAST_ONCE ->
  pb_packet_id p = Some pid -> 0 <= pid <= 65535 -> room fl ((p, it) :: ms) ->
  exists d fl', serve [PPublish p] None fl = (Ok AwaitsData, fl') /\ handed fl p it [d] fl' /\
    encodes fl (PPubAck (mkPubAck pid 0 None)) d.
Proof.
  intros Hr Hd Hq Hpid Hp Hroom. pose proof (room_not_full fl p it ms Hroom) as Hf.
  destruct (put_puback (queue it.2) (new_ref fl) pid (after_select p fl)) as (d & Hdec & Hput);
    [done|apply Hr|done|].
  exists d. eexists. pose proof (handed_written _ _ _ _ _ d (handed_put fl p it (rc_runs _ Hr) Hd)) as Hh.
  split; [|split; [exact Hh|exact Hdec]].
  apply serve_one_packet; [apply Hr| |apply Hh]. simpl.
  rewrite (handle_publish_qos1 p pid it) by (done || by apply not_replayed || by apply destined_goes_to).
  unfold _deliver_qos1_publish. rewrite Hpid. unfold recipient_auto_ack. cbn [to_item request subscription].
  rewrite (ds_auto_ack _ _ _ Hd). rewrite put_eq in Hput.
  change (queue_of (after_select p fl)) with (queue_of fl) in Hput. rewrite Hf in Hput.
  rewrite (deliver_room fl p it); [exact Hput|exact Hf|apply Hd].
Qed.

Lemma upd_flights_back fl pid f :
  inflight_qos2_in (session fl) !! pid = None ->
  upd_flights_in (delete pid) (upd_flights_in <[pid := f]> fl) = fl.
Proof.
  intros Hn. unfold upd_flights_in, session in *. destruct fl as [[[] ? ? ? ? ? ? ?] ? ? ? ? ? ? ?].
  unfold set_engine, upd_session, upd_inbound. simpl in *. by rewrite delete_insert_id.
Qed.

Lemma serve_qos2 fl p it pid ms :
  receiving fl -> destined fl p it -> pb_qos p = EXACTLY_ONCE ->
  pb_packet_id p = Some pid -> 0 <= pid <= 65535 -> room fl ((p, it) :: ms) ->
  exists rec comp fl', serve [PPublish p; PPubRel (mkPubAck pid 0 None)] None fl = (Ok AwaitsData, fl') /\
    handed fl p it [rec; comp] fl' /\
    encodes fl (PPubRec (mkPubAck pid 0 None)) rec /\ encodes fl (PPubComp (mkPubAck pid 0 None)) comp.
Proof.
  intros Hr Hd Hq Hpid Hp Hroom. destruct (ds_unused _ _ _ Hd Hq) as [Hu1 Hu2].
  unfold packet_id_of in Hu1, Hu2. rewrite Hpid in Hu1, Hu2. simpl in Hu1, Hu2.
  destruct (ack_bytes (PPubRec (mkPubAck pid 0 None)) pid fl) as (rec & Hrec & Hdrec);
    [by split; [|right; left]|].
  destruct (ack_bytes (PPubComp (mkPubAck pid 0 None)) pid fl) as (comp & Hcomp & Hdcomp);
    [by split; [|right; right]|].
  pose proof (rc_link _ Hr) as Hl.
  set (flight := mkInFlight pid (to_item fl it) false).
  set (fl1 := written rec (upd_flights_in <[pid := flight]> (after_select p fl))).
  set (fl2 := written comp (written rec (after_select p fl))).
  assert (H1 : handle_publish p fl = (Ok tt, fl1)).
  { apply handle_publish_pubrec; [done..| |by apply destined_goes_to|apply Hd|done|exact Hl|exact Hrec].
    split; [done|]. split; [done|by apply not_replayed]. }
  assert (H2 : handle_pubrel (mkPubAck pid 0 None) fl1 =
    _deliver (to_item fl it) None AfterNothing fl2).
  { rewrite (pubrel_eq (mkPubAck pid 0 None) fl1 flight comp);
      [|exact (lookup_insert_eq (inflight_qos2_in (session fl)) pid flight)|done|exact Hcomp].
    change (e_link (f_engine fl1)) with (e_link (f_engine fl)). unfold link_up in Hl. rewrite Hl.
    change (in_delivered flight) with false. cbn iota. cbn [pa_packet_id].
    change (upd_flights_in (delete pid) fl1) with (written rec
      (upd_flights_in (delete pid) (upd_flights_in <[pid := flight]> (after_select p fl)))).
    by rewrite upd_flights_back. }
  exists rec, comp, (with_put (queue it.2) (new_ref fl) fl2).
  pose proof (handed_written _ _ _ _ _ comp (handed_written _ _ _ _ _ rec (handed_put fl p it (rc_runs _ Hr) Hd))) as Hh.
  split; [|split; [exact Hh|done]].
  rewrite serve_cons. unfold is_blocked. rewrite (rc_runs _ Hr). cbn [_dispatch]. rewrite H1.
  apply serve_one_packet; [apply Hr| |apply Hh]. cbn [_dispatch]. rewrite H2.
  rewrite (deliver_room fl p it); [done| |apply Hd].
  change (queue_of fl2 (queue it.2)) with (queue_of fl (queue it.2)). by eapply room_not_full.
Qed.

Lemma serve_one fl p it ms :
  receiving fl -> destined fl p it -> received p -> room fl ((p, it) :: ms) ->
  exists ds fl', serve (sends p) None fl = (Ok AwaitsData, fl') /\ handed fl p it ds fl' /\
    Forall2 (encodes fl) (answers p) ds.
Proof.
  intros Hr Hd Hrcv Hroom. unfold received in Hrcv. unfold sends, answers, ack_of, packet_id_of.
  destruct (pb_qos p) eqn:Hq.
  - destruct (serve_qos0 fl p it ms) as (fl' & H1 & H2); [done..|]. exists [], fl'.
    split; [done|]. split; [done|constructor].
  - destruct Hrcv as (pid & Hpid & Hp).
    destruct (serve_qos1 fl p it pid ms) as (d & fl' & H1 & H2 & H3); [done..|].
    exists [d], fl'. rewrite Hpid. split; [done|]. split; [done|]. by repeat constructor.
  - destruct Hrcv as (pid & Hpid & Hp).
    destruct (serve_qos2 fl p it pid ms) as (rec & comp & fl' & H1 & H2 & H3 & H4); [done..|].
    exists [rec; comp], fl'. rewrite Hpid. split; [done|]. split; [done|]. by repeat constructor.
Qed.

(** ** All messages *)

(** The messages that were put into a queue, by their contents *)
Definition contents fl (q : nat) : list (option Message) :=
  (fun m => mo_message <$> f_messages fl !! m) <$> q_put (queue_of fl q).

Definition messages_for (q : nat) ms : list (option Message) :=
  (fun p => Some (_make_message p)) <$> for_queue q ms.

(** The queues hold message objects of the store. *)
Definition stored fl : Prop :=
  forall q m, m ∈ q_put (queue_of fl q) -> is_Some (f_messages fl !! m).

Lemma handed_session fl p it ds fl' : handed fl p it ds fl' -> session fl' = session fl.
Proof. intros Hh. unfold session. rewrite (hd_engine _ _ _ _ _ Hh). apply write_all_fields. Qed.

Lemma handed_receiving fl p it ds fl' : handed fl p it ds fl' -> receiving fl -> receiving fl'.
Proof.
  intros [H1 H2 H3 H4 H5 H6] [R1 R2 R3]. split; [done| |by rewrite H5].
  unfold link_up in *. rewrite H3. destruct (write_all_fields ds (f_engine fl)) as (_ & -> & _). done.
Qed.

Lemma handed_destined fl p it ds fl' p' it' :
  handed fl p it ds fl' -> destined fl p' it' -> destined fl' p' it'.
Proof.
  intros Hh [D1 D2 D3 D4]. pose proof (handed_session _ _ _ _ _ Hh) as Hs.
  split; rewrite ?Hs, ?(hd_router _ _ _ _ _ Hh); done.
Qed.

Lemma handed_contents fl p it ds fl' q :
  stored fl -> handed fl p it ds fl' ->
  contents fl' q = contents fl q ++ messages_for q [(p, it)].
Proof.
  intros Hst Hh. unfold contents, messages_for, for_queue. rewrite (hd_queues _ _ _ _ _ Hh), (hd_messages _ _ _ _ _ Hh).
  assert (Hold : (fun m => mo_message <$> <[new_ref fl:=mkMessageObject (_make_message p) None false]>
      (f_messages fl) !! m) <$> q_put (queue_of fl q) =
    (fun m => mo_message <$> f_messages fl !! m) <$> q_put (queue_of fl q)).
  { apply list_fmap_ext. intros i m Hm%list_elem_of_lookup_2. rewrite lookup_insert_ne; [done|].
    intros <-. destruct (Hst _ _ Hm) as [o Ho]. by rewrite new_ref_fresh in Ho. }
  cbn [omap list_omap fst snd]. case_decide as Hq; simpl.
  - rewrite fmap_app, Hold. simpl. by rewrite lookup_insert_eq.
  - by rewrite Hold, app_nil_r.
Qed.

Lemma handed_stored fl p it ds fl' : handed fl p it ds fl' -> stored fl -> stored fl'.
Proof.
  intros Hh Hst q m. rewrite (hd_queues _ _ _ _ _ Hh), (hd_messages _ _ _ _ _ Hh).
  assert (Hold : m ∈ q_put (queue_of fl q) ->
    is_Some (<[new_ref fl:=mkMessageObject (_make_message p) None false]> (f_messages fl) !! m)).
  { intros Hm. rewrite lookup_insert_is_Some. destruct (decide (new_ref fl = m)); [by left|right].
    split; [done|by eapply Hst]. }
  case_decide; [|done]. simpl. rewrite elem_of_app. intros [Hm| ->%list_elem_of_singleton]; [by apply Hold|].
  rewrite lookup_insert_eq. by eexists.
Qed.

Lemma handed_room fl p it ds fl' ms : handed fl p it ds fl' -> room fl ((p, it) :: ms) -> room fl' ms.
Proof.
  intros Hh Hroom q. specialize (Hroom q). rewrite (hd_queues _ _ _ _ _ Hh).
  unfold for_queue in Hroom. cbn [omap list_omap fst snd] in Hroom. fold (for_queue q ms) in Hroom.
  case_decide; [|done]. simpl. destruct Hroom as [?|Hroom]; [by left|right]. rewrite zlen_cons in Hroom.
  fold (for_queue q ms) in Hroom. enough (zlen (q_items (mkQueue (q_maxsize (queue_of fl q)) (q_put (queue_of fl q) ++ [new_ref fl]) (q_taken (queue_of fl q)))) <= zlen (q_items (queue_of fl q)) + 1) by lia.
  unfold q_items, zlen. simpl. rewrite !length_drop, length_app. simpl. lia.
Qed.

Lemma messages_for_cons q p it ms :
  messages_for q ((p, it) :: ms) = messages_for q [(p, it)] ++ messages_for q ms.
Proof. unfold messages_for, for_queue. cbn [omap list_omap fst snd]. by case_decide. Qed.

(** What became of the messages [ms] *)
Record arrived fl ms fl' : Prop := {
  ar_contents : forall q, contents fl' q = contents fl q ++ messages_for q ms;
  ar_answers : exists ds, wire fl' = wire fl ++ ds /\ Forall2 (encodes fl) (ms ≫= (answers ∘ fst)) ds;
  ar_session : session fl' = session fl;
  ar_receiving : receiving fl';
}.

Lemma arrived_nil fl : receiving fl -> arrived fl [] fl.
Proof.
  intros Hr. split; [|exists []|done..].
  - intros q. by rewrite app_nil_r.
  - by rewrite app_nil_r.
Qed.

Lemma arrived_cons fl p it ds fl1 ms fl' :
  stored fl -> receiving fl -> handed fl p it ds fl1 -> Forall2 (encodes fl) (answers p) ds ->
  arrived fl1 ms fl' -> arrived fl ((p, it) :: ms) fl'.
Proof.
  intros Hst Hr Hh Hds [A1 (ds' & A2 & A3) A4 A5].
  destruct (write_all_fields ds (f_engine fl)) as (_ & _ & Hver & Hwire).
  rewrite <- (hd_engine _ _ _ _ _ Hh) in Hver, Hwire. split.
  - intros q. rewrite A1, (handed_contents _ _ _ _ _ q Hst Hh), (messages_for_cons q p it ms).
    by rewrite app_assoc.
  - exists (ds ++ ds'). unfold wire in *. rewrite A2, Hwire, app_assoc. split; [done|].
    cbn [mbind list_bind compose fst]. apply Forall2_app; [done|].
    unfold encodes in *. by rewrite Hver in A3.
  - rewrite A4. by eapply handed_session.
  - done.
Qed.

Lemma serve_all ms : forall fl,
  stored fl -> receiving fl -> Forall (fun x => destined fl x.1 x.2 /\ received x.1) ms -> room fl ms ->
  exists fl', serve (ms ≫= (sends ∘ fst)) None fl = (Ok AwaitsData, fl') /\ arrived fl ms fl'.
Proof.
  induction ms as [|[p it] ms IH]; intros fl Hst Hr Hd Hroom.
  - exists fl. split; [|by apply arrived_nil]. cbn [mbind list_bind serve]. run.
    unfold is_blocked. by rewrite (rc_runs _ Hr).
  - apply Forall_cons in Hd as [[Hd Hrcv] Hms]. simpl in Hd, Hrcv.
    destruct (serve_one fl p it ms Hr Hd Hrcv Hroom) as (ds & fl1 & Hserve & Hh & Hds).
    destruct (IH fl1) as (fl' & Hs' & Ha).
    + by eapply handed_stored.
    + by eapply handed_receiving.
    + eapply Forall_impl; [exact Hms|]. intros [p' it'] [H1 H2]. split; [|done].
      by eapply handed_destined.
    + by eapply handed_room.
    + exists fl'. split; [|by eapply arrived_cons].
      cbn [mbind list_bind compose fst]. by rewrite serve_app, Hserve.
Qed.

(** *** The bytes *)

Definition as_decoded (v : MQTTVersion) ms : list (Publish * item) :=
  (fun x => (as_received v x.1, x.2)) <$> ms.

Lemma sends_decoded v ms :
  canon v <$> (ms ≫= (sends ∘ fst)) = as_decoded v ms ≫= (sends ∘ fst).
Proof.
  induction ms as [|[p it] ms IH]; [done|].
  change (as_decoded v ((p, it) :: ms)) with ((as_received v p, it) :: as_decoded v ms).
  rewrite !bind_cons, fmap_app, IH. f_equal. unfold compose, sends, ack_of, packet_id_of.
  cbn [fst as_received pb_qos pb_packet_id]. by destruct (pb_qos p), v.
Qed.

Lemma encoded_received v ms bs :
  res_mapM (fun pk => encode pk v) (ms ≫= (sends ∘ fst)) = Ok bs ->
  Forall (fun x => received x.1) (as_decoded v ms).
Proof.
  intros Hbs%res_mapM_Ok. apply Forall_fmap, Forall_forall. intros [p it] Hin. simpl.
  assert (Hp : PPublish p ∈ ms ≫= (sends ∘ fst)).
  { apply list_elem_of_bind. exists (p, it). split; [|done]. unfold compose, sends. simpl.
    destruct (pb_qos p); left. }
  apply list_elem_of_lookup in Hp as [i Hi].
  destruct (Forall2_lookup_l _ _ _ _ _ Hbs Hi) as (b & _ & Henc).
  pose proof (decode_encode _ _ _ [] Henc) as Hdec. exact (decode_decoded _ _ _ _ Hdec).
Qed.

End receiving.

Section theorem.
Context {R : Type} `{RequestRouter R, !RouterLaws R}.

(** C3: end to end.  The broker sends PUBLISH packets of any QoS, each QoS 2 one with
    its PUBREL, and TCP cuts their bytes anyhow.  If every message is destined to a
    subscription with automatic acknowledgement and the queues have room, then the read
    loop puts exactly these messages, each once and in order, into the queues of their
    subscriptions, writes exactly the acknowledgements of their handshakes, in order,
    and waits for more data with the session as it was. *)
Theorem bytes_to_application v mq router size queues (c : Connection R) ms bs chunks :
  empty_queues queues -> flow_reachable v mq router size queues (c_flow c) ->
  c_buf c = new_buffer v -> receiving (c_flow c) ->
  Forall (fun x => destined (c_flow c) x.1 x.2) (as_decoded v ms) ->
  room (c_flow c) (as_decoded v ms) ->
  res_mapM (fun pk => encode pk v) (ms ≫= (sends ∘ fst)) = Ok bs ->
  concat chunks = concat bs ->
  exists c', _read_loop (Data <$> chunks) c = (Ok AwaitsData, c') /\
    arrived (c_flow c) (as_decoded v ms) (c_flow c').
Proof.
  intros Hq Hreach Hbuf Hr Hd Hroom Hbs Hch.
  destruct (serve_all (as_decoded v ms) (c_flow c)) as (fl' & Hs & Ha);
    [| |apply Forall_and; split; [done|by eapply encoded_received]|done|].
  - destruct (flow_reachable_ok _ _ _ _ _ _ Hq Hreach) as [[[_ Halloc] _] _].
    intros q m [i Hi]%list_elem_of_lookup. exact (Halloc (InQueue q i) m Hi).
  - done.
  - pose proof (read_loop_stream c chunks) as HL. rewrite Hbuf, Hch in HL.
    unfold feed in HL. cbn [new_buffer _buf _version app] in HL.
    rewrite <- (app_nil_r (concat bs)), (packets_of_encoded v _ bs []) in HL by done.
    rewrite sends_decoded, Hs in HL. destruct (_read_loop _ c) as [r c'].
    injection HL as <- ->. by exists c'.
Qed.

End theorem.

(** ** A concrete stream *)

Definition sample_connection : Connection unit :=
  mkConnection (flow0 (sample_index true) false) (new_buffer V5) false.

Definition sample_messages : list (Publish * item) :=
  [(incoming "a/b" EXACTLY_ONCE (Some 5), sample_item (lit "a/#") true);
   (incoming "a/c" AT_MOST_ONCE None, sample_item (lit "a/#") true);
   (incoming "a" AT_LEAST_ONCE (Some 6), sample_item (lit "a/#") true)].

Definition sample_stream : bytes :=
  match res_mapM (fun pk => encode pk V5) (sample_messages ≫= (sends ∘ fst)) with
  | Ok bs => concat bs
  | Err _ => []
  end.

Lemma bytes_to_application_witness :
  exists c', _read_loop (Data <$> [take 3 sample_stream; take 20 (drop 3 sample_stream); drop 23 sample_stream])
      sample_connection = (Ok AwaitsData, c') /\
    contents (c_flow c') 7 = messages_for 7 (as_decoded V5 sample_messages).
Proof.
  destruct (bytes_to_application V5 EXACTLY_ONCE None 1 ∅ sample_connection sample_messages
    (match res_mapM (fun pk => encode pk V5) (sample_messages ≫= (sends ∘ fst)) with Ok bs => bs | Err _ => [] end)
    [take 3 sample_stream; take 20 (drop 3 sample_stream); drop 23 sample_stream])
    as (c' & Hc & Ha).
  - apply no_queues.
  - apply reachable_flow0.
  - reflexivity.
  - split; [reflexivity..|]. intros b. discriminate.
  - repeat constructor; try (vm_compute; reflexivity); vm_compute; discriminate.
  - intros q. left. reflexivity.
  - vm_compute. reflexivity.
  - vm_compute. reflexivity.
  - exists c'. split; [exact Hc|]. rewrite (ar_contents _ _ _ Ha). reflexivity.
Defined.
