(* ===== verification/Replay.v ===== *)
(** * The replay of a resumed session, end to end

    Messages that arrive before the application has subscribed: the read loop holds
    them, in order and without an answer; when their subscriptions are there, draining
    puts them into the queues in the order of their arrival, with the answers they are
    owed. *)

From stdpp Require Import fin_sets.
From S2P Require Import Prelude PyBytes Utf8 PropertyRecords Packets Codec CodecFacts CodecSound Reader SubscriptionIndex State Routing Protocol ProtocolFacts Inbound InboundFacts InboundInv Delivery Connection ConnectionFacts EndToEnd.
Local Open Scope Z_scope.

#[local] Arguments encode : simpl never.
#[local] Arguments canon : simpl never.
#[local] Arguments send_packet : simpl never.
#[local] Arguments select : simpl never.
#[local] Arguments select_by_identifier : simpl never.

Section replay.
Context {R : Type} `{RequestRouter R, !RouterLaws R}.

Implicit Types (fl : Flow R) (p : Publish).

(** ** Holding *)

(** No pending request and no subscription takes [p], and its identifier is free. *)
Record unmatched fl p : Prop := {
  um_received : received p;
  um_unclaimed : match f_router fl with
    | Some r => forall m, (claim m (_make_message p) r).1 = None
    | None => True
    end;
  um_unselected : recipient (_select_subscription (subscriptions (session fl)) p) = None;
  um_unused : forall pid, pb_packet_id p = Some pid ->
    inflight_qos2_in (session fl) !! pid = None /\ pid ∉ pending_ack_qos2_in (session fl);
}.

(** The buffer has room for [n] messages more; 0 is no limit. *)
Definition fits (n : Z) fl : Prop :=
  f_buffer_size fl = 0 \/ zlen (publishes_of fl) + n <= f_buffer_size fl.

(** The messages [ps] are held, nothing else has happened. *)
Record held fl (ps : list Publish) fl' : Prop := {
  he_buffered : ps <> [] -> exists b, f_replay fl' = PersistentReplayBuffered b;
  he_resumed : f_replay fl' <> NoSessionReplay;
  he_publishes : publishes_of fl' = publishes_of fl ++ ps;
  he_ok : replay_ok fl';
  he_engine : f_engine fl' = f_engine fl;
  he_queues : forall q, queue_of fl' q = queue_of fl q;
  he_router : f_router fl' = f_router fl;
  he_size : f_buffer_size fl' = f_buffer_size fl;
  he_runs : f_blocked fl' = None;
}.

Lemma unmatched_offered fl p : unmatched fl p -> offered p fl = (None, f_router fl).
Proof.
  intros [_ Hu _ _]. unfold offered. destruct (f_router fl) as [r|]; [|done].
  specialize (Hu (new_ref fl)). destruct (claim (new_ref fl) (_make_message p) r) as [c r'] eqn:Hc.
  simpl in Hu. subst c. by apply claim_refused in Hc as ->.
Qed.

Lemma buffer_step_fits b p fl :
  buffer_ok (f_buffer_size fl) b -> received p -> packet_id_in p (rb_packet_ids b) = false ->
  f_buffer_size fl = 0 \/ zlen (rb_publishes b) + 1 <= f_buffer_size fl ->
  buffer_step b p fl = (Ok None, set_replay (PersistentReplayBuffered (buffer_append p b)) fl) /\
  buffer_ok (f_buffer_size fl) (buffer_append p b).
Proof.
  intros Hb Hr Hid Hfits. pose proof (bo_count _ _ Hb) as Hc. split.
  - unfold buffer_step. replace (negb (f_buffer_size fl =? 0) && (f_buffer_size fl <=? rb_message_count b))
      with false; [done|]. symmetry. apply andb_false_iff. destruct Hfits as [->|?]; [by left|right].
    apply Z.leb_gt. lia.
  - apply buffer_ok_append; [done..|]. lia.
Qed.

Lemma fresh_id b p size :
  buffer_ok size b -> NoDup (ids_of (rb_publishes b ++ [p])) -> packet_id_in p (rb_packet_ids b) = false.
Proof.
  intros Hb Hnd. unfold packet_id_in. destruct (pb_packet_id p) as [i|] eqn:Hpid; [|done].
  apply bool_decide_false. rewrite (bo_ids _ _ Hb). rewrite ids_of_app in Hnd.
  apply NoDup_app in Hnd as (_ & Hd & _). intros Hi. apply (Hd i Hi). unfold ids_of. simpl. rewrite Hpid. left.
Qed.

(** What selecting does with a message nobody takes *)
Lemma hold_select fl p :
  replay_ok fl -> f_blocked fl = None -> f_replay fl <> NoSessionReplay -> unmatched fl p ->
  NoDup (ids_of (publishes_of fl ++ [p])) -> fits 1 fl ->
  exists fl', _select_recipient_or_buffer p fl = (Ok None, fl') /\ held fl [p] fl'.
Proof.
  intros Hok Hb Hres Hu Hnd Hfits. pose proof (unmatched_offered _ _ Hu) as Hoff.
  assert (Hsel : selected p fl = mkRecipient (new_ref fl) None None)
    by (unfold selected; by rewrite Hoff, (um_unselected _ _ Hu)).
  rewrite select_or_buffer_eq. cbv zeta. rewrite Hsel. unfold recipient_found. cbn [request subscription].
  rewrite !bool_decide_false by (by intros []). cbn [orb andb].
  unfold replay_ok, publishes_of, fits in *. destruct (f_replay fl) as [| |b] eqn:Hre; [done| |].
  - destruct (buffer_step_fits (new_buffer_state (f_next_ref fl)) p (next_ref (after_select p fl)))
      as [-> Hbo]; [apply buffer_ok_new|apply Hu|by unfold packet_id_in; destruct (pb_packet_id p)|
        unfold publishes_of in Hfits; by rewrite Hre in Hfits|].
    eexists. split; [done|]. split; try done; [by eexists| |simpl; by rewrite Hoff].
    unfold publishes_of. simpl. by rewrite Hre.
  - rewrite (fresh_id b p _ Hok Hnd). destruct (buffer_step_fits b p (after_select p fl)) as [-> Hbo];
      [done|apply Hu|by eapply fresh_id|unfold publishes_of in Hfits; by rewrite Hre in Hfits|].
    eexists. split; [done|]. split; try done; [by eexists| |simpl; by rewrite Hoff].
    unfold publishes_of. simpl. by rewrite Hre.
Qed.

Lemma fresh_not_held fl p pid :
  replay_ok fl -> NoDup (ids_of (publishes_of fl ++ [p])) -> pb_packet_id p = Some pid ->
  replay_contains_packet_id (f_replay fl) pid = false.
Proof.
  intros Hok Hnd Hpid. unfold replay_ok, publishes_of in *. destruct (f_replay fl) as [| |b]; [done..|].
  pose proof (fresh_id b p _ Hok Hnd) as Hid. unfold packet_id_in in Hid. by rewrite Hpid in Hid.
Qed.

Lemma hold_one fl p :
  replay_ok fl -> f_blocked fl = None -> f_replay fl <> NoSessionReplay -> unmatched fl p ->
  NoDup (ids_of (publishes_of fl ++ [p])) -> fits 1 fl ->
  exists fl', handle_publish p fl = (Ok tt, fl') /\ held fl [p] fl'.
Proof.
  intros Hok Hb Hres Hu Hnd Hfits.
  destruct (hold_select fl p Hok Hb Hres Hu Hnd Hfits) as (fl' & Hsel & Hh). exists fl'. split; [|done].
  pose proof (um_received _ _ Hu) as Hrcv. unfold received in Hrcv.
  unfold handle_publish, _handle_qos1_publish, _handle_qos2_publish.
  destruct (pb_qos p); [by rewrite run_bind, Hsel|..]; destruct Hrcv as (pid & Hpid & _);
    destruct (um_unused _ _ Hu pid Hpid) as [U1 U2];
    pose proof (fresh_not_held fl p pid Hok Hnd Hpid) as U3; rewrite Hpid; run.
  - by rewrite U3, run_bind, Hsel.
  - rewrite bool_decide_false by (rewrite U1; by intros [? ?]). rewrite bool_decide_false by done.
    by rewrite U3, run_bind, Hsel.
Qed.

Lemma held_trans f1 f2 f3 l1 l2 :
  held f1 l1 f2 -> held f2 l2 f3 -> held f1 (l1 ++ l2) f3.
Proof.
  intros [A1 A2 A3 A4 A5 A6 A7 A8 A9] [B1 B2 B3 B4 B5 B6 B7 B8 B9]. split; try congruence.
  - intros Hne. destruct l2 as [|p l2]; [|by apply B1]. rewrite app_nil_r in *. destruct l1 as [|p l1]; [done|].
    unfold publishes_of in B3. destruct (f_replay f3) as [| |b]; [done| |by eexists].
    destruct A1 as [b Hb]; [done|]. unfold publishes_of in A3. rewrite Hb in *. rewrite A3 in B3.
    by destruct (match f_replay f1 with PersistentReplayBuffered b => rb_publishes b | _ => [] end).
  - by rewrite B3, A3, app_assoc.
Qed.

Lemma held_unmatched fl ps fl' p : held fl ps fl' -> unmatched fl p -> unmatched fl' p.
Proof.
  intros Hh [U1 U2 U3 U4]. assert (Hs : session fl' = session fl)
    by (unfold session; by rewrite (he_engine _ _ _ Hh)).
  split; rewrite ?Hs, ?(he_router _ _ _ Hh); done.
Qed.

Lemma hold_all ps : forall fl,
  replay_ok fl -> f_blocked fl = None -> f_replay fl <> NoSessionReplay -> Forall (unmatched fl) ps ->
  NoDup (ids_of (publishes_of fl ++ ps)) -> fits (zlen ps) fl ->
  exists fl', serve (PPublish <$> ps) None fl = (Ok AwaitsData, fl') /\ held fl ps fl'.
Proof.
  induction ps as [|p ps IH]; intros fl Hok Hb Hres Hps Hnd Hfits.
  - exists fl. split; [cbn [fmap list_fmap serve]; run; unfold is_blocked; by rewrite Hb|].
    split; try done. by rewrite app_nil_r.
  - apply Forall_cons in Hps as [Hp Hps]. change (p :: ps) with ([p] ++ ps) in *.
    rewrite app_assoc, ids_of_app in Hnd. unfold fits in Hfits. rewrite zlen_app in Hfits.
    pose proof (zlen_nonneg ps).
    destruct (hold_one fl p Hok Hb Hres Hp) as (fl1 & Hrun & Hh).
    { by apply NoDup_app in Hnd as [? _]. }
    { unfold fits. change (zlen [p]) with 1 in Hfits. lia. }
    destruct (IH fl1) as (fl' & Hserve & Hh'); [apply Hh|apply Hh|apply Hh| | | |].
    + eapply Forall_impl; [exact Hps|]. intros p' Hp'. by eapply held_unmatched.
    + by rewrite (he_publishes _ _ _ Hh), ids_of_app.
    + unfold fits. rewrite (he_size _ _ _ Hh), (he_publishes _ _ _ Hh), zlen_app. lia.
    + exists fl'. split; [|by eapply held_trans]. rewrite fmap_app.
      rewrite serve_app, (serve_one_packet (PPublish p) fl fl1); [done|done|exact Hrun|apply Hh].
Qed.

(** ** Draining *)

(** The packets that answer a message when it is delivered: a QoS 2 exchange goes on
    with the PUBREL of the broker. *)
Definition first_answers p : list packet :=
  match pb_qos p with
  | AT_MOST_ONCE => []
  | AT_LEAST_ONCE => [PPubAck (ack_of p)]
  | EXACTLY_ONCE => [PPubRec (ack_of p)]
  end.

(** The exchange that a QoS 2 message opens *)
Definition opened p (it : item) fl : Flow R :=
  match pb_qos p with
  | EXACTLY_ONCE => upd_flights_in <[packet_id_of p := mkInFlight (packet_id_of p) (to_item fl it) false]> fl
  | _ => fl
  end.

(** The held message [p] was delivered: as a message in the queue, or, for QoS 2, as a
    message that its PUBREL will put there. *)
Record replayed fl p (it : item) (ds : list bytes) fl' : Prop := {
  re_messages : f_messages fl' = <[new_ref fl := mkMessageObject (_make_message p) None false]> (f_messages fl);
  re_queues : forall q, queue_of fl' q =
    if decide (pb_qos p <> EXACTLY_ONCE /\ queue it.2 = q)
    then mkQueue (q_maxsize (queue_of fl q)) (q_put (queue_of fl q) ++ [new_ref fl]) (q_taken (queue_of fl q))
    else queue_of fl q;
  re_engine : f_engine fl' = write_all ds (f_engine (opened p it fl));
  re_router : f_router fl' = f_router fl;
  re_runs : f_blocked fl' = None;
}.

Lemma destined_selected fl p it : destined fl p it -> selected p fl = to_item fl it.
Proof.
  intros Hd. unfold selected. by rewrite (offered_refused fl p it Hd), (ds_selected _ _ _ Hd).
Qed.

Lemma handed_replayed fl p it ds fl' :
  pb_qos p <> EXACTLY_ONCE -> handed fl p it ds fl' -> replayed fl p it ds fl'.
Proof.
  intros Hq [H1 H2 H3 H4 H5 H6]. split; try done.
  - intros q. rewrite H2. by repeat case_decide; naive_solver.
  - rewrite H3. unfold opened. by destruct (pb_qos p).
Qed.

Lemma deliver_replay_item fl p it :
  f_blocked fl = None -> link_up fl -> destined fl p it -> received p ->
  full (queue_of fl (queue it.2)) = false ->
  exists ds fl', deliver_replay p (selected p fl) (after_select p fl) = (Ok tt, fl') /\
    replayed fl p it ds fl' /\ f_replay fl' = f_replay fl /\
    Forall2 (encodes fl) (first_answers p) ds.
Proof.
  intros Hb Hl Hd Hrcv Hf. pose proof (handed_put fl p it Hb Hd) as Hput.
  rewrite (destined_selected fl p it Hd). unfold deliver_replay, first_answers, ack_of, packet_id_of.
  unfold received in Hrcv. destruct (pb_qos p) eqn:Hq.
  - exists []. eexists. rewrite (deliver_room fl p it) by (done || apply Hd).
    split; [done|]. split; [by apply handed_replayed; [rewrite Hq|]|]. split; [done|constructor].
  - destruct Hrcv as (pid & Hpid & Hp). rewrite Hpid.
    destruct (put_puback (queue it.2) (new_ref fl) pid (after_select p fl)) as (d & Hdec & Hpa); [done..|].
    exists [d], (written d (with_put (queue it.2) (new_ref fl) (after_select p fl))).
    split; [|split; [apply handed_replayed; [by rewrite Hq|]|split; [done|by repeat constructor]]].
    + unfold _deliver_qos1_publish. rewrite Hpid. unfold recipient_auto_ack. cbn [to_item request subscription].
      rewrite (ds_auto_ack _ _ _ Hd). rewrite put_eq in Hpa.
      change (queue_of (after_select p fl)) with (queue_of fl) in Hpa. rewrite Hf in Hpa.
      rewrite (deliver_room fl p it); [exact Hpa|exact Hf|apply Hd].
    + exact (handed_written _ _ _ _ _ d Hput).
  - destruct Hrcv as (pid & Hpid & Hp). rewrite Hpid.
    destruct (ack_bytes (PPubRec (mkPubAck pid 0 None)) pid fl) as (d & Hd1 & Hdec); [by split; [|right; left]|].
    exists [d], (written d (upd_flights_in <[pid := mkInFlight pid (to_item fl it) false]> (after_select p fl))).
    split; [|split; [|split; [done|by repeat constructor]]].
    + unfold _accept_qos2_publish. rewrite Hpid. unfold recipient_auto_ack. cbn [to_item request subscription].
      rewrite (ds_auto_ack _ _ _ Hd). run. rewrite (connection_ack _ pid _ d);
        [|by split; [|right; left]|exact Hd1].
      change (e_link (f_engine (upd_flights_in _ _))) with (e_link (f_engine fl)). unfold link_up in Hl.
      by rewrite Hl.
    + split; try done.
      * intros q. rewrite decide_False by (rewrite Hq; naive_solver). done.
      * unfold opened, packet_id_of. by rewrite Hq, Hpid.
      * simpl. by rewrite (offered_refused fl p it).
Qed.

Lemma opened_session p it fl :
  subscriptions (session (opened p it fl)) = subscriptions (session fl) /\
  pending_ack_qos2_in (session (opened p it fl)) = pending_ack_qos2_in (session fl) /\
  inflight_qos2_in (session (opened p it fl)) =
    match pb_qos p with
    | EXACTLY_ONCE => <[packet_id_of p := mkInFlight (packet_id_of p) (to_item fl it) false]>
                        (inflight_qos2_in (session fl))
    | _ => inflight_qos2_in (session fl)
    end.
Proof. unfold opened. by destruct (pb_qos p). Qed.

Section one.
Context (fl : Flow R) (p : Publish) (it : item) (ds : list bytes) (fl' : Flow R).
Context (Hr : replayed fl p it ds fl').

Lemma replayed_session : session fl' = session (opened p it fl).
Proof. unfold session at 1. rewrite (re_engine _ _ _ _ _ Hr). apply write_all_fields. Qed.

Lemma replayed_link : link_up fl' <-> link_up fl.
Proof.
  unfold link_up. rewrite (re_engine _ _ _ _ _ Hr).
  destruct (write_all_fields ds (f_engine (opened p it fl))) as (_ & -> & _).
  unfold opened. by destruct (pb_qos p).
Qed.

Lemma replayed_wire : wire fl' = wire fl ++ ds /\ e_version (f_engine fl') = e_version (f_engine fl).
Proof.
  unfold wire. rewrite (re_engine _ _ _ _ _ Hr).
  destruct (write_all_fields ds (f_engine (opened p it fl))) as (_ & _ & -> & ->).
  unfold opened. by destruct (pb_qos p).
Qed.

Lemma replayed_destined p' it' :
  destined fl p' it' ->
  (pb_qos p = EXACTLY_ONCE -> pb_qos p' = EXACTLY_ONCE -> packet_id_of p' <> packet_id_of p) ->
  destined fl' p' it'.
Proof.
  intros [D1 D2 D3 D4] Hne. pose proof replayed_session as Hs.
  destruct (opened_session p it fl) as (O1 & O2 & O3).
  split; rewrite ?Hs, ?(re_router _ _ _ _ _ Hr), ?O1, ?O2, ?O3; try done.
  intros Hq. destruct (D4 Hq) as [E1 E2]. split; [|done]. destruct (pb_qos p); [done..|].
  rewrite lookup_insert_ne; [done|]. intros Heq. by apply Hne.
Qed.

Lemma replayed_room ms : room fl ((p, it) :: ms) -> room fl' ms.
Proof.
  intros Hroom q. specialize (Hroom q). rewrite (re_queues _ _ _ _ _ Hr).
  unfold for_queue in *. cbn [omap list_omap fst snd] in Hroom. fold (for_queue q ms) in *.
  unfold q_items, zlen in *. destruct (decide (queue it.2 = q)) as [Hq|Hq].
  - cbn [length] in Hroom. case_decide; simpl; rewrite ?length_drop, ?length_app in *; simpl; lia.
  - rewrite decide_False; [done|]. by intros [_ ?].
Qed.

Lemma replayed_object m o : f_messages fl !! m = Some o -> f_messages fl' !! m = Some o.
Proof.
  intros Hm. rewrite (re_messages _ _ _ _ _ Hr), lookup_insert_ne; [done|].
  intros <-. by rewrite new_ref_fresh in Hm.
Qed.

Lemma replayed_put q m :
  m ∈ q_put (queue_of fl' q) -> m ∈ q_put (queue_of fl q) \/ m = new_ref fl.
Proof.
  rewrite (re_queues _ _ _ _ _ Hr). case_decide; [|by left]. simpl.
  rewrite elem_of_app, list_elem_of_singleton. tauto.
Qed.

Lemma replayed_stored : stored fl -> stored fl'.
Proof.
  intros Hst q m [Hm|Hm]%replayed_put.
  - destruct (Hst q m Hm) as [o Ho]. exists o. by apply replayed_object.
  - subst m. rewrite (re_messages _ _ _ _ _ Hr), lookup_insert_eq. by eexists.
Qed.

End one.

(** The messages that are delivered at once *)
Definition at_once (ms : list (Publish * item)) : list (Publish * item) :=
  filter (fun x => pb_qos x.1 <> EXACTLY_ONCE) ms.

(** The open receive exchange [pid] of the message [p] for the subscription [it] *)
Definition awaits_pubrel fl (pid : Z) p (it : item) : Prop :=
  exists m, inflight_qos2_in (session fl) !! pid = Some (mkInFlight pid (mkRecipient m None (Some it)) false) /\
    mo_message <$> f_messages fl !! m = Some (_make_message p).

(** What became of the held messages [ms] *)
Record drained fl (ms : list (Publish * item)) fl' : Prop := {
  dr_contents : forall q, contents fl' q = contents fl q ++ messages_for q (at_once ms);
  dr_answers : exists ds, wire fl' = wire fl ++ ds /\
    Forall2 (encodes fl) (ms ≫= (first_answers ∘ fst)) ds;
  dr_exchanges : forall p it pid, (p, it) ∈ ms -> pb_qos p = EXACTLY_ONCE -> pb_packet_id p = Some pid ->
    awaits_pubrel fl' pid p it;
  dr_kept : forall pid p it, awaits_pubrel fl pid p it -> awaits_pubrel fl' pid p it;
  dr_runs : f_blocked fl' = None;
  dr_link : link_up fl';
}.

Lemma drained_nil fl : f_blocked fl = None -> link_up fl -> drained fl [] fl.
Proof.
  intros Hb Hl. split; try done.
  - intros q. by rewrite app_nil_r.
  - exists []. rewrite app_nil_r. split; [done|constructor].
  - by intros p it pid ?%elem_of_nil.
Qed.

Lemma replayed_contents fl p it ds fl' q :
  stored fl -> replayed fl p it ds fl' -> contents fl' q = contents fl q ++ messages_for q (at_once [(p, it)]).
Proof.
  intros Hst Hr. unfold contents, messages_for, for_queue, at_once.
  rewrite (re_queues _ _ _ _ _ Hr).
  assert (Hold : (fun m => mo_message <$> f_messages fl' !! m) <$> q_put (queue_of fl q) =
    (fun m => mo_message <$> f_messages fl !! m) <$> q_put (queue_of fl q)).
  { apply list_fmap_ext. intros i m Hm%list_elem_of_lookup_2. destruct (Hst _ _ Hm) as [o Ho].
    by rewrite Ho, (replayed_object fl p it ds fl' Hr m o Ho). }
  rewrite filter_cons, filter_nil. cbn [fst]. case_decide as H1; case_decide as H2.
  - cbn [omap list_omap fst snd]. rewrite decide_True by naive_solver. simpl. rewrite fmap_app, Hold. simpl.
    by rewrite (re_messages _ _ _ _ _ Hr), lookup_insert_eq.
  - naive_solver.
  - cbn [omap list_omap fst snd]. rewrite decide_False by naive_solver. by rewrite app_nil_r.
  - by rewrite app_nil_r.
Qed.

Lemma replayed_awaits fl p it ds fl' pid p' it' :
  replayed fl p it ds fl' -> destined fl p it -> awaits_pubrel fl pid p' it' -> awaits_pubrel fl' pid p' it'.
Proof.
  intros Hr Hd (m & Hf & Hm). exists m.
  destruct (f_messages fl !! m) as [o|] eqn:Ho; [|done]. rewrite (replayed_object fl p it ds fl' Hr m o Ho).
  split; [|done]. rewrite (replayed_session fl p it ds fl' Hr).
  destruct (opened_session p it fl) as (_ & _ & ->). destruct (pb_qos p) eqn:Hq; [done..|].
  rewrite lookup_insert_ne; [done|]. intros <-. destruct (ds_unused _ _ _ Hd Hq) as [? _]. congruence.
Qed.

Lemma replayed_opens fl p it ds fl' pid :
  replayed fl p it ds fl' -> pb_qos p = EXACTLY_ONCE -> pb_packet_id p = Some pid ->
  awaits_pubrel fl' pid p it.
Proof.
  intros Hr Hq Hpid. exists (new_ref fl). rewrite (replayed_session fl p it ds fl' Hr).
  destruct (opened_session p it fl) as (_ & _ & ->). rewrite Hq. unfold packet_id_of. rewrite Hpid. simpl.
  rewrite lookup_insert_eq, (re_messages _ _ _ _ _ Hr), lookup_insert_eq. done.
Qed.

Lemma drained_cons fl p it ds fl1 ms fl' :
  stored fl -> destined fl p it -> replayed fl p it ds fl1 ->
  Forall2 (encodes fl) (first_answers p) ds -> drained fl1 ms fl' -> drained fl ((p, it) :: ms) fl'.
Proof.
  intros Hst Hd Hr Hds [D1 (ds' & D2 & D3) D4 D5 D6 D7].
  destruct (replayed_wire fl p it ds fl1 Hr) as [Hw Hv]. split; [..|done|done].
  - intros q. rewrite D1, (replayed_contents fl p it ds fl1 q Hst Hr), <- app_assoc. f_equal.
    unfold at_once. rewrite !filter_cons, filter_nil. case_decide; [|done].
    by rewrite (messages_for_cons q p it (filter _ ms)).
  - exists (ds ++ ds'). rewrite D2, Hw, app_assoc. split; [done|].
    cbn [mbind list_bind compose fst]. apply Forall2_app; [done|]. unfold encodes in *. by rewrite Hv in D3.
  - intros p' it' pid [[= -> ->]|Hin]%elem_of_cons Hq Hpid; [|by apply D4].
    apply D5. by eapply replayed_opens.
  - intros pid p' it' Ha. apply D5. by eapply replayed_awaits.
Qed.

Lemma replayed_set_replay fl p it ds s fl' :
  replayed fl p it ds fl' -> replayed fl p it ds (set_replay s fl').
Proof. by intros [H1 H2 H3 H4 H5]. Qed.

(** One turn of the loop over the buffer *)
Lemma drain_one fl p it ms b :
  f_replay fl = PersistentReplayBuffered b -> f_blocked fl = None -> link_up fl ->
  destined fl p it -> received p -> room fl ((p, it) :: ms) ->
  exists ds fl1, deliver_each (p :: ms.*1) [] fl = deliver_each ms.*1 [] fl1 /\
    f_replay fl1 = PersistentReplayBuffered (_discard p b) /\ replayed fl p it ds fl1 /\
    Forall2 (encodes fl) (first_answers p) ds.
Proof.
  intros Hre Hb Hl Hd Hrcv Hroom. pose proof (room_not_full fl p it ms Hroom) as Hf.
  destruct (deliver_replay_item fl p it Hb Hl Hd Hrcv Hf) as (ds & fl1 & Hrun & Hr & Hre1 & Hds).
  exists ds, (set_replay (PersistentReplayBuffered (_discard p b)) fl1).
  split; [|split; [done|split; [by apply replayed_set_replay|done]]].
  rewrite deliver_each_cons, (destined_selected fl p it Hd).
  assert (Hh : replay_holds (to_item fl it) (after_select p fl) = false)
    by (unfold replay_holds; cbn [to_item request subscription]; by destruct it).
  rewrite Hh, run_bind. unfold finally_on_error. rewrite (destined_selected fl p it Hd) in Hrun.
  rewrite Hrun. run. unfold upd_buffer. by rewrite Hre1, Hre.
Qed.

Lemma NoDup_ids_ne p p' ps :
  NoDup (ids_of (p :: ps)) -> p' ∈ ps -> received p -> received p' ->
  pb_qos p = EXACTLY_ONCE -> pb_qos p' = EXACTLY_ONCE -> packet_id_of p' <> packet_id_of p.
Proof.
  intros Hnd Hin Hr Hr' Hq Hq'. unfold received in *. rewrite Hq in Hr. rewrite Hq' in Hr'.
  destruct Hr as (i & Hi & _), Hr' as (i' & Hi' & _). unfold packet_id_of. rewrite Hi, Hi'. simpl. intros ->.
  rewrite ids_of_cons, Hi in Hnd. apply NoDup_cons in Hnd as [Hn _]. apply Hn. by eapply elem_of_ids.
Qed.

Lemma drain_each ms : forall fl b,
  f_replay fl = PersistentReplayBuffered b -> f_blocked fl = None -> link_up fl -> stored fl ->
  Forall (fun x => destined fl x.1 x.2 /\ received x.1) ms -> NoDup (ids_of ms.*1) -> room fl ms ->
  exists fl' b', deliver_each ms.*1 [] fl = (Ok tt, fl') /\
    f_replay fl' = PersistentReplayBuffered b' /\
    rb_message_count b' = rb_message_count b - zlen ms /\ drained fl ms fl'.
Proof.
  induction ms as [|[p it] ms IH]; intros fl b Hre Hb Hl Hst Hms Hnd Hroom.
  - exists (upd_buffer (set_publishes []) fl), (set_publishes [] b). split; [done|].
    unfold upd_buffer. rewrite Hre. split; [done|]. split; [simpl; rewrite zlen_nil; lia|].
    by destruct (drained_nil fl Hb Hl).
  - apply Forall_cons in Hms as [[Hd Hrcv] Hms]. cbn [fst snd] in Hd, Hrcv.
    destruct (drain_one fl p it ms b Hre Hb Hl Hd Hrcv Hroom) as (ds & fl1 & Hstep & Hre1 & Hr & Hds).
    change ((p, it) :: ms).*1 with (p :: ms.*1) in *.
    destruct (IH fl1 _ Hre1) as (fl' & b' & Hrun & Hre' & Hc & Hdr).
    + apply Hr.
    + by apply (replayed_link fl p it ds).
    + by apply (replayed_stored fl p it ds).
    + apply Forall_forall. intros [p' it'] Hin. cbn [fst snd].
      destruct (proj1 (Forall_forall _ _) Hms _ Hin) as [Hd' Hrcv']. cbn [fst snd] in Hd', Hrcv'.
      split; [|done]. apply (replayed_destined fl p it ds); [done..|]. intros Hq Hq'.
      eapply (NoDup_ids_ne p p' ms.*1); try done. by apply (list_elem_of_fmap_2 fst) in Hin.
    + rewrite ids_of_cons in Hnd. destruct (pb_packet_id p); [|done]. by apply NoDup_cons in Hnd as [_ ?].
    + by apply (replayed_room fl p it ds).
    + exists fl', b'. rewrite Hstep. split; [done|]. split; [done|].
      split; [rewrite Hc; simpl; rewrite zlen_cons; lia|]. by eapply drained_cons.
Qed.

(** *** [drain] *)

Lemma reachable_stored v mq router size queues fl :
  empty_queues queues -> flow_reachable v mq router size queues fl -> stored fl.
Proof.
  intros Hq Hr. destruct (flow_reachable_ok _ _ _ _ _ _ Hq Hr) as [[[_ Halloc] _] _].
  intros q m [i Hi]%list_elem_of_lookup. exact (Halloc (InQueue q i) m Hi).
Qed.

Lemma drain_delivers fl ms :
  replay_ok fl -> f_replay fl <> NoSessionReplay -> f_blocked fl = None -> link_up fl -> stored fl ->
  ms.*1 = publishes_of fl -> Forall (fun x => destined fl x.1 x.2) ms -> room fl ms ->
  exists fl', drain fl = (Ok tt, fl') /\ f_replay fl' = PersistentReplayIdle /\ drained fl ms fl'.
Proof.
  intros Hok Hres Hb Hl Hst Hps Hms Hroom. rewrite drain_eq. unfold replay_ok, publishes_of in *.
  destruct (f_replay fl) as [| |b] eqn:Hre; [done| |].
  { apply fmap_nil_inv in Hps as ->. exists fl. do 2 (split; [done|]). by apply drained_nil. }
  set (fl0 := set_replay (PersistentReplayBuffered (set_publishes [] b)) fl).
  destruct (drain_each ms fl0 (set_publishes [] b)) as (fl1 & b1 & Hrun & Hre1 & Hc & Hdr); try done.
  { apply Forall_forall. intros x Hx. split.
    - by destruct (proj1 (Forall_forall _ _) Hms x Hx).
    - apply (bo_received _ _ Hok). rewrite <- Hps. by apply list_elem_of_fmap_2. }
  { rewrite Hps. apply Hok. }
  assert (Hdp : _deliver_pending b fl = (Ok tt, fl1)).
  { unfold _deliver_pending. run. unfold upd_buffer. rewrite Hre, <- Hps. exact Hrun. }
  rewrite Hdp, Hre1. cbn [fst snd]. replace (rb_message_count b1 =? 0) with true.
  2: { symmetry. apply Z.eqb_eq. rewrite Hc. simpl. rewrite (bo_count _ _ Hok), <- Hps. unfold zlen.
       rewrite length_fmap. lia. }
  exists (set_replay PersistentReplayIdle fl1). do 2 (split; [done|]). by destruct Hdr.
Qed.

End replay.

Section theorem.
Context {R : Type} `{RequestRouter R, !RouterLaws R}.

(** C20: the replay of a resumed session, end to end.  PUBLISH packets of any QoS that
    nobody takes arrive in any reads: the read loop holds them in order, with nothing
    delivered and nothing written.  Then the application subscribes, or does anything
    else that leaves the buffer alone; when every held message has a subscription with
    automatic acknowledgement and room in its queue, draining puts the messages into
    their queues in the order of their arrival, each once, opens the exchanges of QoS 2,
    writes exactly the answers that are due, in order, and the buffering ends. *)
Theorem session_replay v mq router size queues (c : Connection R) ps bs chunks :
  empty_queues queues -> flow_reachable v mq router size queues (c_flow c) ->
  c_buf c = new_buffer v -> f_blocked (c_flow c) = None -> f_replay (c_flow c) <> NoSessionReplay ->
  let ps' := as_received v <$> ps in
  Forall (unmatched (c_flow c)) ps' -> NoDup (ids_of (publishes_of (c_flow c) ++ ps')) ->
  fits (zlen ps') (c_flow c) ->
  res_mapM (fun pk => encode pk v) (PPublish <$> ps) = Ok bs -> concat chunks = concat bs ->
  exists c', _read_loop (Data <$> chunks) c = (Ok AwaitsData, c') /\ held (c_flow c) ps' (c_flow c') /\
    forall fl2 ms, rtc flow_step (c_flow c') fl2 -> f_replay fl2 = f_replay (c_flow c') ->
      f_blocked fl2 = None -> link_up fl2 -> ms.*1 = publishes_of (c_flow c) ++ ps' ->
      Forall (fun x => destined fl2 x.1 x.2) ms -> room fl2 ms ->
      exists fl3, drain fl2 = (Ok tt, fl3) /\ f_replay fl3 = PersistentReplayIdle /\ drained fl2 ms fl3.
Proof.
  intros Hq Hreach Hbuf Hb Hres ps' Hps Hnd Hfits Hbs Hch.
  destruct (flow_reachable_ok _ _ _ _ _ _ Hq Hreach) as [_ Hok].
  destruct (hold_all ps' (c_flow c) Hok Hb Hres Hps Hnd Hfits) as (fl' & Hserve & Hh).
  pose proof (read_loop_stream c chunks) as HL. rewrite Hbuf, Hch in HL.
  unfold feed in HL. cbn [new_buffer _buf _version app] in HL.
  rewrite <- (app_nil_r (concat bs)), (packets_of_encoded v _ bs []) in HL by done.
  assert (Hcanon : canon v <$> (PPublish <$> ps) = PPublish <$> ps').
  { unfold ps'. rewrite <- !list_fmap_compose. by apply list_fmap_ext. }
  rewrite Hcanon, Hserve in HL. pose proof (read_loop_steps (Data <$> chunks) c) as Hsteps.
  destruct (_read_loop _ c) as [r c']. injection HL as <- ->. cbn [snd] in Hsteps.
  exists c'. split; [done|]. split; [done|]. intros fl2 ms H2 Hre2 Hb2 Hl2 Hms Hd Hroom.
  assert (Hr2 : flow_reachable v mq router size queues fl2)
    by (unfold flow_reachable; etrans; [exact Hreach|]; by etrans).
  destruct (flow_reachable_ok _ _ _ _ _ _ Hq Hr2) as [_ Hok2].
  apply drain_delivers; try done.
  - rewrite Hre2. apply Hh.
  - by eapply reachable_stored.
  - unfold publishes_of. rewrite Hms, Hre2, <- (he_publishes _ _ _ Hh). done.
Qed.

End theorem.

(** ** A concrete replay *)

Definition resumed : Connection unit :=
  mkConnection (begin_session true (new_flow V5 EXACTLY_ONCE None 3 ∅)).2 (new_buffer V5) false.

Definition early : list Publish :=
  [incoming "x" AT_LEAST_ONCE (Some 6); incoming "y" AT_MOST_ONCE None; incoming "x" EXACTLY_ONCE (Some 7)].

Definition early_bytes : list bytes :=
  match res_mapM (fun pk => encode pk V5) (PPublish <$> early) with Ok bs => bs | Err _ => [] end.

Definition late_item : item := (lit "#", mkEntry 1 8 true (lit "#") None).

Definition late_engine (e : Engine) : Engine :=
  inbound_effect (inflight_qos2_in (e_session e)) (pending_ack_qos2_in (e_session e))
    (add (subscriptions (e_session e)) (lit "#") late_item.2) [] true e.

Definition early_messages : list (Publish * item) :=
  (fun p => (as_received V5 p, late_item)) <$> early.

Lemma session_replay_witness :
  exists c' fl3, _read_loop (Data <$> [take 3 (concat early_bytes); drop 3 (concat early_bytes)]) resumed
      = (Ok AwaitsData, c') /\
    wire (c_flow c') = wire (c_flow resumed) /\
    drain (set_engine (late_engine (f_engine (c_flow c'))) (c_flow c')) = (Ok tt, fl3) /\
    contents fl3 8 = [Some (_make_message (incoming "x" AT_LEAST_ONCE (Some 6)));
                      Some (_make_message (incoming "y" AT_MOST_ONCE None))].
Proof.
  destruct (session_replay V5 EXACTLY_ONCE None 3 ∅ resumed early early_bytes
    [take 3 (concat early_bytes); drop 3 (concat early_bytes)]) as (c' & Hc & Hh & Hd).
  - apply no_queues.
  - apply rtc_once, fs_begin.
  - reflexivity.
  - reflexivity.
  - discriminate.
  - repeat constructor; try (vm_compute; reflexivity); try (vm_compute; discriminate);
      try (eexists; split; [reflexivity|]; vm_compute; split; discriminate);
      try (intros ? ?; vm_compute; reflexivity);
      intros ? [=]; subst; vm_compute; try reflexivity; discriminate.
  - vm_compute. repeat constructor; rewrite ?list_elem_of_singleton; set_solver.
  - right. vm_compute. discriminate.
  - vm_compute. reflexivity.
  - vm_compute. reflexivity.
  - pose proof (he_engine _ _ _ Hh) as He. pose proof (he_router _ _ _ Hh) as Hr.
    destruct (Hd (set_engine (late_engine (f_engine (c_flow c'))) (c_flow c')) early_messages)
      as (fl3 & H1 & _ & H3).
    + apply rtc_once, fs_engine; [apply step_inbound|reflexivity..|]. intros _. unfold link_up.
      by rewrite He.
    + reflexivity.
    + apply (he_runs _ _ _ Hh).
    + unfold link_up. reflexivity.
    + vm_compute. reflexivity.
    + repeat constructor; unfold session; simpl; rewrite ?He, ?Hr; try (vm_compute; reflexivity);
        vm_compute; discriminate.
    + intros q. left. change (queue_of (set_engine _ (c_flow c')) q) with (queue_of (c_flow c') q).
      rewrite (he_queues _ _ _ Hh). reflexivity.
    + exists c', fl3. split; [exact Hc|]. split; [unfold wire; by rewrite He|]. split; [exact H1|].
      rewrite (dr_contents _ _ _ H3 8%nat). unfold contents.
      change (queue_of (set_engine _ (c_flow c')) 8) with (queue_of (c_flow c') 8).
      rewrite (he_queues _ _ _ Hh). reflexivity.
Defined.
