(* ===== verification/DrainTasks.v ===== *)
(** * Drains of the replay buffer as tasks ([drain] and [expire] in [inbound.py])

    In [Inbound] a drain is atomic.  Here it is a coroutine: it may be suspended in the
    write of each acknowledgement, while the read loop and the application go on, and
    [_delivery_lock] serializes the drains that want to run.  [deliver_until] is
    [_deliver_pending] up to the next write; [drain_written] and [drain_failed] are what
    happens when that write ends.

    A task that waits for the lock when the buffer empties finds an empty buffer that
    is no longer the state of the flow, and returns. *)

From S2P Require Import Prelude PyBytes Packets SubscriptionIndex State Routing Protocol Inbound.
Local Open Scope Z_scope.

(** [drain], or [expire] run by the timer ([_expire_after_timeout]) *)
Inductive drain_kind := Draining | Expiring.

#[export] Instance drain_kind_eq_dec : EqDecision drain_kind.
Proof. solve_decision. Defined.

(** A drain suspended in the write of [dt_current], which is delivered: the locals of
    [_deliver_pending] *)
Record DrainTask := mkDrain {
  dt_id : nat;
  dt_kind : drain_kind;
  dt_unmatched : list Publish;
  dt_current : Publish;
  dt_pending : list Publish;
}.

(** The flow with the lock of its buffer: the task that has it, those that wait in the
    order of arrival, and the tasks that ended with their results. *)
Record Drains (R : Type) := mkDrains {
  ds_flow : Flow R;
  ds_lock : option DrainTask;
  ds_waiters : list (nat * drain_kind);
  ds_ended : list (nat * result unit);
}.
Arguments mkDrains {R}.
Arguments ds_flow {R}.
Arguments ds_lock {R}.
Arguments ds_waiters {R}.
Arguments ds_ended {R}.

Section tasks.
Context {R : Type} `{RequestRouter R}.

Notation F := (ST (Flow R)).

Definition set_drain_flow (fl : Flow R) (s : Drains R) : Drains R :=
  mkDrains fl (ds_lock s) (ds_waiters s) (ds_ended s).

(** Delivering [p] to [r] ends with the write of PUBACK or PUBREC. *)
Definition writes (p : Publish) (r : InboundRecipient) : bool :=
  match pb_qos p with AT_MOST_ONCE => false | _ => recipient_auto_ack r end.

(** The [finally] of [_deliver_pending], [l] being [unmatched] with what is left of
    [pending] *)
Definition restore (l : list Publish) (b : ReplayBuffer) : ReplayBuffer :=
  set_publishes (l ++ rb_publishes b) b.

(** The inner loop of [_deliver_pending] until it writes: [unmatched], and the message
    whose delivery writes with what is left of [pending] *)
Fixpoint deliver_until (pending unmatched : list Publish)
    : F (list Publish * option (Publish * list Publish)) :=
  match pending with
  | [] => mret (unmatched, None)
  | p :: pending' =>
      r ← select_recipient p;
      held ← gets (replay_holds r);
      if held : bool then deliver_until pending' (unmatched ++ [p])
      else
        _ ← finally_on_error (deliver_replay p r)
              (upd_buffer (restore (unmatched ++ [p] ++ pending')));
        if writes p r then mret (unmatched, Some (p, pending'))
        else
          _ ← modify (upd_buffer (_discard p));
          deliver_until pending' unmatched
  end.

(** [while self._publishes]: nothing is appended while the loop runs, so that it takes
    the buffer at most once before it ends or is suspended. *)
Fixpoint drain_loop (fuel : nat) (pending unmatched : list Publish)
    : F (list Publish * option (Publish * list Publish)) :=
  '(unmatched, at_write) ← deliver_until pending unmatched;
  match at_write with
  | Some _ => mret (unmatched, at_write)
  | None =>
      publishes ← gets publishes_of;
      match publishes, fuel with
      | [], _ => _ ← modify (upd_buffer (restore unmatched)); mret (unmatched, None)
      | _, O => raise NonTermination
      | _, S fuel =>
          _ ← modify (upd_buffer (set_publishes []));
          drain_loop fuel publishes unmatched
      end
  end.

(** What [drain] and [expire] do after [_deliver_pending], with the assignment of the
    caller to [self._replay] *)
Definition drain_finish (k : drain_kind) : F unit :=
  next_replay ← (match k with Draining => after_drain | Expiring => after_expire end);
  modify (set_replay next_replay).

Definition end_expiration (b : ReplayBuffer) : ReplayBuffer :=
  mkBuffer (rb_ref b) (rb_publishes b) (rb_packet_ids b) (rb_topics b) (rb_message_count b) false.

(** The end of [_expire_after_timeout]: nothing is raised, an exception other than the
    cancellation aborts the connection. *)
Definition timer_ends (x : result unit) (fl : Flow R) : Flow R :=
  upd_buffer end_expiration
    (match x with Ok _ | Err CancelledError => fl | Err _ => (connection abort fl).2 end).

(** The task ends with [x] and releases the lock; without a buffer the tasks that wait
    have nothing to do. *)
Definition drain_leave (id : nat) (k : drain_kind) (x : result unit) (fl : Flow R) (s : Drains R)
    : Drains R :=
  let ended := ds_ended s ++ [(id, match k with Draining => x | Expiring => Ok tt end)] in
  let fl := match k with Draining => fl | Expiring => timer_ends x fl end in
  match f_replay fl with
  | PersistentReplayBuffered _ => mkDrains fl None (ds_waiters s) ended
  | _ => mkDrains fl None [] (ended ++ map (fun w => (w.1, Ok tt)) (ds_waiters s))
  end.

(** The task runs until it is suspended or ends. *)
Definition drain_go (id : nat) (k : drain_kind) (pending unmatched : list Publish) (s : Drains R)
    : Drains R :=
  match drain_loop 1 pending unmatched (ds_flow s) with
  | (Ok (unmatched, Some (p, pending)), fl) =>
      mkDrains fl (Some (mkDrain id k unmatched p pending)) (ds_waiters s) (ds_ended s)
  | (Ok (_, None), fl) => drain_leave id k (Ok tt) (drain_finish k fl).2 s
  | (Err x, fl) => drain_leave id k (Err x) fl s
  end.

(** A task calls [drain], or the timer of the buffer [expire_replay] *)
Definition drain_enter (id : nat) (k : drain_kind) (s : Drains R) : Drains R :=
  match f_replay (ds_flow s), ds_lock s, ds_waiters s with
  | PersistentReplayBuffered _, None, [] => drain_go id k [] [] s
  | PersistentReplayBuffered _, _, _ =>
      mkDrains (ds_flow s) (ds_lock s) (ds_waiters s ++ [(id, k)]) (ds_ended s)
  | _, _, _ => mkDrains (ds_flow s) (ds_lock s) (ds_waiters s) (ds_ended s ++ [(id, Ok tt)])
  end.

(** The first waiter gets the lock. *)
Definition drain_next (s : Drains R) : Drains R :=
  match ds_lock s, ds_waiters s with
  | None, (id, k) :: ws => drain_go id k [] [] (mkDrains (ds_flow s) None ws (ds_ended s))
  | _, _ => s
  end.

(** The write returns. *)
Definition drain_written (s : Drains R) : Drains R :=
  match ds_lock s with
  | None => s
  | Some t =>
      drain_go (dt_id t) (dt_kind t) (dt_pending t) (dt_unmatched t)
        (set_drain_flow (upd_buffer (_discard (dt_current t)) (ds_flow s)) s)
  end.

(** The write raises, or the task is cancelled in it. *)
Definition drain_failed (x : exn) (s : Drains R) : Drains R :=
  match ds_lock s with
  | None => s
  | Some t =>
      drain_leave (dt_id t) (dt_kind t) (Err x)
        (upd_buffer (restore (dt_unmatched t ++ [dt_current t] ++ dt_pending t)) (ds_flow s)) s
  end.

(** A caller that waits for the lock is cancelled. *)
Definition drain_abandoned (id : nat) (s : Drains R) : Drains R :=
  if decide ((id, Draining) ∈ ds_waiters s) then
    mkDrains (ds_flow s) (ds_lock s) (filter (fun w => w <> (id, Draining)) (ds_waiters s))
      (ds_ended s ++ [(id, Err CancelledError)])
  else s.

End tasks.
