(* ===== verification/DrainTasksFacts.v ===== *)
(** * Interleaved drains: what is handed over, kept and put back

    What a drain of [DrainTasks] does between two writes, the invariant of the flow with
    a drain suspended in a write, and the drain that is never interrupted, which is the
    atomic [drain].  The parameter [uncancelled] says whether a drain may be cancelled in
    a write on a live connection: such a drain puts the message of the write back, which
    it had handed over. *)

From S2P Require Import Prelude PyBytes Utf8 PropertyRecords Packets Codec SubscriptionIndex State Routing Protocol ProtocolFacts Inbound InboundFacts InboundInv Delivery DrainTasks.
Local Open Scope Z_scope.

#[local] Arguments select : simpl never.
#[local] Arguments select_by_identifier : simpl never.
#[local] Arguments deliver_replay : simpl never.
#[local] Arguments restore : simpl never.

Section facts.
Context {R : Type} `{RequestRouter R}.

Implicit Types (fl : Flow R) (p : Publish) (s : Drains R) (W : list Publish).

(** The message of the write, and what is left of [pending] *)
Definition current_of (w : option (Publish * list Publish)) : list Publish :=
  match w with Some (p, _) => [p] | None => [] end.

Definition pending_of (w : option (Publish * list Publish)) : list Publish :=
  match w with Some (_, l) => l | None => [] end.

Definition buffering fl : Prop := exists b, f_replay fl = PersistentReplayBuffered b.

(** ** Counting what is handed over *)

(** The message object [m] is in a queue, in a flight that has not delivered it, or with
    the suspended read loop. *)
Definition placed fl (m : nat) : Prop := exists o, owns fl None o m.

Definition places_nothing fl fl' : Prop := forall m, placed fl' m -> placed fl m.

Lemma places_same fl fl' : same_owners fl fl' -> places_nothing fl fl'.
Proof.
  intros (H1 & H2 & H3 & _) m [o Ho]. exists o. destruct o; simpl in *; by rewrite ?H1, ?H2, ?H3 in Ho.
Qed.

Lemma deliver_places r cb k fl m :
  placed (_deliver r cb k fl).2 m -> placed fl m \/ m = message r.
Proof.
  assert (Ha : forall fl1, placed (run_after k fl1).2 m -> placed fl1 m).
  { intros fl1. rewrite run_after_eq. destruct k; [done|]. apply places_same. split_and!; try done; [|by intros x].
    unfold session. simpl. by rewrite sent_session. }
  rewrite deliver_eq. destruct (request r); [intros Hp%Ha; by left|].
  destruct (subscription r) as [it|]; [|intros Hp%Ha; by left].
  pose proof (places_same _ _ (same_owners_with_callback r cb fl) m) as Hc.
  rewrite put_eq. destruct (full _).
  - intros [o Ho]. destruct o as [q i|pid| |]; [left; apply Hc; eexists (InQueue q i); exact Ho|
      left; apply Hc; exists (InFlight pid); exact Ho| |done].
    destruct Ho as (b & [= <-] & <-). by right.
  - intros [o Ho]%Ha. destruct o as [q i|pid| |]; [|left; apply Hc; exists (InFlight pid); exact Ho|
      left; apply Hc; exists InBlocked; exact Ho|done].
    simpl in Ho. rewrite queue_of_put in Ho. case_decide as Hq; [|left; apply Hc; by exists (InQueue q i)].
    subst q. simpl in Ho. apply lookup_app_Some in Ho as [Ho|[_ Ho]].
    + left. apply Hc. by exists (InQueue (queue it.2) i).
    + apply list_lookup_singleton_Some in Ho as [_ ->]. by right.
Qed.

(** Replaying a message places the object made for it, and no other. *)
Lemma deliver_replay_places p r fl m :
  placed (deliver_replay p r fl).2 m -> placed fl m \/ m = message r.
Proof.
  unfold deliver_replay, _deliver_qos1_publish, _accept_qos2_publish, no_packet_id.
  destruct (pb_qos p); [apply deliver_places|..];
    (destruct (pb_packet_id p) as [pid|]; [|by left]); destruct (recipient_auto_ack r);
    try apply deliver_places; run.
  - rewrite connection_send. intros [o Ho]. destruct o as [q i|pid'| |]; simpl in Ho;
      [left; by exists (InQueue q i)| |left; by exists InBlocked|done].
    destruct Ho as (f & Hf & Hd & Hm). unfold session in Hf. simpl in Hf.
    rewrite sent_session in Hf. simpl in Hf. rewrite lookup_insert in Hf. case_decide.
    + simplify_eq. by right.
    + left. exists (InFlight pid'). by exists f.
  - intros Hp. match type of Hp with placed (_deliver _ ?cb ?k ?f).2 _ =>
      destruct (deliver_places r cb k f m Hp) as [Hq|?] end; [left; exact Hq|by right].
Qed.

(** The messages [gone] became one new message object each, and nothing else did. *)
Definition accounts (gone : list Publish) fl fl' : Prop :=
  exists ms, NoDup ms /\
    Forall2 (fun m p => f_messages fl !! m = None /\ holds_message fl' m p) ms gone /\
    forall m, placed fl' m -> placed fl m \/ m ∈ ms.

Lemma accounts_nil fl fl' : places_nothing fl fl' -> accounts [] fl fl'.
Proof. intros Hp. exists []. split; [constructor|]. split; [constructor|]. intros m Hm. left. by apply Hp. Qed.

Lemma accounts_app g1 g2 f1 f2 f3 :
  history f1 f2 -> history f2 f3 -> accounts g1 f1 f2 -> accounts g2 f2 f3 -> accounts (g1 ++ g2) f1 f3.
Proof.
  intros Hh1 Hh2 (ms1 & A1 & A2 & A3) (ms2 & B1 & B2 & B3). exists (ms1 ++ ms2).
  assert (Hnew : forall m, f_messages f2 !! m = None -> f_messages f1 !! m = None).
  { intros m Hm. destruct (f_messages f1 !! m) as [o|] eqn:Ho; [|done].
    destruct (hi_message _ _ Hh1 m o Ho) as (o' & Ho' & _). congruence. }
  split; [|split].
  - apply NoDup_app. split; [done|]. split; [|done]. intros m H1 H2.
    apply list_elem_of_lookup_1 in H1 as [i Hi]. apply list_elem_of_lookup_1 in H2 as [j Hj].
    destruct (Forall2_lookup_l _ _ _ _ _ A2 Hi) as (p & _ & _ & o & Ho & _).
    destruct (Forall2_lookup_l _ _ _ _ _ B2 Hj) as (p' & _ & Hn & _). congruence.
  - apply Forall2_app; (eapply Forall2_impl; [eassumption|]); intros m p [Hn Hm].
    + split; [done|]. destruct Hm as (o & Ho & Hc).
      destruct (hi_message _ _ Hh2 m o Ho) as (o' & Ho' & Hc' & _). exists o'. split; [done|]. congruence.
    + split; [by apply Hnew|done].
  - intros m [[?|?]%A3|?]%B3; rewrite elem_of_app; tauto.
Qed.

Lemma accounts_one p fl :
  accounts [p] fl (deliver_replay p (selected p fl) (after_select p fl)).2.
Proof.
  pose proof (prims_history _ _ (deliver_replay_traces p (selected p fl) (after_select p fl))) as Hh.
  destruct (hi_message _ _ Hh (new_ref fl) (mkMessageObject (_make_message p) None false))
    as (o & Ho & Hc & _); [simpl; apply lookup_insert_eq|].
  exists [new_ref fl]. split; [apply NoDup_singleton|]. split.
  - constructor; [|constructor]. split; [apply new_ref_fresh|by exists o].
  - intros m [Hp|Hp]%deliver_replay_places; [left; exact Hp|right].
    rewrite Hp, message_selected. by apply list_elem_of_singleton.
Qed.

(** At some point between [fl] and [fl'] the message [p] was handed over. *)
Definition passed p fl fl' : Prop :=
  exists f1 f2, rtc prim fl f1 /\ handed_over p f1 f2 /\ rtc prim f2 fl'.

Lemma passed_within p f0 f1 f2 f3 :
  rtc prim f0 f1 -> rtc prim f2 f3 -> passed p f1 f2 -> passed p f0 f3.
Proof. intros H1 H2 (g1 & g2 & A & B & C). exists g1, g2. by split; [etrans|split; [|etrans]]. Qed.

Section guarded.

(** No drain is cancelled while it writes on a live connection.  With [False] for
    [uncancelled] any drain may be. *)
Context (uncancelled : Prop).

Notation inv_at := (inv_at_if uncancelled).
Notation flow_ok := (flow_ok_if uncancelled).
Notation flow_with := (flow_with_if uncancelled).
Notation replaying := (replaying_if uncancelled).

(** The messages [gone] were handed over, once each.  A message for which PUBREC was
    written keeps its exchange, unless the exchange of a cancelled drain was under the
    same identifier. *)
Record hands (gone : list Publish) fl fl' : Prop := {
  hd_passed : Forall (fun p => passed p fl fl') gone;
  hd_kept : uncancelled -> link_up fl' -> Forall (fun p => handed_over p fl fl') gone;
  hd_accounts : accounts gone fl fl';
}.

Lemma hands_nil fl fl' : places_nothing fl fl' -> hands [] fl fl'.
Proof. intros Hp. split; [constructor|intros _ _; constructor|by apply accounts_nil]. Qed.

Lemma hands_app g1 g2 f1 f2 f3 :
  rtc prim f1 f2 -> rtc prim f2 f3 -> (uncancelled -> flights_kept f2 f3) ->
  hands g1 f1 f2 -> hands g2 f2 f3 -> hands (g1 ++ g2) f1 f3.
Proof.
  intros Hp1 Hp2 Hk [A1 A2 A3] [B1 B2 B3].
  pose proof (prims_history _ _ Hp1) as Hh1. pose proof (prims_history _ _ Hp2) as Hh2. split.
  - apply Forall_app. split; (eapply Forall_impl; [eassumption|]); intros p.
    + by apply (passed_within p f1 f1 f2 f3).
    + by apply (passed_within p f1 f2 f3 f3).
  - intros HU Hl. specialize (A2 HU (hi_link _ _ Hh2 Hl)). specialize (B2 HU Hl).
    apply Forall_app. split; (eapply Forall_impl; [eassumption|]); intros p Hp; cbn beta in Hp.
    + apply (handed_over_later p f1 f2); [done|by apply Hk|done|done].
    + by apply (handed_over_earlier p f1 f2).
  - by apply (accounts_app _ _ f1 f2).
Qed.

(** Setting the state of the replay hands nothing over. *)
Lemma hands_replay gone st fl fl' : hands gone fl fl' -> hands gone fl (set_replay st fl').
Proof.
  intros Hh. rewrite <- (app_nil_r gone).
  destruct Hh as [A1 A2 A3]. split; rewrite ?app_nil_r.
  - eapply Forall_impl; [exact A1|]. intros p. apply (passed_within p fl fl fl'); [done|].
    apply rtc_once, pr_replay.
  - intros HU Hl. eapply Forall_impl; [exact (A2 HU Hl)|]. intros p. apply handed_over_replay.
  - destruct A3 as (ms & M1 & M2 & M3). exists ms. split; [done|]. split; [exact M2|exact M3].
Qed.

Lemma hands_replay_before gone st fl fl' : hands gone (set_replay st fl) fl' -> hands gone fl fl'.
Proof.
  assert (Hp : rtc prim fl (set_replay st fl)) by apply rtc_once, pr_replay.
  intros [A1 A2 A3]. split.
  - eapply Forall_impl; [exact A1|]. intros p. by apply (passed_within p fl (set_replay st fl) fl' fl').
  - intros HU Hl. eapply Forall_impl; [exact (A2 HU Hl)|]. intros p.
    by apply (handed_over_earlier p fl (set_replay st fl)).
  - exact A3.
Qed.

(** ** One stretch *)

(** From [fl] with the messages [W] not delivered to a suspension or the end of the
    loop: the locals [u] and [w], and [b] as the buffer.  What is not among the messages
    left was handed over. *)
Record stretch W fl (u : list Publish) (w : option (Publish * list Publish)) (b : ReplayBuffer) fl'
    : Prop := {
  st_buffer : f_replay fl' = PersistentReplayBuffered b;
  st_ok : buffer_ok (f_buffer_size fl')
    (set_publishes (u ++ current_of w ++ pending_of w ++ rb_publishes b) b);
  st_inv : inv_at (u ++ pending_of w ++ rb_publishes b) None fl';
  st_prims : rtc prim fl fl';
  st_flights : uncancelled -> flights_kept fl fl';
  st_gone : exists gone,
    W ≡ₚ gone ++ u ++ pending_of w ++ rb_publishes b /\
    hands gone fl fl' /\ forall p, p ∈ current_of w -> p ∈ gone;
}.

Lemma restored fl l b :
  f_replay fl = PersistentReplayBuffered b ->
  upd_buffer (restore l) fl = set_replay (PersistentReplayBuffered (restore l b)) fl.
Proof. intros Hb. unfold upd_buffer. by rewrite Hb. Qed.

(** The messages go back to the buffer. *)
Lemma restore_ok l b fl :
  replaying (l ++ rb_publishes b) b fl -> flow_ok (upd_buffer (restore l) fl).
Proof.
  intros [Hb Hbo Hi]. rewrite (restored _ _ b) by done.
  split; [|exact Hbo]. revert Hi. apply inv_at_same; by split_and!; try intros ?.
Qed.

Lemma deliver_until_cons p pending unmatched fl :
  deliver_until (p :: pending) unmatched fl =
    if replay_holds (selected p fl) (after_select p fl)
    then deliver_until pending (unmatched ++ [p]) (after_select p fl)
    else
      match deliver_replay p (selected p fl) (after_select p fl) with
      | (Ok _, fl2) =>
          if writes p (selected p fl) then (Ok (unmatched, Some (p, pending)), fl2)
          else deliver_until pending unmatched (upd_buffer (_discard p) fl2)
      | (Err x, fl2) => (Err x, upd_buffer (restore (unmatched ++ [p] ++ pending)) fl2)
      end.
Proof.
  simpl. run. rewrite select_recipient_eq. run. destruct (replay_holds _ _); [done|].
  run. unfold finally_on_error. destruct (deliver_replay _ _ _) as [[[]|x] fl2]; [|done].
  by destruct (writes _ _).
Qed.

(** The messages [W] became [W1], the others were handed over. *)
Definition handed W W1 fl fl' : Prop :=
  exists gone, W ≡ₚ gone ++ W1 /\ hands gone fl fl'.

Lemma handed_same W fl fl' : places_nothing fl fl' -> handed W W fl fl'.
Proof. intros Hp. exists []. split; [done|by apply hands_nil]. Qed.

(** Stretches compose. *)
Lemma stretch_more W W1 fl fl1 u w b fl' :
  rtc prim fl fl1 -> (uncancelled -> flights_kept fl fl1) -> handed W W1 fl fl1 ->
  stretch W1 fl1 u w b fl' -> stretch W fl u w b fl'.
Proof.
  intros Hp Hk (gone & HW & Hh) [H1 H2 H3 H4 H5 (g & G1 & G2 & G3)].
  assert (Hl : link_up fl' -> link_up fl1) by apply (hi_link _ _ (prims_history _ _ H4)).
  split; [done..|by etrans| |].
  - intros HU. apply (flights_kept_trans fl fl1); by auto.
  - exists (gone ++ g). split; [by rewrite HW, G1, <- app_assoc|].
    split; [by apply (hands_app _ _ fl fl1)|].
    intros p Hp'. apply elem_of_app. right. by apply G3.
Qed.

(** The loop is done, or has not begun. *)
Lemma stretch_here u b fl : replaying (u ++ rb_publishes b) b fl ->
  stretch (u ++ rb_publishes b) fl u None b fl.
Proof.
  intros [Hb Hbo Hi]. split; [done..| |]; [intros _; by apply flights_kept_same|].
  exists []. split_and!; [done|apply hands_nil; by intros m|by intros p ?%elem_of_nil].
Qed.

(** A stretch that came to the end of [pending] *)
Lemma stretch_replaying W fl u b fl' :
  stretch W fl u None b fl' -> replaying (u ++ rb_publishes b) b fl'.
Proof. by intros [H1 H2 H3 _ _ _]. Qed.

Lemma deliver_until_spec pending u b fl :
  replaying (u ++ pending ++ rb_publishes b) b fl ->
  match deliver_until pending u fl with
  | (Ok (u', w), fl') => exists b', rb_publishes b' = rb_publishes b /\
      stretch (u ++ pending ++ rb_publishes b) fl u' w b' fl'
  | (Err _, fl') => flow_ok fl' /\ ~ link_up fl'
  end.
Proof.
  revert u b fl; induction pending as [|p pending IH]; intros u b fl Hrp.
  { exists b. split; [done|]. by apply stretch_here. }
  rewrite deliver_until_cons. destruct (replay_holds _ _) eqn:Hheld.
  { specialize (IH (u ++ [p]) b (after_select p fl)). rewrite <- app_assoc in IH.
    pose proof (replaying_held u p (pending ++ rb_publishes b) b fl Hrp) as Hrp1.
    rewrite <- app_assoc in Hrp1. specialize (IH Hrp1). cbn [app] in IH |- *.
    destruct (deliver_until _ _ _) as [[[u' w]|x] fl']; [|done]. destruct IH as (b' & Hb' & IH).
    exists b'. split; [done|].
    eapply (stretch_more _ _ fl (after_select p fl) _ _ _ _ (after_select_traces p fl));
      [intros _; by apply flights_kept_same|apply handed_same; by intros m|exact IH]. }
  pose proof (replay_one u p (pending ++ rb_publishes b) b fl Hrp Hheld) as HO.
  pose proof (accounts_one p fl) as Hacc. pose proof Hrp as [Hb Hbo Hi].
  destruct (deliver_replay _ _ _) as [[[]|x] fl2]; cbn [snd] in Hacc.
  - destruct HO as ([H1 H2 H3 H4] & Hhand & _).
    assert (Hone : hands [p] fl fl2).
    { split; [|intros _ _|done]; (constructor; [|done]); [by exists fl, fl2|done]. }
    assert (HW : u ++ (p :: pending) ++ rb_publishes b ≡ₚ [p] ++ u ++ pending ++ rb_publishes b)
      by (cbn [app]; by rewrite <- Permutation_middle).
    destruct (writes _ _).
    + exists b. split; [done|]. destruct H1 as [E1 E2]. split; [by rewrite E1|by rewrite E2|done..|].
      exists [p]. split; [exact HW|]. by split.
    + destruct (replaying_discard u p (pending ++ rb_publishes b) b fl fl2 Hrp H1 H2) as [He Hrp2].
      rewrite He. specialize (IH u (_discard p b) _ Hrp2).
      destruct (deliver_until _ _ _) as [[[u' w]|x] fl']; [|done]. destruct IH as (b' & Hb' & IH).
      exists b'. split; [done|]. eapply (stretch_more _ _ fl); [| | |exact IH].
      * eapply rtc_r; [exact H3|apply pr_replay].
      * intros HU. eapply flights_kept_trans; [|exact (H4 HU)|by apply flights_kept_same]. done.
      * exists [p]. split; [exact HW|]. by apply hands_replay.
  - destruct HO as [[[E1 E2] H2 H3 H4] Hdown]. rewrite (restored _ _ b) by (by rewrite E1).
    split; [|done]. split; [|by unfold replay_ok, restore; simpl; rewrite E2, <- app_assoc].
    split; [|by intros [_ ?]]. eapply (owned_same _ fl2); [by split_and!; try intros ?|apply H2].
Qed.

(** The loop ends: what nobody takes is back in the buffer. *)
Lemma stretch_restored W fl u b fl' :
  rb_publishes b = [] -> stretch W fl u None b fl' ->
  stretch W fl [] None (restore u b) (upd_buffer (restore u) fl').
Proof.
  intros Hn [H1 H2 H3 H4 H5 (gone & G1 & G2 & G3)]. rewrite (restored _ _ b) by done.
  cbn [current_of pending_of app] in *.
  split; cbn [current_of pending_of app].
  - done.
  - exact H2.
  - unfold restore. simpl. revert H3. apply inv_at_same; by split_and!; try intros ?.
  - eapply rtc_r; [exact H4|apply pr_replay].
  - intros HU. eapply flights_kept_trans; [|exact (H5 HU)|by apply flights_kept_same]. done.
  - exists gone. split; [exact G1|]. split; [by apply hands_replay|done].
Qed.

(** The loop over the buffer ends or is suspended; the messages that nobody takes are
    back in the buffer at its end. *)
Lemma drain_loop_spec fuel pending u b fl :
  (fuel = 0%nat -> rb_publishes b = []) ->
  replaying (u ++ pending ++ rb_publishes b) b fl ->
  match drain_loop fuel pending u fl with
  | (Ok (u', Some (p, l)), fl') =>
      exists b', stretch (u ++ pending ++ rb_publishes b) fl u' (Some (p, l)) b' fl'
  | (Ok (_, None), fl') =>
      exists b', stretch (u ++ pending ++ rb_publishes b) fl [] None b' fl'
  | (Err _, fl') => flow_ok fl' /\ ~ link_up fl'
  end.
Proof.
  revert pending u b fl; induction fuel as [|fuel IH]; intros pending u b fl Hfuel Hrp;
    cbn [drain_loop]; rewrite run_bind;
    pose proof (deliver_until_spec pending u b fl Hrp) as HS;
    destruct (deliver_until pending u fl) as [[[u' w]|x] fl1]; try done;
    destruct HS as (b1 & Hb1 & HS);
    (destruct w as [[p l]|]; [by exists b1|]); run;
    pose proof (stretch_replaying _ _ _ _ _ HS) as Hrp1; pose proof Hrp1 as [Hb Hbo Hi];
    (replace (publishes_of fl1) with (rb_publishes b) by (unfold publishes_of; by rewrite Hb)).
  1: { pose proof (Hfuel eq_refl) as Hz. rewrite Hz in *. run. exists (restore u' b1).
       by apply stretch_restored. }
  destruct (rb_publishes b) as [|q l] eqn:Hq.
  { run. exists (restore u' b1). by apply stretch_restored. }
  run.
  set (b2 := set_publishes [] b1). set (fl2 := set_replay (PersistentReplayBuffered b2) fl1).
  replace (upd_buffer (set_publishes []) fl1) with fl2 by (unfold upd_buffer; by rewrite Hb).
  assert (Hrp2 : replaying (u' ++ (q :: l) ++ rb_publishes b2) b2 fl2).
  { rewrite Hb1 in *. simpl. rewrite app_nil_r. split; [done|exact Hbo|].
    revert Hi. apply inv_at_same; by split_and!; try intros ?. }
  specialize (IH (q :: l) u' b2 fl2 ltac:(done) Hrp2).
  assert (Hmore : forall u2 w b3 fl3,
    stretch (u' ++ (q :: l) ++ rb_publishes b2) fl2 u2 w b3 fl3 ->
    stretch (u ++ pending ++ q :: l) fl u2 w b3 fl3).
  { intros u2 w b3 fl3. cbn [current_of pending_of app] in HS.
    destruct HS as [S1 S2 S3 S4 S5 (gone & G1 & G2 & _)].
    apply (stretch_more _ (u' ++ (q :: l) ++ rb_publishes b2) fl fl2);
      [by eapply rtc_r; [exact S4|apply pr_replay]| |].
    - intros HU. eapply flights_kept_trans; [|exact (S5 HU)|by apply flights_kept_same]. done.
    - exists gone. rewrite Hb1 in G1. split; [simpl; by rewrite app_nil_r|by apply hands_replay]. }
  destruct (drain_loop _ _ _ _) as [[[u2 [[p2 l2]|]]|x] fl3]; [..|done];
    destruct IH as (b3 & IH); exists b3; by apply Hmore.
Qed.

(** ** The invariant *)

(** What a suspended drain has in its hands, with the message it is writing for *)
Definition counted_of s : list Publish :=
  match ds_lock s with
  | Some t => dt_unmatched t ++ dt_current t :: dt_pending t
  | None => []
  end.

Definition in_hand s : list Publish :=
  match ds_lock s with Some t => dt_unmatched t ++ dt_pending t | None => [] end.

(** The messages that nobody has yet *)
Definition waiting_of s : list Publish := in_hand s ++ publishes_of (ds_flow s).

Record drains_ok s : Prop := {
  dk_flow : flow_with (counted_of s) (in_hand s) (ds_flow s);
  dk_waiters : ds_waiters s <> [] -> buffering (ds_flow s);
}.

Lemma in_hand_counted s p : p ∈ in_hand s -> p ∈ counted_of s.
Proof.
  unfold in_hand, counted_of. destruct (ds_lock s); [|done].
  rewrite !elem_of_app, elem_of_cons. tauto.
Qed.

(** *** The end of a task *)

(** What becomes of the buffer [b] *)
Definition finished (k : drain_kind) (b : ReplayBuffer) : ReplayState :=
  if rb_message_count b =? 0 then PersistentReplayIdle
  else match k with Draining => PersistentReplayBuffered b | Expiring => NoSessionReplay end.

Lemma drain_finish_eq k b fl :
  f_replay fl = PersistentReplayBuffered b ->
  drain_finish k fl = (Ok tt, set_replay (finished k b) fl).
Proof.
  intros Hb. unfold drain_finish, after_drain, after_expire, finished. destruct k; run; rewrite Hb; run.
  - done.
  - simpl. unfold upd_buffer. rewrite Hb. by destruct (_ =? _).
Qed.

Lemma timer_ends_ok x fl :
  flow_ok fl -> flow_ok (timer_ends x fl) /\ (link_up (timer_ends x fl) -> link_up fl).
Proof.
  intros [Hi Hr]. unfold timer_ends.
  match goal with |- flow_ok (upd_buffer _ ?f) /\ _ => set (fl1 := f) end.
  assert (Hok1 : flow_ok fl1 /\ (link_up fl1 -> link_up fl)).
  { assert (Hd : flow_ok (connection abort fl).2) by (split; [by apply inv_down|exact Hr]).
    unfold fl1. by destruct x as [|[]]. }
  clearbody fl1. destruct Hok1 as [[Hi1 Hr1] Hl]. unfold upd_buffer.
  destruct (f_replay fl1) as [| |b] eqn:Hb; [exact (conj (conj Hi1 Hr1) Hl)..|].
  split; [|exact Hl]. unfold flow_ok, publishes_of, replay_ok in *. simpl. rewrite Hb in *.
  split; [|by destruct Hr1]. revert Hi1. apply inv_at_same; by split_and!; try intros ?.
Qed.

(** Whatever the result, the lock is free and the flow as good as it was. *)
Lemma drain_leave_ok id k x fl s :
  flow_ok fl ->
  drains_ok (drain_leave id k x fl s) /\ ds_lock (drain_leave id k x fl s) = None /\
  (link_up (ds_flow (drain_leave id k x fl s)) -> link_up fl).
Proof.
  intros Hok. unfold drain_leave. cbv zeta.
  match goal with |- context [f_replay ?f] => set (fl1 := f) end.
  assert (Hok1 : flow_ok fl1 /\ (link_up fl1 -> link_up fl))
    by (unfold fl1; destruct k; [done|by apply timer_ends_ok]).
  clearbody fl1. destruct Hok1 as [Hok1 Hl].
  destruct (f_replay fl1) as [| |b] eqn:Hb; (split; [|done]); split; try done;
    try (by apply flow_with_nil). intros _. by exists b.
Qed.

(** What becomes of the messages [W] that wait when a task goes on from [fl]: some are
    handed over, the message of a new write among them, and the timer may drop what is
    left of the session. *)
Definition goes_on W fl s' : Prop :=
  exists gone dropped,
    W ≡ₚ gone ++ dropped ++ waiting_of s' /\ hands gone fl (ds_flow s') /\
    (forall t, ds_lock s' = Some t -> dt_current t ∈ gone) /\
    (dropped <> [] -> ds_lock s' = None /\ f_replay (ds_flow s') = NoSessionReplay).

(** A task that came to the end of the buffer *)
Lemma drain_end_spec id k W fl b fl1 s :
  stretch W fl [] None b fl1 ->
  let s' := drain_leave id k (Ok tt) (drain_finish k fl1).2 s in
  drains_ok s' /\ (link_up (ds_flow s') -> goes_on W fl s').
Proof.
  intros HS. pose proof (stretch_replaying _ _ _ _ _ HS) as [Hb Hbo Hi].
  cbn [app] in Hbo, Hi. cbv zeta. rewrite (drain_finish_eq k b) by done. cbn [snd].
  assert (Hok1 : flow_ok fl1).
  { split; [by unfold publishes_of; rewrite Hb|]. unfold replay_ok. rewrite Hb. by destruct b. }
  assert (Hok2 : flow_ok (set_replay (finished k b) fl1)).
  { unfold finished. destruct (_ =? _); [by apply drop_buffer_ok|].
    destruct k; [by rewrite set_replay_id|by apply drop_buffer_ok]. }
  destruct (drain_leave_ok id k (Ok tt) _ s Hok2) as (Hd & Hlock & Hlink).
  split; [done|]. intros _. clear Hlink Hd.
  destruct (st_gone _ _ _ _ _ _ HS) as (gone & G1 & G2 & _). cbn [app current_of pending_of] in G1.
  assert (G3 : hands gone fl (set_replay (finished k b) fl1)) by (by apply hands_replay).
  pose proof (bo_count _ _ Hbo) as Hcnt. simpl in Hcnt.
  assert (Hempty : rb_message_count b = 0 -> rb_publishes b = []).
  { rewrite Hcnt. destruct (rb_publishes b); [done|]. rewrite zlen_cons. pose proof (zlen_nonneg l). lia. }
  assert (Hgo : forall dropped s', ds_lock s' = None -> rb_publishes b = dropped ++ publishes_of (ds_flow s') ->
    hands gone fl (ds_flow s') -> (dropped <> [] -> f_replay (ds_flow s') = NoSessionReplay) ->
    goes_on W fl s').
  { intros dropped s' Hl Hp Hh Hd. exists gone, dropped. unfold waiting_of, in_hand. rewrite Hl.
    cbn [app]. rewrite <- Hp. split; [done|]. split; [done|]. split; [done|]. intros ?. by split; [|apply Hd]. }
  unfold drain_leave, timer_ends, finished in *.
  destruct (Z.eqb_spec (rb_message_count b) 0) as [Hz|Hz]; destruct k; simpl in *.
  - apply (Hgo []); try done. by rewrite Hempty.
  - apply (Hgo []); try done. by rewrite Hempty.
  - by apply (Hgo []).
  - apply (Hgo (rb_publishes b)); try done. simpl. by rewrite app_nil_r.
Qed.

(** *** Running a task *)

Lemma drain_go_spec id k pending u b s :
  replaying (u ++ pending ++ rb_publishes b) b (ds_flow s) ->
  let s' := drain_go id k pending u s in
  drains_ok s' /\
  (link_up (ds_flow s') -> goes_on (u ++ pending ++ rb_publishes b) (ds_flow s) s').
Proof.
  intros Hrp. cbv zeta. unfold drain_go.
  pose proof (drain_loop_spec 1 pending u b (ds_flow s) ltac:(done) Hrp) as HL.
  destruct (drain_loop 1 pending u (ds_flow s)) as [[[u' [[p l]|]]|x] fl1].
  - destruct HL as (b' & [H1 H2 H3 H4 H5 (gone & G1 & G2 & G3)]). split.
    + split; [|intros _; by exists b']. unfold counted_of, in_hand. simpl.
      cbn [current_of pending_of] in *.
      split; [unfold publishes_of; by rewrite H1, <- app_assoc|].
      unfold replay_with. by rewrite H1, <- app_assoc.
    + intros _. exists gone, []. unfold waiting_of, in_hand, publishes_of. simpl.
      rewrite H1, <- app_assoc. split; [done|]. split; [done|]. split; [|done].
      intros t [= <-]. apply G3. by apply list_elem_of_singleton.
  - destruct HL as (b' & HL). by apply (drain_end_spec id k _ _ b').
  - destruct HL as [Hok Hdown]. destruct (drain_leave_ok id k (Err x) fl1 s Hok) as (Hd & _ & Hl).
    split; [done|]. by intros ?%Hl.
Qed.

(** ** What runs beside a drain *)

(** *** The buffer only grows *)

Lemma run_after_replay k fl : same_replay fl (run_after k fl).2.
Proof. rewrite run_after_eq. by destruct k. Qed.

Lemma with_callback_replay r cb fl : same_replay fl (with_callback r cb fl).
Proof.
  unfold with_callback, set_ack_callback.
  destruct (request r), cb, (subscription r) as [it|]; try done.
  destruct (auto_ack it.2); [done|]. by destruct (f_messages fl !! message r).
Qed.

Lemma put_replay q m k fl : same_replay fl (put q m k fl).2.
Proof.
  rewrite put_eq. destruct (full _); [done|].
  exact (run_after_replay k (with_put q m fl)).
Qed.

Lemma deliver_keeps_replay r cb k fl : same_replay fl (_deliver r cb k fl).2.
Proof.
  rewrite deliver_eq. destruct (request r) as [c|];
    [exact (run_after_replay k (set_router (deliver c <$> f_router fl) fl))|].
  destruct (subscription r) as [it|]; [|apply run_after_replay].
  etrans; [apply (with_callback_replay r cb)|apply put_replay].
Qed.

Lemma qos1_replay p r fl : same_replay fl (_deliver_qos1_publish p r fl).2.
Proof.
  unfold _deliver_qos1_publish. destruct (pb_packet_id p); [|done].
  destruct (recipient_auto_ack r); apply deliver_keeps_replay.
Qed.

Lemma accept_qos2_replay p r fl : same_replay fl (_accept_qos2_publish p r fl).2.
Proof.
  unfold _accept_qos2_publish. destruct (pb_packet_id p) as [pid|]; [|done].
  destruct (recipient_auto_ack r); run; [by rewrite connection_send|].
  match goal with |- same_replay _ (_deliver _ ?cb ?k ?f).2 =>
    exact (deliver_keeps_replay r cb k f) end.
Qed.

(** A PUBLISH is appended to the buffer and not delivered, or the buffer stays as it is. *)
Definition appends p fl fl' : Prop :=
  (buffering fl -> buffering fl') /\
  (publishes_of fl' = publishes_of fl \/
   publishes_of fl' = publishes_of fl ++ [p] /\ places_nothing fl fl').

Lemma appends_same p fl fl' : same_replay fl fl' -> appends p fl fl'.
Proof. intros [Hr _]. unfold appends, buffering, publishes_of. rewrite Hr. by split; [|left]. Qed.

Lemma select_or_buffer_appends p fl :
  match _select_recipient_or_buffer p fl with
  | (Ok (Some _), fl') => same_replay fl fl'
  | (_, fl') => appends p fl fl'
  end.
Proof.
  assert (Hsame : forall fl', f_replay fl' = f_replay fl -> appends p fl fl').
  { intros fl' Hr. unfold appends, buffering, publishes_of. rewrite Hr. by split; [|left]. }
  assert (Hstep : forall b fl1, publishes_of fl = rb_publishes b -> f_replay fl1 = f_replay fl ->
    places_nothing fl fl1 ->
    match buffer_step b p fl1 with
    | (Ok (Some _), fl') => same_replay fl fl'
    | (_, fl') => appends p fl fl'
    end).
  { intros b fl1 Hb Hr Hpl. unfold buffer_step. destruct (negb _ && _); [by apply Hsame|].
    split; [by eexists|]. right. rewrite Hb. split; [done|exact Hpl]. }
  rewrite select_or_buffer_eq. cbv zeta. unfold publishes_of in Hstep.
  destruct (f_replay fl) as [| |b] eqn:Hre; [done| |].
  - destruct (recipient_found _); [done|apply Hstep; [done..|by intros m]].
  - destruct (bool_decide _); [done|]. destruct (bool_decide _ && _); [done|].
    destruct (packet_id_in _ _); [by apply Hsame|apply Hstep; [done..|by intros m]].
Qed.

Lemma handle_publish_appends p fl : appends p fl (handle_publish p fl).2.
Proof.
  assert (Hsel : forall k : InboundRecipient -> ST (Flow R) unit,
    (forall r f, same_replay f (k r f).2) ->
    appends p fl ((r ← _select_recipient_or_buffer p;
                   match r with None => mret tt | Some r => k r end) fl).2).
  { intros k Hk. rewrite run_bind. pose proof (select_or_buffer_appends p fl) as HA.
    destruct (_select_recipient_or_buffer p fl) as [[[r|]|x] fl1]; try done.
    apply appends_same. by etrans; [exact HA|]. }
  unfold handle_publish. destruct (pb_qos p).
  - apply Hsel. intros r f. apply deliver_keeps_replay.
  - unfold _handle_qos1_publish. destruct (pb_packet_id p); [|by apply appends_same]. run.
    destruct (replay_contains_packet_id _ _); [by apply appends_same|]. apply Hsel. apply qos1_replay.
  - unfold _handle_qos2_publish. destruct (pb_packet_id p) as [pid|]; [|by apply appends_same]. run.
    case_bool_decide; [apply appends_same; by rewrite connection_send|].
    case_bool_decide; [by apply appends_same|].
    destruct (replay_contains_packet_id _ _); [by apply appends_same|].
    apply Hsel, accept_qos2_replay.
Qed.

(** *** The events *)

(** The read loop, the application and the engine beside a drain: [flow_step] without the
    drains and the lifetime of the session *)
Inductive beside fl : Flow R -> Prop :=
| bs_publish p : f_blocked fl = None -> received p -> beside fl (handle_publish p fl).2
| bs_pubrel a : f_blocked fl = None -> 0 <= pa_packet_id a <= 65535 ->
    beside fl (handle_pubrel a fl).2
| bs_resume : beside fl (resume fl).2
| bs_ack m : beside fl (ack m fl).2
| bs_get q : beside fl (queue_get q fl).2
| bs_router router : beside fl (set_router router fl)
| bs_engine e :
    step (f_engine fl) e -> inflight_qos2_in (e_session e) = inflight_qos2_in (session fl) ->
    pending_ack_qos2_in (e_session e) = pending_ack_qos2_in (session fl) ->
    (e_link e = true -> link_up fl) -> beside fl (set_engine e fl).

Lemma beside_flow fl fl' : beside fl fl' -> flow_step fl fl'.
Proof. destruct 1; by constructor. Qed.

Lemma beside_held counted waiting fl fl' :
  (forall p, p ∈ waiting -> p ∈ counted) -> beside fl fl' ->
  flow_with counted waiting fl -> flow_with counted waiting fl'.
Proof.
  intros Hw. destruct 1; intros Hok; [by apply handle_publish_held|by apply handle_pubrel_held|
    by apply resume_held|by apply ack_held|by apply queue_get_held|..];
    destruct Hok as [Hi Hr]; (split; [|exact Hr]); revert Hi; apply (inv_at_same (G := uncancelled));
    split_and!; try done; try (by intros x); by try intros ?.
Qed.

Lemma pubrel_replay a fl : same_replay fl (handle_pubrel a fl).2.
Proof.
  unfold handle_pubrel. run. destruct (inflight_qos2_in _ !! _) as [f|]; [|done].
  run. rewrite connection_send. destruct (send_packet _ _).1 as [[]|x]; run; destruct (in_delivered f);
    try done. match goal with |- same_replay _ (_deliver ?r ?cb ?k ?f).2 =>
      exact (deliver_keeps_replay r cb k f) end.
Qed.

Lemma resume_replay fl : same_replay fl (resume fl).2.
Proof.
  unfold resume. run. destruct (f_blocked fl) as [b|]; [|done]. run. destruct (full _); [done|]. run.
  exact (put_replay (bl_queue b) (bl_message b) (bl_after b) (set_blocked None fl)).
Qed.

Lemma ack_replay m fl : same_replay fl (ack m fl).2.
Proof.
  unfold ack. run. destruct (f_messages fl !! m) as [o|]; [|done]. destruct (_resolved o); [done|].
  destruct (_ack_callback o) as [[pid []|pid r]|]; run; try done; by rewrite connection_send.
Qed.

(** What runs beside a drain takes nothing from the buffer. *)
Lemma beside_appends fl fl' : beside fl fl' -> exists p, appends p fl fl'.
Proof.
  intros Hb.
  assert (Hs : same_replay fl fl' -> exists p, appends p fl fl').
  { intros Hs. exists (mkPublish [] [] AT_MOST_ONCE false false None None). by apply appends_same. }
  destruct Hb as [p| | | |q| |]; [exists p; apply handle_publish_appends|apply Hs..].
  - apply pubrel_replay.
  - apply resume_replay.
  - apply ack_replay.
  - by destruct (queue_get_eq q fl) as [->| ->].
  - done.
  - done.
Qed.

(** ** Interleavings *)

(** A task runs from one suspension to the next. *)
Inductive task_step s : Drains R -> Prop :=
| ts_enter id k : task_step s (drain_enter id k s)
| ts_next : task_step s (drain_next s)
| ts_written : task_step s (drain_written s)
| ts_abandoned id : task_step s (drain_abandoned id s).

(** A write raises on a broken connection; on a live one the task may be cancelled in
    it, if that is allowed.  A session begins, and [run] exits, when no drain is on its
    way. *)
Inductive drains_step s : Drains R -> Prop :=
| dst_task s' : task_step s s' -> drains_step s s'
| dst_failed x :
    (link_up (ds_flow s) -> x = CancelledError /\ ~ uncancelled) ->
    drains_step s (drain_failed x s)
| dst_beside fl : beside (ds_flow s) fl -> drains_step s (set_drain_flow fl s)
| dst_begin present : ds_lock s = None -> ds_waiters s = [] ->
    drains_step s (set_drain_flow (begin_session present (ds_flow s)).2 s)
| dst_exit : ds_lock s = None -> ds_waiters s = [] ->
    drains_step s (set_drain_flow (exit_flow (ds_flow s)) s).

Definition new_drains fl : Drains R := mkDrains fl None [] [].

Definition drains_reachable (v : MQTTVersion) (max_qos : QoS) (router : option R) (size : Z)
    (queues : gmap nat Queue) : Drains R -> Prop :=
  rtc drains_step (new_drains (new_flow v max_qos router size queues)).

(** A task step from [s] to [s'] on a connection that stays up: every message that
    waited still waits, or was handed over in the step, once, or was dropped by the timer
    with the whole buffer; and nothing else was handed over.  The message of a new
    suspended write is among those handed over. *)
Definition loses_nothing s s' : Prop :=
  link_up (ds_flow s') -> exists gone dropped,
    waiting_of s ≡ₚ gone ++ dropped ++ waiting_of s' /\
    hands gone (ds_flow s) (ds_flow s') /\
    (forall t, ds_lock s' = Some t -> ds_lock s = Some t \/ dt_current t ∈ gone) /\
    (dropped <> [] -> ds_lock s' = None /\ f_replay (ds_flow s') = NoSessionReplay).

Lemma loses_nothing_same s s' :
  ds_flow s' = ds_flow s -> ds_lock s' = ds_lock s -> loses_nothing s s'.
Proof.
  intros Hf Hl _. exists [], []. unfold waiting_of, in_hand. rewrite Hf, Hl.
  split; [done|]. split; [apply hands_nil; by intros m|]. split; [|done]. intros t Ht. by left.
Qed.

Lemma loses_nothing_goes s s' :
  (link_up (ds_flow s') -> goes_on (waiting_of s) (ds_flow s) s') -> loses_nothing s s'.
Proof.
  intros Hgo Hl. destruct (Hgo Hl) as (gone & dropped & G1 & G2 & G3 & G4). exists gone, dropped.
  split; [done|]. split; [done|]. split; [|done]. intros t Ht. right. by apply G3.
Qed.

(** The task that gets the lock *)
Lemma drain_start_spec id k b s :
  flow_ok (ds_flow s) -> f_replay (ds_flow s) = PersistentReplayBuffered b -> ds_lock s = None ->
  drains_ok (drain_go id k [] [] s) /\ loses_nothing s (drain_go id k [] [] s).
Proof.
  intros [Hi Hr] Hb Hlock. unfold replay_ok in Hr. unfold publishes_of in Hi. rewrite Hb in Hi, Hr.
  destruct (drain_go_spec id k [] [] b s) as [H1 H2]; [split; [done|by destruct b|done]|].
  split; [done|]. apply loses_nothing_goes. unfold waiting_of at 1, in_hand, publishes_of.
  by rewrite Hlock, Hb.
Qed.

(** A suspended task has an active buffer. *)
Lemma suspended_buffer s t :
  drains_ok s -> ds_lock s = Some t -> exists b, f_replay (ds_flow s) = PersistentReplayBuffered b /\
    buffer_ok (f_buffer_size (ds_flow s))
      (set_publishes (dt_unmatched t ++ dt_current t :: dt_pending t ++ rb_publishes b) b) /\
    inv_at (dt_unmatched t ++ dt_pending t ++ rb_publishes b) None (ds_flow s).
Proof.
  intros [[Hi Hr] _] Hlock. unfold replay_with, counted_of, in_hand, publishes_of in *.
  rewrite Hlock in *. destruct (f_replay (ds_flow s)) as [| |b]; [by destruct (dt_unmatched t)..|].
  exists b. rewrite <- !app_assoc in *. done.
Qed.

Lemma drain_written_spec s t :
  drains_ok s -> ds_lock s = Some t ->
  drains_ok (drain_written s) /\ loses_nothing s (drain_written s).
Proof.
  intros Hok Hlock. destruct (suspended_buffer s t Hok Hlock) as (b & Hb & Hbo & Hi).
  unfold drain_written. rewrite Hlock.
  set (b1 := _discard (dt_current t) b). set (fl1 := upd_buffer _ _).
  destruct (discard_replaying (dt_unmatched t) (dt_current t) (dt_pending t ++ rb_publishes b) b
    (ds_flow s) Hb Hbo Hi) as [Hfl1 Hrp]. rewrite <- Hfl1 in Hrp.
  change (upd_buffer (_discard (dt_current t)) (ds_flow s)) with fl1 in Hfl1, Hrp.
  destruct (drain_go_spec (dt_id t) (dt_kind t) (dt_pending t) (dt_unmatched t) b1
    (set_drain_flow fl1 s) Hrp) as [H1 H2].
  split; [done|]. apply loses_nothing_goes. intros Hl.
  destruct (H2 Hl) as (gone & dropped & G1 & G2 & G3 & G4). exists gone, dropped. split.
  - unfold waiting_of at 1, in_hand, publishes_of. rewrite Hlock, Hb, <- app_assoc. exact G1.
  - split; [|by split]. apply (hands_replay_before _ (PersistentReplayBuffered b1)).
    replace (set_replay (PersistentReplayBuffered b1) (ds_flow s)) with fl1 by exact Hfl1. exact G2.
Qed.

Lemma task_step_spec s s' : task_step s s' -> drains_ok s -> drains_ok s' /\ loses_nothing s s'.
Proof.
  assert (Hfree : forall s, ds_lock s = None -> drains_ok s -> flow_ok (ds_flow s)).
  { intros s0 Hlock [Hf _]. unfold counted_of, in_hand in Hf. rewrite Hlock in Hf.
    by apply flow_with_nil. }
  destruct 1 as [id k| | |id]; intros Hok.
  - assert (Hsame : forall ws ended, (ws <> [] -> buffering (ds_flow s)) ->
      drains_ok (mkDrains (ds_flow s) (ds_lock s) ws ended) /\
      loses_nothing s (mkDrains (ds_flow s) (ds_lock s) ws ended)).
    { intros ws ended Hws. split; [split; [apply Hok|done]|by apply loses_nothing_same]. }
    unfold drain_enter. destruct (f_replay (ds_flow s)) as [| |b] eqn:Hb;
      [by apply Hsame, (dk_waiters s Hok)..|].
    assert (Hbuf : buffering (ds_flow s)) by (by exists b).
    destruct (ds_lock s) as [t|] eqn:Hlock; [by apply Hsame|].
    destruct (ds_waiters s) as [|w ws]; [|by apply Hsame].
    apply (drain_start_spec id k b s); [by apply Hfree|done|done].
  - unfold drain_next. destruct (ds_lock s) as [t|] eqn:Hlock; [by split; [|apply loses_nothing_same]|].
    destruct (ds_waiters s) as [|[id k] ws] eqn:Hws; [by split; [|apply loses_nothing_same]|].
    destruct (dk_waiters s Hok) as [b Hb]; [by rewrite Hws|].
    destruct (drain_start_spec id k b (mkDrains (ds_flow s) None ws (ds_ended s))) as [H1 H2];
      [by apply (Hfree s)|done|done|].
    split; [done|]. unfold loses_nothing in *. rewrite Hlock. simpl in H2.
    unfold waiting_of, in_hand in *. simpl in H2. by rewrite Hlock.
  - destruct (ds_lock s) as [t|] eqn:Hlock; [by apply (drain_written_spec s t)|].
    unfold drain_written. rewrite Hlock. by split; [|apply loses_nothing_same].
  - unfold drain_abandoned. case_decide as Hin; [|by split; [|apply loses_nothing_same]].
    split; [|by apply loses_nothing_same]. split; [apply Hok|]. intros _. apply Hok.
    intros Hn. rewrite Hn in Hin. by apply elem_of_nil in Hin.
Qed.

(** What a failed write, or a cancellation in it, leaves *)
Lemma drain_failed_eq x s t b :
  ds_lock s = Some t -> f_replay (ds_flow s) = PersistentReplayBuffered b ->
  ds_lock (drain_failed x s) = None /\
  publishes_of (ds_flow (drain_failed x s)) =
    dt_unmatched t ++ dt_current t :: dt_pending t ++ rb_publishes b /\
  places_nothing (ds_flow s) (ds_flow (drain_failed x s)) /\
  (x = CancelledError -> link_up (ds_flow s) -> link_up (ds_flow (drain_failed x s))).
Proof.
  intros Hlock Hb. unfold drain_failed. rewrite Hlock. unfold upd_buffer. rewrite Hb.
  unfold drain_leave, timer_ends, restore, publishes_of.
  destruct (dt_kind t), x; simpl; rewrite <- app_assoc; split_and!; try done; by intros m.
Qed.

Lemma drain_failed_ok x s t :
  drains_ok s -> ds_lock s = Some t -> (uncancelled -> ~ link_up (ds_flow s)) ->
  drains_ok (drain_failed x s).
Proof.
  intros Hok Hlock Hdown. destruct (suspended_buffer s t Hok Hlock) as (b & Hb & Hbo & Hi).
  unfold drain_failed. rewrite Hlock. set (fl1 := upd_buffer _ _).
  assert (Hfl1 : fl1 = set_replay (PersistentReplayBuffered
    (restore (dt_unmatched t ++ [dt_current t] ++ dt_pending t) b)) (ds_flow s))
    by (unfold fl1, upd_buffer; by rewrite Hb).
  apply drain_leave_ok. rewrite Hfl1.
  split; [|unfold replay_ok, restore; simpl; by rewrite <- app_assoc].
  split; [|intros [HU Hl]; by destruct (Hdown HU)].
  eapply owned_same; [|apply Hi]. by split_and!; try intros ?.
Qed.

(** *** Every task is made of the changes the flow is made of *)

Notation traces := (traces (R := R)).

Lemma traces_deliver_until pending unmatched : traces (deliver_until pending unmatched).
Proof.
  revert unmatched; induction pending as [|p pending IH]; intros unmatched; simpl; [traces|].
  pose proof deliver_replay_traces. traces.
Qed.

Lemma traces_drain_loop fuel pending unmatched : traces (drain_loop fuel pending unmatched).
Proof.
  revert pending unmatched; induction fuel as [|fuel IH]; intros pending unmatched; cbn [drain_loop];
    pose proof traces_deliver_until; traces.
Qed.

Lemma drain_leave_prims id k x fl s : rtc prim fl (ds_flow (drain_leave id k x fl s)).
Proof.
  unfold drain_leave. cbv zeta.
  assert (Ht : rtc prim fl (match k with Draining => fl | Expiring => timer_ends x fl end)).
  { destruct k; [done|]. unfold timer_ends. etrans; [|apply upd_buffer_traces].
    pose proof (traces_abort fl). by destruct x as [|[]]. }
  by destruct (f_replay _).
Qed.

Lemma drain_go_prims id k pending u s : rtc prim (ds_flow s) (ds_flow (drain_go id k pending u s)).
Proof.
  unfold drain_go. pose proof (traces_drain_loop 1 pending u (ds_flow s)) as Ht.
  destruct (drain_loop 1 pending u (ds_flow s)) as [[[u' [[p l]|]]|x] fl1]; [exact Ht|..];
    (etrans; [exact Ht|]); [|apply drain_leave_prims].
  etrans; [|apply drain_leave_prims].
  assert (Hf : traces (drain_finish k)) by (unfold drain_finish, after_drain, after_expire; traces).
  apply Hf.
Qed.

Lemma task_step_prims s s' : task_step s s' -> rtc prim (ds_flow s) (ds_flow s').
Proof.
  destruct 1 as [id k| | |id].
  - unfold drain_enter. pose proof (drain_go_prims id k [] [] s).
    by destruct (f_replay _), (ds_lock s), (ds_waiters s).
  - unfold drain_next. destruct (ds_lock s); [done|]. destruct (ds_waiters s) as [|[id k] ws]; [done|].
    exact (drain_go_prims id k [] [] (mkDrains (ds_flow s) None ws (ds_ended s))).
  - unfold drain_written. destruct (ds_lock s); [|done].
    etrans; [|apply drain_go_prims]. apply upd_buffer_traces.
  - unfold drain_abandoned. by case_decide.
Qed.

Lemma drain_failed_prims x s : rtc prim (ds_flow s) (ds_flow (drain_failed x s)).
Proof.
  unfold drain_failed. destruct (ds_lock s); [|done].
  etrans; [|apply drain_leave_prims]. apply upd_buffer_traces.
Qed.

Lemma drains_step_flow s s' :
  drains_step s s' -> rtc prim (ds_flow s) (ds_flow s') \/ flow_step (ds_flow s) (ds_flow s').
Proof.
  destruct 1 as [s' Hs|x _|fl Hb|present _ _|_ _].
  - left. by apply task_step_prims.
  - left. apply drain_failed_prims.
  - right. by apply beside_flow.
  - right. apply fs_begin.
  - right. apply fs_exit.
Qed.

Lemma drains_reachable_engine v mq router size queues s :
  drains_reachable v mq router size queues s ->
  reachable v mq (f_engine (ds_flow s)) /\ f_buffer_size (ds_flow s) = size.
Proof.
  unfold drains_reachable, reachable. intros Hr.
  enough (rtc step (f_engine (ds_flow (new_drains (new_flow v mq router size queues))))
    (f_engine (ds_flow s)) /\
    f_buffer_size (ds_flow s) =
      f_buffer_size (ds_flow (new_drains (new_flow v mq router size queues))))
    by done.
  induction Hr as [|s1 s2 s3 Hs _ [IH1 IH2]]; [done|]. rewrite IH2.
  destruct (drains_step_flow _ _ Hs) as [Hp|Hf].
  - split; [|by apply prims_size]. etrans; [|exact IH1].
    apply prims_touches in Hp as (a & b & c & d & l & ->). apply rtc_once, step_inbound.
  - split; [|by apply flow_step_size]. etrans; [by apply flow_step_engine|exact IH1].
Qed.

(** *** The theorem *)

Lemma drains_step_ok s s' : drains_step s s' -> drains_ok s -> drains_ok s'.
Proof.
  assert (Hidle : forall s fl, ds_lock s = None -> ds_waiters s = [] ->
    (flow_ok (ds_flow s) -> flow_ok fl) -> drains_ok s -> drains_ok (set_drain_flow fl s)).
  { intros s0 fl Hlock Hws Hs [Hf _]. split; [|simpl; by rewrite Hws].
    unfold counted_of, in_hand in *. simpl. rewrite Hlock in *. apply flow_with_nil.
    apply flow_with_nil in Hf. by apply Hs. }
  destruct 1 as [s' Hs|x Hdown|fl Hb|present Hl Hw|Hl Hw]; intros Hok.
  - by eapply task_step_spec.
  - destruct (ds_lock s) as [t|] eqn:Hlock.
    + apply (drain_failed_ok x s t); [done..|]. intros HU Hl. by destruct (Hdown Hl).
    + unfold drain_failed. by rewrite Hlock.
  - split.
    + apply (beside_held _ _ (ds_flow s)); [apply in_hand_counted|done|apply Hok].
    + simpl. intros Hws. destruct (beside_appends _ _ Hb) as (p & Ha & _). by apply Ha, dk_waiters.
  - apply Hidle; try done. apply drop_buffer_ok. by destruct present.
  - apply Hidle; try done. apply exit_flow_ok.
Qed.

Lemma drains_reachable_ok v mq router size queues s :
  empty_queues queues -> drains_reachable v mq router size queues s -> drains_ok s.
Proof.
  intros Hq. unfold drains_reachable.
  assert (H0 : drains_ok (new_drains (new_flow v mq router size queues))).
  { split; [|done]. apply flow_with_nil.
    destruct (flow_ok_new v mq router size queues Hq) as [[Ho Hids] Hr].
    split; [|done]. split; [done|]. intros [_ Hl]. apply Hids. by split. }
  induction 1 as [|s1 s2 s3 Hs _ IH]; [done|]. by eapply IH, drains_step_ok.
Qed.

(** The messages in the counters of the buffer *)
Definition held_of s : list Publish := counted_of s ++ publishes_of (ds_flow s).

End guarded.

(** C5: drains that are suspended in their writes, with the read loop, the application,
    other drains, failing writes and (unless [uncancelled]) cancellations in between.
    Everywhere, no message object is put twice; the counters of the buffer describe its
    messages together with those the suspended drain has in hand, within the configured
    limit, and the buffer stays active.  While the connection is up, a task that enters,
    waits or goes on hands over some of the messages that waited, each as one new message
    object, to the application or to the request that claims it, keeps the others waiting
    or (the timer) drops them with the whole buffer, and puts nothing else into a queue or
    a flight; the message of a new write is among those handed over.  The read loop and the
    application take nothing from the buffer, and what they append they do not deliver.
    A write that fails, and a drain cancelled in its write, on a live connection or not,
    frees the lock and puts everything back in order, delivering nothing: of the messages
    back in the buffer only the one of that write has been handed over already, so that
    it, and it alone, can be delivered a second time.  Without cancellations, on a live
    connection, no message that waits belongs to an open QoS 2 exchange. *)
Theorem drains_interleaved (uncancelled : Prop) v mq router size queues s :
  empty_queues queues -> drains_reachable uncancelled v mq router size queues s ->
  reachable v mq (f_engine (ds_flow s)) /\
  (forall q i q' i' m, q_put (queue_of (ds_flow s) q) !! i = Some m ->
     q_put (queue_of (ds_flow s) q') !! i' = Some m -> q = q' /\ i = i') /\
  (forall b, f_replay (ds_flow s) = PersistentReplayBuffered b ->
     rb_message_count b = zlen (held_of s) /\ (0 < size -> rb_message_count b <= size) /\
     (forall x, x ∈ rb_packet_ids b <-> x ∈ ids_of (held_of s)) /\ NoDup (ids_of (held_of s))) /\
  (forall t, ds_lock s = Some t -> buffering (ds_flow s)) /\
  (forall s', task_step s s' -> loses_nothing uncancelled s s') /\
  (forall fl, beside (ds_flow s) fl -> exists new,
     waiting_of (set_drain_flow fl s) = waiting_of s ++ new /\ (length new <= 1)%nat /\
     (new <> [] -> places_nothing (ds_flow s) fl)) /\
  (forall t x, ds_lock s = Some t ->
     ds_lock (drain_failed x s) = None /\
     publishes_of (ds_flow (drain_failed x s)) =
       dt_unmatched t ++ dt_current t :: dt_pending t ++ publishes_of (ds_flow s) /\
     places_nothing (ds_flow s) (ds_flow (drain_failed x s)) /\
     (x = CancelledError -> link_up (ds_flow s) -> link_up (ds_flow (drain_failed x s)))) /\
  (uncancelled -> link_up (ds_flow s) -> forall p pid,
     p ∈ waiting_of s -> pb_qos p = EXACTLY_ONCE -> pb_packet_id p = Some pid ->
     inflight_qos2_in (session (ds_flow s)) !! pid = None /\
     pid ∉ pending_ack_qos2_in (session (ds_flow s))).
Proof.
  intros Hq Hr. destruct (drains_reachable_engine _ _ _ _ _ _ _ Hr) as [Heng Hsize].
  pose proof (drains_reachable_ok _ _ _ _ _ _ _ Hq Hr) as Hok. split; [done|].
  split; [|split; [|split; [|split; [|split; [|split]]]]].
  - destruct Hok as [[[[Honce _] _] _] _]. intros q i q' i' m H1 H2.
    assert (HE : InQueue q i = InQueue q' i') by (by eapply Honce). by injection HE.
  - intros b Hb. destruct Hok as [[_ Hrep] _]. unfold replay_with, held_of, publishes_of in *.
    rewrite Hb, Hsize in *. by destruct Hrep.
  - intros t Hlock. destruct (suspended_buffer _ s t Hok Hlock) as (b & Hb & _). by exists b.
  - intros s' Hs. by apply task_step_spec.
  - intros fl Hb. destruct (beside_appends _ _ Hb) as (p & _ & [Ha|[Ha Hp]]);
      unfold waiting_of, in_hand; simpl; rewrite Ha; [exists []|exists [p]]; rewrite ?app_nil_r.
    + split; [done|]. split; [simpl; lia|done].
    + rewrite app_assoc. split; [done|]. split; [simpl; lia|done].
  - intros t x Hlock. destruct (suspended_buffer _ s t Hok Hlock) as (b & Hb & _).
    replace (publishes_of (ds_flow s)) with (rb_publishes b) by (unfold publishes_of; by rewrite Hb).
    by apply drain_failed_eq.
  - intros HU Hl p pid. destruct Hok as [[[_ Hids] _] _]. by apply (id_buf _ _ (Hids (conj HU Hl))).
Qed.

(** ** The drain that nothing interrupts *)

(** The atomic drain up to its first write *)
Lemma deliver_each_until pending u b fl :
  rb_publishes b = [] -> replaying (u ++ pending) b fl ->
  deliver_each pending u fl =
    match deliver_until pending u fl with
    | (Ok (u', None), fl') => (Ok tt, upd_buffer (restore u') fl')
    | (Ok (u', Some (p, l)), fl') => deliver_each l u' (upd_buffer (_discard p) fl')
    | (Err x, fl') => (Err x, fl')
    end.
Proof.
  revert u b fl; induction pending as [|p pending IH]; intros u b fl Hn Hrp.
  { simpl. run. unfold upd_buffer. rewrite (rp_buffer _ _ _ _ Hrp). unfold restore.
    by rewrite Hn, app_nil_r. }
  rewrite deliver_each_cons, deliver_until_cons. destruct (replay_holds _ _) eqn:Hheld.
  { apply (IH _ b); [done|]. by apply replaying_held. }
  pose proof (replay_one (G := True) u p pending b fl Hrp Hheld) as HO.
  run. unfold finally_on_error. destruct (deliver_replay _ _ _) as [[[]|x] fl2].
  - run. destruct HO as ([H1 H2 H3 H4] & _). destruct (writes _ _); [done|].
    destruct (replaying_discard (G := True) u p pending b fl fl2 Hrp H1 H2) as [He Hrp2]. rewrite He.
    by apply (IH _ (_discard p b)).
  - destruct HO as [[[E1 _] _ _ _] _]. unfold upd_buffer. rewrite E1, (rp_buffer _ _ _ _ Hrp).
    unfold restore. by rewrite Hn, app_nil_r.
Qed.

Lemma deliver_until_shorter pending u fl u' p l fl' :
  deliver_until pending u fl = (Ok (u', Some (p, l)), fl') -> (length l < length pending)%nat.
Proof.
  revert u fl; induction pending as [|q pending IH]; intros u fl; [done|].
  rewrite deliver_until_cons. destruct (replay_holds _ _); [intros ?%IH; simpl; lia|].
  destruct (deliver_replay _ _ _) as [[[]|x] fl2]; [|done]. destruct (writes _ _).
  - intros [= <- <- <- <-]. simpl. lia.
  - intros ?%IH. simpl. lia.
Qed.

Lemma drain_loop_until fuel pending u b fl :
  rb_publishes b = [] -> replaying (u ++ pending) b fl ->
  drain_loop fuel pending u fl =
    match deliver_until pending u fl with
    | (Ok (u', None), fl') => (Ok (u', None), upd_buffer (restore u') fl')
    | r => r
    end.
Proof.
  intros Hn Hrp. pose proof (deliver_until_spec True pending u b fl) as HS. rewrite Hn, app_nil_r in HS.
  specialize (HS Hrp). destruct fuel; cbn [drain_loop]; rewrite run_bind;
    (destruct (deliver_until pending u fl) as [[[u' [[p l]|]]|x] fl']; [done| |done]);
    destruct HS as (b' & Hb' & HS); run;
    (replace (publishes_of fl') with (@nil Publish); [done|]);
    unfold publishes_of; by rewrite (st_buffer _ _ _ _ _ _ _ HS), Hb'.
Qed.

(** How a drain ends, from the result of the loop *)
Definition drain_done (id : nat) (k : drain_kind) (r : result unit * Flow R) s : Drains R :=
  match r with
  | (Ok _, fl) => drain_leave id k (Ok tt) (drain_finish k fl).2 s
  | (Err x, fl) => drain_leave id k (Err x) fl s
  end.

Lemma drain_leave_idle id k x fl s n :
  Nat.iter n drain_written (drain_leave id k x fl s) = drain_leave id k x fl s.
Proof.
  assert (Hl : ds_lock (drain_leave id k x fl s) = None).
  { unfold drain_leave. cbv zeta. by destruct (f_replay _). }
  induction n as [|n IH]; [done|]. simpl. rewrite IH. unfold drain_written. by rewrite Hl.
Qed.

Lemma drain_go_each n id k pending u b s :
  rb_publishes b = [] -> replaying (u ++ pending) b (ds_flow s) -> (length pending <= n)%nat ->
  Nat.iter n drain_written (drain_go id k pending u s) =
    drain_done id k (deliver_each pending u (ds_flow s)) s.
Proof.
  revert pending u b s; induction n as [n IH] using lt_wf_ind; intros pending u b s Hn Hrp Hlen.
  pose proof (deliver_until_spec True pending u b (ds_flow s)) as HS. rewrite Hn, app_nil_r in HS.
  specialize (HS Hrp). unfold drain_go.
  rewrite (drain_loop_until 1 _ _ b), (deliver_each_until _ _ b) by done.
  destruct (deliver_until pending u (ds_flow s)) as [[[u' [[p l]|]]|x] fl1] eqn:Hu;
    [|apply drain_leave_idle..].
  destruct HS as (b' & Hb' & [S1 S2 S3 _ _ _]). cbn [current_of pending_of app] in S2, S3.
  rewrite Hb', app_nil_r in S2, S3. destruct (discard_replaying u' p l b' fl1 S1 S2 S3) as [He Hrp'].
  rewrite <- He in Hrp'. apply deliver_until_shorter in Hu. destruct n as [|n]; [lia|].
  rewrite Nat.iter_succ_r.
  etrans; [apply (IH n ltac:(lia) l u' (_discard p b')); [by simpl|exact Hrp'|lia]|].
  done.
Qed.

Lemma drain_loop_start fuel u fl :
  drain_loop (S fuel) [] u fl =
    match publishes_of fl with
    | [] => (Ok (u, None), upd_buffer (restore u) fl)
    | l => drain_loop fuel l u (upd_buffer (set_publishes []) fl)
    end.
Proof. cbn [drain_loop deliver_until]. run. by destruct (publishes_of fl). Qed.

(** A task alone takes what the buffer holds. *)
Lemma drain_go_start id k b s :
  flow_ok (ds_flow s) -> f_replay (ds_flow s) = PersistentReplayBuffered b ->
  let fl0 := set_replay (PersistentReplayBuffered (set_publishes [] b)) (ds_flow s) in
  replaying (rb_publishes b) (set_publishes [] b) fl0 /\
  drain_go id k [] [] s = drain_go id k (rb_publishes b) [] (set_drain_flow fl0 s).
Proof.
  intros [Hi Hr] Hb fl0. unfold replay_ok, publishes_of in Hi, Hr. rewrite Hb in Hi, Hr.
  assert (Hrp : replaying ([] ++ rb_publishes b) (set_publishes [] b) fl0).
  { split; [done|by destruct b|]. revert Hi. apply inv_at_same; by split_and!; try intros ?. }
  split; [done|]. unfold drain_go.
  enough (drain_loop 1 [] [] (ds_flow s) = drain_loop 1 (rb_publishes b) [] fl0) as -> by done.
  rewrite (drain_loop_until 1 (rb_publishes b) [] (set_publishes [] b)), drain_loop_start by done.
  replace (publishes_of (ds_flow s)) with (rb_publishes b) by (unfold publishes_of; by rewrite Hb).
  destruct (rb_publishes b) as [|p l] eqn:Hp.
  - assert (Hfl : fl0 = ds_flow s)
      by (apply set_replay_id; rewrite Hb; destruct b; simpl in *; by subst).
    by rewrite Hfl.
  - rewrite <- (drain_loop_until 0 (p :: l) [] (set_publishes [] b)) by done.
    unfold upd_buffer. by rewrite Hb.
Qed.

Lemma drain_leave_alone id x fl s :
  ds_waiters s = [] -> drain_leave id Draining x fl s = mkDrains fl None [] (ds_ended s ++ [(id, x)]).
Proof.
  intros Hw. unfold drain_leave. cbv zeta. rewrite Hw. simpl. rewrite app_nil_r.
  by destruct (f_replay fl).
Qed.

(** C9: a drain that nothing interrupts is the atomic [drain]: entered on a reachable flow
    and resumed after each of its writes, of which there are at most as many as the
    buffer holds messages, the task ends with the result of [drain], whether it returns or
    raises, and leaves the same flow. *)
Theorem uninterrupted_drain v mq router size queues fl id n :
  empty_queues queues -> flow_reachable v mq router size queues fl ->
  (length (publishes_of fl) <= n)%nat ->
  Nat.iter n drain_written (drain_enter id Draining (new_drains fl)) =
    mkDrains (drain fl).2 None [] [(id, (drain fl).1)].
Proof.
  intros Hq Hr Hlen. pose proof (flow_reachable_ok _ _ _ _ _ _ Hq Hr) as Hok.
  assert (Hidle : forall ended, Nat.iter n drain_written (mkDrains fl None [] ended) =
    mkDrains fl None [] ended)
    by (intros ended; clear; induction n as [|n IH]; [done|]; simpl; by rewrite IH).
  unfold drain_enter. simpl. rewrite drain_eq.
  destruct (f_replay fl) as [| |b] eqn:Hb; [apply Hidle..|].
  destruct (drain_go_start id Draining b (new_drains fl) Hok Hb) as [Hrp ->].
  unfold publishes_of in Hlen. rewrite Hb in Hlen.
  rewrite (drain_go_each n _ _ _ _ (set_publishes [] b)) by done.
  replace (_deliver_pending b fl) with (deliver_each (rb_publishes b) []
    (set_replay (PersistentReplayBuffered (set_publishes [] b)) fl))
    by (unfold _deliver_pending; run; unfold upd_buffer; by rewrite Hb).
  simpl. destruct (deliver_each _ _ _) as [[[]|x] fl1]; cbn [drain_done];
    rewrite drain_leave_alone by done; [|done].
  simpl. do 2 f_equal. unfold drain_finish, after_drain. run.
  destruct (f_replay fl1) as [| |b1] eqn:Hb1; simpl; [by apply set_replay_id..|].
  destruct (_ =? _); [done|by apply set_replay_id].
Qed.

End facts.

(** ** Concrete interleavings *)

(** A resumed session that holds three messages for the topic "a", whose queue has room
    for one, and a message for "b" before the last of them *)
Definition small_queue : gmap nat Queue := {[7%nat := mkQueue 1 [] 0]}.

Definition entry_for (filter_ : string) (queue : nat) : SubscriptionEntry :=
  mkEntry 0 queue true (lit filter_) None.

Definition with_index (ix : SubscriptionIndex) (fl : Flow unit) : Flow unit :=
  set_engine (inbound_effect (inflight_qos2_in (session fl)) (pending_ack_qos2_in (session fl)) ix []
    (e_link (f_engine fl)) (f_engine fl)) fl.

Definition index_a : SubscriptionIndex := add new_index (lit "a") (entry_for "a" 7).
Definition index_ab : SubscriptionIndex := add index_a (lit "b") (entry_for "b" 8).

Definition numbered (topic : string) (n : Byte.byte) (qos : QoS) (pid : option Z) : Publish :=
  mkPublish (lit topic) [n] qos false false pid None.

Definition then_flow (f : Flow unit -> Flow unit) (s : Drains unit) : Drains unit :=
  set_drain_flow (f (ds_flow s)) s.

Definition resumed : Drains unit :=
  then_flow (fun fl => (begin_session true fl).2)
    (new_drains (new_flow V5 EXACTLY_ONCE None 10 small_queue)).

Definition holding : Drains unit :=
  fold_left (fun s p => then_flow (fun fl => (handle_publish p fl).2) s)
    [numbered "a" x01 AT_MOST_ONCE None; numbered "a" x02 AT_MOST_ONCE None;
     numbered "b" x04 AT_LEAST_ONCE (Some 6); numbered "a" x03 AT_MOST_ONCE None] resumed.

(** "a" is subscribed and drained; the drain for "b" is suspended in its PUBACK. *)
Definition suspended : Drains unit :=
  drain_enter 1 Draining (then_flow (with_index index_ab)
    (drain_enter 0 Draining (then_flow (with_index index_a) holding))).

(** What the application finds in the queue of "a" *)
Definition payloads (q : nat) (s : Drains unit) : list bytes :=
  omap (fun m => msg_payload ∘ mo_message <$> f_messages (ds_flow s) !! m)
    (q_put (queue_of (ds_flow s) q)).

Example suspended_in_puback :
  (dt_pending <$> ds_lock suspended) = Some [numbered "a" x03 AT_MOST_ONCE None] /\
  payloads 7 suspended = [[x01]] /\ payloads 8 suspended = [[x04]] /\
  length (e_wire (f_engine (ds_flow suspended))) = 1%nat.
Proof. by vm_compute. Qed.

(** The order of a topic can be inverted: while the drain is suspended the application
    takes a message from the full queue of "a", so that the drain puts the third message
    where the second was held back. *)
Definition overtaken : Drains unit :=
  drain_next (drain_written (drain_enter 2 Draining
    (then_flow (fun fl => (queue_get 7 fl).2) suspended))).

Example held_message_overtaken :
  payloads 7 overtaken = [[x01]; [x03]] /\
  waiting_of overtaken = [numbered "a" x02 AT_MOST_ONCE None] /\
  ds_ended overtaken = [(0%nat, Ok tt); (1%nat, Ok tt); (2%nat, Ok tt)].
Proof. by vm_compute. Qed.

(** While the drain is suspended the broker has the PUBACK already; a new message that
    it sends under the identifier is taken for a repetition and is neither delivered,
    held nor acknowledged. *)
Example reused_identifier_ignored :
  handle_publish (numbered "b" x05 AT_LEAST_ONCE (Some 6)) (ds_flow suspended) =
    (Ok tt, ds_flow suspended).
Proof. by vm_compute. Qed.

(** A drain that is cancelled while it writes PUBREC leaves the message in the buffer,
    although its exchange is open: the message is delivered twice. *)
Definition suspended_in_pubrec : Drains unit :=
  drain_enter 0 Draining (then_flow (with_index index_ab) (then_flow (fun fl =>
    (handle_publish (numbered "b" x04 EXACTLY_ONCE (Some 6)) fl).2) resumed)).

Definition cancelled : Drains unit := drain_failed CancelledError suspended_in_pubrec.

Definition pubrel_6 : Drains unit -> Drains unit :=
  then_flow (fun fl => (handle_pubrel (mkPubAck 6 0 None) fl).2).

Example cancelled_drain_doubles :
  waiting_of cancelled = [numbered "b" x04 EXACTLY_ONCE (Some 6)] /\
  payloads 8 (pubrel_6 cancelled) = [[x04]] /\
  payloads 8 (pubrel_6 (drain_written (drain_enter 1 Draining (pubrel_6 cancelled)))) = [[x04]; [x04]].
Proof. by vm_compute. Qed.

(** ** Witnesses *)

Notation reachable_here := (drains_reachable False V5 EXACTLY_ONCE (@None unit) 10 small_queue).

Lemma small_queue_empty : empty_queues small_queue.
Proof. intros q qu. unfold small_queue. rewrite lookup_singleton. case_decide; [by intros [= <-]|done]. Qed.

Lemma reach_index ix s : reachable_here s -> reachable_here (then_flow (with_index ix) s).
Proof.
  intros Hr. eapply rtc_r; [exact Hr|]. apply dst_beside, bs_engine; [|done..]. apply step_inbound.
Qed.

Lemma reach_enter id k s : reachable_here s -> reachable_here (drain_enter id k s).
Proof. intros Hr. eapply rtc_r; [exact Hr|]. apply dst_task, ts_enter. Qed.

Lemma reach_publish p s :
  reachable_here s -> f_blocked (ds_flow s) = None -> received p ->
  reachable_here (then_flow (fun fl => (handle_publish p fl).2) s).
Proof. intros Hr Hb Hp. eapply rtc_r; [exact Hr|]. by apply dst_beside, bs_publish. Qed.

Lemma reach_resumed : reachable_here resumed.
Proof. eapply rtc_r; [apply rtc_refl|]. by apply dst_begin. Qed.

Lemma reach_holding : reachable_here holding.
Proof.
  unfold holding. cbn [fold_left].
  repeat apply reach_publish; [apply reach_resumed|by vm_compute..| |by vm_compute|by vm_compute].
  exists 6. split; [done|lia].
Qed.

Lemma reach_suspended : reachable_here suspended.
Proof. apply reach_enter, reach_index, reach_enter, reach_index, reach_holding. Qed.

Lemma reach_suspended_in_pubrec : reachable_here suspended_in_pubrec.
Proof.
  apply reach_enter, reach_index, reach_publish; [apply reach_resumed|by vm_compute|].
  exists 6. split; [done|lia].
Qed.

(** A cancellation on a live connection is a step of the system, and so is what follows. *)
Lemma reach_cancelled : reachable_here cancelled.
Proof. eapply rtc_r; [apply reach_suspended_in_pubrec|]. apply dst_failed. intros _. by split; [|intros []]. Qed.

Lemma drains_interleaved_witness :
  (reachable_here suspended /\ ds_lock suspended <> None /\
   loses_nothing False suspended (drain_written suspended) /\
   forall b, f_replay (ds_flow suspended) = PersistentReplayBuffered b -> rb_message_count b = 3) /\
  (reachable_here cancelled /\ link_up (ds_flow cancelled) /\
   publishes_of (ds_flow cancelled) = [numbered "b" x04 EXACTLY_ONCE (Some 6)] /\
   places_nothing (ds_flow suspended_in_pubrec) (ds_flow cancelled)).
Proof.
  destruct (drains_interleaved False V5 EXACTLY_ONCE (@None unit) 10 small_queue suspended
    small_queue_empty reach_suspended) as (_ & _ & Hcount & _ & Hstep & _).
  destruct (drains_interleaved False V5 EXACTLY_ONCE (@None unit) 10 small_queue suspended_in_pubrec
    small_queue_empty reach_suspended_in_pubrec) as (_ & _ & _ & _ & _ & _ & Hfail & _).
  split.
  - split; [apply reach_suspended|]. split; [by vm_compute|]. split; [apply Hstep, ts_written|].
    intros b Hb. destruct (Hcount b Hb) as (-> & _). by vm_compute.
  - split; [apply reach_cancelled|].
    destruct (Hfail (mkDrain 0 Draining [] (numbered "b" x04 EXACTLY_ONCE (Some 6)) []) CancelledError)
      as (_ & Hp & Hn & Hl); [by vm_compute|].
    split; [apply Hl; by vm_compute|]. split; [|exact Hn]. etrans; [exact Hp|]. by vm_compute.
Defined.

Lemma uninterrupted_drain_witness :
  let fl := with_index (add (subscriptions (session flow2)) (lit "x") (entry_for "x" 8)) flow2 in
  ds_lock (drain_enter 0 Draining (new_drains fl)) <> None /\
  Nat.iter 1 drain_written (drain_enter 0 Draining (new_drains fl)) =
    mkDrains (drain fl).2 None [] [(0%nat, (drain fl).1)].
Proof.
  intros fl. split; [by vm_compute|].
  apply (uninterrupted_drain V5 EXACTLY_ONCE (@None unit) 1 ∅ fl 0 1).
  - apply no_queues.
  - eapply rtc_r; [apply reachable_flow2|]. apply fs_engine; try done. apply step_inbound.
  - by vm_compute.
Defined.
