(* ===== verification/Transport.v ===== *)
(** * Transports and cancellation ([_internal/transport/], [_internal/_compat.py])

    [StreamTransport] over the streams of asyncio, the functions that open one, and
    [defer_cancellation].

    Of a [StreamReader] the model has its buffer, its end of file and the exception of a
    lost connection; of a [StreamWriter] what was written to it and how often it was
    closed.  What the network does is a script. *)

From S2P Require Import Prelude PyBytes Utf8 Connection.
Local Open Scope Z_scope.

(** ** The streams of asyncio *)

Record StreamReader := mkReader {
  rd_buffer : bytes;
  rd_eof : bool;
  rd_exception : option exn;
}.

Record StreamWriter := mkWriter { wr_written : list bytes; wr_closed : nat; wr_lost : bool }.

(** [StreamReader.read(n)] for a positive [n]; none while it waits *)
Definition reader_read (n : Z) (r : StreamReader) : result (option bytes) * StreamReader :=
  match rd_exception r with
  | Some x => (Err x, r)
  | None =>
      match rd_buffer r with
      | [] => if rd_eof r then (Ok (Some []), r) else (Ok None, r)
      | buf => (Ok (Some (take (Z.to_nat n) buf)),
                mkReader (drop (Z.to_nat n) buf) (rd_eof r) (rd_exception r))
      end
  end.

(** [StreamWriter.drain]: the exception of the reader, or [ConnectionResetError] *)
Definition writer_drain (r : StreamReader) (w : StreamWriter) : result unit :=
  match rd_exception r with
  | Some x => Err x
  | None => if wr_lost w then Err OSError else Ok tt
  end.

(** ** [StreamTransport] *)

Record StreamTransport := mkTransport {
  t_reader : StreamReader;
  t_writer : StreamWriter;
  t_closed : bool;
  t_writer_closed : bool;
}.

Notation T := (ST StreamTransport).

Definition new_transport (reader : StreamReader) (writer : StreamWriter) : StreamTransport :=
  mkTransport reader writer false false.

Definition set_reader (r : StreamReader) (t : StreamTransport) : StreamTransport :=
  mkTransport r (t_writer t) (t_closed t) (t_writer_closed t).

Definition set_writer (w : StreamWriter) (t : StreamTransport) : StreamTransport :=
  mkTransport (t_reader t) w (t_closed t) (t_writer_closed t).

Definition set_closed_flag (t : StreamTransport) : StreamTransport :=
  mkTransport (t_reader t) (t_writer t) true (t_writer_closed t).

(** [None] while the read waits *)
Definition transport_read (n : Z) : T (option bytes) :=
  data ← (fun t => let (r, rd) := reader_read n (t_reader t) in (r, set_reader rd t));
  match data with
  | Some [] =>
      _ ← modify set_closed_flag;
      raise (MQTTDisconnectedError "Connection closed by remote")
  | _ => mret data
  end.

Definition transport_write (data : bytes) : T unit :=
  _ ← modify (fun t => set_writer (mkWriter (wr_written (t_writer t) ++ [data])
        (wr_closed (t_writer t)) (wr_lost (t_writer t))) t);
  t ← gets (fun t => t);
  lift (writer_drain (t_reader t) (t_writer t)).

(** [transport_close] with what [wait_closed] does; a cancellation is not an [Exception]. *)
Definition transport_close (wait_closed : result unit) : T unit :=
  _ ← modify set_closed_flag;
  done ← gets t_writer_closed;
  _ ← (if done : bool then mret tt
       else modify (fun t => mkTransport (t_reader t)
              (mkWriter (wr_written (t_writer t)) (S (wr_closed (t_writer t))) (wr_lost (t_writer t)))
              (t_closed t) true));
  match wait_closed with
  | Err CancelledError => raise CancelledError
  | _ => mret tt
  end.

Definition is_connected (t : StreamTransport) : bool := negb (t_closed t).

(** ** Opening *)

(** [asyncio.open_connection], with a TLS context or without *)
Class Network (Context : Type) := {
  open_connection : str -> Z -> option Context -> result (StreamReader * StreamWriter);
  create_default_context : Context;
}.

(** The argument [tls]: a bool, a context, or [None] *)
Inductive tls_option (Context : Type) := TlsNone | TlsBool (b : bool) | TlsContext (c : Context).
Arguments TlsNone {Context}.
Arguments TlsBool {Context}.
Arguments TlsContext {Context}.

Section opening.
Context {Context : Type} `{Network Context}.

Definition open_tcp (host : str) (port : Z) : result StreamTransport :=
  '(reader, writer) ← open_connection host port None;
  Ok (new_transport reader writer).

Definition open_tls (host : str) (port : Z) (ssl_context : option Context)
    : result StreamTransport :=
  let ctx := match ssl_context with Some c => c | None => create_default_context end in
  '(reader, writer) ← open_connection host port (Some ctx);
  Ok (new_transport reader writer).

Definition _default_transport_factory (host : str) (port : Z) (tls : tls_option Context)
    : result StreamTransport :=
  match tls with
  | TlsNone | TlsBool false => open_tcp host port
  | TlsBool true => open_tls host port None
  | TlsContext c => open_tls host port (Some c)
  end.

End opening.

(** ** The network *)

(** What the event loop does to the streams between two turns of the program; a lost
    connection has an exception, a [ConnectionResetError] or another [OSError]. *)
Inductive net_event := Arrived (data : bytes) | RemoteClosed | Lost.

Definition arrive (ev : net_event) (t : StreamTransport) : StreamTransport :=
  let r := t_reader t in
  let w := t_writer t in
  match ev with
  | Arrived data => set_reader (mkReader (rd_buffer r ++ data) (rd_eof r) (rd_exception r)) t
  | RemoteClosed => set_reader (mkReader (rd_buffer r) true (rd_exception r)) t
  | Lost =>
      set_writer (mkWriter (wr_written w) (wr_closed w) true)
        (set_reader (mkReader (rd_buffer r) (rd_eof r) (Some OSError)) t)
  end.

(** A script: events of the network, and turns of the task that reads *)
Inductive turn := Happens (ev : net_event) | Reads.

(** The reads of the read loop, as it sees them *)
Definition read_turn (t : StreamTransport) : list read_event * StreamTransport :=
  match transport_read 4096 t with
  | (Ok (Some data), t') => ([Data data], t')
  | (Ok None, t') => ([], t')
  | (Err (MQTTDisconnectedError _), t') => ([Closed], t')
  | (Err _, t') => ([Broken], t')
  end.

Fixpoint play (script : list turn) (t : StreamTransport) : list read_event * StreamTransport :=
  match script with
  | [] => ([], t)
  | Happens ev :: script' => play script' (arrive ev t)
  | Reads :: script' =>
      let (evs, t') := read_turn t in
      let (evs', t'') := play script' t' in
      (evs ++ evs', t'')
  end.

(** ** [defer_cancellation] *)

(** The cancellations requested of the current task *)
Record Task := mkTask { cancelling : nat; must_cancel : bool }.

Definition task_cancel (t : Task) : Task := mkTask (S (cancelling t)) true.
Definition task_uncancel (t : Task) : Task := mkTask (pred (cancelling t)) (must_cancel t).

(** The block under [async with defer_cancellation()] *)
Definition defer_cancellation {A} (body : ST Task A) : ST Task A := fun t =>
  let cancels := cancelling t in
  let (r, t') := body (Nat.iter cancels task_uncancel t) in
  (r, Nat.iter cancels task_cancel t').
