(* ===== verification/TransportFacts.v ===== *)
(** * Correctness of the transport

    Whatever the network does and whenever the program reads, the transport hands over
    the bytes of the stream, all of them and in order, and then reports its end; the
    read loop on it handles the packets of the stream and raises. *)

From S2P Require Import Prelude PyBytes Utf8 Packets Codec Reader State Routing Protocol Inbound Connection ConnectionFacts Transport.
Local Open Scope Z_scope.

(** ** Reading *)

(** Only data arrives. *)
Definition quiet_turn (x : turn) : Prop :=
  match x with Happens (Arrived _) | Reads => True | _ => False end.

Definition arrivals (script : list turn) : bytes :=
  script ≫= (fun x => match x with Happens (Arrived data) => data | _ => [] end).

(** The chunks that a read can return *)
Definition chunk (data : bytes) : Prop := data <> [] /\ zlen data <= 4096.

Lemma take_chunk (buf : bytes) : buf <> [] -> chunk (take (Z.to_nat 4096) buf).
Proof.
  intros Hb. split.
  - by destruct buf.
  - unfold zlen. rewrite length_take. lia.
Qed.

Lemma read_turn_eq t :
  rd_exception (t_reader t) = None ->
  read_turn t =
    match rd_buffer (t_reader t) with
    | [] => if rd_eof (t_reader t) then ([Closed], set_closed_flag t) else ([], t)
    | buf => ([Data (take (Z.to_nat 4096) buf)],
              set_reader (mkReader (drop (Z.to_nat 4096) buf) (rd_eof (t_reader t)) None) t)
    end.
Proof.
  intros Hx. destruct t as [[buf eof x] w cl wcl]. simpl in Hx. subst x.
  unfold read_turn, transport_read. rewrite run_bind. cbn [t_reader reader_read rd_exception rd_buffer rd_eof].
  destruct buf as [|b buf]; [by destruct eof|]. cbn [Z.to_nat]. done.
Qed.

Section reading.
Context (w : StreamWriter) (wcl : bool).

Definition open_at (buf : bytes) : StreamTransport := mkTransport (mkReader buf false None) w false wcl.

(** While the connection is open, what was read and what is buffered is what arrived. *)
Lemma play_open script : forall buf,
  Forall quiet_turn script ->
  exists chunks buf', play script (open_at buf) = (Data <$> chunks, open_at buf') /\
    concat chunks ++ buf' = buf ++ arrivals script /\ Forall chunk chunks.
Proof.
  induction script as [|x script IH]; intros buf Hs.
  { exists [], buf. by rewrite app_nil_r. }
  apply Forall_cons in Hs as [Hx Hs]. destruct x as [[data| |]|]; try done.
  - destruct (IH (buf ++ data) Hs) as (chunks & buf' & H1 & H2 & H3). exists chunks, buf'.
    split; [exact H1|]. split; [|done]. rewrite H2. unfold arrivals. rewrite bind_cons. by rewrite app_assoc.
  - cbn [play]. rewrite read_turn_eq by done. cbn [open_at t_reader rd_buffer rd_eof].
    change (arrivals (Reads :: script)) with (arrivals script).
    destruct buf as [|b buf].
    + destruct (IH [] Hs) as (chunks & buf' & H1 & H2). exists chunks, buf'. split; [|done].
      by rewrite H1.
    + destruct (IH (drop (Z.to_nat 4096) (b :: buf)) Hs) as (chunks & buf' & H1 & H2 & H3).
      exists (take (Z.to_nat 4096) (b :: buf) :: chunks), buf'.
      change (set_reader _ _) with (open_at (drop (Z.to_nat 4096) (b :: buf))). rewrite H1.
      split; [done|]. split; [|constructor; [by apply take_chunk|done]].
      cbn [concat]. rewrite <- app_assoc, H2, app_assoc. by rewrite take_drop.
Qed.

(** After the end of file, the reads drain the buffer and then report the end. *)
Definition ended_at (buf : bytes) (cl : bool) : StreamTransport :=
  mkTransport (mkReader buf true None) w cl wcl.

Lemma play_ended k : forall cl,
  play (replicate k Reads) (ended_at [] cl) = (replicate k Closed, ended_at [] (cl || negb (k =? 0)%nat)).
Proof.
  induction k as [|k IH]; intros cl; [by rewrite orb_false_r|].
  cbn [replicate play]. rewrite read_turn_eq by done. cbn [ended_at t_reader rd_buffer rd_eof].
  change (set_closed_flag _) with (ended_at [] true). rewrite IH. simpl. by rewrite orb_true_r.
Qed.

Lemma play_drains k : forall buf,
  (length buf < k)%nat ->
  exists chunks n, play (replicate k Reads) (ended_at buf false) =
      ((Data <$> chunks) ++ replicate (S n) Closed, ended_at [] true) /\
    concat chunks = buf /\ Forall chunk chunks.
Proof.
  induction k as [|k IH]; intros buf Hk; [lia|]. destruct buf as [|b buf].
  { exists [], k. by rewrite play_ended. }
  cbn [replicate play]. rewrite read_turn_eq by done. cbn [ended_at t_reader rd_buffer rd_eof].
  change (set_reader _ _) with (ended_at (drop (Z.to_nat 4096) (b :: buf)) false).
  destruct (IH (drop (Z.to_nat 4096) (b :: buf))) as (chunks & n & H1 & H2 & H3).
  { rewrite length_drop. simpl in *. lia. }
  exists (take (Z.to_nat 4096) (b :: buf) :: chunks), n. rewrite H1. split; [done|].
  split; [|constructor; [by apply take_chunk|done]]. cbn [concat]. rewrite H2. apply take_drop.
Qed.

End reading.

Lemma play_app s1 s2 t :
  play (s1 ++ s2) t = let (e1, t1) := play s1 t in let (e2, t2) := play s2 t1 in (e1 ++ e2, t2).
Proof.
  revert t; induction s1 as [|[ev|] s1 IH]; intros t; cbn [app play].
  - by destruct (play s2 t).
  - apply IH.
  - destruct (read_turn t) as [e0 t0]. rewrite IH. destruct (play s1 t0) as [e1 t1].
    destruct (play s2 t1) as [e2 t2]. by rewrite app_assoc.
Qed.

(** A whole connection: data arrives, the remote closes, the program goes on reading. *)
Lemma play_connection script k w :
  Forall quiet_turn script -> (length (arrivals script) < k)%nat ->
  let '(evs, t) := play (script ++ Happens RemoteClosed :: replicate k Reads)
      (new_transport (mkReader [] false None) w) in
  is_connected t = false /\
  exists chunks n, evs = (Data <$> chunks) ++ replicate (S n) Closed /\
    concat chunks = arrivals script /\ Forall chunk chunks.
Proof.
  intros Hs Hk. rewrite play_app. change (new_transport (mkReader [] false None) w) with (open_at w false []).
  destruct (play_open w false script [] Hs) as (chunks & buf & -> & Hc & Hch). cbn [play].
  change (arrive RemoteClosed (open_at w false buf)) with (ended_at w false buf false).
  assert (Hlen : (length buf < k)%nat).
  { simpl in Hc. rewrite <- Hc, length_app in Hk. lia. }
  destruct (play_drains w false k buf Hlen) as (chunks2 & n & -> & Hc2 & Hch2).
  split; [done|]. exists (chunks ++ chunks2), n. rewrite fmap_app, <- app_assoc. split; [done|].
  rewrite concat_app, Hc2, Hc. split; [done|]. by apply Forall_app.
Qed.

(** ** The read loop on a transport *)

Section loop.
Context {R : Type} `{RequestRouter R}.
Implicit Types (c : Connection R).

Definition connection_closed : exn := MQTTDisconnectedError "Connection closed by remote".

Lemma dispatch_all_disconnecting c : c_disconnecting (dispatch_all c).2 = c_disconnecting c.
Proof.
  pose proof (dispatch_all_serve c) as HS. destruct (packets_of (c_buf c)) as [[ps e] b].
  destruct (dispatch_all c) as [r c']. by destruct HS as (_ & ? & _).
Qed.

(** A pass that emptied the buffer leaves nothing for the next one. *)
Lemma dispatch_all_done c c' : dispatch_all c = (Ok true, c') -> dispatch_all c' = (Ok true, c').
Proof.
  remember (c_buf c) as b0 eqn:Hb0. revert c Hb0.
  induction b0 as [b0 IH] using buffer_ind. intros c Hb0. rewrite dispatch_all_eq, <- Hb0.
  destruct (is_blocked (c_flow c)) eqn:Hbl; [done|].
  destruct (buffer_next b0) as [[[p|]|x] b1] eqn:Hn; [| |done].
  - destruct (_dispatch p (c_flow c)) as [[u|x] fl]; [|done].
    exact (IH p b1 eq_refl (set_flow fl (set_buf b1 c)) eq_refl).
  - intros [= <-]. rewrite dispatch_all_eq. cbn [c_flow set_buf c_buf]. rewrite Hbl.
    assert (b1 = b0) as ->.
    { unfold buffer_next in Hn. destruct (decode _ _) as [[[q n]|]|]; congruence. }
    by rewrite Hn.
Qed.

Lemma read_loop_app chunks evs : forall c,
  _read_loop ((Data <$> chunks) ++ evs) c =
    match _read_loop (Data <$> chunks) c with
    | (Ok AwaitsData, c') => _read_loop evs c'
    | r => r
    end.
Proof.
  induction chunks as [|data chunks IH]; intros c.
  - cbn [fmap list_fmap app]. destruct (dispatch_all c) as [[[]|x] c1] eqn:Hd.
    + assert (HE : _read_loop [] c = (Ok AwaitsData, c1)) by (cbn [_read_loop]; run; by rewrite Hd).
      rewrite HE. pose proof (dispatch_all_done c c1 Hd) as Hd1.
      destruct evs as [|ev evs]; cbn [_read_loop]; rewrite !run_bind; by rewrite Hd, Hd1.
    + destruct evs as [|ev evs]; cbn [_read_loop]; run; by rewrite Hd.
    + destruct evs as [|ev evs]; cbn [_read_loop]; run; by rewrite Hd.
  - cbn [fmap list_fmap app _read_loop]. run. destruct (dispatch_all c) as [[[]|x] c1]; [|done..].
    run. apply IH.
Qed.

Lemma read_loop_disconnecting evs : forall c, c_disconnecting (_read_loop evs c).2 = c_disconnecting c.
Proof.
  induction evs as [|ev evs IH]; intros c; cbn [_read_loop]; run;
    pose proof (dispatch_all_disconnecting c) as Hd; destruct (dispatch_all c) as [[[]|x] c1]; try done.
  destruct ev as [data| |]; simpl in Hd; cbn [negb]; cbn iota; run.
  - rewrite IH. exact Hd.
  - rewrite <- Hd. by destruct (c_disconnecting c1) eqn:Hc.
  - done.
Qed.

(** A loop that waits for data has nothing to handle. *)
Lemma read_loop_awaits evs c c' :
  _read_loop evs c = (Ok AwaitsData, c') -> dispatch_all c' = (Ok true, c').
Proof.
  revert c; induction evs as [|ev evs IH]; intros c; cbn [_read_loop]; run;
    destruct (dispatch_all c) as [[[]|x] c1] eqn:Hd; try done.
  - intros [= <-]. by eapply dispatch_all_done.
  - destruct ev as [data| |]; cbn [negb]; cbn iota; run; [apply IH| |done].
    by destruct (c_disconnecting c1).
Qed.

(** The stream ends: its packets were handled, then the loop raises. *)
Lemma read_loop_closed chunks evs c :
  c_disconnecting c = false ->
  let '(ps, e, _) := packets_of (feed (c_buf c) (concat chunks)) in
  let '(r, c') := _read_loop ((Data <$> chunks) ++ Closed :: evs) c in
  serve ps (Some (default connection_closed e)) (c_flow c) = (r, c_flow c').
Proof.
  intros Hdis. pose proof (read_loop_stream c chunks) as HL. rewrite read_loop_app.
  pose proof (read_loop_awaits (Data <$> chunks) c) as Haw.
  pose proof (read_loop_disconnecting (Data <$> chunks) c) as Hdc.
  destruct (packets_of (feed (c_buf c) (concat chunks))) as [[ps e] b].
  destruct (_read_loop (Data <$> chunks) c) as [r c1]. simpl in Hdc. rewrite Hdis in Hdc.
  assert (Hend : forall x, serve ps (Some x) (c_flow c) =
    match serve ps None (c_flow c) with
    | (Ok AwaitsData, fl') => serve [] (Some x) fl'
    | r0 => r0
    end).
  { intros x. rewrite <- serve_app. by rewrite app_nil_r. }
  destruct e as [x|]; cbn [default from_option id].
  - rewrite HL. destruct r as [[]|y]; try done. exfalso. rewrite Hend in HL.
    destruct (serve ps None (c_flow c)) as [[[]|y] fl']; try done.
    cbn [serve] in HL. revert HL. run. by destruct (is_blocked fl').
  - rewrite Hend, HL. destruct r as [[]|y]; try done. specialize (Haw c1 eq_refl).
    cbn [_read_loop]. rewrite run_bind, Haw. cbn [negb]. cbn iota. run. rewrite Hdc. cbn [serve]. run.
    rewrite dispatch_all_eq in Haw. destruct (is_blocked (c_flow c1)); done.
Qed.

(** C32: a connection on a transport.  However the bytes of the broker arrive, and
    whenever the read loop gets to read them, until the broker closes the connection:
    no byte is lost, doubled or reordered; every read returns at least one byte and at
    most 4096; the read loop handles the packets of exactly these bytes in order; and
    when they are handled it raises the disconnection, or the error of the malformed
    packet that ended the stream, and the transport is no longer connected. *)
Theorem transport_serves_stream script k w c :
  Forall quiet_turn script -> (length (arrivals script) < k)%nat -> c_disconnecting c = false ->
  let '(evs, t) := play (script ++ Happens RemoteClosed :: replicate k Reads)
      (new_transport (mkReader [] false None) w) in
  is_connected t = false /\
  (exists chunks n, evs = (Data <$> chunks) ++ replicate (S n) Closed /\
     concat chunks = arrivals script /\ Forall chunk chunks) /\
  let '(ps, e, _) := packets_of (feed (c_buf c) (arrivals script)) in
  let '(r, c') := _read_loop evs c in
  serve ps (Some (default connection_closed e)) (c_flow c) = (r, c_flow c').
Proof.
  intros Hs Hk Hdis. pose proof (play_connection script k w Hs Hk) as HP.
  destruct (play _ _) as [evs t]. destruct HP as (Hcl & chunks & n & -> & Hc & Hch).
  split; [done|]. split; [by exists chunks, n|]. rewrite <- Hc. by apply read_loop_closed.
Qed.

End loop.

(** ** Closing *)

(** Anything that happens to a transport *)
Inductive transport_step : StreamTransport -> StreamTransport -> Prop :=
| ts_read n t : transport_step t (transport_read n t).2
| ts_write data t : transport_step t (transport_write data t).2
| ts_close outcome t : transport_step t (transport_close outcome t).2
| ts_network ev t : transport_step t (arrive ev t).

(** The writer is closed once at most, and then the transport stays closed. *)
Definition closes_once (t : StreamTransport) : Prop :=
  wr_closed (t_writer t) = (if t_writer_closed t then 1%nat else 0%nat) /\
  (t_writer_closed t = true -> t_closed t = true).

Lemma close_eq outcome t :
  transport_close outcome t =
    (match outcome with Err CancelledError => Err CancelledError | _ => Ok tt end,
     mkTransport (t_reader t)
       (mkWriter (wr_written (t_writer t))
         (if t_writer_closed t then wr_closed (t_writer t) else S (wr_closed (t_writer t)))
         (wr_lost (t_writer t))) true true).
Proof.
  destruct t as [rd [ws n l] cl []]; unfold transport_close; run; by destruct outcome as [|[]].
Qed.

Lemma step_closes t t' :
  transport_step t t' -> (t_closed t = true -> t_closed t' = true) /\ (closes_once t -> closes_once t').
Proof.
  intros Hs. destruct Hs as [n t|data t|outcome t|ev t].
  - assert (Hr : (transport_read n t).2 = set_reader (reader_read n (t_reader t)).2 t \/
      (transport_read n t).2 = set_closed_flag (set_reader (reader_read n (t_reader t)).2 t)).
    { unfold transport_read. rewrite run_bind. destruct (reader_read n (t_reader t)) as [[[[|b d]|]|x] rd]; cbn [snd];
        run; eauto. }
    destruct Hr as [->| ->]; unfold closes_once; simpl; (split; [done|]); [done|].
    intros [H1 _]. by split.
  - unfold transport_write. run. unfold lift. done.
  - rewrite close_eq. split; [done|]. intros [H1 _]. split; [|done]. simpl.
    destruct (t_writer_closed t); lia.
  - by destruct ev.
Qed.

(** A transport is closed once: whatever reads, writes and closes are made and
    whatever the network does, the writer is closed once, at the first [transport_close]; a
    closed transport never becomes connected again; and [transport_close] raises nothing but a
    cancellation. *)
Theorem transport_closes_once reader ws l t t' outcome :
  rtc transport_step (new_transport reader (mkWriter ws 0 l)) t -> rtc transport_step t t' ->
  (wr_closed (t_writer t) <= 1)%nat /\
  (is_connected t = false -> is_connected t' = false) /\
  wr_closed (t_writer (transport_close outcome t).2) = 1%nat /\
  is_connected (transport_close outcome t).2 = false /\
  ((transport_close outcome t).1 = Ok tt \/ (transport_close outcome t).1 = Err CancelledError).
Proof.
  intros Ht Ht'.
  assert (Hc : closes_once t).
  { assert (H0 : closes_once (new_transport reader (mkWriter ws 0 l))) by done. revert H0.
    clear Ht'. induction Ht as [|t1 t2 t3 Hs _ IH]; [done|]. intros H0. by apply IH, (step_closes t1). }
  split_and!.
  - destruct Hc as [-> _]. destruct (t_writer_closed t); simpl; lia.
  - clear Hc Ht. unfold is_connected. rewrite !negb_false_iff.
    induction Ht' as [|t1 t2 t3 Hs _ IH]; [done|]. intros H0.
    by apply IH, (proj1 (step_closes t1 t2 Hs)).
  - rewrite close_eq. destruct Hc as [Hc _]. simpl. destruct (t_writer_closed t); simpl; lia.
  - by rewrite close_eq.
  - rewrite close_eq. destruct outcome as [|[]]; auto.
Qed.

(** ** Deferred cancellation *)

Lemma iter_cancel n t : cancelling (Nat.iter n task_cancel t) = (n + cancelling t)%nat.
Proof. induction n as [|n IH]; simpl; [done|]. by rewrite IH. Qed.

Lemma iter_uncancel n t : cancelling (Nat.iter n task_uncancel t) = (cancelling t - n)%nat.
Proof. induction n as [|n IH]; simpl; [lia|]. rewrite IH. lia. Qed.

(** The block runs without a pending cancellation, its outcome is kept, and after it,
    with an exception or not, every cancellation is requested again besides those that
    came meanwhile. *)
Theorem cancellation_deferred {A} (body : ST Task A) t :
  exists t0, cancelling t0 = 0%nat /\ (defer_cancellation body t).1 = (body t0).1 /\
    cancelling (defer_cancellation body t).2 = (cancelling t + cancelling (body t0).2)%nat /\
    (cancelling t <> 0%nat -> must_cancel (defer_cancellation body t).2 = true).
Proof.
  exists (Nat.iter (cancelling t) task_uncancel t). unfold defer_cancellation.
  destruct (body _) as [r t1]. split; [rewrite iter_uncancel; lia|]. split; [done|].
  simpl. split; [apply iter_cancel|]. by destruct (cancelling t).
Qed.

(** ** A concrete connection *)

Definition ping_script : list turn :=
  [Reads; Happens (Arrived [xd0]); Happens (Arrived [x00; xd0]); Reads; Happens (Arrived [x00])].

Lemma transport_serves_stream_witness :
  arrivals ping_script = [xd0; x00; xd0; x00] /\
  let '(evs, t) := play (ping_script ++ Happens RemoteClosed :: replicate 5 Reads)
      (new_transport (mkReader [] false None) (mkWriter [] 0 false)) in
  is_connected t = false /\
  (_read_loop evs fresh_connection).1 = Err connection_closed.
Proof.
  split; [reflexivity|].
  pose proof (transport_serves_stream ping_script 5 (mkWriter [] 0 false) fresh_connection) as HT.
  destruct (play _ _) as [evs t]. destruct HT as (H1 & _ & H2).
  - repeat constructor.
  - vm_compute. lia.
  - reflexivity.
  - split; [exact H1|]. destruct (packets_of _) as [[ps e] b] eqn:Hp.
    destruct (_read_loop evs fresh_connection) as [r c'].
    vm_compute in Hp. injection Hp as <- <- _. apply (f_equal fst) in H2. cbn [fst] in H2 |- *.
    rewrite <- H2. vm_compute. reflexivity.
Defined.

Lemma transport_closes_once_witness :
  wr_closed (t_writer (transport_close (Err OSError) (transport_close (Ok tt) (new_transport (mkReader [] false None) (mkWriter [] 0 false))).2).2)
    = 1%nat.
Proof.
  destruct (transport_closes_once (mkReader [] false None) [] false
    (transport_close (Ok tt) (new_transport (mkReader [] false None) (mkWriter [] 0 false))).2 _ (Err OSError)
    (rtc_once _ _ (ts_close (Ok tt) _)) (rtc_refl _ _)) as (_ & _ & H & _). exact H.
Defined.
