(* ===== verification/Keepalive.v ===== *)
(** * Serving a connection: [run] and the ping loop ([protocol.py])

    [run] gathers the read loop and the ping loop.  The ping loop sleeps, pings and
    waits for the answer; the read loop is that of Connection.v.  The first of the two
    that raises ends [run]: the other is cancelled and the teardown runs.

    Time is a number of ticks of the event loop's clock.  What the loop waits for is
    armed as a timer of the event loop, apart from where the ping loop stands: the
    clock cannot pass an armed timer by more than [latency], a timer that fires is gone,
    and without an armed timer nothing holds the clock back.  So a timeout that has no
    effect lets time pass. *)

From S2P Require Import Prelude PyBytes Utf8 PropertyRecords Packets Codec Reader SubscriptionIndex State Routing Protocol Inbound InboundInv Connection.
Local Open Scope Z_scope.

(** Where the ping loop waits: in [asyncio.sleep], or in [wait_for] for the answer of its
    ping *)
Inductive ping_task := Sleeping | AwaitsPong (future : nat).

(** What the ping loop did, and when *)
Inductive ping_event := PingSent (time : Z) (future : nat) | PingAnswered (time : Z) (future : nat).

(** A protocol whose [run] was started.  [sv_outcome] is the exception it ended with,
    [sv_reading] whether the read loop has not returned, [sv_timer] when the timer of
    the ping loop is due, if one is armed. *)
Record RunningProtocol (R : Type) := mkRunning {
  sv_conn : Connection R;
  sv_now : Z;
  sv_reading : bool;
  sv_ping : ping_task;
  sv_timer : option Z;
  sv_log : list ping_event;
  sv_outcome : option exn;
}.
Arguments mkRunning {R}.
Arguments sv_conn {R}.
Arguments sv_now {R}.
Arguments sv_reading {R}.
Arguments sv_ping {R}.
Arguments sv_timer {R}.
Arguments sv_log {R}.
Arguments sv_outcome {R}.

Section serving.
Context {R : Type} `{RequestRouter R}.

(** [self._keepalive], [self._ping_timeout] and the lateness of timers *)
Variables keepalive ping_timeout_after latency : Z.

Implicit Types (s : RunningProtocol R) (c : Connection R).

(** *** Updates *)

Definition set_conn c s : RunningProtocol R :=
  mkRunning c (sv_now s) (sv_reading s) (sv_ping s) (sv_timer s) (sv_log s) (sv_outcome s).

Definition set_now (t : Z) s : RunningProtocol R :=
  mkRunning (sv_conn s) t (sv_reading s) (sv_ping s) (sv_timer s) (sv_log s) (sv_outcome s).

Definition read_returned s : RunningProtocol R :=
  mkRunning (sv_conn s) (sv_now s) false (sv_ping s) (sv_timer s) (sv_log s) (sv_outcome s).

(** The ping loop waits again, with a timer that is due after [delay]. *)
Definition set_ping (p : ping_task) (delay : Z) (ev : ping_event) s : RunningProtocol R :=
  mkRunning (sv_conn s) (sv_now s) (sv_reading s) p (Some (sv_now s + delay)) (sv_log s ++ [ev])
    (sv_outcome s).

(** The armed timer fired. *)
Definition timer_fired s : RunningProtocol R :=
  mkRunning (sv_conn s) (sv_now s) (sv_reading s) (sv_ping s) None (sv_log s) (sv_outcome s).

Definition serving_engine s : Engine := f_engine (c_flow (sv_conn s)).

(** ** [run] *)

(** [run] up to the [gather]: both tasks start *)
Definition run_start c (now : Z) : RunningProtocol R :=
  mkRunning c now true Sleeping (Some (now + keepalive)) [] None.

(** A task raised: [gather] raises, the other task is cancelled, and the [finally]
    block runs. *)
Definition run_raises (x : exn) s : RunningProtocol R :=
  mkRunning (run_finally (sv_conn s)) (sv_now s) (sv_reading s) (sv_ping s) None (sv_log s) (Some x).

(** ** The read loop as a task *)

Definition run_reads (reads : list read_event) s : RunningProtocol R :=
  match _read_loop reads (sv_conn s) with
  | (Ok LoopReturned, c) => read_returned (set_conn c s)
  | (Ok _, c) => set_conn c s
  | (Err x, c) => run_raises x (set_conn c s)
  end.

(** ** The ping loop as a task *)

Definition run_engine {A} (m : ST Engine A) s : result A * RunningProtocol R :=
  match on_flow (connection m) (sv_conn s) with (r, c) => (r, set_conn c s) end.

(** [asyncio.sleep] is over: [ping] up to its wait *)
Definition ping_wakes s : RunningProtocol R :=
  match run_engine ping_begin s with
  | (Ok f, s') => set_ping (AwaitsPong f) ping_timeout_after (PingSent (sv_now s) f) s'
  | (Err x, s') => run_raises x s'
  end.

(** The future of the ping is done: the loop sleeps again, or raises. *)
Definition ping_resumes (f : nat) s : RunningProtocol R :=
  match fut f (serving_engine s) with
  | Pending => s
  | Result _ => set_ping Sleeping keepalive (PingAnswered (sv_now s) f) s
  | Failed x => run_raises x s
  | Cancelled => run_raises CancelledError s
  end.

(** [wait_for] times out.  The timer also wins when the answer was read in the same
    turn of the event loop; [list.remove] then raises. *)
Definition ping_expires (f : nat) s : RunningProtocol R :=
  match run_engine (ping_timeout f) s with
  | (Ok _, s') => s'
  | (Err x, s') => run_raises x s'
  end.

(** ** Steps *)

(** While [run] is active: time passes, one of the tasks runs, or something else uses
    the connection (calls of the application, timers of the inbound flow). *)
Inductive serving_step s : RunningProtocol R -> Prop :=
| sv_tick d : 0 < d -> (forall u, sv_timer s = Some u -> sv_now s + d <= u + latency) ->
    serving_step s (set_now (sv_now s + d) s)
| sv_reads reads : sv_reading s = true -> serving_step s (run_reads reads s)
| sv_wake u : sv_ping s = Sleeping -> sv_timer s = Some u -> u <= sv_now s ->
    serving_step s (ping_wakes (timer_fired s))
| sv_answer f : sv_ping s = AwaitsPong f -> fut_done (fut f (serving_engine s)) = true ->
    serving_step s (ping_resumes f s)
| sv_expire f u : sv_ping s = AwaitsPong f -> sv_timer s = Some u -> u <= sv_now s ->
    serving_step s (ping_expires f (timer_fired s))
| sv_other fl : flow_step (c_flow (sv_conn s)) fl ->
    e_dead (f_engine fl) = e_dead (serving_engine s) ->
    serving_step s (set_conn (set_flow fl (sv_conn s)) s)
| sv_disconnecting : serving_step s (set_conn (disconnect (sv_conn s)).2 s).

(** [run] goes on as long as it has not ended. *)
Definition serving_active_step s s' : Prop := sv_outcome s = None /\ serving_step s s'.

Definition serving_reachable c (start : Z) : RunningProtocol R -> Prop :=
  rtc serving_active_step (run_start c start).

(** ** Reading the log *)

(** When the broker last answered a ping of the loop, or [run] started *)
Definition last_answer (start : Z) (log : list ping_event) : Z :=
  foldl (fun t ev => match ev with PingAnswered t' _ => t' | PingSent _ _ => t end) start log.

Definition is_sent (ev : ping_event) : bool :=
  match ev with PingSent _ _ => true | PingAnswered _ _ => false end.

Definition pings_sent (log : list ping_event) : Z := Z.of_nat (length (filter is_sent log)).

End serving.
