(* ===== verification/KeepaliveFacts.v ===== *)
(** * Correctness of serving a connection

    How long a connection stays up without an answer, how often it pings, and what is
    left when [run] ends. *)

From S2P Require Import Prelude PyBytes Utf8 PropertyRecords Packets Codec Reader SubscriptionIndex State Routing Protocol ProtocolFacts Inbound InboundFacts InboundInv Pings Delivery Connection ConnectionFacts Keepalive.
Local Open Scope Z_scope.

#[local] Arguments settle_if_pending : simpl never.
#[local] Arguments encode : simpl never.

Section serving.
Context {R : Type} `{RequestRouter R}.
Context (keepalive ping_timeout_after latency : Z).
Hypotheses (Hk : 0 <= keepalive) (Ht : 0 <= ping_timeout_after) (Hl : 0 <= latency).

Implicit Types (s : RunningProtocol R).

Notation serving_step := (serving_step keepalive ping_timeout_after latency).
Notation serving_reachable := (serving_reachable keepalive ping_timeout_after latency).
Notation serving_active_step := (serving_active_step keepalive ping_timeout_after latency).

(** ** The schedule of the ping loop *)

(** The bound on the time without an answer *)
Definition answer_bound (start : Z) (log : list ping_event) : Z :=
  last_answer start log + keepalive + ping_timeout_after + 2 * latency.

(** The armed timer of the ping loop agrees with the log. *)
Definition armed (start : Z) s : Prop :=
  exists u, sv_timer s = Some u /\ sv_now s <= u + latency /\
  match sv_ping s with
  | Sleeping =>
      u = last_answer start (sv_log s) + keepalive /\
      keepalive * (pings_sent (sv_log s) + 1) <= u - start
  | AwaitsPong _ => u <= last_answer start (sv_log s) + keepalive + latency + ping_timeout_after
  end.

Definition on_schedule (start : Z) s : Prop :=
  start <= last_answer start (sv_log s) <= sv_now s /\
  sv_now s <= answer_bound start (sv_log s) /\
  keepalive * pings_sent (sv_log s) <= sv_now s - start /\
  (sv_outcome s = None -> armed start s).

Lemma last_answer_snoc start log ev :
  last_answer start (log ++ [ev]) =
    match ev with PingAnswered t _ => t | PingSent _ _ => last_answer start log end.
Proof. unfold last_answer. by rewrite foldl_app. Qed.

Lemma pings_sent_snoc log ev :
  pings_sent (log ++ [ev]) = pings_sent log + (if is_sent ev then 1 else 0).
Proof.
  unfold pings_sent. rewrite filter_app, length_app, Nat2Z.inj_add. by destruct ev.
Qed.

(** Steps that leave the clock and the ping loop alone, or end [run] *)
Lemma on_schedule_same start s s' :
  sv_now s' = sv_now s -> sv_log s' = sv_log s ->
  (sv_outcome s' = None -> sv_outcome s = None /\ sv_ping s' = sv_ping s /\ sv_timer s' = sv_timer s) ->
  on_schedule start s -> on_schedule start s'.
Proof.
  unfold on_schedule, armed. intros -> -> Hs (H1 & H2 & H3 & H4). split_and!; try done; try apply H1.
  intros (Hn & -> & ->)%Hs. by apply H4.
Qed.

Lemma run_reads_same reads s :
  sv_now (run_reads reads s) = sv_now s /\ sv_log (run_reads reads s) = sv_log s /\
  (sv_outcome (run_reads reads s) = None -> sv_outcome s = None /\
     sv_ping (run_reads reads s) = sv_ping s /\ sv_timer (run_reads reads s) = sv_timer s).
Proof. unfold run_reads. by destruct (_read_loop reads (sv_conn s)) as [[[]|x] c]. Qed.

Lemma tick_on_schedule start d s :
  0 < d -> (forall u, sv_timer s = Some u -> sv_now s + d <= u + latency) ->
  sv_outcome s = None -> on_schedule start s -> on_schedule start (set_now (sv_now s + d) s).
Proof.
  intros Hd Hdue Hn (H1 & H2 & H3 & H4). destruct (H4 Hn) as (u & Hu & Hnow & Hp).
  specialize (Hdue u Hu). unfold on_schedule, armed, answer_bound in *. simpl.
  split_and!; [lia|lia| |lia|]; [destruct (sv_ping s); lia|].
  intros _. exists u. by split_and!.
Qed.

Lemma wake_on_schedule start u s :
  sv_ping s = Sleeping -> sv_timer s = Some u -> u <= sv_now s -> sv_outcome s = None ->
  on_schedule start s -> on_schedule start (ping_wakes ping_timeout_after (timer_fired s)).
Proof.
  intros Hp Hu Hd Hn Hs. unfold ping_wakes.
  destruct (run_engine ping_begin (timer_fired s)) as [[f|x] s1] eqn:Ho;
    unfold run_engine in Ho; destruct (on_flow _ _) as [r c]; injection Ho as -> <-;
    [|by apply (on_schedule_same start s)].
  destruct Hs as (H1 & H2 & H3 & H4). destruct (H4 Hn) as (u' & Hu' & Hnow & Hs').
  rewrite Hp in Hs'. assert (u' = u) as -> by congruence.
  unfold on_schedule, armed, answer_bound in *. simpl. rewrite last_answer_snoc, pings_sent_snoc. simpl.
  split_and!; [lia..|]. intros _. eexists. split; [done|]. lia.
Qed.

Lemma answer_on_schedule start f s :
  sv_ping s = AwaitsPong f -> sv_outcome s = None ->
  on_schedule start s -> on_schedule start (ping_resumes keepalive f s).
Proof.
  intros Hp Hn Hs. unfold ping_resumes. destruct (fut f _); [done| |by apply (on_schedule_same start s)..].
  destruct Hs as (H1 & H2 & H3 & H4). unfold on_schedule, armed, answer_bound in *. simpl.
  rewrite last_answer_snoc, pings_sent_snoc. simpl. split_and!; [lia..|].
  intros _. eexists. split; [done|]. lia.
Qed.

Lemma expires_ends f s : sv_outcome (ping_expires f s) <> None.
Proof.
  unfold ping_expires, run_engine, on_flow, connection, zoom.
  rewrite (surjective_pairing (ping_timeout f _)), ping_timeout_eq. by case_decide.
Qed.

Lemma expire_on_schedule start f s :
  on_schedule start s -> on_schedule start (ping_expires f (timer_fired s)).
Proof.
  apply on_schedule_same; [unfold ping_expires..|by intros ?%expires_ends].
  - by destruct (run_engine (ping_timeout f) (timer_fired s)) as [[w|x] s1] eqn:Ho;
      unfold run_engine in Ho; destruct (on_flow _ _) as [r c]; injection Ho as -> <-.
  - by destruct (run_engine (ping_timeout f) (timer_fired s)) as [[w|x] s1] eqn:Ho;
      unfold run_engine in Ho; destruct (on_flow _ _) as [r c]; injection Ho as -> <-.
Qed.

Lemma step_on_schedule start s s' :
  serving_step s s' -> sv_outcome s = None -> on_schedule start s -> on_schedule start s'.
Proof.
  destruct 1 as [d Hd Hdue|reads _|u Hp Hu Hd|f Hp _|f u Hp _ _|fl _ _|]; intros Hn Hs.
  - by apply tick_on_schedule.
  - destruct (run_reads_same reads s) as (H1 & H2 & H3). by eapply on_schedule_same.
  - by eapply wake_on_schedule.
  - by apply answer_on_schedule.
  - by apply expire_on_schedule.
  - by apply (on_schedule_same start s).
  - by apply (on_schedule_same start s).
Qed.

Lemma run_start_on_schedule c start : on_schedule start (run_start keepalive c start).
Proof.
  unfold on_schedule, armed, answer_bound, last_answer, pings_sent. simpl. split_and!; [lia..|].
  intros _. eexists. split; [done|]. lia.
Qed.

Lemma reachable_on_schedule c start s : serving_reachable c start s -> on_schedule start s.
Proof.
  revert s. apply (rtc_ind_r (on_schedule start)); [apply run_start_on_schedule|].
  intros s s' _ [Hn Hs]. by apply step_on_schedule.
Qed.

(** ** What the steps do to the engine *)

(** Nothing that is settled changes. *)
Definition futures_kept (e e' : Engine) : Prop :=
  dom (e_futures e) ⊆ dom (e_futures e') /\
  forall f, f ∈ dom (e_futures e) -> fut_done (fut f e) = true -> fut f e' = fut f e.

#[local] Instance futures_kept_preorder : PreOrder futures_kept.
Proof.
  split; [by intros e|]. intros e1 e2 e3 [D1 F1] [D2 F2]. split; [by etrans|].
  intros f Hf Hd. rewrite F2, F1; [done|done|done|by apply D1|by rewrite F1].
Qed.

Lemma steps_kept e e' : rtc step e e' -> futures_kept e e'.
Proof.
  induction 1 as [|e1 e2 e3 Hs _ IH]; [done|]. etrans; [|exact IH].
  by destruct (step_futures _ _ Hs) as (_ & H1 & H2).
Qed.

Lemma flow_steps_kept (fl fl' : Flow R) :
  rtc flow_step fl fl' -> futures_kept (f_engine fl) (f_engine fl').
Proof.
  induction 1 as [|f1 f2 f3 Hs _ IH]; [done|]. etrans; [|exact IH].
  by apply steps_kept, flow_step_engine.
Qed.

Lemma run_engine_eq {A} (m : ST Engine A) s :
  run_engine m s = ((m (serving_engine s)).1,
    set_conn (set_flow (set_engine (m (serving_engine s)).2 (c_flow (sv_conn s))) (sv_conn s)) s).
Proof.
  unfold run_engine, on_flow, connection, zoom, serving_engine.
  by destruct (m (f_engine (c_flow (sv_conn s)))).
Qed.

(** Where a step ends [run], it was at an engine that the step reached. *)
Definition engine_kept s s' : Prop := futures_kept (serving_engine s) (serving_engine s').

Lemma run_raises_kept x s : engine_kept s (run_raises x s).
Proof. apply steps_kept, rtc_once, step_exit. Qed.

Lemma run_raises_after x s s' : engine_kept s s' -> engine_kept s (run_raises x s').
Proof. intros Hs. unfold engine_kept. etrans; [exact Hs|apply run_raises_kept]. Qed.

Lemma disconnect_kept s : engine_kept s (set_conn (disconnect (sv_conn s)).2 s).
Proof.
  unfold disconnect, on_flow, connection, zoom, engine_kept, serving_engine, send_packet. simpl.
  rewrite run_bind, encode_eq. simpl. destruct (encode _ _) as [d|x]; simpl; [|done].
  unfold _send. simpl. by destruct (e_link _).
Qed.

Lemma ping_wakes_kept s : engine_kept s (ping_wakes ping_timeout_after s).
Proof.
  assert (Hst : futures_kept (serving_engine s) (ping_begin (serving_engine s)).2)
    by apply steps_kept, rtc_once, step_ping.
  unfold ping_wakes. rewrite run_engine_eq.
  destruct (ping_begin (serving_engine s)) as [[f|x] e]; [exact Hst|by apply run_raises_after].
Qed.

Lemma ping_expires_kept f s : engine_kept s (ping_expires f s).
Proof.
  assert (Hst : futures_kept (serving_engine s) (ping_timeout f (serving_engine s)).2)
    by apply steps_kept, rtc_once, step_ping_timeout.
  unfold ping_expires. rewrite run_engine_eq.
  destruct (ping_timeout f (serving_engine s)) as [[w|x] e]; [exact Hst|by apply run_raises_after].
Qed.

Lemma serving_step_kept s s' : serving_step s s' -> engine_kept s s'.
Proof.
  destruct 1 as [d _ _|reads _|u _ _ _|f _ _|f u _ _ _|fl Hfl _|].
  - done.
  - pose proof (flow_steps_kept _ _ (read_loop_steps reads (sv_conn s))) as Hst. unfold run_reads.
    destruct (_read_loop reads (sv_conn s)) as [[[]|x] c]; [exact Hst..|by apply run_raises_after].
  - exact (ping_wakes_kept (timer_fired s)).
  - unfold ping_resumes. destruct (fut f _); [done|done|apply run_raises_kept..].
  - exact (ping_expires_kept f (timer_fired s)).
  - by apply flow_steps_kept, rtc_once.
  - apply disconnect_kept.
Qed.

(** ** What the log records *)

(** The pings that the log calls answered have a result, and [run] ended with its
    teardown if it ended. *)
Record log_ok (start : Z) s : Prop := {
  lo_answered : forall t f, PingAnswered t f ∈ sv_log s ->
    start <= t <= sv_now s /\ f ∈ dom (e_futures (serving_engine s)) /\
    exists r, fut f (serving_engine s) = Result r;
  lo_ended : forall x, sv_outcome s = Some x ->
    e_dead (serving_engine s) = true /\ f_blocked (c_flow (sv_conn s)) = None /\
    f_replay (c_flow (sv_conn s)) = NoSessionReplay;
}.

Lemma fut_result_known f r e : fut f e = Result r -> f ∈ dom (e_futures e).
Proof. unfold fut. intros Hf. apply elem_of_dom. by destruct (e_futures e !! f). Qed.

(** The events of the second state are those of the first, or one answer more. *)
Definition logged_step s s' : Prop :=
  sv_now s <= sv_now s' /\
  (forall t f, PingAnswered t f ∈ sv_log s' -> PingAnswered t f ∈ sv_log s \/
     t = sv_now s /\ exists r, fut f (serving_engine s) = Result r) /\
  (forall x, sv_outcome s' = Some x -> sv_outcome s = Some x \/ exists s1, s' = run_raises x s1).

Lemma answered_snoc_sent t f t' f' log :
  PingAnswered t f ∈ log ++ [PingSent t' f'] -> PingAnswered t f ∈ log.
Proof. by intros [?|?%list_elem_of_singleton]%elem_of_app. Qed.

Lemma serving_step_logged s s' : serving_step s s' -> logged_step s s'.
Proof.
  unfold logged_step. destruct 1 as [d Hd _|reads _|u _ _ _|f _ _|f u _ _ _|fl _ _|].
  - simpl. split_and!; [lia|by left|by left].
  - unfold run_reads. destruct (_read_loop reads (sv_conn s)) as [[[]|x] c];
      (split_and!; [done|by left|]); simpl; try (by left). intros y [= <-]. right. by eexists.
  - unfold ping_wakes. rewrite run_engine_eq.
    destruct (ping_begin (serving_engine (timer_fired s))) as [[f|x] e]; (split_and!; [done|simpl|simpl]).
    + intros t g ?%answered_snoc_sent. by left.
    + by left.
    + by left.
    + intros y [= <-]. right. by eexists.
  - unfold ping_resumes. destruct (fut f (serving_engine s)) eqn:Hf; (split_and!; [done|simpl|simpl]);
      try (by left); try (intros y [= <-]; right; by eexists).
    intros t g [?|[= -> ->]%list_elem_of_singleton]%elem_of_app; [by left|right; eauto].
  - unfold ping_expires. rewrite run_engine_eq.
    destruct (ping_timeout f (serving_engine (timer_fired s))) as [[w|x] e]; (split_and!; [done|by left|]);
      [by left|]. simpl. intros y [= <-]. right. by eexists.
  - split_and!; [done|by left|by left].
  - split_and!; [done|by left|by left].
Qed.

Lemma step_log_ok start s s' :
  serving_step s s' -> sv_outcome s = None -> start <= sv_now s -> log_ok start s -> log_ok start s'.
Proof.
  intros Hs Hnone Hnow [HA HE]. destruct (serving_step_logged s s' Hs) as (Hmono & Hlog & Hend).
  destruct (serving_step_kept s s' Hs) as [Hdom Hkept].
  assert (Hmove : forall f r, fut f (serving_engine s) = Result r ->
    f ∈ dom (e_futures (serving_engine s')) /\ exists r, fut f (serving_engine s') = Result r).
  { intros f r Hf. pose proof (fut_result_known _ _ _ Hf) as Hd. split; [by apply Hdom|].
    exists r. rewrite Hkept; [done|done|by rewrite Hf]. }
  split.
  - intros t f [Hin|[-> [r Hf]]]%Hlog.
    + destruct (HA t f Hin) as (Ht1 & _ & r & Hf). destruct (Hmove f r Hf). split; [lia|done].
    + destruct (Hmove f r Hf). split; [lia|done].
  - intros x [Hx|[s1 ->]]%Hend; [congruence|]. done.
Qed.

Lemma reachable_log_ok c start s : serving_reachable c start s -> log_ok start s.
Proof.
  intros Hr. assert (Hboth : on_schedule start s /\ log_ok start s); [|apply Hboth].
  revert s Hr. apply (rtc_ind_r (fun s => on_schedule start s /\ log_ok start s)).
  - split; [apply run_start_on_schedule|]. split; simpl; [by intros t f ?%elem_of_nil|done].
  - intros s s' _ [Hnone Hs] [Hsch Hlog]. split; [by eapply step_on_schedule|].
    eapply step_log_ok; [exact Hs|exact Hnone| |exact Hlog]. destruct Hsch as (? & _). lia.
Qed.

(** ** Properties *)

(** C34: a connection that is not answered does not stay up.  As long as [run] is
    active the broker answered a ping of the loop (or [run] started) no longer ago than
    the keepalive interval, the ping timeout and the lateness of two timers; the loop
    sends no more than one PINGREQ per keepalive interval; every answer it counts is a
    future that has a result; when its timer expires [run] ends, with [MQTTTimeoutError]
    if the ping still waits; and when [run] has ended, whatever the exception, the engine
    is dead, the read loop does not wait for a queue and nothing is left to replay. *)
Theorem keepalive_bounds c start s :
  serving_reachable c start s ->
  sv_now s <= last_answer start (sv_log s) + keepalive + ping_timeout_after + 2 * latency /\
  keepalive * pings_sent (sv_log s) <= sv_now s - start /\
  (forall t f, PingAnswered t f ∈ sv_log s ->
     start <= t <= sv_now s /\ exists r, fut f (serving_engine s) = Result r) /\
  (forall f, sv_outcome (ping_expires f s) = Some
     (if decide (f ∈ e_ping_waiters (serving_engine s))
      then MQTTTimeoutError "PINGRESP not received within timeout"
      else ValueError "list.remove(x): x not in list")) /\
  (forall x, sv_outcome s = Some x -> e_dead (serving_engine s) = true /\
     f_blocked (c_flow (sv_conn s)) = None /\ f_replay (c_flow (sv_conn s)) = NoSessionReplay).
Proof.
  intros Hr. destruct (reachable_log_ok _ _ _ Hr) as [HA HE].
  destruct (reachable_on_schedule _ _ _ Hr) as (H1 & H2 & H3 & _). split_and!.
  - exact H2.
  - exact H3.
  - intros t f Hin. by destruct (HA t f Hin) as (Ht1 & _ & Hf).
  - intros f. unfold ping_expires. rewrite run_engine_eq, ping_timeout_eq. by case_decide.
  - exact HE.
Qed.

(** ** A consumer that is too slow *)

(** The steps that are left while the application does nothing *)
Inductive idle_step s : RunningProtocol R -> Prop :=
| idle_tick d : 0 < d -> (forall u, sv_timer s = Some u -> sv_now s + d <= u + latency) ->
    idle_step s (set_now (sv_now s + d) s)
| idle_reads reads : sv_reading s = true -> idle_step s (run_reads reads s)
| idle_wake u : sv_ping s = Sleeping -> sv_timer s = Some u -> u <= sv_now s ->
    idle_step s (ping_wakes ping_timeout_after (timer_fired s))
| idle_answer f : sv_ping s = AwaitsPong f -> fut_done (fut f (serving_engine s)) = true ->
    idle_step s (ping_resumes keepalive f s)
| idle_expire f u : sv_ping s = AwaitsPong f -> sv_timer s = Some u -> u <= sv_now s ->
    idle_step s (ping_expires f (timer_fired s)).

Definition idle_active_step s s' : Prop := sv_outcome s = None /\ idle_step s s'.

(** The read loop waits for room in a queue, and the ping loop for no answer that was
    read before. *)
Record stalled s : Prop := {
  st_blocked : f_blocked (c_flow (sv_conn s)) <> None;
  st_unanswered : match sv_ping s with
    | Sleeping => True
    | AwaitsPong f => f ∈ e_ping_waiters (serving_engine s) /\ fut f (serving_engine s) = Pending
    end;
}.

Lemma blocked_reads reads s : f_blocked (c_flow (sv_conn s)) <> None -> run_reads reads s = s.
Proof.
  intros Hb. assert (Hd : dispatch_all (sv_conn s) = (Ok false, sv_conn s)).
  { rewrite dispatch_all_eq. unfold is_blocked. by destruct (f_blocked _). }
  unfold run_reads. assert (_read_loop reads (sv_conn s) = (Ok AwaitsQueue, sv_conn s)) as ->.
  { destruct reads; cbn [_read_loop]; by rewrite run_bind, Hd. }
  by destruct s.
Qed.

Lemma ping_begin_outcome e :
  let f := fresh (dom (e_futures e)) in
  match ping_begin e with
  | (Ok g, e') => g = f /\ f ∈ e_ping_waiters e' /\ fut f e' = Pending
  | (Err x, _) => x = OSError
  end.
Proof.
  intros f. rewrite ping_begin_eq. assert (Hd : exists data, encode PPingReq (e_version e) = Ok data)
    by (destruct (e_version e); eexists; vm_compute; reflexivity).
  destruct Hd as [data ->]. destruct (e_link e); [|done]. split_and!; [done| |].
  - simpl. apply elem_of_app. right. by apply list_elem_of_singleton.
  - unfold fut. simpl. by rewrite lookup_insert_eq.
Qed.

(** How the ping loop of a stalled connection ends [run] *)
Definition stall_error (x : exn) : Prop :=
  x = MQTTTimeoutError "PINGRESP not received within timeout" \/ x = OSError.

Lemma idle_step_stalled start s s' :
  idle_step s s' -> stalled s -> sv_outcome s = None ->
  last_answer start (sv_log s') = last_answer start (sv_log s) /\
  match sv_outcome s' with None => stalled s' | Some x => stall_error x end.
Proof.
  intros Hs [Hb Hu] Hnone. destruct Hs as [d _ _|reads _|u Hp _ _|f Hp Hd|f u Hp _ _].
  - simpl. rewrite Hnone. split; [done|]. by split.
  - rewrite blocked_reads, Hnone by done. split; [done|]. by split.
  - unfold ping_wakes. rewrite run_engine_eq.
    change (serving_engine (timer_fired s)) with (serving_engine s).
    pose proof (ping_begin_outcome (serving_engine s)) as HB.
    destruct (ping_begin (serving_engine s)) as [[f|x] e]; simpl.
    + rewrite last_answer_snoc, Hnone. split; [done|]. destruct HB as (-> & HB). by split.
    + split; [done|]. by right.
  - rewrite Hp in Hu. destruct Hu as [_ Hu]. by rewrite Hu in Hd.
  - unfold ping_expires. rewrite run_engine_eq, ping_timeout_eq.
    change (serving_engine (timer_fired s)) with (serving_engine s). rewrite Hp in Hu. rewrite decide_True by apply Hu. split; [done|]. by left.
Qed.

Lemma idle_serving s s' : idle_step s s' -> serving_step s s'.
Proof. by destruct 1; econstructor. Qed.

Lemma idle_steps_stalled start s s' :
  rtc idle_active_step s s' -> stalled s -> sv_outcome s = None ->
  rtc serving_active_step s s' /\ last_answer start (sv_log s') = last_answer start (sv_log s) /\
  match sv_outcome s' with None => stalled s' | Some x => stall_error x end.
Proof.
  intros Hr Hst Hnone. revert s' Hr. apply (rtc_ind_r (fun s' => rtc serving_active_step s s' /\
    last_answer start (sv_log s') = last_answer start (sv_log s) /\
    match sv_outcome s' with None => stalled s' | Some x => stall_error x end)).
  - by rewrite Hnone.
  - intros s1 s2 _ [Hn1 Hs] (H1 & H2 & H3). rewrite Hn1 in H3. split.
    + eapply rtc_r; [exact H1|]. split; [done|]. by apply idle_serving.
    + destruct (idle_step_stalled start s1 s2 Hs H3 Hn1) as [H4 H5]. split; [congruence|done].
Qed.

(** The timer of a stalled connection fires: the loop pings, or [run] ends. *)
Lemma wake_ends_or_waits s :
  sv_outcome s = None ->
  let s' := ping_wakes ping_timeout_after (timer_fired s) in
  sv_now s' = sv_now s /\
  match sv_outcome s' with
  | Some x => stall_error x
  | None => exists f, sv_ping s' = AwaitsPong f
  end.
Proof.
  intros Hn s'. unfold s', ping_wakes. rewrite run_engine_eq.
  pose proof (ping_begin_outcome (serving_engine (timer_fired s))) as HB.
  destruct (ping_begin (serving_engine (timer_fired s))) as [[f|x] e]; simpl.
  - rewrite Hn. split; [done|]. by exists f.
  - split; [done|]. by right.
Qed.

(** Time passes until the armed timer is due. *)
Lemma idle_until s u :
  sv_outcome s = None -> sv_timer s = Some u -> sv_now s <= u + latency ->
  exists t, u <= t /\ sv_now s <= t /\ rtc idle_active_step s (set_now t s).
Proof.
  intros Hn Hu Hle. destruct (decide (u <= sv_now s)) as [Hd|Hd].
  - exists (sv_now s). split_and!; [done|done|]. by destruct s.
  - exists u. split_and!; [done|lia|]. apply rtc_once. split; [done|].
    replace u with (sv_now s + (u - sv_now s)) at 1 by lia. apply idle_tick; [lia|].
    intros u'. rewrite Hu. intros [= <-]. lia.
Qed.

Lemma now_bounded start s s' :
  on_schedule start s' -> last_answer start (sv_log s') = last_answer start (sv_log s) ->
  sv_now s' <= answer_bound start (sv_log s).
Proof. intros (_ & Hb & _) Hl'. unfold answer_bound in *. lia. Qed.

Lemma idle_steps_on_schedule start s s' :
  rtc idle_active_step s s' -> on_schedule start s -> on_schedule start s'.
Proof.
  induction 1 as [|s1 s2 s3 [Hn Hs] _ IH]; [done|]. intros H1. apply IH.
  eapply step_on_schedule; [by apply idle_serving|done|done].
Qed.

(** From a stalled connection whose ping waits, the end is one timer away. *)
Lemma waiting_ends start s f :
  on_schedule start s -> stalled s -> sv_outcome s = None -> sv_ping s = AwaitsPong f ->
  exists s' x, rtc idle_active_step s s' /\ sv_outcome s' = Some x.
Proof.
  intros (_ & _ & _ & Hs) _ Hn Hp. destruct (Hs Hn) as (u & Hu & Hnow & _).
  destruct (idle_until s u Hn Hu Hnow) as (t & Hdue & _ & Hr).
  pose proof (expires_ends f (timer_fired (set_now t s))) as He.
  destruct (sv_outcome (ping_expires f (timer_fired (set_now t s)))) as [x|] eqn:Hx; [|done].
  exists (ping_expires f (timer_fired (set_now t s))), x. split; [|done].
  eapply rtc_r; [exact Hr|]. split; [done|]. by apply idle_expire with u.
Qed.

Lemma stalled_ends start s :
  on_schedule start s -> stalled s -> sv_outcome s = None ->
  exists s' x, rtc idle_active_step s s' /\ sv_outcome s' = Some x.
Proof.
  intros Hs Hst Hn. destruct (sv_ping s) as [|f] eqn:Hp; [|by eapply waiting_ends].
  destruct Hs as (H1 & H2 & H3 & Ha). destruct (Ha Hn) as (u & Hu & Hnow & Hd).
  destruct (idle_until s u Hn Hu Hnow) as (t & Hdue & _ & Hr).
  set (s1 := ping_wakes ping_timeout_after (timer_fired (set_now t s))).
  assert (Hr1 : rtc idle_active_step s s1).
  { eapply rtc_r; [exact Hr|]. split; [done|]. by apply idle_wake with u. }
  destruct (wake_ends_or_waits (set_now t s) Hn) as [_ Hw]. fold s1 in Hw.
  destruct (sv_outcome s1) as [x|] eqn:Hx; [by exists s1, x|]. destruct Hw as [f Hf].
  destruct (idle_steps_stalled start s s1 Hr1 Hst Hn) as (_ & _ & Hst1). rewrite Hx in Hst1.
  assert (Hs1 : on_schedule start s1) by (by eapply idle_steps_on_schedule).
  destruct (waiting_ends start s1 f Hs1 Hst1 Hx Hf) as (s2 & x & Hr2 & Hx2).
  exists s2, x. split; [by etrans|done].
Qed.

(** C35: back-pressure ends the connection.  The read loop that waits for room in the
    queue of a subscription reads no PINGRESP either: while the application does not
    take messages, however alive the broker is, the clock cannot pass the bound from
    the last answer before [run] has ended.  As long as it has not, the read loop
    waits, a timer is armed within the bound, and the end can be reached by letting
    time pass and the timers fire; the timer of a ping that waits ends [run] with
    [MQTTTimeoutError] when it fires.  Nothing but [MQTTTimeoutError], or [OSError]
    when the PINGREQ cannot be written, ends it, and it ends within the bound. *)
Theorem slow_consumer_disconnects c start s s' :
  serving_reachable c start s -> sv_outcome s = None -> stalled s -> rtc idle_active_step s s' ->
  let bound := last_answer start (sv_log s) + keepalive + ping_timeout_after + 2 * latency in
  sv_now s' <= bound /\
  match sv_outcome s' with
  | Some x => x = MQTTTimeoutError "PINGRESP not received within timeout" \/ x = OSError
  | None =>
      f_blocked (c_flow (sv_conn s')) <> None /\
      (exists u, sv_timer s' = Some u /\ u + latency <= bound) /\
      (forall f, sv_ping s' = AwaitsPong f ->
         sv_outcome (ping_expires f (timer_fired s')) =
           Some (MQTTTimeoutError "PINGRESP not received within timeout")) /\
      exists s'' x, rtc idle_active_step s' s'' /\ sv_outcome s'' = Some x /\ sv_now s'' <= bound /\
        (x = MQTTTimeoutError "PINGRESP not received within timeout" \/ x = OSError)
  end.
Proof.
  intros Hr Hnone Hst Hid bound. pose proof (reachable_on_schedule _ _ _ Hr) as Hsch.
  destruct (idle_steps_stalled start s s' Hid Hst Hnone) as (Hs & Hlast & Hout).
  pose proof (idle_steps_on_schedule start s s' Hid Hsch) as Hsch'.
  split; [by apply (now_bounded start s s')|].
  destruct (sv_outcome s') as [x|] eqn:Hx; [exact Hout|].
  split; [apply Hout|]. split; [|split].
  - destruct Hsch' as (_ & _ & _ & Ha). destruct (Ha Hx) as (u & Hu & _ & Hd). exists u.
    split; [done|]. unfold bound. rewrite Hlast in Hd. destruct (sv_ping s'); lia.
  - intros f Hf. unfold ping_expires. rewrite run_engine_eq, ping_timeout_eq.
    change (serving_engine (timer_fired s')) with (serving_engine s').
    pose proof (st_unanswered _ Hout) as Hu. rewrite Hf in Hu. by rewrite decide_True by apply Hu.
  - destruct (stalled_ends start s' Hsch' Hout Hx) as (s2 & x & Hr2 & Hx2).
    destruct (idle_steps_stalled start s' s2 Hr2 Hout Hx) as (_ & Hlast2 & Hout2). rewrite Hx2 in Hout2.
    exists s2, x. split_and!; [done|done| |exact Hout2].
    apply (now_bounded start s s2); [by eapply idle_steps_on_schedule|congruence].
Qed.

End serving.

(** ** A concrete connection *)

(** A keepalive of 60 seconds and a ping timeout of 10, with timers at most 1 late *)
Notation example_reachable := (serving_reachable 60 10 1).

Definition later (d : Z) {R} (s : RunningProtocol R) : RunningProtocol R := set_now (sv_now s + d) s.

(** The ping after 60 seconds is answered in the second after it. *)
Definition serving0 : RunningProtocol unit := later 60 (run_start 60 fresh_connection 0).
Definition serving1 : RunningProtocol unit := later 1 (ping_wakes 10 (timer_fired serving0)).
Definition serving2 : RunningProtocol unit := run_reads [Data [xd0; x00]] serving1.
Definition serving3 : RunningProtocol unit := ping_resumes 60 0 serving2.

Lemma serving3_reachable : example_reachable fresh_connection 0 serving3.
Proof.
  apply (rtc_l _ _ serving0); [split; [done|apply sv_tick; [lia|]; by intros u [= <-]]|].
  apply (rtc_l _ _ (ping_wakes 10 (timer_fired serving0))); [split; [done|by apply (sv_wake _ _ _ _ 60); vm_compute]|].
  apply (rtc_l _ _ serving1); [split; [vm_compute; done|apply sv_tick; [lia|]; by intros u [= <-]]|].
  apply (rtc_l _ _ serving2); [split; [vm_compute; done|apply sv_reads; vm_compute; done]|].
  apply rtc_once. split; [vm_compute; done|]. apply (sv_answer _ _ _ _ 0); vm_compute; done.
Qed.

Lemma keepalive_bounds_witness :
  sv_log serving3 = [PingSent 60 0; PingAnswered 61 0] /\
  sv_now serving3 <= last_answer 0 (sv_log serving3) + 60 + 10 + 2 * 1 /\
  exists r, fut 0 (serving_engine serving3) = Result r.
Proof.
  destruct (keepalive_bounds 60 10 1 ltac:(lia) ltac:(lia) ltac:(lia) _ _ _ serving3_reachable)
    as (H1 & _ & H3 & _).
  assert (Hlog : sv_log serving3 = [PingSent 60 0; PingAnswered 61 0]) by (vm_compute; reflexivity).
  split; [exact Hlog|]. split; [exact H1|].
  apply (H3 61 0%nat). rewrite Hlog. apply list_elem_of_further, list_elem_of_here.
Defined.

(** A queue of one message is full, and the next message waits for it. *)
Definition stalled_flow : Flow unit :=
  let fl := set_queue 7 (mkQueue 1 [] 0) (set_engine (upd_session (fun s =>
    upd_inbound ∅ ∅ (sample_index true) s) (new_engine V5 EXACTLY_ONCE))
    (new_flow V5 EXACTLY_ONCE None 1 ∅)) in
  (handle_publish (incoming "a/b" AT_MOST_ONCE None)
    (handle_publish (incoming "a/b" AT_MOST_ONCE None) fl).2).2.

Definition stalled0 : RunningProtocol unit :=
  run_start 60 (mkConnection stalled_flow (new_buffer V5) false) 0.
Definition stalled1 : RunningProtocol unit := ping_wakes 10 (timer_fired (later 60 stalled0)).
Definition stalled2 : RunningProtocol unit := run_reads [Data [xd0; x00]] stalled1.
Definition stalled3 : RunningProtocol unit := ping_expires 0 (timer_fired (later 10 stalled2)).

Lemma stalled2_idle : rtc (idle_active_step 60 10 1) stalled0 stalled2.
Proof.
  apply (rtc_l _ _ (later 60 stalled0)); [split; [done|apply idle_tick; [lia|]; by intros u [= <-]]|].
  apply (rtc_l _ _ stalled1); [split; [done|by apply (idle_wake _ _ _ _ 60); vm_compute]|].
  apply rtc_once. split; [vm_compute; done|by apply idle_reads].
Qed.

Lemma slow_consumer_disconnects_witness :
  (exists s x, rtc (idle_active_step 60 10 1) stalled2 s /\ sv_outcome s = Some x /\ sv_now s <= 72) /\
  sv_outcome stalled3 = Some (MQTTTimeoutError "PINGRESP not received within timeout").
Proof.
  assert (Hst : stalled stalled0) by (split; [vm_compute; discriminate|exact I]).
  assert (Hn : sv_outcome stalled2 = None) by (vm_compute; reflexivity).
  pose proof (slow_consumer_disconnects 60 10 1 ltac:(lia) ltac:(lia) ltac:(lia) _ 0 _ _
    (rtc_refl _ _) eq_refl Hst stalled2_idle) as H.
  cbv zeta in H. rewrite Hn in H. destruct H as (_ & _ & _ & _ & s & x & H1 & H2 & H3 & _).
  split; [|vm_compute; reflexivity].
  exists s, x. split; [exact H1|]. split; [exact H2|]. exact H3.
Defined.
