(* ===== verification/Guards.v ===== *)
(** * Subscription guards ([_SubscriptionGuards] in [protocol.py])

    Changes of the ownership of a topic filter are serialized by one lock per filter.
    A task that enters [hold] takes the locks of its filters in the order of the
    filters, and the guard of a filter exists as long as a task uses it.

    A guard is an object with an identity; tasks are numbers.  An [asyncio.Lock] hands
    itself over in the order of arrival: [release] gives it to the first waiter, which
    runs later ([hold_resume]).  Between two suspensions [hold] is atomic. *)

From stdpp Require Import fin_sets sorting.
From S2P Require Import Prelude Utf8 SubscriptionIndex.
Local Open Scope Z_scope.

(** [asyncio.Lock]: who has it or was handed it, and who waits *)
Record Lock := mkLock { owner : option nat; lock_waiters : list nat }.

Record _SubscriptionGuard := mkGuard { lock : Lock; users : Z }.

Definition new_guard : _SubscriptionGuard := mkGuard (mkLock None []) 0.

(** A run of [hold]: its [entries] and [acquired] *)
Record Hold := mkHold { h_entries : list (str * nat); h_acquired : nat }.

Record _SubscriptionGuards := mkGuards {
  _guards : gmap str nat;
  g_objects : gmap nat _SubscriptionGuard;
  g_holds : gmap nat Hold;
}.

Definition new_guards : _SubscriptionGuards := mkGuards ∅ ∅ ∅.

(** ** Locks *)

Definition set_lock (l : Lock) (g : _SubscriptionGuard) : _SubscriptionGuard := mkGuard l (users g).

Definition add_users (n : Z) (g : _SubscriptionGuard) : _SubscriptionGuard :=
  mkGuard (lock g) (users g + n).

(** Nobody has the lock and nobody waits for it. *)
Definition lock_free (l : Lock) : bool :=
  bool_decide (owner l = None) && bool_decide (lock_waiters l = []).

Definition lock_release (l : Lock) : Lock :=
  match lock_waiters l with
  | [] => mkLock None []
  | t :: ts => mkLock (Some t) ts
  end.

(** The wait is cancelled: a waiter that was handed the lock passes it on. *)
Definition lock_cancel (t : nat) (l : Lock) : Lock :=
  if bool_decide (owner l = Some t) then lock_release l
  else mkLock (owner l) (filter (fun t' => t' <> t) (lock_waiters l)).

Definition on_lock (f : Lock -> Lock) (g : _SubscriptionGuard) : _SubscriptionGuard :=
  set_lock (f (lock g)) g.

(** ** [hold] *)

(** [sorted(set(filters))] *)
Definition sorted_filters (filters : list str) : list str :=
  sorted (fun s => s) (remove_dups filters).

(** The first loop: [setdefault] and the count of users *)
Definition enter_one (filter_ : str) (g : _SubscriptionGuards) : nat * _SubscriptionGuards :=
  let o := default (fresh (dom (g_objects g))) (_guards g !! filter_) in
  let objects :=
    match _guards g !! filter_ with
    | Some _ => g_objects g
    | None => <[o := new_guard]> (g_objects g)
    end in
  (o, mkGuards (<[filter_ := o]> (_guards g)) (alter (add_users 1) o objects) (g_holds g)).

Fixpoint enter (filters : list str) (g : _SubscriptionGuards)
    : list (str * nat) * _SubscriptionGuards :=
  match filters with
  | [] => ([], g)
  | f :: fs =>
      let '(o, g1) := enter_one f g in
      let '(entries, g2) := enter fs g1 in
      ((f, o) :: entries, g2)
  end.

Definition set_hold (t : nat) (h : Hold) (g : _SubscriptionGuards) : _SubscriptionGuards :=
  mkGuards (_guards g) (g_objects g) (<[t := h]> (g_holds g)).

Definition upd_objects (f : gmap nat _SubscriptionGuard -> gmap nat _SubscriptionGuard)
    (g : _SubscriptionGuards) : _SubscriptionGuards :=
  mkGuards (_guards g) (f (g_objects g)) (g_holds g).

(** The second loop, up to the first lock that is not free *)
Fixpoint acquire_locks (t : nat) (rest : list (str * nat)) (objects : gmap nat _SubscriptionGuard)
    : nat * gmap nat _SubscriptionGuard :=
  match rest with
  | [] => (0%nat, objects)
  | (_, o) :: rest' =>
      match objects !! o with
      | None => (0%nat, objects)
      | Some g =>
          if lock_free (lock g) then
            let '(n, objects') :=
              acquire_locks t rest' (<[o := set_lock (mkLock (Some t) []) g]> objects) in
            (S n, objects')
          else
            (0%nat, <[o := set_lock (mkLock (owner (lock g)) (lock_waiters (lock g) ++ [t])) g]>
                      objects)
      end
  end.

(** Goes on acquiring after the first [done] locks *)
Definition acquire_from (t : nat) (entries : list (str * nat)) (done_ : nat)
    (g : _SubscriptionGuards) : _SubscriptionGuards :=
  let '(n, objects) := acquire_locks t (drop done_ entries) (g_objects g) in
  set_hold t (mkHold entries (done_ + n)) (upd_objects (fun _ => objects) g).

(** [async with hold(filters)] by the task [t], up to its first suspension *)
Definition hold (t : nat) (filters : list str) (g : _SubscriptionGuards) : _SubscriptionGuards :=
  let '(entries, g1) := enter (sorted_filters filters) g in
  acquire_from t entries 0 g1.

(** The lock the task waits for *)
Definition waits_for (h : Hold) : option (str * nat) := h_entries h !! h_acquired h.

(** The body of the [async with] runs. *)
Definition in_body (h : Hold) : bool := bool_decide (waits_for h = None).

(** The task was handed the lock it waits for. *)
Definition runnable (t : nat) (g : _SubscriptionGuards) : bool :=
  match g_holds g !! t ≫= waits_for with
  | Some (_, o) => bool_decide ((g_objects g !! o) ≫= (fun gd => owner (lock gd)) = Some t)
  | None => false
  end.

Definition hold_resume (t : nat) (g : _SubscriptionGuards) : _SubscriptionGuards :=
  match g_holds g !! t with
  | Some h =>
      if runnable t g then acquire_from t (h_entries h) (S (h_acquired h)) g else g
  | None => g
  end.

(** One turn of the last loop of the [finally] block *)
Definition leave_one (g : _SubscriptionGuards) (e : str * nat) : _SubscriptionGuards :=
  let objects := alter (add_users (-1)) e.2 (g_objects g) in
  mkGuards
    (if bool_decide (users <$> objects !! e.2 = Some 0) then delete e.1 (_guards g) else _guards g)
    objects (g_holds g).

(** The [finally] block *)
Definition hold_exit (t : nat) (g : _SubscriptionGuards) : _SubscriptionGuards :=
  match g_holds g !! t with
  | None => g
  | Some h =>
      let objects := foldl (fun m e => alter (on_lock lock_release) e.2 m) (g_objects g)
        (reverse (take (h_acquired h) (h_entries h))) in
      let g1 := foldl leave_one (upd_objects (fun _ => objects) g) (h_entries h) in
      mkGuards (_guards g1) (g_objects g1) (delete t (g_holds g1))
  end.

(** The task is cancelled while it waits. *)
Definition hold_cancel (t : nat) (g : _SubscriptionGuards) : _SubscriptionGuards :=
  match g_holds g !! t ≫= waits_for with
  | None => g
  | Some (_, o) => hold_exit t (upd_objects (alter (on_lock (lock_cancel t)) o) g)
  end.
