(* ===== verification/GuardsFacts.v ===== *)
(** * Correctness of the subscription guards

    Mutual exclusion per filter, freedom from deadlock, and guards that exist exactly
    as long as they are used. *)

From stdpp Require Import fin_sets sorting.
From S2P Require Import Prelude Utf8 SubscriptionIndex IndexFacts Guards.
Local Open Scope Z_scope.

(** ** One lock *)

(** [H] are the tasks that have the lock, [W] those that wait for it or were handed it. *)
Record lock_inv (H W : nat -> Prop) (l : Lock) : Prop := {
  li_owner : forall t, owner l = Some t <-> H t \/ (W t /\ t ∉ lock_waiters l);
  li_waiters : forall t, t ∈ lock_waiters l -> W t;
  li_nodup : NoDup (lock_waiters l);
  li_busy : owner l = None -> lock_waiters l = [];
}.

Lemma lock_inv_ext H W H' W' l :
  (forall t, H t <-> H' t) -> (forall t, W t <-> W' t) -> lock_inv H W l -> lock_inv H' W' l.
Proof.
  intros EH EW [P1 P2 P3 P4]. split; [|by intros t ?%P2; apply EW|done|done].
  intros t. rewrite P1, EH, EW. done.
Qed.

Lemma lock_inv_new : lock_inv (fun _ => False) (fun _ => False) (mkLock None []).
Proof.
  split; simpl; [|by intros t ?%elem_of_nil|constructor|done]. intros t.
  split; [done|]. by intros [?|[? _]].
Qed.

Section lock.
Context (H W : nat -> Prop) (l : Lock) (Hl : lock_inv H W l) (r : nat).

Lemma lock_free_nobody t : lock_free l = true -> ~ H t /\ ~ W t.
Proof.
  intros [Ho%bool_decide_eq_true Hw%bool_decide_eq_true]%andb_true_iff.
  assert (~ (H t \/ (W t /\ t ∉ lock_waiters l))) as Hn.
  { rewrite <- (li_owner _ _ _ Hl t). by rewrite Ho. }
  rewrite Hw in Hn. split; intros ?; apply Hn; [by left|right; split; [done|apply not_elem_of_nil]].
Qed.

Lemma lock_acquire :
  lock_free l = true -> lock_inv (fun t => H t \/ t = r) W (mkLock (Some r) []).
Proof.
  intros Hf. split; simpl; [|by intros t ?%elem_of_nil|constructor|done]. intros t.
  destruct (lock_free_nobody t Hf) as [Hh Hw]. split; [intros [= <-]; by left; right|].
  by intros [[? | ->]|[? _]].
Qed.

Lemma lock_enqueue :
  lock_free l = false -> ~ H r -> ~ W r ->
  lock_inv H (fun t => W t \/ t = r) (mkLock (owner l) (lock_waiters l ++ [r])).
Proof.
  destruct Hl as [P1 P2 P3 P4]. intros Hf Hh Hw. split; simpl.
  - intros t. rewrite P1, not_elem_of_app, not_elem_of_cons. split.
    + intros [?|[? ?]]; [by left|]. right. split_and!; [by left|done|congruence|apply not_elem_of_nil].
    + intros [?|[[? | ->] (? & ? & _)]]; [by left|by right|done].
  - intros t [Ht%P2| ->%list_elem_of_singleton]%elem_of_app; [by left|by right].
  - apply NoDup_app. split_and!; [done| |apply NoDup_singleton].
    intros t Ht ->%list_elem_of_singleton. by apply Hw, P2.
  - intros Ho. exfalso. unfold lock_free in Hf. rewrite Ho, (P4 Ho) in Hf. done.
Qed.

Lemma lock_granted :
  owner l = Some r -> W r -> ~ H r ->
  lock_inv (fun t => H t \/ t = r) (fun t => W t /\ t <> r) l.
Proof.
  destruct Hl as [P1 P2 P3 P4]. intros Ho Hw Hh.
  assert (r ∉ lock_waiters l) as Hr by (apply P1 in Ho as [?|[_ ?]]; done).
  split; try done.
  - intros t. split.
    + intros Hot. left. right. congruence.
    + intros [[? | ->]|[[? ?] ?]]; [apply P1; by left|done|apply P1; by right].
  - intros t Ht. split; [by apply P2|]. by intros ->.
Qed.

Lemma lock_released :
  H r -> ~ W r -> lock_inv (fun t => H t /\ t <> r) W (lock_release l).
Proof.
  destruct Hl as [P1 P2 P3 P4]. intros Hh Hw.
  assert (owner l = Some r) as Ho by (apply P1; by left).
  assert (Honly : forall t, H t \/ (W t /\ t ∉ lock_waiters l) -> t = r).
  { intros t Ht%P1. congruence. }
  unfold lock_release. destruct (lock_waiters l) as [|w ws] eqn:Hws; split; simpl; try done.
  - intros t. split; [done|]. intros [[Ht Hne]|[Ht _]].
    + by destruct Hne; apply Honly; left.
    + assert (t = r) as -> by (apply Honly; right; split; [done|apply not_elem_of_nil]). done.
  - apply NoDup_cons in P3 as [Hn Hd]. intros t. split.
    + intros [= <-]. right. split; [apply P2; left|done].
    + intros [[Ht Hne]|[Ht Hnt]]; [by destruct Hne; apply Honly; left|].
      destruct (decide (t = w)) as [->|Hne]; [done|].
      assert (t = r) as -> by (apply Honly; right; split; [done|rewrite not_elem_of_cons; done]).
      done.
  - intros t Ht. apply P2. by right.
  - by apply NoDup_cons in P3 as [_ ?].
Qed.

Lemma lock_cancelled :
  W r -> ~ H r -> lock_inv H (fun t => W t /\ t <> r) (lock_cancel r l).
Proof.
  destruct Hl as [P1 P2 P3 P4]. intros Hw Hh. unfold lock_cancel. case_bool_decide as Ho.
  - pose proof (lock_granted Ho Hw Hh) as [Q1 Q2 Q3 Q4].
    assert (Honly : forall t, H t \/ (W t /\ t ∉ lock_waiters l) -> t = r).
    { intros t Ht%P1. congruence. }
    unfold lock_release. destruct (lock_waiters l) as [|w ws] eqn:Hws; split; simpl; try done.
    + intros t. split; [done|]. intros [Ht|[[Ht Hne] _]].
      * assert (t = r) as -> by (apply Honly; by left). done.
      * destruct Hne. apply Honly. right. split; [done|apply not_elem_of_nil].
    + apply NoDup_cons in Q3 as [Hn Hd]. intros t. split.
      * intros [= <-]. right. split; [apply Q2; left|done].
      * intros [Ht|[[Ht Hne] Hnt]].
        { assert (t = r) as -> by (apply Honly; by left). done. }
        destruct (decide (t = w)) as [->|Hnw]; [done|].
        destruct Hne. apply Honly. right. split; [done|rewrite not_elem_of_cons; done].
    + intros t Ht. apply Q2. by right.
    + by apply NoDup_cons in Q3 as [_ ?].
  - split; simpl.
    + intros t. rewrite P1, list_elem_of_filter. split.
      * intros [?|[? Hn]]; [by left|]. right. split; [|tauto]. split; [done|]. intros ->.
        by apply Ho, P1; right.
      * intros [?|[[? ?] ?]]; [by left|right; split; [done|tauto]].
    + intros t [? ?]%list_elem_of_filter. split; [by apply P2|done].
    + by apply NoDup_filter.
    + intros Hn. by rewrite (P4 Hn).
Qed.

End lock.

(** ** The invariant *)

(** The task has the lock of the filter, or it waits for it ([r] is the running task). *)
Definition has (holds : gmap nat Hold) (f : str) (o t : nat) : Prop :=
  exists h k, holds !! t = Some h /\ h_entries h !! k = Some (f, o) /\ (k < h_acquired h)%nat.

Definition awaits (r : option nat) (holds : gmap nat Hold) (f : str) (o t : nat) : Prop :=
  r <> Some t /\ exists h, holds !! t = Some h /\ waits_for h = Some (f, o).

Definition uses (f : str) (h : Hold) : Prop := f ∈ (h_entries h).*1.

#[export] Instance uses_dec f h : Decision (uses f h).
Proof. unfold uses. apply _. Defined.

Definition users_of (f : str) (holds : gmap nat Hold) : nat :=
  size (filter (fun th => uses f th.2) holds).

(** The locks are taken in the order of the filters. *)
Record hold_ok (guards : gmap str nat) (h : Hold) : Prop := {
  ho_acquired : (h_acquired h <= length (h_entries h))%nat;
  ho_nodup : NoDup (h_entries h).*1;
  ho_sorted : StronglySorted (fun f f' => tuple_leb f f' = true) (h_entries h).*1;
  ho_guards : forall f o, (f, o) ∈ h_entries h -> guards !! f = Some o;
}.

Record guards_inv (r : option nat) (g : _SubscriptionGuards) : Prop := {
  gi_inj : forall f f' o, _guards g !! f = Some o -> _guards g !! f' = Some o -> f = f';
  gi_object : forall f o, _guards g !! f = Some o -> is_Some (g_objects g !! o);
  gi_hold : forall t h, g_holds g !! t = Some h -> hold_ok (_guards g) h;
  gi_users : forall f o gd, _guards g !! f = Some o -> g_objects g !! o = Some gd ->
    users gd = Z.of_nat (users_of f (g_holds g)) /\ 0 < users gd;
  gi_lock : forall f o gd, _guards g !! f = Some o -> g_objects g !! o = Some gd ->
    lock_inv (has (g_holds g) f o) (awaits r (g_holds g) f o) (lock gd);
}.

Lemma new_guards_inv : guards_inv None new_guards.
Proof. split; simpl; try (by intros ??); by intros ???. Qed.

(** *** Counting users *)

Lemma users_insert_None f t h holds :
  holds !! t = None ->
  users_of f (<[t := h]> holds) = (users_of f holds + if decide (uses f h) then 1 else 0)%nat.
Proof.
  intros Ht. unfold users_of. case_decide.
  - rewrite map_filter_insert_True by done. rewrite map_size_insert_None; [lia|].
    rewrite map_lookup_filter_None. by left.
  - rewrite map_filter_insert_not' by (done || (intros ?; congruence)). lia.
Qed.

Lemma users_delete f t h holds :
  holds !! t = Some h ->
  users_of f holds = (users_of f (delete t holds) + if decide (uses f h) then 1 else 0)%nat.
Proof.
  intros Ht. rewrite <- (insert_delete_id holds t h) at 1 by done.
  apply users_insert_None, lookup_delete_eq.
Qed.

Lemma users_update f t h h' holds :
  holds !! t = Some h ->
  (users_of f (<[t := h']> holds) + (if decide (uses f h) then 1 else 0) =
   users_of f holds + (if decide (uses f h') then 1 else 0))%nat.
Proof.
  intros Ht. rewrite (users_delete f t h holds) by done.
  rewrite <- insert_delete_eq. rewrite users_insert_None by apply lookup_delete_eq. lia.
Qed.

Lemma users_same f t h h' holds :
  holds !! t = Some h -> h_entries h' = h_entries h ->
  users_of f (<[t := h']> holds) = users_of f holds.
Proof.
  intros Ht He. pose proof (users_update f t h h' holds Ht) as H.
  assert (uses f h' <-> uses f h) as Hu by (unfold uses; by rewrite He).
  destruct (decide (uses f h)), (decide (uses f h')); tauto || lia.
Qed.

(** *** Roles *)

Lemma has_insert holds t h f o t' :
  has (<[t := h]> holds) f o t' <->
    if decide (t' = t) then exists k, h_entries h !! k = Some (f, o) /\ (k < h_acquired h)%nat
    else has holds f o t'.
Proof.
  unfold has. destruct (decide (t' = t)) as [->|Hne].
  - rewrite lookup_insert_eq. split; [by intros (? & k & [= <-] & ?); exists k|].
    intros (k & ?). by exists h, k.
  - by rewrite lookup_insert_ne.
Qed.

Lemma awaits_insert r holds t h f o t' :
  awaits r (<[t := h]> holds) f o t' <->
    if decide (t' = t) then r <> Some t /\ waits_for h = Some (f, o) else awaits r holds f o t'.
Proof.
  unfold awaits. destruct (decide (t' = t)) as [->|Hne].
  - rewrite lookup_insert_eq. split; [by intros (? & ? & [= <-] & ?)|]. intros [? ?].
    split; [done|]. by exists h.
  - by rewrite lookup_insert_ne.
Qed.

Lemma awaits_running holds t f o t' :
  t' <> t -> awaits (Some t) holds f o t' <-> awaits None holds f o t'.
Proof. intros Hne. unfold awaits. split; intros [_ ?]; (split; [congruence|done]). Qed.

Lemma not_awaits_running holds t f o : ~ awaits (Some t) holds f o t.
Proof. by intros [? _]. Qed.

(** A filter has one place among the entries of a task. *)
Lemma entry_unique guards h i j f o o' :
  hold_ok guards h -> h_entries h !! i = Some (f, o) -> h_entries h !! j = Some (f, o') -> i = j.
Proof.
  intros Hh Hi Hj. eapply (NoDup_lookup (h_entries h).*1); [apply Hh| |].
  - rewrite list_lookup_fmap, Hi. done.
  - rewrite list_lookup_fmap, Hj. done.
Qed.

Lemma entry_guard r g t h k f o :
  guards_inv r g -> g_holds g !! t = Some h -> h_entries h !! k = Some (f, o) ->
  _guards g !! f = Some o.
Proof.
  intros Hi Ht Hk. apply (ho_guards _ _ (gi_hold _ _ Hi t h Ht)). by eapply list_elem_of_lookup_2.
Qed.

(** ** Steps of one task *)

(** The task [t] changes its place among its entries and the lock of one of them. *)
Section update.
Context (r r' : option nat) (g : _SubscriptionGuards) (t : nat) (h : Hold) (k' : nat).
Context (f : str) (o : nat) (gd : _SubscriptionGuard) (l' : Lock) (i : nat).
Hypothesis Hinv : guards_inv r g.
Hypothesis Ht : g_holds g !! t = Some h.
Hypothesis Hk' : (k' <= length (h_entries h))%nat.
Hypothesis Hi : h_entries h !! i = Some (f, o).
Hypothesis Hgd : g_objects g !! o = Some gd.
Hypothesis Hother : forall t', t' <> t -> r <> Some t' <-> r' <> Some t'.
Hypothesis Hplace : forall j, j <> i -> (j < length (h_entries h))%nat ->
  ((j < k')%nat <-> (j < h_acquired h)%nat) /\
  (r' <> Some t /\ j = k' <-> r <> Some t /\ j = h_acquired h).

Let holds' : gmap nat Hold := <[t := mkHold (h_entries h) k']> (g_holds g).

Lemma other_roles f' o' t' :
  f' <> f ->
  (has (g_holds g) f' o' t' <-> has holds' f' o' t') /\
  (awaits r (g_holds g) f' o' t' <-> awaits r' holds' f' o' t').
Proof.
  intros Hne. unfold holds'. rewrite has_insert, awaits_insert.
  destruct (decide (t' = t)) as [->|Ht'].
  - assert (Hj : forall j, h_entries h !! j = Some (f', o') ->
      j <> i /\ (j < length (h_entries h))%nat).
    { intros j Hj. split; [intros ->; congruence|by eapply lookup_lt_Some]. }
    unfold has, awaits, waits_for. split; split.
    + intros (h0 & j & Hh0 & He & Hlt). assert (h0 = h) as -> by congruence.
      exists j. split; [done|]. destruct (Hj j He) as [Hn Hl]. by apply (Hplace j Hn Hl).
    + intros (j & He & Hlt). exists h, j. split_and!; [done|done|].
      destruct (Hj j He) as [Hn Hl]. by apply (Hplace j Hn Hl).
    + intros (Hr & h0 & Hh0 & He). assert (h0 = h) as -> by congruence.
      destruct (Hj _ He) as [Hn Hl]. destruct (proj2 (proj2 (Hplace _ Hn Hl))) as [Hr' Hjk]; [done|].
      split; [done|]. simpl. by rewrite <- Hjk.
    + intros (Hr & He). simpl in He. destruct (Hj _ He) as [Hn Hl].
      destruct (proj1 (proj2 (Hplace _ Hn Hl))) as [Hr' Hjk]; [done|]. split; [done|]. exists h.
      split; [done|]. by rewrite <- Hjk.
  - split; [done|]. unfold awaits. by rewrite (Hother t' Ht').
Qed.

Lemma inv_update :
  lock_inv (has holds' f o) (awaits r' holds' f o) l' ->
  guards_inv r' (mkGuards (_guards g) (<[o := set_lock l' gd]> (g_objects g)) holds').
Proof.
  intros Hl. destruct Hinv as [P1 P2 P3 P4 P5].
  assert (Hf : _guards g !! f = Some o) by by eapply entry_guard.
  split; simpl.
  - exact P1.
  - intros f' o' Hg. rewrite lookup_insert. case_decide; [by eexists|by apply (P2 f')].
  - intros t' h'. unfold holds'. rewrite lookup_insert. case_decide; [|apply P3].
    intros [= <-]. destruct (P3 t h Ht). by split.
  - intros f' o' gd' Hg Ho. unfold holds'. rewrite (users_same _ _ h) by done.
    revert Ho. rewrite lookup_insert. case_decide; [|by apply P4]. intros [= <-]. subst o'.
    by apply (P4 f' o gd).
  - intros f' o' gd' Hg Ho. destruct (decide (f' = f)) as [->|Hne].
    + assert (o' = o) as -> by congruence. rewrite lookup_insert_eq in Ho.
      by injection Ho as <-.
    + rewrite lookup_insert_ne in Ho by (intros ->; apply Hne; by eapply P1).
      eapply lock_inv_ext; [| |by eapply P5]; intros t'; by apply other_roles.
Qed.

(** Where [t] stands with respect to the lock itself *)
Lemma own_has t' : has holds' f o t' <-> if decide (t' = t) then (i < k')%nat
  else has (g_holds g) f o t'.
Proof.
  unfold holds'. rewrite has_insert. destruct (decide _); [|done]. simpl. split.
  - intros (j & He & Hlt).
    by rewrite (entry_unique _ _ i j f o o (gi_hold _ _ Hinv t h Ht) Hi He).
  - intros Hlt. by exists i.
Qed.

Lemma own_had : has (g_holds g) f o t <-> (i < h_acquired h)%nat.
Proof.
  split.
  - intros (h0 & j & Hh0 & He & Hlt). assert (h0 = h) as -> by congruence.
    by rewrite (entry_unique _ _ i j f o o (gi_hold _ _ Hinv t h Ht) Hi He).
  - intros Hlt. by exists h, i.
Qed.

Lemma own_awaits t' : awaits r' holds' f o t' <->
  if decide (t' = t) then r' <> Some t /\ i = k' else awaits r (g_holds g) f o t'.
Proof.
  clear Hk' Hplace. unfold holds'. rewrite awaits_insert. destruct (decide _) as [->|Hne].
  - unfold waits_for. simpl. split; [|by intros [? <-]]. intros [Hr He]. split; [done|].
    by rewrite (entry_unique _ _ i k' f o o (gi_hold _ _ Hinv t h Ht) Hi He).
  - unfold awaits. by rewrite (Hother t' Hne).
Qed.

Lemma own_awaited : awaits r (g_holds g) f o t <-> r <> Some t /\ i = h_acquired h.
Proof.
  unfold awaits, waits_for. split.
  - intros (Hr & h0 & Hh0 & He). assert (h0 = h) as -> by congruence. split; [done|].
    by rewrite (entry_unique _ _ i _ f o o (gi_hold _ _ Hinv t h Ht) Hi He).
  - intros [Hr Heq]. split; [done|]. exists h. split; [done|]. by rewrite <- Heq.
Qed.

Lemma own_lock : lock_inv (has (g_holds g) f o) (awaits r (g_holds g) f o) (lock gd).
Proof. apply (gi_lock _ _ Hinv f o gd); [|done]. by eapply entry_guard. Qed.

End update.

Section steps.
Context (g : _SubscriptionGuards) (t : nat) (h : Hold) (f : str) (o : nat) (gd : _SubscriptionGuard).
Hypothesis Ht : g_holds g !! t = Some h.
Hypothesis Hgd : g_objects g !! o = Some gd.

Definition moved (k' : nat) (l' : Lock) : _SubscriptionGuards :=
  mkGuards (_guards g) (<[o := set_lock l' gd]> (g_objects g))
    (<[t := mkHold (h_entries h) k']> (g_holds g)).

Lemma waits_place r : guards_inv r g -> waits_for h = Some (f, o) ->
  (h_acquired h < length (h_entries h))%nat.
Proof. intros _ Hw. by apply lookup_lt_Some in Hw. Qed.

(** The running task takes a free lock. *)
Lemma inv_take :
  guards_inv (Some t) g -> waits_for h = Some (f, o) -> lock_free (lock gd) = true ->
  guards_inv (Some t) (moved (S (h_acquired h)) (mkLock (Some t) [])).
Proof.
  intros Hinv Hw Hf. pose proof (waits_place _ Hinv Hw).
  apply (inv_update (Some t) (Some t) g t h _ f o gd _ (h_acquired h)); try (done || lia).
  { intros j Hj _. split; [lia|]. split; by intros []. }
  eapply lock_inv_ext; [| |apply (lock_acquire _ _ _ (own_lock _ g t h f o gd _ Hinv Ht Hw Hgd) t Hf)].
  - intros t'. rewrite (own_has _ g t h _ f o _ Hinv Ht Hw). destruct (decide _) as [->|Hne].
    + split; [intros _; lia|by right].
    + split; [by intros [?|?]|by left].
  - intros t'. rewrite (own_awaits _ (Some t) g t h _ f o _ Hinv Ht Hw) by done.
    destruct (decide _) as [->|]; [|done]. split; [by intros ?%not_awaits_running|by intros []].
Qed.

(** The running task joins the queue of a lock that is not free. *)
Lemma inv_enqueue :
  guards_inv (Some t) g -> waits_for h = Some (f, o) -> lock_free (lock gd) = false ->
  guards_inv None (moved (h_acquired h) (mkLock (owner (lock gd)) (lock_waiters (lock gd) ++ [t]))).
Proof.
  intros Hinv Hw Hf. pose proof (waits_place _ Hinv Hw).
  assert (Hr : forall t', t' <> t -> Some t <> Some t' <-> None <> Some t') by (split; congruence).
  apply (inv_update (Some t) None g t h _ f o gd _ (h_acquired h)); try (done || lia).
  eapply lock_inv_ext; [| |apply (lock_enqueue _ _ _ (own_lock _ g t h f o gd _ Hinv Ht Hw Hgd) t Hf)].
  - intros t'. rewrite (own_has _ g t h _ f o _ Hinv Ht Hw). destruct (decide _) as [->|Hne]; [|done].
    by rewrite (own_had _ g t h f o _ Hinv Ht Hw).
  - intros t'. rewrite (own_awaits _ None g t h _ f o _ Hinv Ht Hw) by done.
    destruct (decide _) as [->|].
    + split; [by intros _|by right].
    + split; [by intros [?|?]|by left].
  - rewrite (own_had _ g t h f o _ Hinv Ht Hw). lia.
  - apply not_awaits_running.
Qed.

(** A waiter that was handed the lock runs on. *)
Lemma inv_granted :
  guards_inv None g -> waits_for h = Some (f, o) -> owner (lock gd) = Some t ->
  guards_inv (Some t) (moved (S (h_acquired h)) (lock gd)).
Proof.
  intros Hinv Hw Ho. pose proof (waits_place _ Hinv Hw).
  assert (Hr : forall t', t' <> t -> None <> Some t' <-> Some t <> Some t') by (split; congruence).
  apply (inv_update None (Some t) g t h _ f o gd _ (h_acquired h)); try (done || lia).
  { intros j Hj _. split; [lia|]. split; [by intros []|by intros [_ ->]]. }
  eapply lock_inv_ext; [| |apply (lock_granted _ _ _ (own_lock _ g t h f o gd _ Hinv Ht Hw Hgd) t Ho)].
  - intros t'. rewrite (own_has _ g t h _ f o _ Hinv Ht Hw). destruct (decide _) as [->|Hne].
    + split; [intros _; lia|by right].
    + split; [by intros [?|?]|by left].
  - intros t'. rewrite (own_awaits _ (Some t) g t h _ f o _ Hinv Ht Hw) by done.
    destruct (decide _) as [->|]; [|split; [by intros []|done]]. split; [by intros []|by intros []].
  - by apply (own_awaited _ g t h f o _ Hinv Ht Hw).
  - rewrite (own_had _ g t h f o _ Hinv Ht Hw). lia.
Qed.

(** A waiter gives up. *)
Lemma inv_give_up :
  guards_inv None g -> waits_for h = Some (f, o) ->
  guards_inv (Some t) (moved (h_acquired h) (lock_cancel t (lock gd))).
Proof.
  intros Hinv Hw. pose proof (waits_place _ Hinv Hw).
  assert (Hr : forall t', t' <> t -> None <> Some t' <-> Some t <> Some t') by (split; congruence).
  apply (inv_update None (Some t) g t h _ f o gd _ (h_acquired h)); try (done || lia).
  eapply lock_inv_ext; [| |apply (lock_cancelled _ _ _ (own_lock _ g t h f o gd _ Hinv Ht Hw Hgd) t)].
  - intros t'. rewrite (own_has _ g t h _ f o _ Hinv Ht Hw). destruct (decide _) as [->|Hne]; [|done].
    by rewrite (own_had _ g t h f o _ Hinv Ht Hw).
  - intros t'. rewrite (own_awaits _ (Some t) g t h _ f o _ Hinv Ht Hw) by done.
    destruct (decide _) as [->|]; [|split; [by intros []|done]]. split; [by intros []|by intros []].
  - by apply (own_awaited _ g t h f o _ Hinv Ht Hw).
  - rewrite (own_had _ g t h f o _ Hinv Ht Hw). lia.
Qed.

(** The running task releases the last lock it took. *)
Lemma inv_release k :
  guards_inv (Some t) g -> h_acquired h = S k -> h_entries h !! k = Some (f, o) ->
  guards_inv (Some t) (moved k (lock_release (lock gd))).
Proof.
  intros Hinv Hk Hw. pose proof (lookup_lt_Some _ _ _ Hw).
  apply (inv_update (Some t) (Some t) g t h _ f o gd _ k); try (done || lia).
  { intros j Hj _. split; [lia|]. split; by intros []. }
  eapply lock_inv_ext; [| |apply (lock_released _ _ _ (own_lock _ g t h f o gd _ Hinv Ht Hw Hgd) t)].
  - intros t'. rewrite (own_has _ g t h _ f o _ Hinv Ht Hw). destruct (decide _) as [->|Hne].
    + split; [by intros []|lia].
    + split; [by intros []|done].
  - intros t'. rewrite (own_awaits _ (Some t) g t h _ f o _ Hinv Ht Hw) by done.
    destruct (decide _) as [->|]; [|done]. split; [by intros ?%not_awaits_running|by intros []].
  - rewrite (own_had _ g t h f o _ Hinv Ht Hw). lia.
  - apply not_awaits_running.
Qed.

End steps.

(** A run of [hold] starts and ends without entries. *)
Lemma inv_start g t :
  guards_inv None g -> g_holds g !! t = None -> guards_inv (Some t) (set_hold t (mkHold [] 0) g).
Proof.
  intros [P1 P2 P3 P4 P5] Ht. split; simpl; try done.
  - intros t' h'. rewrite lookup_insert. case_decide; [|apply P3]. intros [= <-].
    split; simpl; try constructor. by intros f o ?%elem_of_nil.
  - intros f o gd Hf Ho. rewrite users_insert_None by done.
    rewrite decide_False by apply not_elem_of_nil. rewrite Nat.add_0_r. by eapply P4.
  - intros f o gd Hf Ho. eapply lock_inv_ext; [| |by eapply P5]; intros t'.
    + rewrite has_insert. destruct (decide _) as [->|]; [|done]. split.
      * intros (h & k & Hh & _). congruence.
      * by intros (k & He & _).
    + rewrite awaits_insert. destruct (decide _) as [->|Hne].
      * split; [|by intros []]. intros (_ & h & Hh & _). congruence.
      * by rewrite (awaits_running _ t) by done.
Qed.

Lemma inv_end g t :
  guards_inv (Some t) g -> g_holds g !! t = Some (mkHold [] 0) ->
  guards_inv None (mkGuards (_guards g) (g_objects g) (delete t (g_holds g))).
Proof.
  intros [P1 P2 P3 P4 P5] Ht. split; simpl; try done.
  - intros t' h' [_ Ht']%lookup_delete_Some. by eapply P3.
  - intros f o gd Hf Ho. destruct (P4 f o gd Hf Ho) as [Hu Hp]. split; [|done].
    rewrite Hu, (users_delete f t _ _ Ht). rewrite decide_False by apply not_elem_of_nil. lia.
  - intros f o gd Hf Ho. eapply lock_inv_ext; [| |by eapply P5]; intros t'; unfold has, awaits.
    + split.
      * intros (h & k & Hh & H). exists h, k. rewrite lookup_delete_ne; [done|]. intros <-.
        rewrite Ht in Hh. injection Hh as <-. by destruct H.
      * intros (h & k & [_ Hh]%lookup_delete_Some & H). by exists h, k.
    + split.
      * intros (Hr & h & Hh & H). split; [done|]. exists h. rewrite lookup_delete_ne; [done|]. congruence.
      * intros (Hr & h & [Hne Hh]%lookup_delete_Some & H). split; [congruence|]. by exists h.
Qed.

(** The body starts when there is nothing left to acquire, and ends. *)
Lemma inv_body g t h :
  g_holds g !! t = Some h -> waits_for h = None ->
  guards_inv (Some t) g <-> guards_inv None g.
Proof.
  intros Ht Hw.
  assert (Ha : forall f o t', awaits (Some t) (g_holds g) f o t' <-> awaits None (g_holds g) f o t').
  { intros f o t'. unfold awaits. destruct (decide (t' = t)) as [->|Hne].
    - split; intros (_ & h' & Hh' & ?); congruence.
    - split; intros [_ ?]; (split; [congruence|done]). }
  split; intros [P1 P2 P3 P4 P5]; split; try done; intros f o gd Hf Ho;
    (eapply lock_inv_ext; [done| |by eapply P5]); intros t'; by rewrite Ha.
Qed.

(** *** Entering *)

Lemma enter_one_holds f g : g_holds (enter_one f g).2 = g_holds g.
Proof. done. Qed.

Lemma no_role_without_guard r g f o t :
  guards_inv r g -> _guards g !! f = None ->
  ~ has (g_holds g) f o t /\ ~ awaits r (g_holds g) f o t.
Proof.
  intros Hinv Hf. split.
  - intros (h & k & Hh & He & _). pose proof (entry_guard _ _ _ _ _ _ _ Hinv Hh He). congruence.
  - intros (_ & h & Hh & He). pose proof (entry_guard _ _ _ _ _ _ _ Hinv Hh He). congruence.
Qed.

Lemma users_zero r g f : guards_inv r g -> _guards g !! f = None -> users_of f (g_holds g) = 0%nat.
Proof.
  intros Hinv Hf. unfold users_of. apply map_size_empty_iff, map_empty. intros t.
  apply map_lookup_filter_None. right. intros h Hh [[f' o] [He Hin]]%list_elem_of_fmap. simpl in He.
  subst f'. pose proof (ho_guards _ _ (gi_hold _ _ Hinv t h Hh) _ _ Hin). congruence.
Qed.

Section entering.
Context (g : _SubscriptionGuards) (t : nat) (es : list (str * nat)) (f : str).
Hypothesis Hinv : guards_inv (Some t) g.
Hypothesis Ht : g_holds g !! t = Some (mkHold es 0).
Hypothesis Hnew : f ∉ es.*1.
Hypothesis Hlast : Forall (fun f' => tuple_leb f' f = true) es.*1.

Lemma fresh_object o : _guards g !! f = None -> o = fresh (dom (g_objects g)) ->
  forall f' o', _guards g !! f' = Some o' -> o' <> o.
Proof.
  intros _ -> f' o' Hf' ->. destruct (gi_object _ _ Hinv _ _ Hf') as [gd Hgd].
  assert (g_objects g !! fresh (dom (g_objects g)) = None) by apply not_elem_of_dom, is_fresh.
  congruence.
Qed.

Lemma hold_ok_enter o guards h :
  hold_ok (_guards g) h -> (forall f' o', _guards g !! f' = Some o' -> guards !! f' = Some o') ->
  guards !! f = Some o -> h = mkHold es 0 -> hold_ok guards (mkHold (es ++ [(f, o)]) 0).
Proof.
  intros [H1 H2 H3 H4] Hg Hf ->. simpl in *. split; simpl; [lia|..].
  - rewrite fmap_app. apply NoDup_app. split_and!; [done| |apply NoDup_singleton].
    intros f' Hf' ->%list_elem_of_singleton. done.
  - rewrite fmap_app. simpl. clear - H3 Hlast.
    induction H3 as [|f' l HS IH HF]; simpl; [repeat constructor|].
    apply Forall_cons in Hlast as [Hle Hl]. constructor; [by apply IH|].
    apply Forall_app. split; [done|]. by repeat constructor.
  - intros f' o' [Hin|Hin%list_elem_of_singleton]%elem_of_app; [by apply Hg, H4|].
    by injection Hin as -> ->.
Qed.

Lemma users_enter f' o :
  users_of f' (<[t := mkHold (es ++ [(f, o)]) 0]> (g_holds g)) =
  (users_of f' (g_holds g) + if decide (f' = f) then 1 else 0)%nat.
Proof.
  pose proof (users_update f' t _ (mkHold (es ++ [(f, o)]) 0) _ Ht) as Hu.
  assert (uses f' (mkHold (es ++ [(f, o)]) 0) <-> uses f' (mkHold es 0) \/ f' = f) as Hiff.
  { unfold uses. simpl. rewrite fmap_app, elem_of_app. simpl. by rewrite list_elem_of_singleton. }
  assert (f' = f -> ~ uses f' (mkHold es 0)) as Hex by by intros ->.
  destruct (decide (uses f' (mkHold es 0))), (decide (uses f' (mkHold (es ++ [(f, o)]) 0))),
    (decide (f' = f)); try tauto; lia.
Qed.

Lemma roles_enter o f' o' t' :
  let holds' := <[t := mkHold (es ++ [(f, o)]) 0]> (g_holds g) in
  (has (g_holds g) f' o' t' <-> has holds' f' o' t') /\
  (awaits (Some t) (g_holds g) f' o' t' <-> awaits (Some t) holds' f' o' t').
Proof.
  cbv zeta. rewrite has_insert, awaits_insert. destruct (decide _) as [->|]; [|done]. split; split.
  - intros (h & k & Hh & _ & Hlt). rewrite Ht in Hh. injection Hh as <-. simpl in Hlt. lia.
  - intros (k & _ & Hlt). simpl in Hlt. lia.
  - by intros ?%not_awaits_running.
  - by intros [].
Qed.

Lemma inv_enter o g' :
  enter_one f g = (o, g') -> guards_inv (Some t) (set_hold t (mkHold (es ++ [(f, o)]) 0) g').
Proof.
  unfold enter_one. intros [= Ho <-]. destruct (_guards g !! f) as [o0|] eqn:Hf; simpl in Ho.
  - subst o0. destruct Hinv as [P1 P2 P3 P4 P5]. rewrite (insert_id (_guards g)) by done.
    split; simpl; [done|..].
    + intros f' o' Hf'. apply lookup_alter_is_Some. by eapply P2.
    + intros t' h'. rewrite lookup_insert. case_decide; [|apply P3]. intros [= <-].
      by eapply (hold_ok_enter o); [by eapply P3| | |].
    + intros f' o' gd' Hf' Ho'. rewrite users_enter. revert Ho'. rewrite lookup_alter.
      case_decide as He.
      * subst o'. assert (f' = f) as -> by by eapply P1. rewrite decide_True by done.
        destruct (g_objects g !! o) as [gd|] eqn:Hgd; [|done]. intros [= <-]. simpl.
        destruct (P4 f o gd Hf Hgd). lia.
      * intros Ho'. rewrite decide_False by (intros ->; congruence). rewrite Nat.add_0_r.
        by eapply P4.
    + intros f' o' gd' Hf' Ho'.
      assert (exists gd, g_objects g !! o' = Some gd /\ lock gd = lock gd') as (gd & Hgd & <-).
      { revert Ho'. rewrite lookup_alter. case_decide as He; [|by exists gd']. subst o'.
        destruct (g_objects g !! o) as [gd|]; [|done]. intros [= <-]. by exists gd. }
      eapply lock_inv_ext; [| |by eapply P5]; intros t'; by apply roles_enter.
  - assert (Hfresh : forall f' o', _guards g !! f' = Some o' -> o' <> o)
      by (by apply fresh_object).
    rewrite Ho. pose proof (users_zero _ _ _ Hinv Hf) as Hu0.
    pose proof (fun o t => no_role_without_guard _ _ f o t Hinv Hf) as Hno.
    destruct Hinv as [P1 P2 P3 P4 P5]. split; simpl.
    + intros f1 f2 o'. rewrite !lookup_insert. repeat case_decide; subst; try done; intros H1 H2;
        simplify_eq; [by destruct (Hfresh _ _ H2)|by destruct (Hfresh _ _ H1)|by eapply P1].
    + intros f' o'. rewrite lookup_insert. intros Hf'. apply lookup_alter_is_Some.
      rewrite lookup_insert_is_Some. destruct (decide (o = o')); [by left|right]. split; [done|].
      case_decide; [congruence|by eapply P2].
    + intros t' h'. rewrite lookup_insert. case_decide; intros Hh'.
      * injection Hh' as <-. eapply (hold_ok_enter o); [by eapply P3| |by rewrite lookup_insert_eq|done].
        intros f' o' Hf'. rewrite lookup_insert_ne; [done|]. intros <-. congruence.
      * destruct (P3 _ _ Hh') as [H1 H2 H3 H4]. split; [done..|]. intros f' o' Hin.
        rewrite lookup_insert_ne; [by apply H4|]. intros <-. specialize (H4 _ _ Hin). congruence.
    + intros f' o' gd' Hf' Ho'. rewrite users_enter. revert Hf'. rewrite lookup_insert. case_decide.
      * intros [= <-]. subst f'. rewrite lookup_alter_eq, lookup_insert_eq in Ho'.
        injection Ho' as <-. rewrite decide_True by done. rewrite Hu0. simpl. lia.
      * intros Hf'. pose proof (Hfresh _ _ Hf').
        rewrite lookup_alter_ne, lookup_insert_ne in Ho' by done.
        rewrite decide_False by done. rewrite Nat.add_0_r. by eapply P4.
    + intros f' o' gd' Hf' Ho'. revert Hf'. rewrite lookup_insert. case_decide.
      * intros [= <-]. subst f'. rewrite lookup_alter_eq, lookup_insert_eq in Ho'.
        injection Ho' as <-. simpl.
        eapply lock_inv_ext; [| |apply lock_inv_new]; intros t'; split; try done;
          intros Hr; by apply (roles_enter o), Hno in Hr.
      * intros Hf'. pose proof (Hfresh _ _ Hf').
        rewrite lookup_alter_ne, lookup_insert_ne in Ho' by done.
        eapply lock_inv_ext; [| |by eapply P5]; intros t'; by apply roles_enter.
Qed.

End entering.

(** *** Leaving *)

Section leaving.
Context (g : _SubscriptionGuards) (t : nat) (es : list (str * nat)) (f : str) (o : nat).
Hypothesis Hinv : guards_inv (Some t) g.
Hypothesis Ht : g_holds g !! t = Some (mkHold ((f, o) :: es) 0).

Let holds' : gmap nat Hold := <[t := mkHold es 0]> (g_holds g).

Lemma users_leave f' :
  users_of f' (g_holds g) = (users_of f' holds' + if decide (f' = f) then 1 else 0)%nat.
Proof.
  pose proof (users_update f' t _ (mkHold es 0) _ Ht) as Hu. fold holds' in Hu.
  pose proof (ho_nodup _ _ (gi_hold _ _ Hinv t _ Ht)) as Hnd. simpl in Hnd.
  apply NoDup_cons in Hnd as [Hn _].
  assert (uses f' (mkHold ((f, o) :: es) 0) <-> uses f' (mkHold es 0) \/ f' = f) as Hiff.
  { unfold uses. simpl. rewrite elem_of_cons. tauto. }
  assert (f' = f -> ~ uses f' (mkHold es 0)) as Hex by by intros ->.
  destruct (decide (uses f' (mkHold es 0))), (decide (uses f' (mkHold ((f, o) :: es) 0))),
    (decide (f' = f)); try tauto; lia.
Qed.

Lemma roles_leave f' o' t' :
  (has (g_holds g) f' o' t' <-> has holds' f' o' t') /\
  (awaits (Some t) (g_holds g) f' o' t' <-> awaits (Some t) holds' f' o' t').
Proof.
  unfold holds'. rewrite has_insert, awaits_insert. destruct (decide _) as [->|]; [|done].
  split; split.
  - intros (h & k & Hh & _ & Hlt). rewrite Ht in Hh. injection Hh as <-. simpl in Hlt. lia.
  - intros (k & _ & Hlt). simpl in Hlt. lia.
  - by intros ?%not_awaits_running.
  - by intros [].
Qed.

(** Somebody who uses the filter keeps its guard. *)
Lemma users_pos t' h' f' : holds' !! t' = Some h' -> uses f' h' -> (0 < users_of f' holds')%nat.
Proof.
  intros Hh Hu. rewrite (users_delete f' t' h') by done. rewrite decide_True by done. lia.
Qed.

Lemma inv_leave : guards_inv (Some t) (set_hold t (mkHold es 0) (leave_one g (f, o))).
Proof.
  pose proof (gi_hold _ _ Hinv t _ Ht) as [H1 H2 H3 H4]. simpl in H2, H3.
  apply NoDup_cons in H2 as [Hn H2]. apply StronglySorted_inv in H3 as [H3 _].
  assert (Hf : _guards g !! f = Some o) by (apply H4; by left).
  destruct (gi_object _ _ Hinv f o Hf) as [gd Hgd].
  destruct (gi_users _ _ Hinv f o gd Hf Hgd) as [Hu _].
  assert (Hold : hold_ok (_guards g) (mkHold es 0)).
  { split; simpl; [lia|done|done|]. intros f' o' Hin. apply H4. by right. }
  unfold leave_one. cbn [fst snd]. rewrite lookup_alter_eq, Hgd. cbn [fmap option_fmap option_map].
  pose proof (users_leave f) as Hul. rewrite decide_True in Hul by done.
  set (guards' := if bool_decide _ then _ else _).
  assert (Hg : forall f' o', guards' !! f' = Some o' -> _guards g !! f' = Some o' /\
    (f' = f -> (0 < users_of f holds')%nat)).
  { intros f' o'. unfold guards'. case_bool_decide as Hz.
    - intros [Hne ?]%lookup_delete_Some. split; [done|]. congruence.
    - intros ?. split; [done|]. intros _. destruct (users_of f holds') eqn:E; [|lia].
      destruct Hz. simpl. f_equal. lia. }
  assert (Hkeep : forall f' o', _guards g !! f' = Some o' -> (0 < users_of f' holds')%nat ->
    guards' !! f' = Some o').
  { intros f' o' Hf' Hp. unfold guards'. case_bool_decide as Hz; [|done].
    rewrite lookup_delete_ne; [done|]. intros <-. simpl in Hz. injection Hz as Hz. lia. }
  destruct Hinv as [P1 P2 P3 P4 P5]. unfold set_hold. split; simpl; fold holds'.
  - intros f1 f2 o' [Hf1 _]%Hg [Hf2 _]%Hg. by eapply P1.
  - intros f' o' [Hf' _]%Hg. apply lookup_alter_is_Some. by eapply P2.
  - intros t' h' Hh'. assert (hold_ok (_guards g) h') as [Q1 Q2 Q3 Q4].
    { revert Hh'. unfold holds'. rewrite lookup_insert. case_decide; [by intros [= <-]|apply P3]. }
    split; [done..|]. intros f' o' Hin. apply Hkeep; [by apply Q4|].
    eapply users_pos; [exact Hh'|]. unfold uses. apply list_elem_of_fmap. by exists (f', o').
  - intros f' o' gd' Hf' Ho'. apply Hg in Hf' as [Hf' Hpos]. pose proof (users_leave f') as Hl.
    revert Ho'. rewrite lookup_alter. destruct (decide (o = o')) as [<-|He].
    + assert (f' = f) as -> by by eapply P1. rewrite Hgd. intros [= <-]. simpl.
      specialize (Hpos eq_refl). lia.
    + intros Ho'. rewrite decide_False in Hl by (intros ->; congruence).
      destruct (P4 f' o' gd' Hf' Ho'). lia.
  - intros f' o' gd' [Hf' _]%Hg Ho'.
    assert (exists gd0, g_objects g !! o' = Some gd0 /\ lock gd0 = lock gd') as (gd0 & Hgd0 & <-).
    { revert Ho'. rewrite lookup_alter.
      destruct (decide (o = o')) as [<-|He]; [|by exists gd']. rewrite Hgd.
      intros [= <-]. by exists gd. }
    eapply lock_inv_ext; [| |by eapply P5]; intros t'; by apply roles_leave.
Qed.

End leaving.

(** ** The operations keep the invariant *)

Lemma set_hold_twice t h h' g : set_hold t h (set_hold t h' g) = set_hold t h g.
Proof. unfold set_hold. simpl. by rewrite insert_insert_eq. Qed.

Lemma set_hold_id t h g : g_holds g !! t = Some h -> set_hold t h g = g.
Proof. intros Ht. unfold set_hold. rewrite insert_id by done. by destruct g. Qed.

Lemma enter_set_hold t h fs g :
  enter fs (set_hold t h g) = ((enter fs g).1, set_hold t h (enter fs g).2).
Proof.
  revert g; induction fs as [|f fs IH]; intros g; [done|]. cbn [enter].
  change (enter_one f (set_hold t h g)) with
    ((enter_one f g).1, set_hold t h (enter_one f g).2).
  destruct (enter_one f g) as [o g1]. cbn [fst snd]. rewrite IH.
  by destruct (enter fs g1).
Qed.

Lemma enter_inv t fs : forall es g,
  guards_inv (Some t) g -> g_holds g !! t = Some (mkHold es 0) ->
  NoDup (es.*1 ++ fs) -> StronglySorted (fun f f' => tuple_leb f f' = true) (es.*1 ++ fs) ->
  guards_inv (Some t) (set_hold t (mkHold (es ++ (enter fs g).1) 0) (enter fs g).2) /\
  ((enter fs g).1).*1 = fs.
Proof.
  induction fs as [|f fs IH]; intros es g Hinv Ht Hnd Hs; cbn [enter].
  { rewrite app_nil_r. simpl. by rewrite set_hold_id. }
  destruct (enter_one f g) as [o g1] eqn:He.
  assert (Hnd' := Hnd). apply NoDup_app in Hnd' as (_ & Hn & _).
  assert (Hinv1 : guards_inv (Some t) (set_hold t (mkHold (es ++ [(f, o)]) 0) g1)).
  { apply (inv_enter g t es f Hinv Ht); [|..].
    - intros Hin. apply (Hn f Hin). by left.
    - apply Forall_forall. intros f' Hf'. by apply StronglySorted_app in Hs as [Hs _]; apply Hs; [|left].
    - done. }
  destruct (IH (es ++ [(f, o)]) _ Hinv1) as [IH1 IH2].
  - simpl. by rewrite lookup_insert_eq.
  - rewrite fmap_app, <- app_assoc. done.
  - rewrite fmap_app, <- app_assoc. done.
  - rewrite enter_set_hold in IH1, IH2. cbn [fst snd] in IH1, IH2. rewrite set_hold_twice in IH1.
    destruct (enter fs g1) as [es' g2]. cbn [fst snd fmap list_fmap] in *.
    rewrite <- app_assoc in IH1. split; [done|]. by f_equal.
Qed.

Lemma upd_objects_id g : upd_objects (fun _ => g_objects g) g = g.
Proof. by destruct g. Qed.

Lemma acquire_inv t rest : forall g h,
  guards_inv (Some t) g -> g_holds g !! t = Some h -> drop (h_acquired h) (h_entries h) = rest ->
  let '(n, objects) := acquire_locks t rest (g_objects g) in
  guards_inv None (set_hold t (mkHold (h_entries h) (h_acquired h + n))
    (upd_objects (fun _ => objects) g)).
Proof.
  induction rest as [|[f o] rest IH]; intros g h Hinv Ht Hd; cbn [acquire_locks].
  - rewrite Nat.add_0_r, upd_objects_id, set_hold_id by (rewrite Ht; by destruct h).
    apply (inv_body g t h); [done| |done]. unfold waits_for.
    apply lookup_ge_None. apply (f_equal length) in Hd. rewrite length_drop in Hd. simpl in Hd. lia.
  - assert (Hw : waits_for h = Some (f, o)).
    { unfold waits_for. rewrite <- (Nat.add_0_r (h_acquired h)), <- lookup_drop, Hd. done. }
    destruct (gi_object _ _ Hinv f o) as [gd Hgd]; [by eapply entry_guard|]. rewrite Hgd.
    destruct (lock_free (lock gd)) eqn:Hf.
    + pose proof (inv_take g t h f o gd Ht Hgd Hinv Hw Hf) as Hinv1.
      specialize (IH _ (mkHold (h_entries h) (S (h_acquired h))) Hinv1).
      unfold moved in IH. simpl in IH. rewrite lookup_insert_eq in IH. specialize (IH eq_refl).
      assert (Hd' : drop (S (h_acquired h)) (h_entries h) = rest).
      { rewrite <- (Nat.add_1_r (h_acquired h)), <- drop_drop, Hd. done. }
      specialize (IH Hd'). destruct (acquire_locks t rest _) as [n objects].
      unfold set_hold, upd_objects in *. simpl in *. rewrite insert_insert_eq in IH.
      by rewrite Nat.add_succ_r.
    + rewrite Nat.add_0_r. apply (inv_enqueue g t h f o gd Ht Hgd Hinv Hw Hf).
Qed.

Lemma sorted_filters_spec fs :
  NoDup (sorted_filters fs) /\
  StronglySorted (fun f f' => tuple_leb f f' = true) (sorted_filters fs) /\
  (forall f, f ∈ sorted_filters fs <-> f ∈ fs).
Proof.
  unfold sorted_filters. split_and!.
  - rewrite sorted_perm. apply NoDup_remove_dups.
  - apply (sorted_Sorted (fun s : str => s)).
  - intros f. rewrite sorted_perm. apply elem_of_remove_dups.
Qed.

Lemma hold_inv t fs g :
  guards_inv None g -> g_holds g !! t = None ->
  guards_inv None (hold t fs g) /\
  exists h, g_holds (hold t fs g) !! t = Some h /\ (h_entries h).*1 = sorted_filters fs.
Proof.
  intros Hinv Ht. destruct (sorted_filters_spec fs) as (Hnd & Hs & _).
  destruct (enter_inv t (sorted_filters fs) [] _ (inv_start g t Hinv Ht)) as [H1 H2];
    [by simpl; rewrite lookup_insert_eq|done|done|].
  rewrite enter_set_hold in H1, H2. cbn [fst snd] in H1, H2. rewrite set_hold_twice in H1.
  unfold hold. destruct (enter (sorted_filters fs) g) as [es g1]. cbn [fst snd] in *.
  pose proof (acquire_inv t es _ (mkHold es 0) H1) as H3. simpl in H3.
  rewrite lookup_insert_eq in H3. specialize (H3 eq_refl eq_refl).
  unfold acquire_from. rewrite drop_0. destruct (acquire_locks t es (g_objects g1)) as [n objects].
  split.
  - unfold set_hold, upd_objects in *. simpl in *. by rewrite insert_insert_eq in H3.
  - exists (mkHold es (0 + n)). simpl. by rewrite lookup_insert_eq.
Qed.

Lemma hold_resume_inv t g : guards_inv None g -> guards_inv None (hold_resume t g).
Proof.
  intros Hinv. unfold hold_resume, runnable. destruct (g_holds g !! t) as [h|] eqn:Ht; [|done].
  simpl. destruct (waits_for h) as [[f o]|] eqn:Hw; [|done]. case_bool_decide as Ho; [|done].
  destruct (g_objects g !! o) as [gd|] eqn:Hgd; [|done]. simpl in Ho.
  pose proof (inv_granted g t h f o gd Ht Hgd Hinv Hw Ho) as H1. unfold moved in H1.
  assert (set_lock (lock gd) gd = gd) as E by by destruct gd. rewrite E, insert_id in H1 by done.
  pose proof (acquire_inv t (drop (S (h_acquired h)) (h_entries h)) _
    (mkHold (h_entries h) (S (h_acquired h))) H1) as H2.
  simpl in H2. rewrite lookup_insert_eq in H2. specialize (H2 eq_refl eq_refl).
  unfold acquire_from. destruct (acquire_locks t _ _) as [n objects].
  unfold set_hold, upd_objects in *. simpl in *. by rewrite insert_insert_eq in H2.
Qed.

(** The two loops of the [finally] block *)
Lemma release_inv t k : forall g h,
  guards_inv (Some t) g -> g_holds g !! t = Some h -> h_acquired h = k ->
  let objects := foldl (fun m e => alter (on_lock lock_release) e.2 m) (g_objects g)
    (reverse (take k (h_entries h))) in
  guards_inv (Some t) (set_hold t (mkHold (h_entries h) 0) (upd_objects (fun _ => objects) g)).
Proof.
  induction k as [|k IH]; intros g h Hinv Ht Hk; cbv zeta.
  { simpl. rewrite upd_objects_id, set_hold_id; [done|]. rewrite Ht. destruct h. by simpl in Hk; subst. }
  pose proof (ho_acquired _ _ (gi_hold _ _ Hinv t h Ht)) as Hlen.
  destruct (lookup_lt_is_Some_2 (h_entries h) k) as [[f o] He]; [lia|].
  rewrite (take_S_r _ _ _ He), reverse_snoc. cbn [foldl snd].
  destruct (gi_object _ _ Hinv f o) as [gd Hgd]; [by eapply entry_guard|].
  pose proof (inv_release g t h f o gd Ht Hgd k Hinv Hk He) as H1.
  specialize (IH _ (mkHold (h_entries h) k) H1). unfold moved in IH. simpl in IH.
  rewrite lookup_insert_eq in IH. specialize (IH eq_refl eq_refl).
  assert (alter (on_lock lock_release) o (g_objects g) =
    <[o := set_lock (lock_release (lock gd)) gd]> (g_objects g)) as ->.
  { apply map_eq. intros o'. rewrite lookup_alter, lookup_insert. case_decide; [|done].
    subst. by rewrite Hgd. }
  unfold set_hold, upd_objects in *. simpl in *. by rewrite insert_insert_eq in IH.
Qed.

Lemma leave_set_hold t h l g :
  foldl leave_one (set_hold t h g) l = set_hold t h (foldl leave_one g l).
Proof. revert g; induction l as [|e l IH]; intros g; [done|]. simpl. by rewrite <- IH. Qed.

Lemma leave_inv t es : forall g,
  guards_inv (Some t) g -> g_holds g !! t = Some (mkHold es 0) ->
  guards_inv (Some t) (set_hold t (mkHold [] 0) (foldl leave_one g es)).
Proof.
  induction es as [|[f o] es IH]; intros g Hinv Ht; cbn [foldl].
  { by rewrite set_hold_id. }
  pose proof (inv_leave g t es f o Hinv Ht) as H1. specialize (IH _ H1).
  simpl in IH. rewrite lookup_insert_eq in IH. specialize (IH eq_refl).
  by rewrite leave_set_hold, set_hold_twice in IH.
Qed.

Lemma foldl_leave_holds l g : g_holds (foldl leave_one g l) = g_holds g.
Proof. revert g; induction l as [|e l IH]; intros g; [done|]. simpl. by rewrite IH. Qed.

Lemma exit_running_inv t h g :
  guards_inv (Some t) g -> g_holds g !! t = Some h -> guards_inv None (hold_exit t g).
Proof.
  intros Hinv Ht. unfold hold_exit. rewrite Ht.
  pose proof (release_inv t (h_acquired h) g h Hinv Ht eq_refl) as H1. cbv zeta in H1.
  set (objects := foldl _ _ _) in *.
  pose proof (leave_inv t (h_entries h) _ H1) as H2.
  simpl in H2. rewrite lookup_insert_eq in H2. specialize (H2 eq_refl).
  rewrite leave_set_hold, set_hold_twice in H2.
  set (g1 := foldl leave_one _ _) in *.
  pose proof (inv_end _ t H2) as H3. simpl in H3. rewrite lookup_insert_eq in H3.
  specialize (H3 eq_refl). by rewrite delete_insert_eq in H3.
Qed.

Lemma hold_exit_inv t h g :
  guards_inv None g -> g_holds g !! t = Some h -> in_body h = true ->
  guards_inv None (hold_exit t g).
Proof.
  intros Hinv Ht Hb%bool_decide_eq_true. apply (exit_running_inv t h); [|done].
  by apply (inv_body g t h).
Qed.

Lemma hold_cancel_inv t g : guards_inv None g -> guards_inv None (hold_cancel t g).
Proof.
  intros Hinv. unfold hold_cancel. destruct (g_holds g !! t) as [h|] eqn:Ht; [|done]. simpl.
  destruct (waits_for h) as [[f o]|] eqn:Hw; [|done].
  destruct (gi_object _ _ Hinv f o) as [gd Hgd]; [by eapply entry_guard|].
  pose proof (inv_give_up g t h f o gd Ht Hgd Hinv Hw) as H1.
  assert (upd_objects (alter (on_lock (lock_cancel t)) o) g = moved g t h o gd (h_acquired h)
    (lock_cancel t (lock gd))) as ->.
  { unfold upd_objects, moved. f_equal.
    - apply map_eq. intros o'. rewrite lookup_alter, lookup_insert. case_decide; [|done].
      subst. by rewrite Hgd.
    - symmetry. apply insert_id. rewrite Ht. by destruct h. }
  eapply exit_running_inv; [exact H1|]. simpl. by rewrite lookup_insert_eq.
Qed.

(** ** The guards as a transition system *)

Inductive guards_step : _SubscriptionGuards -> _SubscriptionGuards -> Prop :=
| gs_hold t fs g : g_holds g !! t = None -> guards_step g (hold t fs g)
| gs_resume t g : guards_step g (hold_resume t g)
| gs_cancel t g : guards_step g (hold_cancel t g)
| gs_exit t h g : g_holds g !! t = Some h -> in_body h = true -> guards_step g (hold_exit t g).

Definition guards_reachable (g : _SubscriptionGuards) : Prop := rtc guards_step new_guards g.

Lemma reachable_guards_inv g : guards_reachable g -> guards_inv None g.
Proof.
  apply (rtc_ind_r (fun g => guards_inv None g) new_guards); [apply new_guards_inv|].
  intros g1 g2 _ Hst Hinv. destruct Hst as [t fs g0 Ht|t g0|t g0|t h g0 Ht Hb].
  - by apply hold_inv.
  - by apply hold_resume_inv.
  - by apply hold_cancel_inv.
  - by eapply hold_exit_inv.
Qed.

(** Only one task has a lock. *)
Lemma has_unique r g f o t t' :
  guards_inv r g -> has (g_holds g) f o t -> has (g_holds g) f o t' -> t = t'.
Proof.
  intros Hinv Ht Ht'. pose proof Ht as (h & k & Hh & He & _).
  pose proof (entry_guard _ _ _ _ _ _ _ Hinv Hh He) as Hf.
  destruct (gi_object _ _ Hinv _ _ Hf) as [gd Hgd].
  pose proof (gi_lock _ _ Hinv _ _ _ Hf Hgd) as Hl.
  assert (owner (lock gd) = Some t) by (apply Hl; by left).
  assert (owner (lock gd) = Some t') by (apply Hl; by left). congruence.
Qed.

(** In its body a task has all its locks. *)
Lemma body_has h t f o holds :
  holds !! t = Some h -> in_body h = true -> (f, o) ∈ h_entries h -> has holds f o t.
Proof.
  intros Ht Hb%bool_decide_eq_true [k Hk]%list_elem_of_lookup. exists h, k. split_and!; [done..|].
  unfold waits_for in Hb. apply lookup_ge_None in Hb. apply lookup_lt_Some in Hk. lia.
Qed.

Lemma uses_entry f h : uses f h <-> exists o, (f, o) ∈ h_entries h.
Proof.
  unfold uses. rewrite list_elem_of_fmap. split.
  - intros ([f' o] & -> & Hin). by exists o.
  - intros (o & Hin). by exists (f, o).
Qed.

(** *** Progress *)

Definition str_lt (a b : str) : Prop := tuple_leb a b = true /\ a <> b.

#[export] Instance str_lt_dec a b : Decision (str_lt a b).
Proof. unfold str_lt. apply _. Defined.

(** The guards above a filter *)
Definition above (f : str) (guards : gmap str nat) : nat :=
  size (filter (fun fo => str_lt f fo.1) guards).

Lemma above_lt f f' o guards :
  str_lt f f' -> guards !! f' = Some o -> (above f' guards < above f guards)%nat.
Proof.
  intros [Hle Hne] Hf'. unfold above. apply map_subset_size. split.
  - apply map_filter_subseteq_ext. intros f1 o1 _ [H1 H2]. split; simpl in *.
    + by eapply tuple_leb_trans.
    + intros ->. apply H2. by apply tuple_leb_antisym.
  - intros Hsub. assert (Hin : filter (fun fo : str * nat => str_lt f fo.1) guards !! f' = Some o)
      by by apply map_lookup_filter_Some.
    pose proof (lookup_weaken _ _ _ _ Hin Hsub) as [_ [_ H]]%map_lookup_filter_Some. done.
Qed.

(** The entries after a place are above it. *)
Lemma entries_increase guards h i j f f' o o' :
  hold_ok guards h -> (i < j)%nat -> h_entries h !! i = Some (f, o) ->
  h_entries h !! j = Some (f', o') -> str_lt f f'.
Proof.
  intros Hh Hij Hi Hj. split.
  - pose proof (ho_sorted _ _ Hh) as Hs. rewrite <- (take_drop j (h_entries h)), fmap_app in Hs.
    apply StronglySorted_app in Hs as [Hs _]. apply Hs; apply list_elem_of_fmap.
    + exists (f, o). split; [done|]. apply (list_elem_of_lookup_2 _ i). by rewrite lookup_take_lt.
    + exists (f', o'). split; [done|]. apply (list_elem_of_lookup_2 _ 0). by rewrite lookup_drop, Nat.add_0_r.
  - intros <-. pose proof (entry_unique _ _ _ _ _ _ _ Hh Hi Hj). lia.
Qed.

(** Who has the lock that a task waits for can run, or waits for a greater filter. *)
Lemma waits_behind g t h f o :
  guards_inv None g -> g_holds g !! t = Some h -> waits_for h = Some (f, o) ->
  exists t1 h1, g_holds g !! t1 = Some h1 /\
    (in_body h1 = true \/ runnable t1 g = true \/
     exists f1 o1, waits_for h1 = Some (f1, o1) /\ str_lt f f1).
Proof.
  intros Hinv Ht Hw. pose proof (entry_guard _ _ _ _ _ _ _ Hinv Ht Hw) as Hf.
  destruct (gi_object _ _ Hinv _ _ Hf) as [gd Hgd].
  pose proof (gi_lock _ _ Hinv _ _ _ Hf Hgd) as Hl.
  assert (Haw : awaits None (g_holds g) f o t) by (split; [done|by exists h]).
  destruct (owner (lock gd)) as [t1|] eqn:Ho.
  2: { assert (owner (lock gd) = Some t); [|congruence]. apply Hl. right. split; [done|].
       rewrite (li_busy _ _ _ Hl Ho). apply not_elem_of_nil. }
  assert (Hl1 := Ho). apply Hl in Hl1 as [(h1 & k & Hh1 & He & Hlt)|[(_ & h1 & Hh1 & Hw1) _]].
  - exists t1, h1. split; [done|]. destruct (waits_for h1) as [[f1 o1]|] eqn:Hw1.
    + right. right. exists f1, o1. split; [done|].
      exact (entries_increase _ _ _ _ _ _ _ _ (gi_hold _ _ Hinv _ _ Hh1) Hlt He Hw1).
    + left. by apply bool_decide_eq_true.
  - exists t1, h1. split; [done|]. right. left. unfold runnable. rewrite Hh1. simpl.
    rewrite Hw1, Hgd. simpl. by apply bool_decide_eq_true.
Qed.

Lemma progress_from n g t h f o :
  guards_inv None g -> (above f (_guards g) <= n)%nat ->
  g_holds g !! t = Some h -> waits_for h = Some (f, o) ->
  exists t' h', g_holds g !! t' = Some h' /\ (in_body h' = true \/ runnable t' g = true).
Proof.
  intros Hinv. revert t h f o. induction n as [|n IH]; intros t h f o Hn Ht Hw;
    destruct (waits_behind g t h f o Hinv Ht Hw) as (t1 & h1 & Hh1 & [Hb|[Hr|(f1 & o1 & Hw1 & Hlt)]]);
    eauto; pose proof (above_lt _ _ _ _ Hlt (entry_guard _ _ _ _ _ _ _ Hinv Hh1 Hw1)); [lia|].
  apply (IH t1 h1 f1 o1); [lia|done|done].
Qed.

(** Two tasks in their bodies have no filter in common. *)
Lemma body_unique r g t t' h h' f :
  guards_inv r g -> g_holds g !! t = Some h -> g_holds g !! t' = Some h' ->
  in_body h = true -> in_body h' = true -> uses f h -> uses f h' -> t = t'.
Proof.
  intros Hinv Ht Ht' Hb Hb' [o Hin]%uses_entry [o' Hin']%uses_entry.
  pose proof (ho_guards _ _ (gi_hold _ _ Hinv t h Ht) _ _ Hin) as Ho.
  pose proof (ho_guards _ _ (gi_hold _ _ Hinv t' h' Ht') _ _ Hin') as Ho'.
  assert (o' = o) as -> by congruence.
  eapply (has_unique _ _ f o); [done|by eapply body_has|by eapply body_has].
Qed.

(** C26: the guards exclude and are collected.  Two tasks in the body of [hold] have no
    filter in common; every task that uses a filter uses its current guard; and a guard
    is in the dictionary exactly as long as a task uses it. *)
Theorem guards_exclusive g :
  guards_reachable g ->
  (forall t t' h h' f, g_holds g !! t = Some h -> g_holds g !! t' = Some h' ->
     in_body h = true -> in_body h' = true -> uses f h -> uses f h' -> t = t') /\
  (forall t h f o, g_holds g !! t = Some h -> (f, o) ∈ h_entries h -> _guards g !! f = Some o) /\
  (forall f, is_Some (_guards g !! f) <-> exists t h, g_holds g !! t = Some h /\ uses f h) /\
  (g_holds g = ∅ -> _guards g = ∅).
Proof.
  intros Hinv%reachable_guards_inv.
  assert (Hg : forall t h f o, g_holds g !! t = Some h -> (f, o) ∈ h_entries h ->
    _guards g !! f = Some o).
  { intros t h f o Ht Hin. by apply (ho_guards _ _ (gi_hold _ _ Hinv t h Ht)). }
  assert (Hu : forall f, is_Some (_guards g !! f) <-> exists t h, g_holds g !! t = Some h /\ uses f h).
  { intros f. split.
    - intros [o Hf]. destruct (gi_object _ _ Hinv _ _ Hf) as [gd Hgd].
      destruct (gi_users _ _ Hinv _ _ _ Hf Hgd) as [Hus Hpos].
      destruct (map_choose (filter (fun th => uses f th.2) (g_holds g))) as (t & h & Hh).
      { intros He. unfold users_of in Hus. rewrite He in Hus.
        rewrite (map_size_empty (M := gmap nat)) in Hus. lia. }
      apply map_lookup_filter_Some in Hh as [Hh Huse]. by exists t, h.
    - intros (t & h & Ht & [o Hin]%uses_entry). exists o. by eapply Hg. }
  split_and!; [|done|done|].
  - intros t t' h h' f Ht Ht' Hb Hb'. by apply (body_unique None g t t' h h' f).
  - intros He. apply map_empty. intros f. destruct (_guards g !! f) as [o|] eqn:Hf; [exfalso|done].
    destruct (proj1 (Hu f)) as (t & h & Ht & _); [by eexists|]. by rewrite He in Ht.
Qed.

(** C27: the guards never deadlock.  Whatever filters the tasks ask for, as long as one
    of them is inside [hold] some task is in the body or was handed the lock it waits
    for: the locks are taken in the order of the filters. *)
Theorem guards_deadlock_free g t h :
  guards_reachable g -> g_holds g !! t = Some h ->
  exists t' h', g_holds g !! t' = Some h' /\ (in_body h' = true \/ runnable t' g = true).
Proof.
  intros Hinv%reachable_guards_inv Ht. destruct (waits_for h) as [[f o]|] eqn:Hw.
  - by apply (progress_from (above f (_guards g)) g t h f o).
  - exists t, h. split; [done|]. left. by apply bool_decide_eq_true.
Qed.

(** ** Concrete guards *)

(** Task 1 has the lock of "a"; task 2 wants "a" and "b" and waits; task 3 has "b". *)
Definition sample_guards : _SubscriptionGuards :=
  hold 2 [lit "b"; lit "a"; lit "b"] (hold 3 [lit "b"] (hold 1 [lit "a"] new_guards)).

Lemma sample_reachable : guards_reachable sample_guards.
Proof.
  eapply rtc_l; [apply (gs_hold 1 [lit "a"]); reflexivity|].
  eapply rtc_l; [apply (gs_hold 3 [lit "b"]); reflexivity|].
  apply rtc_once, (gs_hold 2 [lit "b"; lit "a"; lit "b"]). reflexivity.
Qed.

Lemma guards_exclusive_witness :
  is_Some (_guards sample_guards !! lit "b") /\ size (_guards sample_guards) = 2%nat /\
  (exists t h, g_holds sample_guards !! t = Some h /\ uses (lit "b") h).
Proof.
  split; [vm_compute; eexists; reflexivity|]. split; [vm_compute; reflexivity|].
  apply (guards_exclusive sample_guards sample_reachable). vm_compute. eexists. reflexivity.
Defined.

Lemma guards_deadlock_free_witness :
  exists t' h', g_holds sample_guards !! t' = Some h' /\
    (in_body h' = true \/ runnable t' sample_guards = true).
Proof.
  destruct (g_holds sample_guards !! 2%nat) as [h|] eqn:Hh; [|vm_compute in Hh; discriminate Hh].
  exact (guards_deadlock_free sample_guards 2 h sample_reachable Hh).
Defined.
