(* ===== verification/Requests.v ===== *)
(** * Request/response correlation ([request_response.py])

    The dispatcher of pending requests: a bounded table of waiters keyed by response
    topic and correlation data, the interests that keep a response topic subscribed,
    and the claims by which the inbound flow reserves a response.  It implements the
    router interface of [Routing].

    Waiters, interests, claims and tasks are objects with an identity: they live in
    stores and are named by numbers.  [register] and [unregister] suspend while they
    wait for a task, and are split there; [d_closing] holds the suspended runs of
    [unregister]. *)

From S2P Require Import Prelude PyBytes Utf8 PropertyRecords Packets State Routing.
Local Open Scope Z_scope.

(** [_RequestKey]: response topic and correlation data *)
Definition request_key : Type := str * bytes.

#[export] Instance byte_countable : Countable byte.
Proof.
  apply (inj_countable' (fun b => Z.to_N (b2z b)) (fun n => byte_of (Z.of_N n))).
  intros b. rewrite Z2N.id by apply b2z_range. apply byte_of_b2z.
Defined.

(** The future of a waiter *)
Inductive response_state :=
| Waiting
| Response (m : nat)
| ResponseFailed (e : exn)
| ResponseCancelled.

Definition response_done (s : response_state) : bool :=
  match s with Waiting => false | _ => true end.

Record _PendingRequest := mkPending {
  pr_future : response_state;
  pr_key : request_key;
  pr_closed : bool;
  claimed : bool;
}.

(** [ready] is the task of [add_response_observer]. *)
Record _TopicInterest := mkInterest { refcount : Z; ready : option nat }.

Record _ClaimedResponse := mkClaim {
  cl_pending : nat;
  cl_key : request_key;
  cl_message : nat;
  cl_content : Message;
  cl_generation : Z;
}.

(** Where a suspended [unregister] waits: for the task that subscribes the topic, or
    for [remove_response_observer]. *)
Inductive closing_phase := WaitsReady (task : nat) | WaitsRemoval.

Record closing := mkClosing { cg_topic : str; cg_interest : nat; cg_phase : closing_phase }.

(** Calls of the protocol engine, in order *)
Inductive observer_call :=
| AddObserver (protocol : nat) (topic : str) (task : nat)
| RemoveObserver (protocol : nat) (topic : str).

Record _RequestDispatcher := mkDispatcher {
  _capacity : Z;
  _pending : gmap request_key nat;
  _topics : gmap str nat;
  _protocol : option nat;
  _generation : Z;
  d_requests : gmap nat _PendingRequest;
  d_interests : gmap nat _TopicInterest;
  d_claims : gmap nat _ClaimedResponse;
  d_closing : gmap nat closing;
  d_next_task : nat;
  d_calls : list observer_call;
}.

Notation D := (ST _RequestDispatcher).

(** [__init__] *)
Definition new_dispatcher (max_pending_requests : Z) : result _RequestDispatcher :=
  if max_pending_requests <=? 0 then Err (ValueError "max_pending_requests must be positive")
  else Ok (mkDispatcher max_pending_requests ∅ ∅ None 0 ∅ ∅ ∅ ∅ 0 []).

(** ** Updates *)

Definition set_capacity (c : Z) (d : _RequestDispatcher) : _RequestDispatcher :=
  mkDispatcher c (_pending d) (_topics d) (_protocol d) (_generation d) (d_requests d)
    (d_interests d) (d_claims d) (d_closing d) (d_next_task d) (d_calls d).

Definition set_pending (p : gmap request_key nat) (d : _RequestDispatcher) : _RequestDispatcher :=
  mkDispatcher (_capacity d) p (_topics d) (_protocol d) (_generation d) (d_requests d)
    (d_interests d) (d_claims d) (d_closing d) (d_next_task d) (d_calls d).

Definition set_topics (t : gmap str nat) (d : _RequestDispatcher) : _RequestDispatcher :=
  mkDispatcher (_capacity d) (_pending d) t (_protocol d) (_generation d) (d_requests d)
    (d_interests d) (d_claims d) (d_closing d) (d_next_task d) (d_calls d).

Definition set_requests (r : gmap nat _PendingRequest) (d : _RequestDispatcher)
    : _RequestDispatcher :=
  mkDispatcher (_capacity d) (_pending d) (_topics d) (_protocol d) (_generation d) r
    (d_interests d) (d_claims d) (d_closing d) (d_next_task d) (d_calls d).

Definition set_interests (i : gmap nat _TopicInterest) (d : _RequestDispatcher)
    : _RequestDispatcher :=
  mkDispatcher (_capacity d) (_pending d) (_topics d) (_protocol d) (_generation d) (d_requests d)
    i (d_claims d) (d_closing d) (d_next_task d) (d_calls d).

Definition set_claims (c : gmap nat _ClaimedResponse) (d : _RequestDispatcher)
    : _RequestDispatcher :=
  mkDispatcher (_capacity d) (_pending d) (_topics d) (_protocol d) (_generation d) (d_requests d)
    (d_interests d) c (d_closing d) (d_next_task d) (d_calls d).

Definition set_closing (c : gmap nat closing) (d : _RequestDispatcher) : _RequestDispatcher :=
  mkDispatcher (_capacity d) (_pending d) (_topics d) (_protocol d) (_generation d) (d_requests d)
    (d_interests d) (d_claims d) c (d_next_task d) (d_calls d).

Definition set_connection (p : option nat) (generation : Z) (d : _RequestDispatcher)
    : _RequestDispatcher :=
  mkDispatcher (_capacity d) (_pending d) (_topics d) p generation (d_requests d)
    (d_interests d) (d_claims d) (d_closing d) (d_next_task d) (d_calls d).

Definition add_call (c : observer_call) (d : _RequestDispatcher) : _RequestDispatcher :=
  mkDispatcher (_capacity d) (_pending d) (_topics d) (_protocol d) (_generation d) (d_requests d)
    (d_interests d) (d_claims d) (d_closing d) (d_next_task d) (d_calls d ++ [c]).

Definition next_task (d : _RequestDispatcher) : _RequestDispatcher :=
  mkDispatcher (_capacity d) (_pending d) (_topics d) (_protocol d) (_generation d) (d_requests d)
    (d_interests d) (d_claims d) (d_closing d) (S (d_next_task d)) (d_calls d).

(** [self._capacity.release()] *)
Definition release_capacity (d : _RequestDispatcher) : _RequestDispatcher :=
  set_capacity (_capacity d + 1) d.

Definition set_future (s : response_state) (r : _PendingRequest) : _PendingRequest :=
  mkPending s (pr_key r) (pr_closed r) (claimed r).

Definition set_claimed (b : bool) (r : _PendingRequest) : _PendingRequest :=
  mkPending (pr_future r) (pr_key r) (pr_closed r) b.

Definition set_closed (r : _PendingRequest) : _PendingRequest :=
  mkPending (pr_future r) (pr_key r) true (claimed r).

Definition upd_refcount (n : Z) (i : _TopicInterest) : _TopicInterest :=
  mkInterest (refcount i + n) (ready i).

(** ** Connections *)

(** The waiters of the table become claimable again, the interests are not ready. *)
Definition bind (protocol : nat) (d : _RequestDispatcher) : _RequestDispatcher :=
  let requests := map_imap (fun p r =>
    Some (if decide (_pending d !! pr_key r = Some p) then set_claimed false r else r))
    (d_requests d) in
  let interests := map_imap (fun i it =>
    Some (if decide (Exists (fun ti => ti.2 = i) (map_to_list (_topics d)))
          then mkInterest (refcount it) None else it)) (d_interests d) in
  set_connection (Some protocol) (_generation d + 1)
    (set_requests requests (set_interests interests d)).

Definition _require_protocol : D nat :=
  p ← gets _protocol;
  match p with Some p => mret p | None => raise (MQTTDisconnectedError "Not connected") end.

(** The task that an interest waits for, created when there is none *)
Definition _ensure_topic_ready (topic : str) (interest : nat) : D nat :=
  i ← gets (fun d => d_interests d !! interest);
  match i ≫= ready with
  | Some task => mret task
  | None =>
      protocol ← _require_protocol;
      task ← gets d_next_task;
      _ ← modify next_task;
      _ ← modify (add_call (AddObserver protocol topic task));
      _ ← modify (fun d => set_interests
            (alter (fun it => mkInterest (refcount it) (Some task)) interest (d_interests d)) d);
      mret task
  end.

(** [restore] goes through the interests it found, one after the other. *)
Definition restore_topics (d : _RequestDispatcher) : list (str * nat) := map_to_list (_topics d).

Definition restore_topic (topic : str) (interest : nat) : D (option nat) :=
  i ← gets (fun d => d_interests d !! interest);
  if 0 <? default 0 (refcount <$> i) then task ← _ensure_topic_ready topic interest; mret (Some task)
  else mret None.

(** ** Claims *)

Definition claim_response (m : nat) (msg : Message) (d : _RequestDispatcher)
    : option nat * _RequestDispatcher :=
  match msg_properties msg ≫= pbp_correlation_data with
  | None => (None, d)
  | Some data =>
      let key := (msg_topic msg, data) in
      match _pending d !! key with
      | None => (None, d)
      | Some p =>
          match d_requests d !! p with
          | None => (None, d)
          | Some r =>
              if claimed r || response_done (pr_future r) then (None, d)
              else
                let c := fresh (dom (d_claims d)) in
                (Some c,
                 set_claims (<[c := mkClaim p key m msg (_generation d)]> (d_claims d))
                   (set_requests (<[p := set_claimed true r]> (d_requests d)) d))
          end
      end
  end.

Definition complete (c : nat) (d : _RequestDispatcher) : _RequestDispatcher :=
  match d_claims d !! c with
  | None => d
  | Some response =>
      match d_requests d !! cl_pending response with
      | None => d
      | Some r =>
          if bool_decide (_generation d = cl_generation response)
             && bool_decide (_pending d !! cl_key response = Some (cl_pending response))
             && negb (response_done (pr_future r))
          then set_requests (<[cl_pending response := set_future (Response (cl_message response)) r]>
                 (d_requests d)) d
          else d
      end
  end.

#[export] Instance dispatcher_router : RequestRouter _RequestDispatcher := {
  claim := claim_response;
  deliver := complete;
}.

(** ** Registration *)

(** [unregister] up to its first suspension; the result tells whether it has
    finished. *)
Definition unregister (key : request_key) (p : nat) : D bool :=
  d ← gets (fun d => d);
  if negb (bool_decide (_pending d !! key = Some p)) then mret true
  else
    _ ← modify (set_pending (delete key (_pending d)));
    _ ← modify (fun d => set_requests (alter (fun r =>
          if response_done (pr_future r) then r else set_future ResponseCancelled r) p
          (d_requests d)) d);
    match _topics d !! key.1 with
    | None => _ ← modify release_capacity; raise KeyError
    | Some interest =>
        _ ← modify (fun d => set_interests (alter (upd_refcount (-1)) interest (d_interests d)) d);
        i ← gets (fun d => d_interests d !! interest);
        if 0 <? default 0 (refcount <$> i) then _ ← modify release_capacity; mret true
        else
          match i ≫= ready with
          | Some task =>
              _ ← modify (fun d => set_closing
                    (<[p := mkClosing key.1 interest (WaitsReady task)]> (d_closing d)) d);
              mret false
          | None =>
              _ ← (if bool_decide (refcount <$> i = Some 0)
                   then modify (set_topics (delete key.1 (_topics d))) else mret tt);
              _ ← modify release_capacity;
              mret true
          end
    end.

(** The task ended: its outcome, an error too when the wait was cancelled.  The last
    waiter removes the interest, and the subscription if there is one. *)
Definition unregister_resume (p : nat) (outcome : result unit) : D bool :=
  d ← gets (fun d => d);
  match d_closing d !! p with
  | Some (mkClosing topic interest (WaitsReady task)) =>
      let done : D bool :=
        _ ← modify (fun d => release_capacity (set_closing (delete p (d_closing d)) d));
        _ ← lift outcome;
        mret true in
      if bool_decide (refcount <$> d_interests d !! interest = Some 0)
         && bool_decide (_topics d !! topic = Some interest)
      then
        _ ← modify (set_topics (delete topic (_topics d)));
        match outcome, _protocol d with
        | Ok _, Some protocol =>
            _ ← modify (add_call (RemoveObserver protocol topic));
            _ ← modify (fun d => set_closing (<[p := mkClosing topic interest WaitsRemoval]>
                  (d_closing d)) d);
            mret false
        | _, _ => done
        end
      else done
  | _ => mret true
  end.

(** [remove_response_observer] returned or raised. *)
Definition unregister_finish (p : nat) (outcome : result unit) : D unit :=
  d ← gets (fun d => d);
  match d_closing d !! p with
  | Some (mkClosing _ _ WaitsRemoval) =>
      _ ← modify (fun d => release_capacity (set_closing (delete p (d_closing d)) d));
      lift outcome
  | _ => mret tt
  end.

(** What a suspended run waits for ended; the result tells whether it has finished. *)
Definition unregister_wake (p : nat) (outcome : result unit) : D bool :=
  d ← gets (fun d => d);
  match d_closing d !! p with
  | Some (mkClosing _ _ WaitsRemoval) => _ ← unregister_finish p outcome; mret true
  | _ => unregister_resume p outcome
  end.

(** [register] up to [await self._ensure_topic_ready(...)]: the waiter and the task
    it waits for; [None] when it has to wait for capacity first.  Nothing can raise
    once the waiter is in the table, so an exception gives the permit back. *)
Definition register (topic : str) (correlation_data : bytes) : D (option (nat * nat)) :=
  c ← gets _capacity;
  if c <=? 0 then mret None
  else
    _ ← modify (set_capacity (c - 1));
    let key := (topic, correlation_data) in
    finally_on_error
      (d ← gets (fun d => d);
       if bool_decide (is_Some (_pending d !! key))
       then raise (ValueError "correlation_data is already in use for this response_topic")
       else
         _ ← _require_protocol;
         let interest := default (fresh (dom (d_interests d))) (_topics d !! topic) in
         _ ← (match _topics d !! topic with
              | Some _ => mret tt
              | None => modify (fun d => set_topics (<[topic := interest]> (_topics d))
                          (set_interests (<[interest := mkInterest 0 None]> (d_interests d)) d))
              end);
         let p := fresh (dom (d_requests d)) in
         _ ← modify (fun d => set_requests
               (<[p := mkPending Waiting key false false]> (d_requests d)) d);
         _ ← modify (fun d => set_pending (<[key := p]> (_pending d)) d);
         _ ← modify (fun d => set_interests (alter (upd_refcount 1) interest (d_interests d)) d);
         task ← _ensure_topic_ready topic interest;
         mret (Some (p, task)))
      release_capacity.

(** The rest of [register]: the waiter, or the exception after its removal; none when
    the removal is suspended and the exception follows it *)
Definition register_end (key : request_key) (p : nat) (outcome : result unit) : D (option nat) :=
  match outcome with
  | Ok _ => mret (Some p)
  | Err x => finished ← unregister key p; if finished : bool then raise x else mret None
  end.

(** [_PendingRequest.close] *)
Definition close (p : nat) : D bool :=
  r ← gets (fun d => d_requests d !! p);
  match r with
  | None => mret true
  | Some r =>
      if pr_closed r then mret true
      else
        _ ← modify (fun d => set_requests (alter set_closed p (d_requests d)) d);
        unregister (pr_key r) p
  end.

(** Every waiter of the table fails and gives its permit back. *)
Definition cancel_pending (d : _RequestDispatcher) : _RequestDispatcher :=
  let failed := map_imap (fun p r =>
    Some (if decide (_pending d !! pr_key r = Some p) then
            if response_done (pr_future r) then r
            else set_future (ResponseFailed (MQTTDisconnectedError "Client disconnected")) r
          else r)) (d_requests d) in
  set_capacity (_capacity d + Z.of_nat (size (_pending d)))
    (set_requests failed
      (set_connection None (_generation d + 1)
        (set_topics ∅ (set_pending ∅ d)))).

(** The application gives up waiting. *)
Definition cancel_future (p : nat) (d : _RequestDispatcher) : _RequestDispatcher :=
  set_requests (alter (fun r =>
    if response_done (pr_future r) then r else set_future ResponseCancelled r) p (d_requests d)) d.
