(* ===== verification/RequestsFacts.v ===== *)
(** * Correctness of request/response correlation

    The dispatcher as a transition system: permits are conserved, reference counts
    count the waiters, and a response only reaches the request it answers. *)

From S2P Require Import Prelude PyBytes Utf8 PropertyRecords Packets State Routing Requests.
Local Open Scope Z_scope.
Implicit Types (key : request_key) (d : _RequestDispatcher).

(** ** Waiters of a topic *)

Definition waiters (t : str) (p : gmap request_key nat) : nat :=
  size (filter (fun kp => kp.1.1 = t) p).

Lemma waiters_insert t key p pending :
  pending !! key = None ->
  waiters t (<[key := p]> pending) =
    (waiters t pending + if decide (key.1 = t) then 1 else 0)%nat.
Proof.
  intros Hk. unfold waiters. destruct (decide (key.1 = t)) as [He|He].
  - rewrite map_filter_insert_True by done. rewrite map_size_insert_None; [lia|].
    rewrite map_lookup_filter_None. by left.
  - rewrite map_filter_insert_not' by (done || (intros ?; congruence)). lia.
Qed.

Lemma waiters_delete t key p pending :
  pending !! key = Some p ->
  waiters t pending = (waiters t (delete key pending) + if decide (key.1 = t) then 1 else 0)%nat.
Proof.
  intros Hk. rewrite <- (insert_delete_id pending key p) at 1 by done.
  apply waiters_insert, lookup_delete_eq.
Qed.

Lemma waiters_pos t key p pending :
  pending !! key = Some p -> key.1 = t -> (0 < waiters t pending)%nat.
Proof. intros Hk Ht. rewrite (waiters_delete t key p) by done. rewrite decide_True by done. lia. Qed.

Lemma waiters_none t pending :
  (forall key p, pending !! key = Some p -> key.1 <> t) -> waiters t pending = 0%nat.
Proof.
  intros Hn. unfold waiters. apply map_size_empty_iff, map_empty. intros key. apply map_lookup_filter_None.
  right. intros p Hk Ht. by apply (Hn key p Hk).
Qed.

Lemma one_less z n : z = Z.of_nat (n + 1) -> z + -1 = Z.of_nat n.
Proof. lia. Qed.

Lemma one_more z n : z = Z.of_nat n -> z + 1 = Z.of_nat (n + 1).
Proof. lia. Qed.

(** ** The invariant *)

(** [max] permits are in the semaphore, with a waiter of the table or with a
    suspended [unregister]; an interest counts the waiters of its topic; a claim
    answers the request it names; a response was claimed. *)
Record dispatcher_ok (max : Z) (d : _RequestDispatcher) : Prop := {
  do_capacity : 0 <= _capacity d;
  do_permits :
    _capacity d + Z.of_nat (size (_pending d)) + Z.of_nat (size (d_closing d)) = max;
  do_key : forall key p, _pending d !! key = Some p ->
    pr_key <$> d_requests d !! p = Some key /\ d_closing d !! p = None;
  do_refcount : forall t i, _topics d !! t = Some i ->
    refcount <$> d_interests d !! i = Some (Z.of_nat (waiters t (_pending d)));
  do_topic : forall key p, _pending d !! key = Some p -> is_Some (_topics d !! key.1);
  do_topic_inj : forall t t' i, _topics d !! t = Some i -> _topics d !! t' = Some i -> t = t';
  do_closing : forall p cg, d_closing d !! p = Some cg -> is_Some (d_requests d !! p);
  do_claim : forall c cl, d_claims d !! c = Some cl ->
    pr_key <$> d_requests d !! cl_pending cl = Some (cl_key cl) /\
    (cl_key cl).1 = msg_topic (cl_content cl) /\
    msg_properties (cl_content cl) ≫= pbp_correlation_data = Some (cl_key cl).2;
  do_response : forall p r m, d_requests d !! p = Some r -> pr_future r = Response m ->
    exists c cl, d_claims d !! c = Some cl /\ cl_pending cl = p /\ cl_message cl = m;
}.

Lemma new_dispatcher_ok max d : new_dispatcher max = Ok d -> 0 < max /\ dispatcher_ok max d.
Proof.
  unfold new_dispatcher. destruct (Z.leb_spec max 0); [done|]. intros [= <-]. split; [lia|].
  split; simpl; try done; try lia. rewrite (map_size_empty (M:=gmap request_key)), (map_size_empty (M:=gmap nat)); lia.
Qed.

Section tables.
Context (max : Z) (d : _RequestDispatcher) (Hok : dispatcher_ok max d).

(** Changes that the tables do not see *)
Lemma ok_same d' :
  _capacity d' = _capacity d -> _pending d' = _pending d -> _topics d' = _topics d ->
  d_closing d' = d_closing d -> d_claims d' = d_claims d ->
  (forall i, refcount <$> d_interests d' !! i = refcount <$> d_interests d !! i) ->
  (forall p, pr_key <$> d_requests d' !! p = pr_key <$> d_requests d !! p) ->
  (forall p r m, d_requests d' !! p = Some r -> pr_future r = Response m ->
     exists r', d_requests d !! p = Some r' /\ pr_future r' = Response m) ->
  dispatcher_ok max d'.
Proof.
  destruct Hok as [P1 P2 P3 P4 P5 P6 P7 P8 P9]. intros E1 E2 E3 E4 E5 E6 E7 E8.
  split; rewrite ?E1, ?E2, ?E3, ?E4, ?E5; try done.
  - intros key p Hk. rewrite E7. by apply P3.
  - intros t i Ht. rewrite E6. by apply P4.
  - intros p cg Hc. destruct (P7 p cg Hc) as [r Hr]. specialize (E7 p). rewrite Hr in E7.
    destruct (d_requests d' !! p); [by eexists|done].
  - intros c cl Hc. rewrite E7. by apply (P8 c cl).
  - intros p r m Hr Hf. destruct (E8 p r m Hr Hf) as (r' & Hr' & Hf'). by eapply P9.
Qed.

Lemma ok_capacity c :
  0 <= c -> dispatcher_ok (max - (_capacity d - c)) (set_capacity c d).
Proof. destruct Hok as [P1 P2 P3 P4 P5 P6 P7 P8 P9]. split; simpl; try done. lia. Qed.

Lemma ok_open_closing p cg :
  d_closing d !! p = None -> is_Some (d_requests d !! p) ->
  (forall key, _pending d !! key <> Some p) ->
  dispatcher_ok (max + 1) (set_closing (<[p := cg]> (d_closing d)) d).
Proof.
  intros Hc Hr Hp. destruct Hok as [P1 P2 P3 P4 P5 P6 P7 P8 P9]. split; simpl; try done.
  - rewrite map_size_insert_None by done. lia.
  - intros key p' Hk. destruct (P3 key p' Hk) as [H1 H2]. split; [done|].
    rewrite lookup_insert_ne; [done|]. intros <-. by apply (Hp key).
  - intros p' cg'. rewrite lookup_insert. case_decide; [by subst|apply P7].
Qed.

Lemma ok_end_closing p cg :
  d_closing d !! p = Some cg -> dispatcher_ok (max - 1) (set_closing (delete p (d_closing d)) d).
Proof.
  intros Hc. destruct Hok as [P1 P2 P3 P4 P5 P6 P7 P8 P9]. split; simpl; try done.
  - rewrite map_size_delete_Some by (by eexists).
    assert (size (d_closing d) <> 0)%nat by (intros H0%map_size_empty_inv; by rewrite H0 in Hc). lia.
  - intros key p' Hk. destruct (P3 key p' Hk) as [H1 H2]. split; [done|].
    rewrite lookup_delete. by case_decide.
  - intros p' cg' [_ Hp]%lookup_delete_Some. by eapply P7.
Qed.

Lemma ok_replace_closing p cg cg' :
  d_closing d !! p = Some cg -> dispatcher_ok max (set_closing (<[p := cg']> (d_closing d)) d).
Proof.
  intros Hc. destruct Hok as [P1 P2 P3 P4 P5 P6 P7 P8 P9]. split; simpl; try done.
  - rewrite map_size_insert_Some by (by eexists). done.
  - intros key p' Hk. destruct (P3 key p' Hk) as [H1 H2]. split; [done|].
    rewrite lookup_insert_ne; [done|]. intros <-. by rewrite Hc in H2.
  - intros p' cg''. rewrite lookup_insert. case_decide; [subst; intros _; by eapply P7|apply P7].
Qed.

Lemma ok_drop_topic t :
  waiters t (_pending d) = 0%nat -> dispatcher_ok max (set_topics (delete t (_topics d)) d).
Proof.
  intros Hw. destruct Hok as [P1 P2 P3 P4 P5 P6 P7 P8 P9]. split; simpl; try done.
  - intros t' i [_ Ht]%lookup_delete_Some. by apply P4.
  - intros key p Hk. rewrite lookup_delete_ne; [by eapply P5|]. intros ->.
    pose proof (waiters_pos key.1 key p _ Hk eq_refl). lia.
  - intros t1 t2 i [_ H1]%lookup_delete_Some [_ H2]%lookup_delete_Some. by eapply P6.
Qed.

(** A waiter leaves the table. *)
Definition without_waiter (key : request_key) (p interest : nat) : _RequestDispatcher :=
  set_interests (alter (upd_refcount (-1)) interest (d_interests d))
    (set_requests (alter (fun r =>
        if response_done (pr_future r) then r else set_future ResponseCancelled r) p
        (d_requests d))
      (set_pending (delete key (_pending d)) d)).

Lemma ok_without_waiter key p interest :
  _pending d !! key = Some p -> _topics d !! key.1 = Some interest ->
  dispatcher_ok (max - 1) (without_waiter key p interest).
Proof.
  intros Hk Ht. destruct Hok as [P1 P2 P3 P4 P5 P6 P7 P8 P9].
  assert (Hreq : forall p', pr_key <$> alter (fun r =>
      if response_done (pr_future r) then r else set_future ResponseCancelled r) p (d_requests d) !! p'
      = pr_key <$> d_requests d !! p').
  { intros p'. rewrite lookup_alter. case_decide; [subst|done].
    destruct (d_requests d !! p') as [r|]; [|done]. simpl. by destruct (response_done _). }
  split; simpl; try done.
  - rewrite map_size_delete_Some by (by eexists).
    assert (size (_pending d) <> 0)%nat by (intros H0%map_size_empty_inv; by rewrite H0 in Hk). lia.
  - intros key' p' [_ Hk']%lookup_delete_Some. rewrite Hreq. by apply P3.
  - intros t i Hti. specialize (P4 t i Hti). rewrite (waiters_delete t key p) in P4 by done.
    rewrite lookup_alter. destruct (decide (interest = i)) as [<-|Hne].
    + assert (key.1 = t) as Hkt by (by eapply P6). rewrite decide_True in P4 by done.
      destruct (d_interests d !! interest) as [it|]; [|done]. simpl in *. f_equal.
      injection P4 as HH. by apply one_less.
    + rewrite decide_False in P4; [by rewrite Nat.add_0_r in P4|]. intros <-. congruence.
  - intros key' p' [_ Hk']%lookup_delete_Some. by eapply P5.
  - intros p' cg Hc. destruct (P7 p' cg Hc) as [r Hr]. specialize (Hreq p'). rewrite Hr in Hreq.
    by destruct (alter _ p (d_requests d) !! p').
  - intros c cl Hc. rewrite Hreq. by apply (P8 c cl).
  - intros p' r m. rewrite lookup_alter. case_decide; [subst|apply P9].
    destruct (d_requests d !! p') as [r0|] eqn:Hr0; [|done]. simpl. intros [= <-].
    destruct (response_done _); [by apply P9|done].
Qed.

(** A waiter enters the table. *)
Definition with_waiter (key : request_key) (p interest : nat) : _RequestDispatcher :=
  set_interests (alter (upd_refcount 1) interest (d_interests d))
    (set_pending (<[key := p]> (_pending d))
      (set_requests (<[p := mkPending Waiting key false false]> (d_requests d)) d)).

Lemma ok_with_waiter key p interest :
  _pending d !! key = None -> d_requests d !! p = None -> _topics d !! key.1 = Some interest ->
  dispatcher_ok (max + 1) (with_waiter key p interest).
Proof.
  intros Hk Hp Ht. destruct Hok as [P1 P2 P3 P4 P5 P6 P7 P8 P9].
  assert (Hreq : forall p' k, pr_key <$> d_requests d !! p' = Some k ->
    pr_key <$> <[p := mkPending Waiting key false false]> (d_requests d) !! p' = Some k).
  { intros p' k Hr. rewrite lookup_insert_ne; [done|]. intros <-. by rewrite Hp in Hr. }
  split; simpl; try done.
  - rewrite map_size_insert_None by done. lia.
  - intros key' p'. rewrite lookup_insert. case_decide as He.
    + intros [= <-]. subst. rewrite lookup_insert_eq. split; [done|].
      destruct (d_closing d !! p) eqn:Hc; [|done]. destruct (P7 _ _ Hc) as [r Hr]. congruence.
    + intros Hk'. destruct (P3 key' p' Hk'). by split; [apply Hreq|].
  - intros t i Hti. specialize (P4 t i Hti). rewrite waiters_insert by done.
    rewrite lookup_alter. destruct (decide (interest = i)) as [<-|Hne].
    + assert (key.1 = t) as Hkt by (by eapply P6). rewrite decide_True by done.
      destruct (d_interests d !! interest) as [it|]; [|done]. simpl in *. f_equal.
      injection P4 as HH. by apply one_more.
    + rewrite decide_False; [by rewrite Nat.add_0_r|]. intros <-. congruence.
  - intros key' p'. rewrite lookup_insert. case_decide; [subst; by eexists|apply P5].
  - intros p' cg Hc. rewrite lookup_insert. case_decide; [by eexists|by eapply P7].
  - intros c cl Hc. destruct (P8 c cl Hc) as (H1 & H2 & H3). by split; [apply Hreq|].
  - intros p' r m. rewrite lookup_insert. case_decide; [by intros [= <-]|apply P9].
Qed.

Lemma no_topic_no_waiters t : _topics d !! t = None -> waiters t (_pending d) = 0%nat.
Proof.
  intros Ht. apply waiters_none. intros key p Hk <-. destruct (do_topic _ _ Hok key p Hk) as [i Hi].
  congruence.
Qed.

Lemma ok_new_topic t i ready :
  _topics d !! t = None -> d_interests d !! i = None ->
  dispatcher_ok max (set_topics (<[t := i]> (_topics d))
    (set_interests (<[i := mkInterest 0 ready]> (d_interests d)) d)).
Proof.
  intros Ht Hi. pose proof (no_topic_no_waiters t Ht) as Hw.
  destruct Hok as [P1 P2 P3 P4 P5 P6 P7 P8 P9].
  assert (Hne : forall t' j, _topics d !! t' = Some j -> j <> i).
  { intros t' j Hj ->. specialize (P4 t' i Hj). by rewrite Hi in P4. }
  split; simpl; try done.
  - intros t' j. rewrite lookup_insert. case_decide as He.
    + intros [= <-]. subst. rewrite lookup_insert_eq. by rewrite Hw.
    + intros Hj. rewrite lookup_insert_ne; [by apply P4|]. intros <-. by apply (Hne t' i).
  - intros key p Hk. rewrite lookup_insert. case_decide; [by eexists|by eapply P5].
  - intros t1 t2 j. rewrite !lookup_insert. repeat case_decide; subst; try done; intros H1 H2;
      simplify_eq; [by destruct (Hne _ _ H2)|by destruct (Hne _ _ H1)|by eapply P6].
Qed.

End tables.

(** ** The operations keep the invariant *)

Lemma ok_release max d : dispatcher_ok (max - 1) d -> dispatcher_ok max (release_capacity d).
Proof.
  intros Hok. pose proof (ok_capacity _ d Hok (_capacity d + 1)) as H.
  replace max with (max - 1 - (_capacity d - (_capacity d + 1))) by lia.
  apply H. pose proof (do_capacity _ _ Hok). lia.
Qed.

(** A topic with no waiter is kept only for a suspended [unregister]. *)
Definition interests_used (d : _RequestDispatcher) : Prop :=
  forall t i, _topics d !! t = Some i -> waiters t (_pending d) = 0%nat ->
    exists p task, d_closing d !! p = Some (mkClosing t i (WaitsReady task)).

Lemma used_same d d' :
  interests_used d -> _topics d' = _topics d -> _pending d' = _pending d ->
  d_closing d' = d_closing d -> interests_used d'.
Proof. unfold interests_used. by intros H -> -> ->. Qed.

(** *** [_ensure_topic_ready] *)

Lemma ensure_ready_effect t i d r d' :
  _ensure_topic_ready t i d = (r, d') ->
  d_requests d' = d_requests d /\ _capacity d' = _capacity d /\ _pending d' = _pending d /\
  _topics d' = _topics d /\ d_closing d' = d_closing d /\ d_claims d' = d_claims d /\
  _generation d' = _generation d /\ _protocol d' = _protocol d /\
  (forall j, refcount <$> d_interests d' !! j = refcount <$> d_interests d !! j) /\
  (is_Some (_protocol d) -> is_Ok r).
Proof.
  unfold _ensure_topic_ready. run. destruct (_ ≫= ready) as [task|].
  { rewrite run_ret. intros [= <- <-]. by repeat split. }
  unfold _require_protocol. run. destruct (_protocol d) as [pr|] eqn:Hpr; run.
  - intros [= <- <-]. repeat split; simpl; try done. intros j. rewrite lookup_alter.
    case_decide; [subst|done]. by destruct (d_interests d !! j).
  - intros [= <- <-]. by repeat split.
Qed.

Lemma ensure_ready_ok max t i d r d' :
  dispatcher_ok max d -> _ensure_topic_ready t i d = (r, d') -> dispatcher_ok max d'.
Proof.
  intros Hok (E1 & E2 & E3 & E4 & E5 & E6 & E7 & E8 & E9 & _)%ensure_ready_effect.
  apply (ok_same _ d Hok d'); try done; rewrite E1; try done. intros p r' m Hr Hf. by exists r'.
Qed.

Lemma ensure_ready_used t i d r d' :
  interests_used d -> _ensure_topic_ready t i d = (r, d') -> interests_used d'.
Proof.
  intros Hu (E1 & E2 & E3 & E4 & E5 & _)%ensure_ready_effect. by apply (used_same d).
Qed.

Lemma restore_topic_ok max t i d r d' :
  dispatcher_ok max d -> interests_used d -> restore_topic t i d = (r, d') ->
  dispatcher_ok max d' /\ interests_used d'.
Proof.
  intros Hok Hu. unfold restore_topic. run. destruct (0 <? _); run; [|by intros [= <- <-]].
  destruct (_ensure_topic_ready t i d) as [r1 d1] eqn:He.
  assert (dispatcher_ok max d1 /\ interests_used d1) as H.
  { split; [by eapply ensure_ready_ok|by eapply ensure_ready_used]. }
  by destruct r1; intros [= <- <-].
Qed.

(** *** [unregister] *)

(** [unregister] in one step: the waiter leaves, and the last one of its topic takes
    the interest with it or waits for the subscription. *)
Lemma unregister_eq key p interest d :
  _pending d !! key = Some p -> _topics d !! key.1 = Some interest ->
  unregister key p d =
    let d1 := without_waiter d key p interest in
    let it := d_interests d1 !! interest in
    if 0 <? default 0 (refcount <$> it) then (Ok true, release_capacity d1)
    else match it ≫= ready with
         | Some task =>
             (Ok false, set_closing (<[p := mkClosing key.1 interest (WaitsReady task)]>
                (d_closing d1)) d1)
         | None =>
             (Ok true, release_capacity
                (if bool_decide (refcount <$> it = Some 0)
                 then set_topics (delete key.1 (_topics d1)) d1 else d1))
         end.
Proof.
  intros Hk Ht. unfold unregister. run. rewrite bool_decide_true by done. cbn [negb]. run.
  rewrite Ht. run. change (set_interests _ _) with (without_waiter d key p interest).
  cbv zeta. destruct (0 <? _); [done|]. destruct (_ ≫= ready); [done|].
  by destruct (bool_decide _).
Qed.

Lemma unregister_stranger key p d : _pending d !! key <> Some p -> unregister key p d = (Ok true, d).
Proof. intros Hk. unfold unregister. run. by rewrite bool_decide_false. Qed.

Section unregister_facts.
Context (max : Z) (d : _RequestDispatcher) (Hok : dispatcher_ok max d).

Lemma without_waiter_absent key p interest key' :
  _pending d !! key = Some p -> _pending (without_waiter d key p interest) !! key' <> Some p.
Proof.
  intros Hk. unfold without_waiter. simpl. intros [Hne Hk']%lookup_delete_Some. apply Hne.
  destruct (do_key _ _ Hok _ _ Hk) as [H1 _]. destruct (do_key _ _ Hok _ _ Hk') as [H2 _].
  congruence.
Qed.

(** The reference count after the waiter left *)
Lemma without_waiter_refcount key p interest :
  _pending d !! key = Some p -> _topics d !! key.1 = Some interest ->
  refcount <$> d_interests (without_waiter d key p interest) !! interest
    = Some (Z.of_nat (waiters key.1 (delete key (_pending d)))).
Proof.
  intros Hk Ht. exact (do_refcount _ _ (ok_without_waiter max d Hok key p interest Hk Ht) _ _ Ht).
Qed.

Lemma unregister_ok key p r d' :
  unregister key p d = (r, d') -> dispatcher_ok max d' /\ is_Ok r.
Proof.
  destruct (decide (_pending d !! key = Some p)) as [Hk|Hk].
  2: { rewrite unregister_stranger by done. by intros [= <- <-]. }
  destruct (do_topic _ _ Hok _ _ Hk) as [interest Ht].
  pose proof (ok_without_waiter max d Hok key p interest Hk Ht) as Hok1.
  pose proof (without_waiter_refcount key p interest Hk Ht) as Hrc.
  rewrite (unregister_eq key p interest) by done. cbv zeta. rewrite Hrc. simpl default.
  set (d1 := without_waiter d key p interest) in *.
  destruct (Z.ltb_spec 0 (Z.of_nat (waiters key.1 (delete key (_pending d))))) as [Hpos|Hzero].
  { intros [= <- <-]. split; [|done]. by apply ok_release. }
  destruct (_ ≫= ready) as [task|].
  - intros [= <- <-]. split; [|done].
    replace max with (max - 1 + 1) by lia. apply (ok_open_closing _ d1 Hok1).
    + by apply (do_key _ _ Hok _ _ Hk).
    + destruct (do_key _ _ Hok _ _ Hk) as [Hr _]. unfold d1. simpl. rewrite lookup_alter_eq.
      destruct (d_requests d !! p); [by eexists|done].
    + intros key'. by apply without_waiter_absent.
  - intros [= <- <-]. split; [|done]. apply ok_release. case_bool_decide; [|done].
    apply (ok_drop_topic _ d1 Hok1). change (_pending d1) with (delete key (_pending d)). lia.
Qed.

Lemma unregister_used key p r d' :
  interests_used d -> unregister key p d = (r, d') -> interests_used d'.
Proof.
  intros Hu. destruct (decide (_pending d !! key = Some p)) as [Hk|Hk].
  2: { rewrite unregister_stranger by done. by intros [= <- <-]. }
  destruct (do_topic _ _ Hok _ _ Hk) as [interest Ht].
  pose proof (without_waiter_refcount key p interest Hk Ht) as Hrc.
  rewrite (unregister_eq key p interest) by done. cbv zeta. rewrite Hrc. simpl default.
  assert (Hother : forall t i, _topics d !! t = Some i -> t <> key.1 ->
    waiters t (delete key (_pending d)) = 0%nat ->
    exists q task, d_closing d !! q = Some (mkClosing t i (WaitsReady task)) /\ q <> p).
  { intros t i Hti Hne Hw. destruct (Hu t i Hti) as (q & task & Hq).
    { rewrite (waiters_delete t key p) by done. rewrite decide_False by done. lia. }
    exists q, task. split; [done|]. intros ->.
    destruct (do_key _ _ Hok _ _ Hk) as [_ Hc]. congruence. }
  destruct (Z.ltb_spec 0 (Z.of_nat (waiters key.1 (delete key (_pending d))))) as [Hpos|Hzero].
  { intros [= <- <-] t i Hti Hw. simpl in *. destruct (decide (t = key.1)) as [->|Hne]; [lia|].
    destruct (Hother t i) as (q & task & Hq & _); eauto. }
  destruct (_ ≫= ready) as [task|].
  - intros [= <- <-] t i Hti Hw. simpl in *. destruct (decide (t = key.1)) as [->|Hne].
    + exists p, task. rewrite lookup_insert_eq. congruence.
    + destruct (Hother t i) as (q & task' & Hq & Hqp); [done..|].
      exists q, task'. by rewrite lookup_insert_ne.
  - intros [= <- <-] t i Hti Hw. rewrite bool_decide_true in * by (f_equal; lia). simpl in *.
    apply lookup_delete_Some in Hti as [Hne Hti].
    destruct (Hother t i) as (q & task & Hq & _); eauto.
Qed.

End unregister_facts.

(** *** Suspended runs of [unregister] *)

Lemma ok_close_closing max p cg d :
  dispatcher_ok max d -> d_closing d !! p = Some cg ->
  dispatcher_ok max (release_capacity (set_closing (delete p (d_closing d)) d)).
Proof. intros Hok Hc. apply ok_release. by apply (ok_end_closing _ _ Hok p cg). Qed.

Section resume_facts.
Context (max : Z) (d : _RequestDispatcher) (Hok : dispatcher_ok max d) (Hu : interests_used d).

Lemma used_drop_topic t : interests_used (set_topics (delete t (_topics d)) d).
Proof. intros t' i. simpl. intros [_ Ht]%lookup_delete_Some Hw. by apply Hu. Qed.

(** The entry of [p] is replaced or dropped, and its topic has a waiter or is gone. *)
Lemma used_end_closing p t i phase f d1 :
  d_closing d !! p = Some (mkClosing t i phase) ->
  _topics d1 = _topics d -> _pending d1 = _pending d -> d_closing d1 = f (d_closing d) ->
  (forall q, q <> p -> f (d_closing d) !! q = d_closing d !! q) ->
  (phase <> WaitsRemoval -> _topics d !! t = Some i -> waiters t (_pending d) <> 0%nat) ->
  interests_used d1.
Proof.
  intros Hc E1 E2 E3 Hf Hgone t' i' Ht Hw. rewrite E1 in Ht. rewrite E2 in Hw. rewrite E3.
  destruct (Hu t' i' Ht Hw) as (q & task & Hq). exists q, task. rewrite Hf; [done|].
  intros ->. rewrite Hc in Hq. injection Hq as -> -> ->. by apply Hgone.
Qed.

(** The interest of the entry is still the one of the topic and counts no waiter. *)
Lemma resume_last t i :
  bool_decide (refcount <$> d_interests d !! i = Some 0)
    && bool_decide (_topics d !! t = Some i) = true ->
  waiters t (_pending d) = 0%nat.
Proof.
  intros [H1%bool_decide_eq_true H2%bool_decide_eq_true]%andb_true_iff.
  pose proof (do_refcount _ _ Hok _ _ H2). assert (Z.of_nat (waiters t (_pending d)) = 0) by congruence.
  lia.
Qed.

Lemma resume_not_last t i :
  bool_decide (refcount <$> d_interests d !! i = Some 0)
    && bool_decide (_topics d !! t = Some i) = false ->
  _topics d !! t = Some i -> waiters t (_pending d) <> 0%nat.
Proof.
  intros Hb Ht Hw. pose proof (do_refcount _ _ Hok _ _ Ht) as Hrc. rewrite Hw in Hrc.
  apply andb_false_iff in Hb as [Hb|Hb]; by apply bool_decide_eq_false in Hb.
Qed.

End resume_facts.

Lemma unregister_resume_ok max d p outcome r d' :
  dispatcher_ok max d -> unregister_resume p outcome d = (r, d') -> dispatcher_ok max d'.
Proof.
  intros Hok. unfold unregister_resume. run.
  destruct (d_closing d !! p) as [[t i [task|]]|] eqn:Hc; [|by intros [= <- <-]..].
  destruct (_ && _) eqn:Hb; run.
  - assert (dispatcher_ok max (set_topics (delete t (_topics d)) d)) as Hok1.
    { apply (ok_drop_topic _ _ Hok). by eapply resume_last. }
    destruct outcome as [[]|x]; [destruct (_protocol d) as [pr|]|]; run; unfold lift;
      intros [= <- <-].
    + apply (ok_same max (set_closing (<[p := mkClosing t i WaitsRemoval]> (d_closing d))
        (set_topics (delete t (_topics d)) d))); try done.
      * by eapply (ok_replace_closing _ _ Hok1).
      * intros q r0 m Hr Hf. by exists r0.
    + by eapply (ok_close_closing max p _ _ Hok1).
    + by eapply (ok_close_closing max p _ _ Hok1).
  - unfold lift. destruct outcome; intros [= <- <-]; by eapply (ok_close_closing max p _ _ Hok).
Qed.

Lemma unregister_resume_used max d p outcome r d' :
  dispatcher_ok max d -> interests_used d -> unregister_resume p outcome d = (r, d') ->
  interests_used d'.
Proof.
  intros Hok Hu. unfold unregister_resume. run.
  destruct (d_closing d !! p) as [[t i [task|]]|] eqn:Hc; [|by intros [= <- <-]..].
  destruct (_ && _) eqn:Hb; run.
  - pose proof (used_drop_topic d Hu t) as Hu1.
    assert (forall phase : closing_phase, phase <> WaitsRemoval ->
      delete t (_topics d) !! t = Some i -> waiters t (_pending d) <> 0%nat) as Hgone.
    { intros phase _. by rewrite lookup_delete_eq. }
    destruct outcome as [[]|x]; [destruct (_protocol d) as [pr|]|]; run; unfold lift;
      intros [= <- <-].
    + eapply (used_end_closing _ Hu1 p t i _ (fun m => <[p := mkClosing t i WaitsRemoval]> m));
        [exact Hc|done..| |by apply Hgone].
      intros q Hq. by rewrite lookup_insert_ne.
    + eapply (used_end_closing _ Hu1 p t i _ (delete p)); [exact Hc|done..| |by apply Hgone].
      intros q Hq. by rewrite lookup_delete_ne.
    + eapply (used_end_closing _ Hu1 p t i _ (delete p)); [exact Hc|done..| |by apply Hgone].
      intros q Hq. by rewrite lookup_delete_ne.
  - unfold lift. destruct outcome; intros [= <- <-];
      (eapply (used_end_closing _ Hu p t i _ (delete p));
        [exact Hc|done..| |intros _; by eapply resume_not_last]);
      intros q Hq; by rewrite lookup_delete_ne.
Qed.

(** Only the state, not the outcome, depends on how the removal ended. *)
Lemma unregister_finish_eq p outcome d :
  unregister_finish p outcome d =
    match d_closing d !! p with
    | Some (mkClosing _ _ WaitsRemoval) =>
        (outcome, release_capacity (set_closing (delete p (d_closing d)) d))
    | _ => (Ok tt, d)
    end.
Proof.
  unfold unregister_finish. run. destruct (d_closing d !! p) as [[t i [task|]]|]; [done| |done].
  run. unfold lift. by destruct outcome as [[]|].
Qed.

(** The permit of [unregister] is given back by the segment that ends it, whether it
    returns or raises; a run that goes on waiting keeps it. *)
Lemma unregister_permit max key p d r d' :
  dispatcher_ok max d -> _pending d !! key = Some p -> unregister key p d = (r, d') ->
  _pending d' = delete key (_pending d) /\
  ((r = Ok true /\ _capacity d' = _capacity d + 1 /\ d_closing d' = d_closing d) \/
   exists i task, r = Ok false /\ _capacity d' = _capacity d /\
     d_closing d' = <[p := mkClosing key.1 i (WaitsReady task)]> (d_closing d)).
Proof.
  intros Hok Hk. destruct (do_topic _ _ Hok _ _ Hk) as [interest Ht].
  rewrite (unregister_eq key p interest) by done. cbv zeta.
  destruct (0 <? _); [intros [= <- <-]; split; [done|by left]|].
  destruct (_ ≫= ready) as [task|]; intros [= <- <-]; (split; [by try case_bool_decide|]).
  - right. by exists interest, task.
  - left. by case_bool_decide.
Qed.

Lemma wake_permit p cg outcome d r d' :
  d_closing d !! p = Some cg -> unregister_wake p outcome d = (r, d') ->
  _pending d' = _pending d /\
  match r with
  | Ok true => outcome = Ok tt
  | Ok false => outcome = Ok tt /\ cg_phase cg <> WaitsRemoval
  | Err x => outcome = Err x
  end /\
  (if bool_decide (r = Ok false) then
     _capacity d' = _capacity d /\
     d_closing d' = <[p := mkClosing (cg_topic cg) (cg_interest cg) WaitsRemoval]> (d_closing d) /\
     exists protocol, _protocol d = Some protocol /\
       d_calls d' = d_calls d ++ [RemoveObserver protocol (cg_topic cg)]
   else _capacity d' = _capacity d + 1 /\ d_closing d' = delete p (d_closing d)).
Proof.
  intros Hc. destruct cg as [t i phase]. unfold unregister_wake. run. rewrite Hc.
  destruct phase as [task|].
  - unfold unregister_resume. run. rewrite Hc. destruct (_ && _); run.
    + destruct outcome as [[]|x]; [destruct (_protocol d) as [pr|] eqn:Hp|]; run; unfold lift;
        intros [= <- <-]; case_bool_decide; try done; (split; [done|split; [done|]]); simpl; by eauto 10.
    + destruct outcome as [[]|x]; unfold lift; intros [= <- <-]; by case_bool_decide.
  - run. rewrite unregister_finish_eq, Hc.
    destruct outcome as [[]|x]; intros [= <- <-]; by case_bool_decide.
Qed.

Lemma unregister_finish_ok max d p o r d' :
  dispatcher_ok max d -> interests_used d -> unregister_finish p o d = (r, d') ->
  dispatcher_ok max d' /\ interests_used d'.
Proof.
  intros Hok Hu. rewrite unregister_finish_eq.
  destruct (d_closing d !! p) as [[t i [task|]]|] eqn:Hc; [by intros [= <- <-]| |by intros [= <- <-]].
  intros [= <- <-]. split; [by eapply ok_close_closing|].
  eapply (used_end_closing _ Hu p t i _ (delete p)); [exact Hc|done..| |done].
  intros q Hq. by rewrite lookup_delete_ne.
Qed.

(** *** [register] *)

(** The state in which [register] asks for the subscription: the interest of the topic
    exists and counts the new waiter. *)
Definition topic_interest (topic : str) (d : _RequestDispatcher) : nat * _RequestDispatcher :=
  match _topics d !! topic with
  | Some i => (i, d)
  | None =>
      let i := fresh (dom (d_interests d)) in
      (i, set_topics (<[topic := i]> (_topics d))
            (set_interests (<[i := mkInterest 0 None]> (d_interests d)) d))
  end.

Definition with_fresh_waiter (key : request_key) (d : _RequestDispatcher)
    : nat * nat * _RequestDispatcher :=
  let (i, d1) := topic_interest key.1 d in
  let p := fresh (dom (d_requests d)) in
  (i, p, with_waiter d1 key p i).

Lemma register_eq topic data d :
  register topic data d =
    if _capacity d <=? 0 then (Ok None, d)
    else
      let d0 := set_capacity (_capacity d - 1) d in
      if bool_decide (is_Some (_pending d !! (topic, data))) then
        (Err (ValueError "correlation_data is already in use for this response_topic"),
         release_capacity d0)
      else match _protocol d with
           | None => (Err (MQTTDisconnectedError "Not connected"), release_capacity d0)
           | Some _ =>
               let '(i, p, d1) := with_fresh_waiter (topic, data) d0 in
               match _ensure_topic_ready topic i d1 with
               | (Ok task, d2) => (Ok (Some (p, task)), d2)
               | (Err x, d2) => (Err x, release_capacity d2)
               end
           end.
Proof.
  unfold register. run. destruct (_ <=? 0); [done|]. run. unfold finally_on_error at 1. run.
  change (_pending (set_capacity (_capacity d - 1) d)) with (_pending d).
  destruct (bool_decide _); [done|]. unfold _require_protocol. run.
  change (_protocol (set_capacity (_capacity d - 1) d)) with (_protocol d).
  destruct (_protocol d); run; [|done].
  unfold with_fresh_waiter, topic_interest. simpl fst.
  change (_topics (set_capacity (_capacity d - 1) d)) with (_topics d).
  destruct (_topics d !! topic); cbn [default from_option id]; run;
    by destruct (_ensure_topic_ready _ _ _) as [[]].
Qed.

Lemma topic_interest_ok max topic d i d1 :
  dispatcher_ok max d -> topic_interest topic d = (i, d1) ->
  dispatcher_ok max d1 /\ _topics d1 !! topic = Some i /\ _pending d1 = _pending d /\
  d_requests d1 = d_requests d /\ _protocol d1 = _protocol d /\ d_claims d1 = d_claims d /\
  _generation d1 = _generation d /\ d_closing d1 = d_closing d /\
  (forall t, t <> topic -> _topics d1 !! t = _topics d !! t).
Proof.
  intros Hok. unfold topic_interest. destruct (_topics d !! topic) as [j|] eqn:Ht; intros [= <- <-].
  - by split_and!.
  - split_and!; try done.
    + apply (ok_new_topic _ _ Hok); [done|]. apply not_elem_of_dom, is_fresh.
    + simpl. by rewrite lookup_insert_eq.
    + intros t Hne. simpl. by rewrite lookup_insert_ne.
Qed.

(** What a call of [register] that gets a permit and a free key does. *)
Lemma register_waiter max topic data d i p d1 :
  dispatcher_ok max d -> 0 < _capacity d -> _pending d !! (topic, data) = None ->
  with_fresh_waiter (topic, data) (set_capacity (_capacity d - 1) d) = (i, p, d1) ->
  dispatcher_ok max d1 /\ _protocol d1 = _protocol d /\
  d_requests d !! p = None /\
  d_requests d1 = <[p := mkPending Waiting (topic, data) false false]> (d_requests d) /\
  _pending d1 = <[(topic, data) := p]> (_pending d) /\
  d_claims d1 = d_claims d /\ _generation d1 = _generation d /\
  (interests_used d -> interests_used d1).
Proof.
  intros Hok Hcap Hfree. unfold with_fresh_waiter. simpl fst.
  destruct (topic_interest _ _) as [j d0] eqn:Hti. intros [= <- <- <-].
  pose proof (ok_capacity max d Hok (_capacity d - 1) ltac:(lia)) as Hok0.
  destruct (topic_interest_ok _ _ _ _ _ Hok0 Hti) as (Hok1 & Ht & E1 & E2 & E3 & E4 & E5 & E6 & E7).
  simpl in E1, E2, E3, E4, E5, E6, E7 |- *.
  assert (d_requests d !! fresh (dom (d_requests d)) = None) as Hp
    by apply not_elem_of_dom, is_fresh.
  split_and!; try done; [|by rewrite E2|by rewrite E1|].
  - replace max with (max - (_capacity d - (_capacity d - 1)) + 1) by lia.
    apply ok_with_waiter; [done|by rewrite E1|by rewrite E2|done].
  - intros Hu t k. unfold with_waiter. simpl. rewrite E1, E6. intros Htk.
    rewrite waiters_insert by done. case_decide as He; [lia|]. rewrite Nat.add_0_r.
    rewrite E7 in Htk by done. by apply Hu.
Qed.

Lemma register_ok max topic data d r d' :
  dispatcher_ok max d -> register topic data d = (r, d') -> dispatcher_ok max d'.
Proof.
  intros Hok. rewrite register_eq. destruct (Z.leb_spec (_capacity d) 0); [by intros [= <- <-]|].
  pose proof (ok_capacity max d Hok (_capacity d - 1) ltac:(lia)) as Hok0.
  replace (max - (_capacity d - (_capacity d - 1))) with (max - 1) in Hok0 by lia.
  cbv zeta. case_bool_decide as Hfree; [intros [= <- <-]; by apply ok_release|].
  destruct (_protocol d) as [pr|] eqn:Hpr; [|intros [= <- <-]; by apply ok_release].
  apply eq_None_not_Some in Hfree.
  destruct (with_fresh_waiter _ _) as [[i p] d1] eqn:Hw.
  destruct (register_waiter max topic data d i p d1 Hok ltac:(lia) Hfree Hw) as (Hok1 & Hpr1 & _).
  destruct (_ensure_topic_ready topic i d1) as [r2 d2] eqn:He.
  pose proof (ensure_ready_ok _ _ _ _ _ _ Hok1 He) as Hok2.
  destruct (ensure_ready_effect _ _ _ _ _ He) as (_ & _ & _ & _ & _ & _ & _ & _ & _ & Hr).
  rewrite Hpr1, Hpr in Hr. destruct r2; [|by destruct Hr]. by intros [= <- <-].
Qed.

Lemma register_used max topic data d r d' :
  dispatcher_ok max d -> interests_used d -> register topic data d = (r, d') -> interests_used d'.
Proof.
  intros Hok Hu. rewrite register_eq. destruct (Z.leb_spec (_capacity d) 0); [by intros [= <- <-]|].
  cbv zeta. case_bool_decide as Hfree; [intros [= <- <-]; by apply (used_same d)|].
  destruct (_protocol d) as [pr|] eqn:Hpr; [|intros [= <- <-]; by apply (used_same d)].
  apply eq_None_not_Some in Hfree.
  destruct (with_fresh_waiter _ _) as [[i p] d1] eqn:Hw.
  destruct (register_waiter max topic data d i p d1 Hok ltac:(lia) Hfree Hw)
    as (_ & _ & _ & _ & _ & _ & _ & Hu1).
  destruct (_ensure_topic_ready topic i d1) as [r2 d2] eqn:He.
  pose proof (ensure_ready_used _ _ _ _ _ (Hu1 Hu) He) as Hu2.
  destruct r2; intros [= <- <-]; [done|by apply (used_same d2)].
Qed.

(** *** The other operations *)

Lemma claim_ok max m msg d c d' :
  dispatcher_ok max d -> claim_response m msg d = (c, d') -> dispatcher_ok max d'.
Proof.
  intros Hok. unfold claim_response.
  destruct (msg_properties msg ≫= pbp_correlation_data) as [data|] eqn:Hdata; [|by intros [= <- <-]].
  destruct (_pending d !! _) as [p|] eqn:Hp; [|by intros [= <- <-]].
  destruct (d_requests d !! p) as [r|] eqn:Hr; [|by intros [= <- <-]].
  destruct (_ || _); [by intros [= <- <-]|]. intros [= <- <-].
  destruct (do_key _ _ Hok _ _ Hp) as [Hkey Hcl].
  assert (d_claims d !! fresh (dom (d_claims d)) = None) as Hc by apply not_elem_of_dom, is_fresh.
  assert (Hreq : forall q, pr_key <$> <[p := set_claimed true r]> (d_requests d) !! q
      = pr_key <$> d_requests d !! q).
  { intros q. rewrite lookup_insert. case_decide; [subst; by rewrite Hr|done]. }
  destruct Hok as [P1 P2 P3 P4 P5 P6 P7 P8 P9]. split; simpl; try done.
  - intros key q Hq. rewrite Hreq. by apply P3.
  - intros q cg Hq. destruct (P7 q cg Hq) as [r0 Hr0]. specialize (Hreq q). rewrite Hr0 in Hreq.
    by destruct (<[p := _]> _ !! q).
  - intros c cl. rewrite Hreq, lookup_insert. case_decide; [|by apply P8]. by intros [= <-].
  - intros q r0 m0 Hq Hf. assert (exists r1, d_requests d !! q = Some r1 /\ pr_future r1 = Response m0)
      as (r1 & Hr1 & Hf1).
    { revert Hq. rewrite lookup_insert. case_decide; [|by exists r0]. intros [= <-]. subst.
      by exists r. }
    destruct (P9 q r1 m0 Hr1 Hf1) as (c & cl & Hcc & H). exists c, cl. split; [|done].
    rewrite lookup_insert_ne; [done|]. intros <-. by rewrite Hc in Hcc.
Qed.

Lemma complete_ok max c d : dispatcher_ok max d -> dispatcher_ok max (complete c d).
Proof.
  intros Hok. unfold complete. destruct (d_claims d !! c) as [cl|] eqn:Hc; [|done].
  destruct (d_requests d !! cl_pending cl) as [r|] eqn:Hr; [|done].
  destruct (_ && _ && _); [|done].
  assert (Hreq : forall q, pr_key <$> <[cl_pending cl := set_future (Response (cl_message cl)) r]>
      (d_requests d) !! q = pr_key <$> d_requests d !! q).
  { intros q. rewrite lookup_insert. case_decide; [subst; by rewrite Hr|done]. }
  destruct Hok as [P1 P2 P3 P4 P5 P6 P7 P8 P9]. split; simpl; try done.
  - intros key q Hq. rewrite Hreq. by apply P3.
  - intros q cg Hq. destruct (P7 q cg Hq) as [r0 Hr0]. specialize (Hreq q). rewrite Hr0 in Hreq.
    by destruct (<[_ := _]> _ !! q).
  - intros c' cl'. rewrite Hreq. by apply P8.
  - intros q r0 m0. rewrite lookup_insert. case_decide; [|by apply P9]. intros [= <-] [= <-].
    subst. by exists c, cl.
Qed.

(** Changes of requests that add no response and of interests that keep their counts *)
Lemma ok_map_requests max (f : nat -> _PendingRequest -> _PendingRequest) d d' :
  dispatcher_ok max d ->
  (forall p r, pr_key (f p r) = pr_key r /\ (forall m, pr_future (f p r) = Response m ->
     pr_future r = Response m)) ->
  d_requests d' = map_imap (fun p r => Some (f p r)) (d_requests d) ->
  (forall i, refcount <$> d_interests d' !! i = refcount <$> d_interests d !! i) ->
  _capacity d' = _capacity d -> _pending d' = _pending d -> _topics d' = _topics d ->
  d_closing d' = d_closing d -> d_claims d' = d_claims d ->
  dispatcher_ok max d'.
Proof.
  intros Hok Hf Hr Hi E1 E2 E3 E4 E5. apply (ok_same max d Hok); try done.
  - intros p. rewrite Hr, map_lookup_imap. destruct (d_requests d !! p) as [r|]; simpl; [|done].
    f_equal. by apply Hf.
  - intros p r m. rewrite Hr, map_lookup_imap. destruct (d_requests d !! p) as [r0|]; simpl; [|done].
    intros [= <-] Hm. exists r0. split; [done|]. by apply (proj2 (Hf p r0)).
Qed.

Lemma bind_ok max protocol d : dispatcher_ok max d -> dispatcher_ok max (bind protocol d).
Proof.
  intros Hok. apply (ok_map_requests max (fun p r =>
    if decide (_pending d !! pr_key r = Some p) then set_claimed false r else r) d); try done.
  - intros p r. by case_decide.
  - intros i. simpl. rewrite map_lookup_imap. destruct (d_interests d !! i); [|done]. simpl.
    by case_decide.
Qed.

Lemma cancel_future_ok max p d : dispatcher_ok max d -> dispatcher_ok max (cancel_future p d).
Proof.
  intros Hok. apply (ok_same max d Hok); try done.
  - intros q. simpl. rewrite lookup_alter. case_decide; [subst|done].
    destruct (d_requests d !! q) as [r|]; [|done]. simpl. by destruct (response_done _).
  - intros q r m. simpl. rewrite lookup_alter. case_decide; [subst|by eauto].
    destruct (d_requests d !! q) as [r0|]; [|done]. simpl. intros [= <-] Hm. exists r0.
    split; [done|]. by destruct (response_done _).
Qed.

Lemma set_closed_ok max p d :
  dispatcher_ok max d -> dispatcher_ok max (set_requests (alter set_closed p (d_requests d)) d).
Proof.
  intros Hok. apply (ok_same max d Hok); try done; intros q; simpl; rewrite lookup_alter;
    (case_decide; [subst|by eauto]); destruct (d_requests d !! q) as [r0|]; try done.
  intros r m [= <-] Hm. by exists r0.
Qed.

Lemma cancel_pending_ok max d : dispatcher_ok max d -> dispatcher_ok max (cancel_pending d).
Proof.
  intros Hok. set (f p r := if decide (_pending d !! pr_key r = Some p) then
      if response_done (pr_future r) then r
      else set_future (ResponseFailed (MQTTDisconnectedError "Client disconnected")) r
    else r).
  assert (Hf : forall p r, pr_key (f p r) = pr_key r /\ forall m, pr_future (f p r) = Response m ->
    pr_future r = Response m).
  { intros p r. unfold f. case_decide; [|done]. by destruct (response_done _). }
  assert (dispatcher_ok max (set_requests (map_imap (fun p r => Some (f p r)) (d_requests d)) d))
    as Hok1 by by apply (ok_map_requests max f d).
  destruct Hok1 as [P1 P2 P3 P4 P5 P6 P7 P8 P9]. split; try done.
  - simpl in *. lia.
  - simpl in *. rewrite (map_size_empty (M := gmap request_key)). lia.
Qed.

Lemma cancel_pending_used d : interests_used (cancel_pending d).
Proof. done. Qed.

Lemma close_ok max p d r d' :
  dispatcher_ok max d -> interests_used d -> close p d = (r, d') ->
  dispatcher_ok max d' /\ interests_used d' /\ is_Ok r.
Proof.
  intros Hok Hu. unfold close. run. destruct (d_requests d !! p) as [r0|]; [|by intros [= <- <-]].
  destruct (pr_closed r0); [by intros [= <- <-]|]. run. intros Hrun.
  pose proof (set_closed_ok max p d Hok) as Hok1.
  destruct (unregister_ok _ _ Hok1 _ _ _ _ Hrun) as [Hok2 Hr]. split_and!; [done| |done].
  eapply (unregister_used _ _ Hok1); [|exact Hrun]. by apply (used_same d).
Qed.

Lemma register_end_ok max key p outcome d r d' :
  dispatcher_ok max d -> interests_used d -> register_end key p outcome d = (r, d') ->
  dispatcher_ok max d' /\ interests_used d'.
Proof.
  intros Hok Hu. unfold register_end. destruct outcome as [[]|x]; [by intros [= <- <-]|].
  run. destruct (unregister key p d) as [r1 d1] eqn:Hrun.
  destruct (unregister_ok _ _ Hok _ _ _ _ Hrun) as [Hok1 _].
  pose proof (unregister_used _ _ Hok _ _ _ _ Hu Hrun) as Hu1.
  by destruct r1 as [[]|]; intros [= <- <-].
Qed.

Lemma claim_used m msg d : interests_used d -> interests_used (claim_response m msg d).2.
Proof.
  intros Hu. apply (used_same d); [done|..]; unfold claim_response; by repeat case_match.
Qed.

Lemma complete_used c d : interests_used d -> interests_used (complete c d).
Proof. intros Hu. apply (used_same d); [done|..]; unfold complete; by repeat case_match. Qed.

(** ** The dispatcher as a transition system *)

(** One uninterrupted run of an operation.  Outcomes of awaited tasks are arbitrary. *)
Inductive dispatcher_step : _RequestDispatcher -> _RequestDispatcher -> Prop :=
| step_bind protocol d : dispatcher_step d (bind protocol d)
| step_restore topic i d r d' : restore_topic topic i d = (r, d') -> dispatcher_step d d'
| step_register topic data d r d' : register topic data d = (r, d') -> dispatcher_step d d'
| step_register_end key p outcome d r d' :
    register_end key p outcome d = (r, d') -> dispatcher_step d d'
| step_claim m msg d c d' : claim_response m msg d = (c, d') -> dispatcher_step d d'
| step_complete c d : dispatcher_step d (complete c d)
| step_close p d r d' : close p d = (r, d') -> dispatcher_step d d'
| step_resume p outcome d r d' : unregister_resume p outcome d = (r, d') -> dispatcher_step d d'
| step_finish p outcome d r d' : unregister_finish p outcome d = (r, d') -> dispatcher_step d d'
| step_give_up p d : dispatcher_step d (cancel_future p d)
| step_cancel d : dispatcher_step d (cancel_pending d).

(** What a dispatcher made for [max] requests can become *)
Definition dispatcher_reachable (max : Z) (d : _RequestDispatcher) : Prop :=
  exists d0, new_dispatcher max = Ok d0 /\ rtc dispatcher_step d0 d.

Lemma step_keeps_ok max d d' :
  dispatcher_ok max d -> interests_used d -> dispatcher_step d d' ->
  dispatcher_ok max d' /\ interests_used d'.
Proof.
  intros Hok Hu Hst. destruct Hst.
  - split; [by apply bind_ok|by apply (used_same d)].
  - by eapply restore_topic_ok.
  - split; [by eapply register_ok|by eapply register_used].
  - by eapply register_end_ok.
  - split; [by eapply claim_ok|]. pose proof (claim_used m msg d Hu) as H0. by rewrite H in H0.
  - split; [by apply complete_ok|by apply complete_used].
  - by destruct (close_ok _ _ _ _ _ Hok Hu H) as (? & ? & _).
  - split; [by eapply unregister_resume_ok|by eapply unregister_resume_used].
  - by eapply unregister_finish_ok.
  - split; [by apply cancel_future_ok|by apply (used_same d)].
  - split; [by apply cancel_pending_ok|apply cancel_pending_used].
Qed.

Lemma steps_keep_ok max d d' :
  rtc dispatcher_step d d' -> dispatcher_ok max d -> interests_used d ->
  dispatcher_ok max d' /\ interests_used d'.
Proof.
  induction 1 as [|d1 d2 d3 Hst _ IH]; [done|]. intros Hok Hu.
  destruct (step_keeps_ok max d1 d2 Hok Hu Hst). by apply IH.
Qed.

Lemma dispatcher_reachable_ok max d :
  dispatcher_reachable max d -> 0 < max /\ dispatcher_ok max d /\ interests_used d.
Proof.
  intros (d0 & Hnew & Hsteps). destruct (new_dispatcher_ok _ _ Hnew) as [Hmax Hok].
  split; [done|]. apply (steps_keep_ok max d0); [done..|]. revert Hnew. unfold new_dispatcher.
  destruct (max <=? 0); [done|]. by intros [= <-].
Qed.

(** ** Futures and claims over time *)

(** A done future stays as it is. *)
Definition evolves (r r' : _PendingRequest) : Prop :=
  pr_key r' = pr_key r /\ (response_done (pr_future r) -> pr_future r' = pr_future r).

Lemma evolves_refl r : evolves r r.
Proof. done. Qed.

Lemma evolves_trans r1 r2 r3 : evolves r1 r2 -> evolves r2 r3 -> evolves r1 r3.
Proof.
  intros [K1 F1] [K2 F2]. split; [congruence|]. intros Hd. rewrite F2; [by apply F1|].
  by rewrite F1.
Qed.

(** Operations that make no claim: claims, connection number and claimed waiters stay. *)
Record quiet (d d' : _RequestDispatcher) : Prop := {
  q_claims : d_claims d' = d_claims d;
  q_generation : _generation d' = _generation d;
  q_requests : forall p r, d_requests d !! p = Some r ->
    exists r', d_requests d' !! p = Some r' /\ evolves r r' /\ claimed r' = claimed r;
}.

Lemma quiet_trans d1 d2 d3 : quiet d1 d2 -> quiet d2 d3 -> quiet d1 d3.
Proof.
  intros [C1 G1 R1] [C2 G2 R2]. split; [congruence|congruence|].
  intros p r1 H1. destruct (R1 p r1 H1) as (r2 & H2 & E12 & K12).
  destruct (R2 p r2 H2) as (r3 & H3 & E23 & K23). exists r3.
  split_and!; [done|by eapply evolves_trans|congruence].
Qed.

Lemma quiet_same d d' :
  d_claims d' = d_claims d -> _generation d' = _generation d -> d_requests d' = d_requests d ->
  quiet d d'.
Proof. intros E1 E2 E3. split; [done..|]. intros p r Hr. rewrite E3. by exists r. Qed.

Lemma quiet_alter (f : _PendingRequest -> _PendingRequest) p d d' :
  (forall r, evolves r (f r) /\ claimed (f r) = claimed r) ->
  d_claims d' = d_claims d -> _generation d' = _generation d ->
  d_requests d' = alter f p (d_requests d) -> quiet d d'.
Proof.
  intros Hf E1 E2 E3. split; [done..|]. intros q r Hr. rewrite E3, lookup_alter.
  case_decide; [subst; rewrite Hr; exists (f r); by split; [|apply Hf]|by exists r].
Qed.

Lemma quiet_ensure_ready t i d r d' : _ensure_topic_ready t i d = (r, d') -> quiet d d'.
Proof. intros (E1 & _ & _ & _ & _ & E6 & E7 & _)%ensure_ready_effect. by apply quiet_same. Qed.

Lemma quiet_unregister key p d r d' : unregister key p d = (r, d') -> quiet d d'.
Proof.
  unfold unregister. run. destruct (negb _); [intros [= <- <-]; by apply quiet_same|]. run.
  assert (Hc : forall r : _PendingRequest, evolves r (if response_done (pr_future r) then r
      else set_future ResponseCancelled r) /\ claimed (if response_done (pr_future r) then r
      else set_future ResponseCancelled r) = claimed r).
  { intros r0. destruct (response_done _) eqn:Hd; [done|]. repeat split. by rewrite Hd. }
  unfold raise. destruct (_topics d !! key.1); run.
  - destruct (0 <? _); run; [intros [= <- <-]; (eapply (quiet_alter _ p); [exact Hc|done..])|].
    destruct (_ ≫= ready); run; [intros [= <- <-]; (eapply (quiet_alter _ p); [exact Hc|done..])|].
    destruct (bool_decide _); run; intros [= <- <-]; (eapply (quiet_alter _ p); [exact Hc|done..]).
  - intros [= <- <-]. (eapply (quiet_alter _ p); [exact Hc|done..]).
Qed.

Lemma quiet_resume p outcome d r d' : unregister_resume p outcome d = (r, d') -> quiet d d'.
Proof.
  unfold unregister_resume, lift. intros Hrun.
  revert Hrun. run. destruct (d_closing d !! p) as [[t i [task|]]|];
    [|intros [= <- <-]; by apply quiet_same..].
  destruct (_ && _); run.
  - destruct outcome as [[]|x]; [destruct (_protocol d)|]; run; intros [= <- <-];
      by apply quiet_same.
  - destruct outcome; intros [= <- <-]; by apply quiet_same.
Qed.

Lemma quiet_register topic data d r d' : register topic data d = (r, d') -> quiet d d'.
Proof.
  rewrite register_eq. destruct (_ <=? 0); [intros [= <- <-]; by apply quiet_same|].
  cbv zeta. destruct (bool_decide _); [intros [= <- <-]; by apply quiet_same|].
  destruct (_protocol d); [|intros [= <- <-]; by apply quiet_same].
  destruct (with_fresh_waiter _ _) as [[i p] d1] eqn:Hw.
  assert (quiet d d1) as Hq1.
  { unfold with_fresh_waiter, topic_interest in Hw. simpl in Hw.
    assert (d_requests d !! fresh (dom (d_requests d)) = None) as Hfr
      by apply not_elem_of_dom, is_fresh.
    assert (Hins : forall d2, d_requests d2 = <[fresh (dom (d_requests d)) :=
        mkPending Waiting (topic, data) false false]> (d_requests d) ->
        d_claims d2 = d_claims d -> _generation d2 = _generation d -> quiet d d2).
    { intros d2 Hr Hc Hg. split; [done..|]. intros q r0 Hr0. exists r0. rewrite Hr.
      rewrite lookup_insert_ne; [done|]. intros <-. congruence. }
    apply Hins; destruct (_topics d !! topic); by injection Hw as <- <- <-. }
  destruct (_ensure_topic_ready topic i d1) as [r2 d2] eqn:He.
  pose proof (quiet_trans _ _ _ Hq1 (quiet_ensure_ready _ _ _ _ _ He)) as Hq2.
  destruct r2; intros [= <- <-]; [done|]. eapply quiet_trans; [exact Hq2|by apply quiet_same].
Qed.

Lemma quiet_complete c d : quiet d (complete c d).
Proof.
  unfold complete. destruct (d_claims d !! c) as [cl|]; [|by apply quiet_same].
  destruct (d_requests d !! cl_pending cl) as [r|] eqn:Hr; [|by apply quiet_same].
  destruct (_ && _) eqn:Hb; [|by apply quiet_same]. split; [done..|].
  intros q r0 Hq. simpl. rewrite lookup_insert.
  destruct (decide (cl_pending cl = q)) as [<-|]; [|by exists r0].
  assert (r0 = r) as -> by congruence. eexists. split; [done|]. repeat split.
  apply andb_true_iff in Hb as [_ Hb%negb_true_iff]. by rewrite Hb.
Qed.

Lemma quiet_close p d r d' : close p d = (r, d') -> quiet d d'.
Proof.
  unfold close. run. destruct (d_requests d !! p) as [r0|]; [|intros [= <- <-]; by apply quiet_same].
  destruct (pr_closed r0); [intros [= <- <-]; by apply quiet_same|]. run. intros Hrun.
  eapply quiet_trans; [|by eapply quiet_unregister]. by apply (quiet_alter set_closed p).
Qed.

Lemma quiet_cancel_future p d : quiet d (cancel_future p d).
Proof.
  apply (quiet_alter (fun r => if response_done (pr_future r) then r
    else set_future ResponseCancelled r) p); [|done..]. intros r.
  destruct (response_done (pr_future r)) eqn:Hd; [done|]. repeat split. by rewrite Hd.
Qed.

(** A waiter is claimed at most once on one connection. *)
Record claims_exclusive (d : _RequestDispatcher) : Prop := {
  ce_generation : forall c cl, d_claims d !! c = Some cl -> cl_generation cl <= _generation d;
  ce_claimed : forall c cl, d_claims d !! c = Some cl -> cl_generation cl = _generation d ->
    claimed <$> d_requests d !! cl_pending cl = Some true;
  ce_inj : forall c1 c2 cl1 cl2, d_claims d !! c1 = Some cl1 -> d_claims d !! c2 = Some cl2 ->
    cl_pending cl1 = cl_pending cl2 -> cl_generation cl1 = cl_generation cl2 -> c1 = c2;
}.

Lemma quiet_exclusive d d' : quiet d d' -> claims_exclusive d -> claims_exclusive d'.
Proof.
  intros [E1 E2 E3] [P1 P2 P3]. split; rewrite ?E1, ?E2; try done.
  intros c cl Hc Hg. specialize (P2 c cl Hc Hg).
  destruct (d_requests d !! cl_pending cl) as [r|] eqn:Hr; [|done].
  destruct (E3 _ _ Hr) as (r' & Hr' & _ & Hcl). rewrite Hr'. simpl in *. congruence.
Qed.

Lemma next_generation_exclusive d d' :
  d_claims d' = d_claims d -> _generation d' = _generation d + 1 ->
  claims_exclusive d -> claims_exclusive d'.
Proof.
  intros E1 E2 [P1 P2 P3]. split; rewrite ?E1, ?E2; try done.
  - intros c cl Hc. specialize (P1 c cl Hc). lia.
  - intros c cl Hc Hg. specialize (P1 c cl Hc). lia.
Qed.

(** What [claim_response] reserves *)
Lemma claim_spec m msg d c d' :
  claim_response m msg d = (Some c, d') ->
  exists data p r,
    msg_properties msg ≫= pbp_correlation_data = Some data /\
    _pending d !! (msg_topic msg, data) = Some p /\ d_requests d !! p = Some r /\
    claimed r = false /\ pr_future r = Waiting /\ d_claims d !! c = None /\
    d' = set_claims (<[c := mkClaim p (msg_topic msg, data) m msg (_generation d)]> (d_claims d))
           (set_requests (<[p := set_claimed true r]> (d_requests d)) d).
Proof.
  unfold claim_response. destruct (msg_properties msg ≫= _) as [data|]; [|done].
  destruct (_pending d !! _) as [p|] eqn:Hp; [|done].
  destruct (d_requests d !! p) as [r|] eqn:Hr; [|done].
  destruct (claimed r) eqn:Hcl; [done|]. simpl. destruct (response_done _) eqn:Hd; [done|].
  intros [= <- <-]. exists data, p, r. split_and!; try done; [by destruct (pr_future r)|].
  apply not_elem_of_dom, is_fresh.
Qed.

Lemma claim_exclusive m msg d c d' :
  claim_response m msg d = (Some c, d') -> claims_exclusive d -> claims_exclusive d'.
Proof.
  intros (data & p & r & _ & Hp & Hr & Hcl & _ & Hc & ->)%claim_spec [P1 P2 P3].
  assert (Hnew : forall c' cl, d_claims d !! c' = Some cl -> cl_generation cl = _generation d ->
    cl_pending cl <> p).
  { intros c' cl Hc' Hg <-. specialize (P2 c' cl Hc' Hg). rewrite Hr in P2. simpl in P2. congruence. }
  split; simpl.
  - intros c' cl. rewrite lookup_insert. case_decide; [intros [= <-]; simpl; lia|apply P1].
  - intros c' cl. rewrite (lookup_insert (d_claims d)). case_decide.
    + intros [= <-] _. simpl. by rewrite lookup_insert_eq.
    + intros Hc' Hg. rewrite lookup_insert_ne; [by apply (P2 c')|].
      intros Heq. by apply (Hnew c' cl Hc' Hg).
  - intros c1 c2 cl1 cl2. rewrite !lookup_insert. repeat case_decide; subst; try done.
    + intros [= <-] H2 Hpe Hge. simpl in *. by destruct (Hnew c2 cl2 H2).
    + intros H1 [= <-] Hpe Hge. simpl in *. by destruct (Hnew c1 cl1 H1).
    + apply P3.
Qed.

(** What a waiter, a claim and the connection number can become *)
Record progresses (d d' : _RequestDispatcher) : Prop := {
  pg_generation : _generation d <= _generation d';
  pg_claims : d_claims d ⊆ d_claims d';
  pg_requests : forall p r, d_requests d !! p = Some r ->
    exists r', d_requests d' !! p = Some r' /\ evolves r r';
}.

Lemma quiet_progresses d d' : quiet d d' -> progresses d d'.
Proof.
  intros [E1 E2 E3]. split; [lia|by rewrite E1|]. intros p r Hr.
  destruct (E3 p r Hr) as (r' & Hr' & He & _). by exists r'.
Qed.

Lemma progresses_trans d1 d2 d3 : progresses d1 d2 -> progresses d2 d3 -> progresses d1 d3.
Proof.
  intros [G1 C1 R1] [G2 C2 R2]. split; [lia|by etrans|].
  intros p r1 H1. destruct (R1 p r1 H1) as (r2 & H2 & E12). destruct (R2 p r2 H2) as (r3 & H3 & E23).
  exists r3. split; [done|by eapply evolves_trans].
Qed.

(** Every waiter is rewritten by a function. *)
Lemma progresses_map (f : nat -> _PendingRequest -> _PendingRequest) d d' :
  (forall p r, evolves r (f p r)) -> _generation d <= _generation d' ->
  d_claims d' = d_claims d -> d_requests d' = map_imap (fun p r => Some (f p r)) (d_requests d) ->
  progresses d d'.
Proof.
  intros Hf Hg Hc Hr. split; [done|by rewrite Hc|]. intros p r Hp.
  rewrite Hr, map_lookup_imap, Hp. by exists (f p r).
Qed.

Lemma step_progresses d d' : dispatcher_step d d' -> progresses d d'.
Proof.
  destruct 1 as [pr d|t i d r d' H|t data d r d' H|key p [[]|x] d r d' H|m msg d c d' H
    |c d|p d r d' H|p o d r d' H|p o d r d' H|p d|d].
  - eapply (progresses_map (fun p r => if decide (_pending d !! pr_key r = Some p)
      then set_claimed false r else r)); [|simpl; lia|done..]. intros p r. by case_decide.
  - apply quiet_progresses. revert H. unfold restore_topic. run.
    destruct (0 <? _); run; [|intros [= <- <-]; by apply quiet_same].
    destruct (_ensure_topic_ready t i d) as [[]] eqn:He; intros [= <- <-]; by eapply quiet_ensure_ready.
  - apply quiet_progresses. by eapply quiet_register.
  - apply quiet_progresses. injection H as <- <-. by apply quiet_same.
  - apply quiet_progresses. revert H. unfold register_end. run.
    destruct (unregister key p d) as [[[]|] d1] eqn:Hu; intros [= <- <-]; by eapply quiet_unregister.
  - destruct c as [c|].
    + apply claim_spec in H as (data & p & r & _ & _ & Hr & _ & Hf & Hc & ->).
      split; [done|by apply insert_subseteq|]. simpl. intros q r0 Hq. rewrite lookup_insert.
      case_decide; [subst|by exists r0]. exists (set_claimed true r).
      by assert (r0 = r) as -> by congruence.
    + apply quiet_progresses. assert (d' = d) as ->; [|by apply quiet_same].
      revert H. unfold claim_response. by repeat case_match; intros [= <-].
  - apply quiet_progresses, quiet_complete.
  - apply quiet_progresses. by eapply quiet_close.
  - apply quiet_progresses. by eapply quiet_resume.
  - apply quiet_progresses. revert H. rewrite unregister_finish_eq.
    destruct (d_closing d !! p) as [[? ? [|]]|]; intros [= <- <-]; by apply quiet_same.
  - apply quiet_progresses, quiet_cancel_future.
  - eapply (progresses_map (fun p r => if decide (_pending d !! pr_key r = Some p) then
        if response_done (pr_future r) then r
        else set_future (ResponseFailed (MQTTDisconnectedError "Client disconnected")) r
      else r)); [|simpl; lia|done..]. intros p r. case_decide; [|done].
    destruct (response_done (pr_future r)) eqn:Hd; [done|]. split; [done|]. by rewrite Hd.
Qed.

(** ** No waiter is forgotten *)

(** Whoever still waits is in the table. *)
Definition no_orphans (d : _RequestDispatcher) : Prop :=
  forall p r, d_requests d !! p = Some r -> pr_future r = Waiting ->
    _pending d !! pr_key r = Some p.

(** The waiters that wait after an operation waited before it. *)
Definition settles (d d' : _RequestDispatcher) : Prop :=
  forall p r', d_requests d' !! p = Some r' -> pr_future r' = Waiting ->
    exists r, d_requests d !! p = Some r /\ pr_future r = Waiting /\ pr_key r' = pr_key r.

Lemma settles_orphans d d' :
  settles d d' -> _pending d' = _pending d -> no_orphans d -> no_orphans d'.
Proof.
  intros Hs Hp Hn p r' Hr' Hw. destruct (Hs p r' Hr' Hw) as (r & Hr & Hw0 & ->). rewrite Hp.
  by apply Hn.
Qed.

Lemma settles_same d d' : d_requests d' = d_requests d -> settles d d'.
Proof. intros E p r Hr Hw. rewrite E in Hr. by exists r. Qed.

Lemma settles_map (f : nat -> _PendingRequest -> _PendingRequest) d d' :
  (forall p r, pr_key (f p r) = pr_key r /\ (pr_future (f p r) = Waiting -> pr_future r = Waiting)) ->
  d_requests d' = map_imap (fun p r => Some (f p r)) (d_requests d) -> settles d d'.
Proof.
  intros Hf E p r'. rewrite E, map_lookup_imap. destruct (d_requests d !! p) as [r|]; [|done].
  simpl. intros [= <-] Hw. exists r. split_and!; [done|by apply (Hf p r)|by apply Hf].
Qed.

Lemma settles_alter f p d d' :
  (forall r, pr_key (f r) = pr_key r /\ (pr_future (f r) = Waiting -> pr_future r = Waiting)) ->
  d_requests d' = alter f p (d_requests d) -> settles d d'.
Proof.
  intros Hf E q r'. rewrite E, lookup_alter. case_decide as Hq; [|intros Hr Hw; by exists r'].
  subst q. destruct (d_requests d !! p) as [r|]; [|done]. simpl. intros [= <-] Hw. exists r.
  split_and!; [done|by apply (Hf r)|by apply Hf].
Qed.

Lemma no_orphans_same d d' :
  d_requests d' = d_requests d -> _pending d' = _pending d -> no_orphans d -> no_orphans d'.
Proof. intros E1 E2. by apply settles_orphans, E2; apply settles_same. Qed.

Lemma cancelled_key r :
  let r' := if response_done (pr_future r) then r else set_future ResponseCancelled r in
  pr_key r' = pr_key r /\ pr_future r' <> Waiting.
Proof. simpl. destruct (pr_future r) eqn:Hf; simpl; split; try done; by rewrite Hf. Qed.

Lemma without_waiter_orphans max key p i d :
  dispatcher_ok max d -> _pending d !! key = Some p -> no_orphans d ->
  no_orphans (without_waiter d key p i).
Proof.
  intros Hok Hk Hn q r'. unfold without_waiter. simpl. rewrite lookup_alter.
  destruct (decide (p = q)) as [<-|Hne].
  - destruct (d_requests d !! p) as [r|]; [|done]. simpl. intros [= <-] Hw.
    by destruct (cancelled_key r).
  - intros Hr Hw. specialize (Hn q r' Hr Hw). rewrite lookup_delete_ne; [done|]. intros Heq.
    congruence.
Qed.

Lemma unregister_orphans max key p r d d' :
  dispatcher_ok max d -> no_orphans d -> unregister key p d = (r, d') -> no_orphans d'.
Proof.
  intros Hok Hn. destruct (decide (_pending d !! key = Some p)) as [Hk|Hk].
  2: { rewrite unregister_stranger by done. by intros [= <- <-]. }
  destruct (do_topic _ _ Hok _ _ Hk) as [i Ht].
  pose proof (without_waiter_orphans max key p i d Hok Hk Hn) as H1.
  rewrite (unregister_eq key p i) by done. cbv zeta. destruct (0 <? _).
  { intros [= <- <-]. by apply (no_orphans_same (without_waiter d key p i)). }
  destruct (_ ≫= ready).
  { intros [= <- <-]. by apply (no_orphans_same (without_waiter d key p i)). }
  intros [= <- <-]. apply (no_orphans_same (without_waiter d key p i)); [by case_bool_decide..|done].
Qed.

Lemma register_orphans max topic data r d d' :
  dispatcher_ok max d -> no_orphans d -> register topic data d = (r, d') -> no_orphans d'.
Proof.
  intros Hok Hn. rewrite register_eq. destruct (Z.leb_spec (_capacity d) 0); [by intros [= <- <-]|].
  cbv zeta. case_bool_decide as Hfree; [intros [= <- <-]; by apply (no_orphans_same d)|].
  destruct (_protocol d) as [pr|] eqn:Hpr; [|intros [= <- <-]; by apply (no_orphans_same d)].
  apply eq_None_not_Some in Hfree.
  destruct (with_fresh_waiter _ _) as [[i p] d1] eqn:Hw.
  destruct (register_waiter max topic data d i p d1 Hok ltac:(lia) Hfree Hw)
    as (_ & _ & Hp & E1 & E2 & _).
  assert (no_orphans d1) as Hn1.
  { intros q r0. rewrite E1, E2, lookup_insert. case_decide.
    - intros [= <-] _. subst. by rewrite lookup_insert_eq.
    - intros Hr0 Hw0. specialize (Hn q r0 Hr0 Hw0). rewrite lookup_insert_ne; [done|]. intros Heq.
      rewrite <- Heq in Hn. assert (Some q = None); [|done]. by etrans; [symmetry; exact Hn|]. }
  destruct (_ensure_topic_ready topic i d1) as [r2 d2] eqn:He.
  destruct (ensure_ready_effect _ _ _ _ _ He) as (F1 & _ & F2 & _).
  destruct r2; intros [= <- <-]; by apply (no_orphans_same d1).
Qed.

Lemma step_keeps_waiters max d d' :
  dispatcher_ok max d -> dispatcher_step d d' -> no_orphans d -> no_orphans d'.
Proof.
  intros Hok Hst Hn. destruct Hst as [pr d|t i d r d' H|t data d r d' H|key p [[]|x] d r d' H
    |m msg d c d' H|c d|p d r d' H|p o d r d' H|p o d r d' H|p d|d].
  - apply (settles_orphans d); [|done..]. apply (settles_map (fun p r =>
      if decide (_pending d !! pr_key r = Some p) then set_claimed false r else r)); [|done].
    intros p r. by case_decide.
  - revert H. unfold restore_topic. run. destruct (0 <? _); run; [|by intros [= <- <-]].
    destruct (_ensure_topic_ready t i d) as [r1 d1] eqn:He.
    destruct (ensure_ready_effect _ _ _ _ _ He) as (F1 & _ & F2 & _).
    destruct r1; intros [= <- <-]; by apply (no_orphans_same d).
  - by eapply register_orphans.
  - by injection H as <- <-.
  - revert H. unfold register_end. run. destruct (unregister key p d) as [r1 d1] eqn:Hu.
    pose proof (unregister_orphans _ _ _ _ _ _ Hok Hn Hu).
    by destruct r1 as [[]|]; intros [= <- <-].
  - destruct c as [c|].
    + apply claim_spec in H as (data & p & r & _ & _ & Hr & _ & Hf & _ & ->).
      apply (settles_orphans d); [|done..]. intros q r'. simpl. rewrite lookup_insert.
      case_decide; [|by exists r']. intros [= <-] Hw. subst. by exists r.
    + revert H. unfold claim_response. by repeat case_match; intros [= <-].
  - apply (settles_orphans d); [|unfold complete; by repeat case_match|done].
    unfold complete. repeat case_match; try by apply settles_same. intros q r'. simpl.
    rewrite lookup_insert. destruct (decide _); [by intros [= <-]|by exists r'].
  - revert H. unfold close. run. destruct (d_requests d !! p) as [r0|]; [|by intros [= <- <-]].
    destruct (pr_closed r0); [by intros [= <- <-]|]. run. intros Hrun.
    eapply unregister_orphans; [by apply set_closed_ok| |exact Hrun].
    apply (settles_orphans d); [|done..]. by apply (settles_alter set_closed p).
  - revert H. unfold unregister_resume, lift. run.
    destruct (d_closing d !! p) as [[t i [task|]]|]; [|by intros [= <- <-]..].
    destruct (_ && _); run.
    + destruct o as [[]|x]; [destruct (_protocol d)|]; run; intros [= <- <-];
        by apply (no_orphans_same d).
    + destruct o; intros [= <- <-]; by apply (no_orphans_same d).
  - revert H. rewrite unregister_finish_eq.
    destruct (d_closing d !! p) as [[? ? [|]]|]; intros [= <- <-];
      by apply (no_orphans_same d).
  - apply (settles_orphans d); [|done..]. apply (settles_alter (fun r =>
      if response_done (pr_future r) then r else set_future ResponseCancelled r) p); [|done].
    intros r. by destruct (cancelled_key r).
  - intros q r'. simpl. rewrite map_lookup_imap. destruct (d_requests d !! q) as [r|] eqn:Hr; [|done].
    simpl. intros [= <-] Hw. exfalso. case_decide as Hp; [destruct (pr_future r) eqn:?; simpl in *; congruence|].
    by apply Hp, Hn.
Qed.

Lemma step_keeps_exclusive d d' :
  dispatcher_step d d' -> claims_exclusive d -> claims_exclusive d'.
Proof.
  destruct 1 as [pr d|t i d r d' H|t data d r d' H|key p [[]|x] d r d' H|m msg d c d' H
    |c d|p d r d' H|p o d r d' H|p o d r d' H|p d|d].
  - by apply next_generation_exclusive.
  - apply quiet_exclusive. revert H. unfold restore_topic. run.
    destruct (0 <? _); run; [|intros [= <- <-]; by apply quiet_same].
    destruct (_ensure_topic_ready t i d) as [[]] eqn:He; intros [= <- <-]; by eapply quiet_ensure_ready.
  - apply quiet_exclusive. by eapply quiet_register.
  - apply quiet_exclusive. injection H as <- <-. by apply quiet_same.
  - apply quiet_exclusive. revert H. unfold register_end. run.
    destruct (unregister key p d) as [[[]|] d1] eqn:Hu; intros [= <- <-]; by eapply quiet_unregister.
  - destruct c as [c|]; [by eapply claim_exclusive|].
    apply quiet_exclusive. assert (d' = d) as ->; [|by apply quiet_same].
    revert H. unfold claim_response. by repeat case_match; intros [= <-].
  - apply quiet_exclusive, quiet_complete.
  - apply quiet_exclusive. by eapply quiet_close.
  - apply quiet_exclusive. by eapply quiet_resume.
  - apply quiet_exclusive. revert H. rewrite unregister_finish_eq.
    destruct (d_closing d !! p) as [[? ? [|]]|]; intros [= <- <-]; by apply quiet_same.
  - apply quiet_exclusive, quiet_cancel_future.
  - by apply next_generation_exclusive.
Qed.

(** ** What holds of every dispatcher *)

Record dispatcher_inv (max : Z) (d : _RequestDispatcher) : Prop := {
  di_ok : dispatcher_ok max d;
  di_used : interests_used d;
  di_orphans : no_orphans d;
  di_exclusive : claims_exclusive d;
}.

Lemma new_dispatcher_inv max d : new_dispatcher max = Ok d -> dispatcher_inv max d.
Proof.
  intros Hnew. destruct (new_dispatcher_ok _ _ Hnew) as [_ Hok]. revert Hnew.
  unfold new_dispatcher. destruct (max <=? 0); [done|]. intros [= <-].
  split; [done|by intros t i|by intros p r|]. by split; simpl.
Qed.

Lemma step_keeps_inv max d d' :
  dispatcher_inv max d -> dispatcher_step d d' -> dispatcher_inv max d'.
Proof.
  intros [H1 H2 H3 H4] Hst. destruct (step_keeps_ok _ _ _ H1 H2 Hst).
  split; [done|done|exact (step_keeps_waiters _ _ _ H1 Hst H3)|exact (step_keeps_exclusive _ _ Hst H4)].
Qed.

Lemma steps_keep_inv max d d' :
  rtc dispatcher_step d d' -> dispatcher_inv max d -> dispatcher_inv max d'.
Proof.
  induction 1 as [|d1 d2 d3 Hst _ IH]; [done|]. intros Hi. by eapply IH, step_keeps_inv.
Qed.

Lemma reachable_inv max d : dispatcher_reachable max d -> dispatcher_inv max d.
Proof. intros (d0 & Hnew & Hsteps). by eapply steps_keep_inv, new_dispatcher_inv. Qed.

(** Without waiters and suspended removals, everything is back. *)
Lemma idle_dispatcher max d :
  dispatcher_inv max d -> _pending d = ∅ -> d_closing d = ∅ -> _capacity d = max /\ _topics d = ∅.
Proof.
  intros [Hok Hu _ _] Hp Hc. split.
  - pose proof (do_permits _ _ Hok) as H. rewrite Hp, Hc in H.
    rewrite (map_size_empty (M := gmap request_key)), (map_size_empty (M := gmap nat)) in H. lia.
  - apply map_empty. intros t. destruct (_topics d !! t) as [i|] eqn:Ht; [exfalso|done].
    destruct (Hu t i Ht) as (p & task & Hcl); [|by rewrite Hc in Hcl].
    apply waiters_none. intros key p. by rewrite Hp.
Qed.

Lemma steps_progress d d' : rtc dispatcher_step d d' -> progresses d d'.
Proof.
  induction 1 as [d|d1 d2 d3 Hst _ IH]; [by apply quiet_progresses, quiet_same|].
  eapply progresses_trans; [by apply step_progresses|done].
Qed.

(** ** The router interface *)

Lemma complete_settled c d :
  (forall cl r, d_claims d !! c = Some cl -> d_requests d !! cl_pending cl = Some r ->
     _generation d = cl_generation cl -> response_done (pr_future r)) ->
  complete c d = d.
Proof.
  intros Hdone. unfold complete. destruct (d_claims d !! c) as [cl|] eqn:Hc; [|done].
  destruct (d_requests d !! cl_pending cl) as [r|] eqn:Hr; [|done].
  destruct (_ && _ && _) eqn:Hb; [|done]. exfalso.
  apply andb_true_iff in Hb as [Hb Hn%negb_true_iff]. apply andb_true_iff in Hb as [Hg _].
  apply bool_decide_eq_true in Hg. specialize (Hdone cl r eq_refl Hr Hg). by rewrite Hn in Hdone.
Qed.

Lemma complete_resolves c cl r d :
  d_claims d !! c = Some cl -> d_requests d !! cl_pending cl = Some r ->
  _generation d = cl_generation cl -> _pending d !! cl_key cl = Some (cl_pending cl) ->
  pr_future r = Waiting ->
  complete c d = set_requests (<[cl_pending cl := set_future (Response (cl_message cl)) r]>
    (d_requests d)) d.
Proof.
  intros Hc Hr Hg Hp Hw. unfold complete. rewrite Hc, Hr, Hw. by rewrite !bool_decide_true.
Qed.

Lemma complete_cases c d :
  complete c d = d \/
  exists cl r, d_claims d !! c = Some cl /\ d_requests d !! cl_pending cl = Some r /\
    complete c d = set_requests (<[cl_pending cl := set_future (Response (cl_message cl)) r]>
      (d_requests d)) d.
Proof.
  unfold complete. destruct (d_claims d !! c) as [cl|] eqn:Hc; [|by left].
  destruct (d_requests d !! cl_pending cl) as [r|] eqn:Hr; [|by left].
  destruct (_ && _ && _); [right; by exists cl, r|by left].
Qed.

#[export] Instance dispatcher_router_laws : RouterLaws _RequestDispatcher.
Proof.
  split.
  - intros m msg d d'. simpl. unfold claim_response. by repeat case_match; intros [= <-].
  - intros c d. simpl. destruct (complete_cases c d) as [E|(cl & r & Hc & Hr & E)]; [by rewrite E|].
    rewrite E. apply complete_settled. simpl. rewrite Hc. intros cl' r' [= <-].
    rewrite lookup_insert_eq. by intros [= <-].
Qed.
