(* ===== verification/Correlation.v ===== *)
(** * What the request dispatcher guarantees

    The properties of [request_response.py] for every dispatcher that its operations
    can produce, in any order and with any outcome of the awaited tasks. *)

From S2P Require Import Prelude PyBytes Utf8 PropertyRecords Packets State Routing Requests RequestsFacts.
Local Open Scope Z_scope.
Implicit Types (key : request_key) (d : _RequestDispatcher).

(** C21: capacity is conserved and nothing leaks.  The permits of the semaphore, the
    waiters of the table and the suspended runs of [unregister] always add up to
    [max_pending_requests]; every interest counts exactly the waiters of its topic;
    and once nothing is pending or suspended, all permits are back and no topic is
    kept.  The permit of a waiter is given back by the very segment that ends its
    [unregister]: for a waiter that is not in the table nothing happens; for one that
    is, the part before the first [await] does not raise and either ends, with one
    permit more, or waits for the subscription without giving it back; when what it
    waits for returns, it ends with one permit more, or calls
    [remove_response_observer] once and waits for that; and when the awaited SUBSCRIBE
    or UNSUBSCRIBE raises, or the wait is cancelled, [unregister] raises the same
    exception, again with one permit more. *)
Theorem permits_conserved max d :
  dispatcher_reachable max d ->
  (0 <= _capacity d /\
   _capacity d + Z.of_nat (size (_pending d)) + Z.of_nat (size (d_closing d)) = max) /\
  (forall t i, _topics d !! t = Some i ->
     refcount <$> d_interests d !! i = Some (Z.of_nat (waiters t (_pending d)))) /\
  (_pending d = ∅ -> d_closing d = ∅ -> _capacity d = max /\ _topics d = ∅) /\
  (forall key p r d', unregister key p d = (r, d') ->
     if decide (_pending d !! key = Some p) then
       _pending d' = delete key (_pending d) /\
       ((r = Ok true /\ _capacity d' = _capacity d + 1 /\ d_closing d' = d_closing d) \/
        exists i task, r = Ok false /\ _capacity d' = _capacity d /\
          d_closing d' = <[p := mkClosing key.1 i (WaitsReady task)]> (d_closing d))
     else r = Ok true /\ d' = d) /\
  (forall p cg outcome r d',
     d_closing d !! p = Some cg -> unregister_wake p outcome d = (r, d') ->
     _pending d' = _pending d /\
     match r with
     | Ok true => outcome = Ok tt
     | Ok false => outcome = Ok tt /\ cg_phase cg <> WaitsRemoval
     | Err x => outcome = Err x
     end /\
     (if bool_decide (r = Ok false) then
        _capacity d' = _capacity d /\
        d_closing d' = <[p := mkClosing (cg_topic cg) (cg_interest cg) WaitsRemoval]> (d_closing d) /\
        exists protocol, _protocol d = Some protocol /\
          d_calls d' = d_calls d ++ [RemoveObserver protocol (cg_topic cg)]
      else _capacity d' = _capacity d + 1 /\ d_closing d' = delete p (d_closing d))).
Proof.
  intros Hinv%reachable_inv. pose proof Hinv as [Hok _ _ _].
  split_and!; [apply Hok|apply Hok|apply Hok|by apply idle_dispatcher| |].
  - intros key p r d' Hrun. case_decide; [by eapply unregister_permit|].
    rewrite unregister_stranger in Hrun by done. by injection Hrun as <- <-.
  - intros p cg outcome r d'. apply wake_permit.
Qed.

(** C22: a response reaches the request it answers, and no other.  A future that holds
    a response was claimed for it, and the message has the response topic and the
    correlation data of that request; a waiter is claimed at most once per connection;
    and delivering a claim at once hands the message to its waiter, which nobody else
    could claim in the meantime. *)
Theorem response_correlates max d :
  dispatcher_reachable max d ->
  (forall p r m, d_requests d !! p = Some r -> pr_future r = Response m ->
     exists c cl, d_claims d !! c = Some cl /\ cl_pending cl = p /\ cl_message cl = m /\
       msg_topic (cl_content cl) = (pr_key r).1 /\
       msg_properties (cl_content cl) ≫= pbp_correlation_data = Some (pr_key r).2) /\
  (forall c1 c2 cl1 cl2, d_claims d !! c1 = Some cl1 -> d_claims d !! c2 = Some cl2 ->
     cl_pending cl1 = cl_pending cl2 -> cl_generation cl1 = cl_generation cl2 -> c1 = c2) /\
  (forall m msg c d1, claim_response m msg d = (Some c, d1) ->
     exists p data, msg_properties msg ≫= pbp_correlation_data = Some data /\
       _pending d !! (msg_topic msg, data) = Some p /\
       pr_future <$> d_requests (complete c d1) !! p = Some (Response m) /\
       (forall m' msg', msg_topic msg' = msg_topic msg ->
          msg_properties msg' ≫= pbp_correlation_data = Some data ->
          claim_response m' msg' d1 = (None, d1))).
Proof.
  intros [Hok _ _ He]%reachable_inv. split_and!; [|by apply He|].
  - intros p r m Hr Hf. destruct (do_response _ _ Hok p r m Hr Hf) as (c & cl & Hc & <- & <-).
    destruct (do_claim _ _ Hok c cl Hc) as (H1 & H2 & H3). rewrite Hr in H1. injection H1 as H1.
    exists c, cl. rewrite H1. by split_and!.
  - intros m msg c d1 (data & p & r & Hdata & Hp & Hr & Hcl & Hw & Hc & ->)%claim_spec.
    exists p, data. split_and!; [done..| |].
    + rewrite (complete_resolves c (mkClaim p (msg_topic msg, data) m msg (_generation d))
        (set_claimed true r)); simpl; try done; by rewrite lookup_insert_eq.
    + intros m' msg' Ht Hd. unfold claim_response. rewrite Hd, Ht. simpl. rewrite Hp.
      by rewrite lookup_insert_eq.
Qed.

(** C23: every waiter is settled once.  A done future never changes, whatever happens
    afterwards; a claim of an earlier connection is void after a reconnect; and whoever
    still waits is in the table, so that [cancel_pending] leaves nobody waiting. *)
Theorem waiters_settled_once max d d' :
  dispatcher_reachable max d -> rtc dispatcher_step d d' ->
  (forall p r, d_requests d !! p = Some r ->
     exists r', d_requests d' !! p = Some r' /\ pr_key r' = pr_key r /\
       (response_done (pr_future r) -> pr_future r' = pr_future r)) /\
  (forall c protocol d2, is_Some (d_claims d !! c) ->
     rtc dispatcher_step (bind protocol d') d2 -> complete c d2 = d2) /\
  (forall p r, d_requests d' !! p = Some r -> pr_future r = Waiting ->
     _pending d' !! pr_key r = Some p) /\
  (forall p r, d_requests (cancel_pending d') !! p = Some r -> response_done (pr_future r)).
Proof.
  intros Hd Hsteps. pose proof (reachable_inv _ _ Hd) as Hi.
  pose proof (steps_keep_inv _ _ _ Hsteps Hi) as Hi'. pose proof (steps_progress _ _ Hsteps) as Hp.
  split_and!.
  - apply Hp.
  - intros c protocol d2 [cl Hc] H2. apply complete_settled. intros cl' r Hc' _ Hg. exfalso.
    pose proof (steps_progress _ _ H2) as Hp2.
    pose proof (lookup_weaken _ _ _ _ Hc (pg_claims _ _ Hp)) as H1.
    pose proof (lookup_weaken _ (d_claims d2) _ _ H1 (pg_claims _ _ Hp2)) as H3.
    assert (cl' = cl) as -> by congruence.
    pose proof (ce_generation _ (di_exclusive _ _ Hi) _ _ Hc).
    pose proof (pg_generation _ _ Hp). pose proof (pg_generation _ _ Hp2) as Hg2. simpl in Hg2. lia.
  - apply Hi'.
  - intros p r Hr. destruct (pr_future r) eqn:Hf; try done. exfalso.
    pose proof (di_orphans _ _ (step_keeps_inv _ _ _ Hi' (step_cancel d')) p r Hr Hf) as H0.
    done.
Qed.

(** ** A concrete dispatcher *)

Definition dispatcher0 : _RequestDispatcher := mkDispatcher 2 ∅ ∅ None 0 ∅ ∅ ∅ ∅ 0 [].

(** Connected, with one request registered *)
Definition dispatcher1 : _RequestDispatcher :=
  (register (lit "reply") [x01] (bind 7 dispatcher0)).2.

Definition response_message : Message :=
  mkMessage (lit "reply") [x02] AT_MOST_ONCE false
    (Some (mkPublishProperties None None None None (Some [x01]) None None [])).

(** The response is claimed and delivered. *)
Definition dispatcher2 : _RequestDispatcher := (claim_response 3 response_message dispatcher1).2.
Definition dispatcher3 : _RequestDispatcher := complete 0 dispatcher2.

Lemma reachable1 : dispatcher_reachable 2 dispatcher1.
Proof.
  exists dispatcher0. split; [done|]. eapply rtc_l; [apply (step_bind 7)|]. apply rtc_once.
  unfold dispatcher1. destruct (register _ _ _) as [r d] eqn:H. by eapply step_register.
Qed.

Lemma claimed2 : claim_response 3 response_message dispatcher1 = (Some 0%nat, dispatcher2).
Proof. vm_compute. reflexivity. Qed.

Lemma reachable2 : dispatcher_reachable 2 dispatcher2.
Proof.
  destruct reachable1 as (d0 & Hnew & Hsteps). exists d0. split; [done|].
  eapply rtc_r; [exact Hsteps|]. eapply step_claim. exact claimed2.
Qed.

Lemma reachable3 : dispatcher_reachable 2 dispatcher3.
Proof.
  destruct reachable2 as (d0 & Hnew & Hsteps). exists d0. split; [done|].
  eapply rtc_r; [exact Hsteps|]. apply step_complete.
Qed.

Lemma permits_conserved_witness :
  _capacity dispatcher1 = 1 /\
  refcount <$> d_interests dispatcher1 !! 0%nat
    = Some (Z.of_nat (waiters (lit "reply") (_pending dispatcher1))).
Proof.
  split; [vm_compute; reflexivity|].
  apply (proj1 (proj2 (permits_conserved 2 dispatcher1 reachable1)) (lit "reply")).
  vm_compute. reflexivity.
Defined.

Lemma response_correlates_witness :
  exists c cl, d_claims dispatcher3 !! c = Some cl /\ cl_pending cl = 0%nat /\
    cl_message cl = 3%nat /\ msg_topic (cl_content cl) = lit "reply".
Proof.
  destruct (d_requests dispatcher3 !! 0%nat) as [r|] eqn:Hr; [|vm_compute in Hr; discriminate Hr].
  assert (Hf : pr_future r = Response 3) by (vm_compute in Hr; injection Hr as <-; reflexivity).
  destruct (proj1 (response_correlates 2 dispatcher3 reachable3) 0%nat r 3%nat Hr Hf)
    as (c & cl & H1 & H2 & H3 & H4 & _).
  exists c, cl. split; [exact H1|]. split; [exact H2|]. split; [exact H3|].
  rewrite H4. vm_compute in Hr. injection Hr as <-. reflexivity.
Defined.

Lemma waiters_settled_once_witness :
  complete 0 (bind 8 dispatcher2) = bind 8 dispatcher2 /\
  pr_future <$> d_requests (bind 8 dispatcher2) !! 0%nat = Some Waiting.
Proof.
  split; [|vm_compute; reflexivity].
  apply (proj1 (proj2 (waiters_settled_once 2 dispatcher2 dispatcher2 reachable2 (rtc_refl _ _)))
    0%nat 8%nat); [vm_compute; eexists; reflexivity|apply rtc_refl].
Defined.
