(* ===== verification/Subscriptions.v ===== *)
(** * Subscriptions and response observers ([protocol.py])

    Registration of the filters of an application in the index together with their
    SUBSCRIBE exchange, their removal, and the response observers that keep a topic
    subscribed for pending requests.

    Every operation runs in the body of a [hold] of its filters ([Guards]).  It is
    split where it awaits the answer of the broker: [_subscribe_begin] runs up to the
    [await], [_subscribe_end] is what runs with its outcome. *)

From S2P Require Import Prelude Utf8 PyDict PropertyRecords Packets TopicMatching SubscriptionIndex State Protocol.
Local Open Scope Z_scope.

(** The engine and what registration uses besides: the configured prefixes, and the
    identity of the next entry. *)
Record Registry := mkRegistry {
  r_engine : Engine;
  _stripped_prefixes : list str;
  r_next_entry : nat;
}.

Notation G := (ST Registry).

Definition set_r_engine (e : Engine) (r : Registry) : Registry :=
  mkRegistry e (_stripped_prefixes r) (r_next_entry r).

Definition on_engine {A} (m : ST Engine A) : G A := zoom r_engine set_r_engine m.

(** [self._state.subscriptions] *)
Definition index (r : Registry) : SubscriptionIndex := subscriptions (e_session (r_engine r)).

Definition set_index (ix : SubscriptionIndex) (r : Registry) : Registry :=
  set_r_engine (upd_session (fun s =>
    upd_inbound (inflight_qos2_in s) (pending_ack_qos2_in s) ix s) (r_engine r)) r.

Definition change_index {A} (f : SubscriptionIndex -> A * SubscriptionIndex) : G A := fun r =>
  match f (index r) with (a, ix) => (Ok a, set_index ix r) end.

(** A [SubscriptionEntry] is an object. *)
Definition new_entry_ref : G nat := fun r =>
  (Ok (r_next_entry r), mkRegistry (r_engine r) (_stripped_prefixes r) (S (r_next_entry r))).

(** ** Subscribing *)

(** The loop of [_subscribe]: a filter that is in the index is ignored. *)
Fixpoint new_entries (filters : list SubscriptionRequest) (queue : nat) (auto_ack : bool)
    (subscription_identifier : option Z) (acc : dict str SubscriptionEntry)
    : G (dict str SubscriptionEntry) :=
  match filters with
  | [] => mret acc
  | req :: filters' =>
      let f := sr_topic_filter req in
      known ← gets (fun r => contains (index r) f);
      if known : bool then new_entries filters' queue auto_ack subscription_identifier acc
      else
        prefixes ← gets _stripped_prefixes;
        actual ← lift (_shared_filter_to_actual f prefixes);
        ref ← new_entry_ref;
        new_entries filters' queue auto_ack subscription_identifier
          (dict_set acc f (mkEntry ref queue auto_ack actual subscription_identifier))
  end.

Definition remove_all (fs : list str) (ix : SubscriptionIndex) : SubscriptionIndex :=
  foldl (fun ix f => (remove ix f).2) ix fs.

(** The [finally] block of [_subscribe] *)
Definition forget (new : dict str SubscriptionEntry) (r : Registry) : Registry :=
  set_index (remove_all new.*1 (index r)) r.

(** [_subscribe] up to the wait for the SUBACK: the exchange and the new entries *)
Definition _subscribe_begin (filters : list SubscriptionRequest) (queue : nat) (auto_ack : bool)
    (subscription_identifier : option Z) : G ((Z * nat) * dict str SubscriptionEntry) :=
  new ← new_entries filters queue auto_ack subscription_identifier [];
  _ ← modify (fun r => set_index (add_many (index r) new) r);
  finally_on_error
    (x ← on_engine (_send_subscribe_begin filters subscription_identifier); mret (x, new))
    (forget new).

(** The SUBACK and the queues by filter *)
Definition _subscribe_end (filters : list SubscriptionRequest) (new : dict str SubscriptionEntry)
    (pid : Z) (outcome : result SubAck) : G (SubAck * dict str nat) :=
  finally_on_error
    (suback ← on_engine (_send_subscribe_end filters pid outcome);
     mret (suback, (fun it => (it.1, queue it.2)) <$> new))
    (forget new).

(** ** Unsubscribing *)

(** [SubscriptionRequest(topic_filter=f, qos=QoS.AT_MOST_ONCE)] *)
Definition observer_request (f : str) : SubscriptionRequest :=
  mkSubscriptionRequest f AT_MOST_ONCE false false SEND_ON_SUBSCRIBE.

(** Where [_unsubscribe] is: it waits for the UNSUBACK, then for the SUBACK of the
    filters that stay subscribed for response observers. *)
Inductive unsubscribing :=
| AwaitsUnsuback (pid : Z) (future : nat) (observed : list str)
| AwaitsSuback (pid : Z) (future : nat) (requests : list SubscriptionRequest)
    (unsuback : option UnsubAck)
| Unsubscribed (unsuback : option UnsubAck).

Definition resubscribe (observed : list str) (unsuback : option UnsubAck) : G unsubscribing :=
  match observed with
  | [] => mret (Unsubscribed unsuback)
  | _ =>
      let requests := observer_request <$> observed in
      x ← on_engine (_send_subscribe_begin requests None);
      mret (AwaitsSuback x.1 x.2 requests unsuback)
  end.

Definition _unsubscribe (filters : list str) : G unsubscribing :=
  _ ← on_engine _ensure_alive;
  ix ← gets index;
  let observed_filters := filter (fun f => has_response_observer ix f = true) filters in
  let broker_filters := filter (fun f => f ∉ observed_filters) filters in
  _ ← modify (set_index (remove_all filters ix));
  match broker_filters with
  | [] => resubscribe observed_filters None
  | _ =>
      x ← on_engine (_send_unsubscribe_begin broker_filters);
      mret (AwaitsUnsuback x.1 x.2 observed_filters)
  end.

(** [_unsubscribe] with the outcome of its wait *)
Definition _unsubscribe_unsuback (pid : Z) (observed : list str) (outcome : result UnsubAck)
    : G unsubscribing :=
  unsuback ← on_engine (_send_unsubscribe_end pid outcome);
  resubscribe observed (Some unsuback).

Definition _unsubscribe_suback (pid : Z) (requests : list SubscriptionRequest)
    (unsuback : option UnsubAck) (outcome : result SubAck) : G unsubscribing :=
  _ ← on_engine (_send_subscribe_end requests pid outcome);
  mret (Unsubscribed unsuback).

(** ** Response observers *)

Definition drop_observer (topic : str) (r : Registry) : Registry :=
  set_index (remove_response_observer (index r) topic).2 r.

(** The exchange to wait for, none when the topic is subscribed already *)
Definition _add_response_observer (topic : str) : G (option (Z * nat)) :=
  _ ← on_engine _ensure_alive;
  added ← change_index (fun ix => add_response_observer ix topic);
  if negb added then mret None
  else
    known ← gets (fun r => contains (index r) topic);
    if known : bool then mret None
    else
      finally_on_error
        (x ← on_engine (_send_subscribe_begin [observer_request topic] None); mret (Some x))
        (drop_observer topic).

Definition _add_response_observer_end (topic : str) (pid : Z) (outcome : result SubAck) : G unit :=
  finally_on_error
    (_ ← on_engine (_send_subscribe_end [observer_request topic] pid outcome); mret tt)
    (drop_observer topic).

Definition _remove_response_observer (topic : str) : G (option (Z * nat)) :=
  removed ← change_index (fun ix => remove_response_observer ix topic);
  if negb removed then mret None
  else
    known ← gets (fun r => contains (index r) topic);
    dead ← gets (fun r => e_dead (r_engine r));
    if (known : bool) || dead then mret None
    else
      x ← on_engine (_send_unsubscribe_begin [topic]);
      mret (Some x).

Definition _remove_response_observer_end (pid : Z) (outcome : result UnsubAck) : G UnsubAck :=
  on_engine (_send_unsubscribe_end pid outcome).
