(* ===== verification/SubscriptionsFacts.v ===== *)
(** * The ownership of subscriptions

    What the operations of [Subscriptions] do to the index, and the system in which
    they run: tasks in the bodies of their guards, beside everything else the engine
    does.  Subscribing is all or nothing, and what the index and the observers
    contain is subscribed at the broker. *)

From stdpp Require Import fin_sets.
From S2P Require Import Prelude PyBytes Utf8 PyDict PropertyRecords Packets Codec TopicMatching SubscriptionIndex IndexFacts State Protocol ProtocolFacts ProtocolFrames Guards GuardsFacts Subscriptions.
Local Open Scope Z_scope.

(** ** The index under the operations *)

Lemma on_engine_eq {A} (m : ST Engine A) r :
  on_engine m r = ((m (r_engine r)).1, set_r_engine (m (r_engine r)).2 r).
Proof. unfold on_engine, zoom. by destruct (m (r_engine r)). Qed.

Lemma index_on_engine {A} (m : ST Engine A) r :
  outbound_only m -> index (on_engine m r).2 = index r.
Proof. intros Hm. rewrite on_engine_eq. apply (Hm (r_engine r)). Qed.

Lemma index_set_index ix r : index (set_index ix r) = ix.
Proof. done. Qed.

Lemma contains_keys ix f : contains ix f = true <-> f ∈ (_entries ix).*1.
Proof.
  unfold contains, dict_in. destruct (dict_get (_entries ix) f) eqn:Hf.
  - split; [|done]. intros _. destruct (decide (f ∈ (_entries ix).*1)) as [|Hn]; [done|].
    apply dict_get_None in Hn. congruence.
  - apply dict_get_None in Hf. split; done.
Qed.

Lemma remove_all_spec fs : forall ix,
  _entries (remove_all fs ix) = filter (fun it => it.1 ∉ fs) (_entries ix) /\
  _response_observers (remove_all fs ix) = _response_observers ix /\
  (index_ok ix -> index_ok (remove_all fs ix)).
Proof.
  induction fs as [|f fs IH]; intros ix; simpl.
  - split_and!; [|done|done]. symmetry. apply filter_all. intros ? _. apply not_elem_of_nil.
  - destruct (IH (remove ix f).2) as (He & Ho & Hok). split_and!.
    + rewrite He, entries_remove. unfold dict_del. rewrite list_filter_filter.
      apply list_filter_iff. intros it. rewrite not_elem_of_cons. tauto.
    + rewrite Ho. unfold remove. by destruct (dict_get _ f).
    + intros Hix. by apply Hok, index_ok_remove.
Qed.

(** Entries for new filters are appended. *)
Lemma add_many_fresh l : forall ix,
  dict_wf (_entries ix ++ l) ->
  _response_observers (add_many ix l) = _response_observers ix /\
  (index_ok ix -> index_ok (add_many ix l) /\ _entries (add_many ix l) = _entries ix ++ l).
Proof.
  induction l as [|[f e] l IH]; intros ix Hwf; simpl; [by rewrite app_nil_r|].
  assert (Hf : f ∉ (_entries ix).*1).
  { unfold dict_wf in Hwf. rewrite fmap_app in Hwf. simpl in Hwf.
    apply NoDup_app in Hwf as (_ & Hd & _). intros Hin. apply (Hd f Hin). by left. }
  assert (Ha : _entries (add ix f e) = _entries ix ++ [(f, e)] /\
    _response_observers (add ix f e) = _response_observers ix).
  { rewrite add_eq. unfold dict_in. apply dict_get_None in Hf as ->. unfold add_fresh. simpl.
    rewrite dict_set_fresh; [done|]. intros Hin. unfold dict_wf in Hwf. rewrite fmap_app in Hwf.
    apply NoDup_app in Hwf as (_ & Hd & _). apply (Hd f Hin). by left. }
  destruct Ha as [He Ho]. destruct (IH (add ix f e)) as [Ho' Hok].
  { rewrite He. by rewrite <- app_assoc. }
  split; [by rewrite Ho'|]. intros Hix. destruct Hok as [Hok' He']; [by apply index_ok_add|].
  split; [done|]. rewrite He', He. by rewrite <- app_assoc.
Qed.

(** *** The new entries *)

Definition entry_for (prefixes : list str) (q : nat) (auto : bool) (sid : option Z) (it : item)
    : Prop :=
  queue it.2 = q /\ auto_ack it.2 = auto /\ subscription_identifier it.2 = sid /\
  _shared_filter_to_actual it.1 prefixes = Ok (actual_filter it.2).

Lemma Forall_dict_set {K V} `{EqDecision K} (P : K * V -> Prop) d k v :
  Forall P d -> P (k, v) -> Forall P (dict_set d k v).
Proof.
  intros Hd Hv. induction Hd as [|[k' v'] d Hp Hd IH]; simpl; [by constructor|].
  case_decide; subst; by constructor.
Qed.

Lemma new_entries_spec fs q auto sid : forall acc r,
  dict_wf acc ->
  exists new n, new_entries fs q auto sid acc r
    = (Ok new, mkRegistry (r_engine r) (_stripped_prefixes r) n) /\
  dict_wf new /\
  (forall f, f ∈ new.*1 <->
     f ∈ acc.*1 \/ (f ∈ sr_topic_filter <$> fs /\ contains (index r) f = false)) /\
  (Forall (entry_for (_stripped_prefixes r) q auto sid) acc ->
   Forall (entry_for (_stripped_prefixes r) q auto sid) new).
Proof.
  induction fs as [|req fs IH]; intros acc r Hwf; cbn [new_entries].
  - exists acc, (r_next_entry r). split_and!; [by destruct r|done| |done]. intros f.
    split; [by left|]. intros [?|[[]%elem_of_nil _]]; done.
  - set (f0 := sr_topic_filter req). run. destruct (contains (index r) f0) eqn:Hc.
    + destruct (IH acc r Hwf) as (new & n & Hr & Hn & Hk & Hf). exists new, n.
      split_and!; [done|done| |done]. intros f. rewrite Hk, fmap_cons, elem_of_cons. fold f0.
      split; [intros [?|[? ?]]; [by left|right; split; [by right|done]]|].
      intros [?|[[->|?] ?]]; [by left|congruence|by right].
    + run. unfold lift at 1.
      destruct (shared_filter_to_actual_total f0 (_stripped_prefixes r)) as [actual Ha].
      rewrite Ha. run. unfold new_entry_ref at 1.
      set (r1 := mkRegistry (r_engine r) (_stripped_prefixes r) (S (r_next_entry r))).
      set (e := mkEntry (r_next_entry r) q auto actual sid).
      destruct (IH (dict_set acc f0 e) r1) as (new & n & Hr & Hn & Hk & Hf);
        [by apply dict_wf_set|].
      exists new, n. split_and!; [done|done| |].
      * intros f. rewrite Hk, dict_set_keys, fmap_cons, elem_of_cons. fold f0.
        change (index r1) with (index r). destruct (decide (f = f0)) as [->|Hne].
        { case_decide; [tauto|]. rewrite elem_of_app, list_elem_of_singleton. tauto. }
        case_decide; [tauto|]. rewrite elem_of_app, list_elem_of_singleton. tauto.
      * intros Hacc. apply Hf. apply Forall_dict_set; [done|]. by split_and!.
Qed.

(** [new] are entries for exactly the filters that are not in the index. *)
Record new_ok (r : Registry) (fs : list SubscriptionRequest) (q : nat) (auto : bool)
    (sid : option Z) (new : dict str SubscriptionEntry) : Prop := {
  nw_wf : dict_wf new;
  nw_keys f : f ∈ new.*1 <-> f ∈ sr_topic_filter <$> fs /\ contains (index r) f = false;
  nw_entries : Forall (entry_for (_stripped_prefixes r) q auto sid) new;
}.

Lemma new_ok_fresh r fs q auto sid new :
  index_ok (index r) -> new_ok r fs q auto sid new -> dict_wf (_entries (index r) ++ new).
Proof.
  intros Hix Hn. unfold dict_wf. rewrite fmap_app. apply NoDup_app.
  split_and!; [apply Hix| |apply Hn]. intros f Hf [_ Hc]%(nw_keys _ _ _ _ _ _ Hn).
  apply contains_keys in Hf. congruence.
Qed.

(** [_subscribe_begin] as one step of the engine between two changes of the index *)
Lemma subscribe_begin_run fs q auto sid r :
  exists new n, new_ok r fs q auto sid new /\
    let r1 := set_index (add_many (index r) new)
                (mkRegistry (r_engine r) (_stripped_prefixes r) n) in
    _subscribe_begin fs q auto sid r =
      match _send_subscribe_begin fs sid (r_engine r1) with
      | (Ok x, e) => (Ok (x, new), set_r_engine e r1)
      | (Err x, e) => (Err x, forget new (set_r_engine e r1))
      end.
Proof.
  destruct (new_entries_spec fs q auto sid [] r) as (new & n & Hr & Hwf & Hk & Hf); [constructor|].
  exists new, n. split.
  - split; [done| |by apply Hf]. intros f. rewrite Hk. simpl. split; [|by right].
    by intros [?%elem_of_nil|?].
  - unfold _subscribe_begin. rewrite run_bind, Hr. run. unfold finally_on_error. rewrite run_bind.
    rewrite on_engine_eq. by destruct (_send_subscribe_begin _ _ _) as [[x|x] e].
Qed.

Lemma index_subscribed fs sid r : index (set_r_engine (_send_subscribe_begin fs sid (r_engine r)).2 r) = index r.
Proof.
  pose proof (index_on_engine _ r (oo_subscribe_begin fs sid)) as H. by rewrite on_engine_eq in H.
Qed.

Lemma forget_entries new r :
  _entries (index (forget new r)) = filter (fun it => it.1 ∉ new.*1) (_entries (index r)).
Proof. apply remove_all_spec. Qed.

(** *** What [_subscribe_begin] leaves behind *)
Lemma subscribe_begin_index fs q auto sid r :
  index_ok (index r) ->
  exists new, new_ok r fs q auto sid new /\
  match _subscribe_begin fs q auto sid r with
  | (Ok (_, new'), r1) => new' = new /\ _entries (index r1) = _entries (index r) ++ new
  | (Err _, r1) => _entries (index r1) = _entries (index r)
  end /\
  let r1 := (_subscribe_begin fs q auto sid r).2 in
  index_ok (index r1) /\ _response_observers (index r1) = _response_observers (index r) /\
  _stripped_prefixes r1 = _stripped_prefixes r.
Proof.
  intros Hix. destruct (subscribe_begin_run fs q auto sid r) as (new & n & Hn & Hr).
  exists new. split; [done|]. cbv zeta in *. rewrite Hr. clear Hr.
  pose proof (new_ok_fresh _ _ _ _ _ _ Hix Hn) as Hfr.
  destruct (add_many_fresh new (index r) Hfr) as [Ho Ha]. destruct (Ha Hix) as [Hok He].
  match goal with |- context [set_index ?ix ?r0] => set (r1 := set_index ix r0) end.
  pose proof (index_subscribed fs sid r1) as Hi.
  destruct (_send_subscribe_begin fs sid (r_engine r1)) as [[x|x] e]; cbn [fst snd] in *.
  - rewrite Hi. split; [done|]. by split_and!.
  - destruct (remove_all_spec new.*1 (index (set_r_engine e r1))) as (He' & Ho' & Hok').
    rewrite Hi in He', Ho', Hok'. change (index r1) with (add_many (index r) new) in *.
    unfold forget. rewrite !index_set_index, Hi. change (index r1) with (add_many (index r) new).
    rewrite He in He'. split.
    + rewrite He', filter_app, filter_all, filter_none, app_nil_r; [done| |].
      * intros it Hit Hc. apply Hc. by apply list_elem_of_fmap_2.
      * intros it Hit [_ Hc]%(nw_keys _ _ _ _ _ _ Hn).
        apply (list_elem_of_fmap_2 fst), contains_keys in Hit. congruence.
    + split_and!; [by apply Hok'|by rewrite Ho'|done].
Qed.

(** *** The other operations *)

Lemma finally_run {S A} (m : ST S A) f s :
  finally_on_error m f s =
    match m s with (Ok a, s') => (Ok a, s') | (Err x, s') => (Err x, f s') end.
Proof. done. Qed.

Lemma index_ended fs pid outcome r :
  index (set_r_engine (_send_subscribe_end fs pid outcome (r_engine r)).2 r) = index r.
Proof.
  pose proof (index_on_engine _ r (oo_subscribe_end fs pid outcome)) as H.
  by rewrite on_engine_eq in H.
Qed.

(** A SUBACK that rejects nothing keeps the entries, everything else removes them. *)
Lemma subscribe_end_index fs new pid outcome r :
  match _subscribe_end fs new pid outcome r with
  | (Ok (suback, queues), r1) =>
      outcome = Ok suback /\ _raise_on_rejected_filters fs suback = Ok tt /\
      queues = (fun it => (it.1, queue it.2)) <$> new /\ index r1 = index r
  | (Err _, r1) =>
      _entries (index r1) = filter (fun it => it.1 ∉ new.*1) (_entries (index r)) /\
      _response_observers (index r1) = _response_observers (index r) /\
      (index_ok (index r) -> index_ok (index r1))
  end.
Proof.
  unfold _subscribe_end. rewrite finally_run, run_bind, on_engine_eq.
  pose proof (index_ended fs pid outcome r) as Hi. rewrite subscribe_end_eq in *. cbn [fst snd] in *.
  assert (He : forall x, index (forget new (set_r_engine (upd_session (drop_sub pid) (r_engine r)) r)) = x ->
    _entries x = filter (fun it => it.1 ∉ new.*1) (_entries (index r)) /\
    _response_observers x = _response_observers (index r) /\ (index_ok (index r) -> index_ok x)).
  { intros x <-. unfold forget. rewrite index_set_index, Hi. apply remove_all_spec. }
  destruct outcome as [a|x]; [|by apply He].
  destruct (_raise_on_rejected_filters fs a) as [[]|x] eqn:Hr; [|by apply He].
  by split_and!.
Qed.

Lemma resubscribe_index observed u r : index (resubscribe observed u r).2 = index r.
Proof.
  unfold resubscribe. destruct observed as [|f fs]; [done|]. rewrite run_bind, on_engine_eq.
  pose proof (index_subscribed (observer_request <$> f :: fs) None r) as Hi.
  by destruct (_send_subscribe_begin _ None _) as [[x|x] e].
Qed.

Definition unobserved (r : Registry) (fs : list str) : list str :=
  filter (fun f => f ∉ _response_observers (index r)) fs.

(** The filters leave the index at once; only those without observers are
    unsubscribed. *)
Lemma unsubscribe_index fs r :
  index (_unsubscribe fs r).2 = if e_dead (r_engine r) then index r else remove_all fs (index r).
Proof.
  unfold _unsubscribe. rewrite run_bind, on_engine_eq, ensure_alive_eq. cbn [fst snd].
  destruct (e_dead (r_engine r)); [done|]. run.
  match goal with |- context [set_index ?ix ?r0] => set (r1 := set_index ix r0) end.
  change (remove_all fs (index r)) with (index r1).
  destruct (filter _ fs) as [|f0 fs0]; [apply resubscribe_index|].
  rewrite run_bind, on_engine_eq.
  pose proof (index_on_engine _ r1 (oo_unsubscribe_begin (f0 :: fs0))) as Hi.
  rewrite on_engine_eq in Hi. by destruct (_send_unsubscribe_begin _ _) as [[x|x] e].
Qed.

Lemma unsubscribe_unsuback_index pid observed outcome r :
  index (_unsubscribe_unsuback pid observed outcome r).2 = index r.
Proof.
  unfold _unsubscribe_unsuback. rewrite run_bind.
  pose proof (index_on_engine _ r (oo_unsubscribe_end pid outcome)) as Hi.
  rewrite on_engine_eq in *. cbn [fst snd] in *.
  destruct (_send_unsubscribe_end pid outcome (r_engine r)) as [[a|x] e]; [|done].
  exact (eq_trans (resubscribe_index observed (Some a) (set_r_engine e r)) Hi).
Qed.

Lemma unsubscribe_suback_index pid requests u outcome r :
  index (_unsubscribe_suback pid requests u outcome r).2 = index r.
Proof.
  unfold _unsubscribe_suback. rewrite run_bind.
  pose proof (index_on_engine _ r (oo_subscribe_end requests pid outcome)) as Hi.
  rewrite on_engine_eq in *. cbn [fst snd] in *.
  by destruct (_send_subscribe_end requests pid outcome (r_engine r)) as [[a|x] e].
Qed.

(** Only the observers differ, by at most one topic. *)
Definition observers_become (ix ix' : SubscriptionIndex) (obs : gset str) : Prop :=
  _entries ix' = _entries ix /\ _response_observers ix' = obs /\ (index_ok ix -> index_ok ix').

Lemma observers_become_refl ix : observers_become ix ix (_response_observers ix).
Proof. done. Qed.

Lemma remove_observer_index ix t :
  observers_become ix (remove_response_observer ix t).2 (_response_observers ix ∖ {[t]}) /\
  (remove_response_observer ix t).1 = has_response_observer ix t.
Proof.
  unfold remove_response_observer, has_response_observer. case_decide; simpl.
  - split; [|by rewrite bool_decide_true]. split_and!; [done..|]. apply index_ok_observers.
  - split; [|by rewrite bool_decide_false]. split_and!; [done| |done]. set_solver.
Qed.

Lemma add_observer_index t r :
  match _add_response_observer t r with
  | (Ok w, r1) =>
      observers_become (index r) (index r1) ({[t]} ∪ _response_observers (index r)) /\
      (w = None -> t ∈ _response_observers (index r) \/ contains (index r) t = true) /\
      (is_Some w -> (t ∉ _response_observers (index r)) /\ contains (index r) t = false)
  | (Err _, r1) => observers_become (index r) (index r1) (_response_observers (index r))
  end.
Proof.
  unfold _add_response_observer. rewrite run_bind, on_engine_eq, ensure_alive_eq. cbn [fst snd].
  destruct (e_dead (r_engine r)); [done|]. rewrite run_bind. unfold change_index at 1.
  change (index (set_r_engine (r_engine r) r)) with (index r).
  change (set_r_engine (r_engine r) r) with (mkRegistry (r_engine r) (_stripped_prefixes r) (r_next_entry r)).
  unfold add_response_observer. case_decide as Ht.
  - cbn [negb]. split_and!; [|by left|by intros []]. split_and!; [done|set_solver|done].
  - cbn [negb]. run. set (ix1 := mkIndex _ _ _ _). rewrite index_set_index.
    change (contains ix1 t) with (contains (index r) t).
    assert (Hb : observers_become (index r) ix1 ({[t]} ∪ _response_observers (index r))).
    { split_and!; [done..|]. apply index_ok_observers. }
    destruct (contains (index r) t) eqn:Hc; [split_and!; [exact Hb|by right|by intros []]|].
    match goal with |- context [set_index ?ix ?r0] => set (r1 := set_index ix r0) end.
    rewrite finally_run, run_bind, on_engine_eq.
    pose proof (index_subscribed [observer_request t] None r1) as Hi.
    destruct (_send_subscribe_begin _ None _) as [[x|x] e]; cbn [fst snd] in *.
    + rewrite run_ret, Hi. split_and!; [exact Hb|done|done].
    + unfold drop_observer. rewrite index_set_index, Hi. change (index r1) with ix1.
      destruct (remove_observer_index ix1 t) as [(H1 & H2 & H3) _].
      destruct Hb as (B1 & B2 & B3). split_and!; [by rewrite H1|rewrite H2, B2; set_solver|auto].
Qed.

Lemma add_observer_end_index t pid outcome r :
  match _add_response_observer_end t pid outcome r with
  | (Ok _, r1) => index r1 = index r
  | (Err _, r1) => observers_become (index r) (index r1) (_response_observers (index r) ∖ {[t]})
  end.
Proof.
  unfold _add_response_observer_end. rewrite finally_run, run_bind, on_engine_eq.
  pose proof (index_ended [observer_request t] pid outcome r) as Hi.
  destruct (_send_subscribe_end _ pid outcome _) as [[a|x] e]; cbn [fst snd] in *; [done|].
  unfold drop_observer. rewrite index_set_index, Hi. apply remove_observer_index.
Qed.

Lemma drop_observer_index t r :
  observers_become (index r) (index (_remove_response_observer t r).2)
    (_response_observers (index r) ∖ {[t]}).
Proof.
  unfold _remove_response_observer. rewrite run_bind. unfold change_index at 1.
  destruct (remove_observer_index (index r) t) as [Hb _].
  destruct (remove_response_observer (index r) t) as [removed ix] eqn:Hr. cbn [fst snd] in *.
  destruct (negb removed); [done|]. run.
  destruct (_ || _); [done|]. rewrite run_bind.
  pose proof (index_on_engine _ (set_index ix r) (oo_unsubscribe_begin [t])) as Hi.
  rewrite on_engine_eq in *. cbn [fst snd] in *.
  destruct (_send_unsubscribe_begin _ _) as [[x|x] e]; cbn [fst snd] in *;
    try rewrite run_ret; cbn [snd]; by rewrite Hi.
Qed.
