(* ===== verification/Ownership.v ===== *)
(** * What is registered is subscribed

    The operations of [Subscriptions] as tasks in the bodies of their guards, beside
    everything else the engine does.  The filters the broker is known to serve are
    part of the state: a SUBACK adds the filters of its SUBSCRIBE whose return code is
    no failure, whatever the client makes of it, and every UNSUBSCRIBE among the bytes
    that are written removes its filters at once. *)

From stdpp Require Import fin_sets.
From S2P Require Import Prelude PyBytes Utf8 PyDict PropertyRecords Packets Codec CodecFacts CodecSound TopicMatching SubscriptionIndex IndexFacts State Protocol ProtocolFacts ProtocolFrames Guards GuardsFacts Subscriptions SubscriptionsFacts.
Local Open Scope Z_scope.

(** ** The system *)

(** An operation that waits for the broker *)
Inductive task :=
| Subscribing (filters : list SubscriptionRequest) (new : dict str SubscriptionEntry) (pid : Z)
    (future : nat)
| Unsubscribing (stage : unsubscribing)
| AddingObserver (topic : str) (pid : Z) (future : nat)
| RemovingObserver (pid : Z) (future : nat).

Record System := mkSystem {
  y_guards : _SubscriptionGuards;
  y_registry : Registry;
  y_tasks : gmap nat task;
  y_broker : gset str;
}.

Definition engine_of (y : System) : Engine := r_engine (y_registry y).
Definition index_of (y : System) : SubscriptionIndex := index (y_registry y).

Definition set_task (t : nat) (k : option task) (tasks : gmap nat task) : gmap nat task :=
  match k with Some k => <[t := k]> tasks | None => delete t tasks end.

(** The filters that the packet of these bytes unsubscribes, and those that what was
    written between two states of the engine does *)
Definition unsubscribe_filters (v : MQTTVersion) (data : bytes) : gset str :=
  match decode data v with
  | Ok (Some (PUnsubscribe u, _)) => list_to_set (us_topic_filters u)
  | _ => ∅
  end.

Definition unsubscribed (e e' : Engine) : gset str :=
  ⋃ (unsubscribe_filters (e_version e) <$> drop (length (e_wire e)) (e_wire e')).

(** The filters that the broker serves by its answer to a SUBSCRIBE: those whose return
    code, by position, is below 0x80.  Like the client, this takes the filters for
    granted that the answer has no code for. *)
Fixpoint not_failed (requests : list SubscriptionRequest) (codes : list Z) : list str :=
  match requests, codes with
  | [], _ => []
  | req :: requests', [] => sr_topic_filter req :: not_failed requests' []
  | req :: requests', code :: codes' =>
      if 0x80 <=? code then not_failed requests' codes'
      else sr_topic_filter req :: not_failed requests' codes'
  end.

Definition granted (requests : list SubscriptionRequest) (outcome : result SubAck) : gset str :=
  match outcome with
  | Ok suback => list_to_set (not_failed requests (sa_return_codes suback))
  | Err _ => ∅
  end.

(** The task [t] runs until it waits again or ends.  [gained] are the filters that the
    SUBACK it resumes with grants, also when the task then raises. *)
Definition run_task {A} (t : nat) (m : G A) (next : A -> option task) (gained : gset str)
    (y : System) : System :=
  let r := (m (y_registry y)).2 in
  let served := y_broker y ∖ unsubscribed (engine_of y) (r_engine r) in
  match (m (y_registry y)).1 with
  | Ok a => mkSystem (y_guards y) r (set_task t (next a) (y_tasks y)) (served ∪ gained)
  | Err _ => mkSystem (y_guards y) r (delete t (y_tasks y)) (served ∪ gained)
  end.

(** The task [t] is in the body of a [hold] of these filters and does not run yet. *)
Definition may_run (y : System) (t : nat) (fs : list str) : Prop :=
  y_tasks y !! t = None /\
  exists h, g_holds (y_guards y) !! t = Some h /\ in_body h = true /\ forall f, f ∈ fs -> uses f h.

Definition waits_for_suback (y : System) (pid : Z) (f : nat) (outcome : result SubAck) : Prop :=
  pending_subs (e_session (engine_of y)) !! pid = Some f /\
  resumes VSubAck (fut f (engine_of y)) outcome.

Definition waits_for_unsuback (y : System) (pid : Z) (f : nat) (outcome : result UnsubAck) : Prop :=
  pending_unsubs (e_session (engine_of y)) !! pid = Some f /\
  resumes VUnsubAck (fut f (engine_of y)) outcome.

Definition unsubscribing_task (u : unsubscribing) : option task :=
  match u with Unsubscribed _ => None | _ => Some (Unsubscribing u) end.

Inductive sys_step (y : System) : System -> Prop :=
| sy_guards g :
    guards_step (y_guards y) g ->
    (forall t h, is_Some (y_tasks y !! t) -> g_holds (y_guards y) !! t = Some h ->
       g_holds g !! t = Some h) ->
    sys_step y (mkSystem g (y_registry y) (y_tasks y) (y_broker y))
| sy_engine e :
    step (engine_of y) e -> subscriptions (e_session e) = index_of y ->
    unsubscribed (engine_of y) e = ∅ ->
    sys_step y (mkSystem (y_guards y) (set_r_engine e (y_registry y)) (y_tasks y) (y_broker y))
| sy_subscribe t fs q auto sid :
    may_run y t (sr_topic_filter <$> fs) ->
    Forall (fun req => validate_subscribe_topic (sr_topic_filter req) = Ok tt) fs ->
    sys_step y (run_task t (_subscribe_begin fs q auto sid)
      (fun a => Some (Subscribing fs a.2 a.1.1 a.1.2)) ∅ y)
| sy_subscribe_end t fs new pid f outcome :
    y_tasks y !! t = Some (Subscribing fs new pid f) -> waits_for_suback y pid f outcome ->
    sys_step y (run_task t (_subscribe_end fs new pid outcome) (fun _ => None)
      (granted fs outcome) y)
| sy_unsubscribe t fs :
    may_run y t fs ->
    sys_step y (run_task t (_unsubscribe fs) unsubscribing_task ∅ y)
| sy_unsuback t pid f observed outcome :
    y_tasks y !! t = Some (Unsubscribing (AwaitsUnsuback pid f observed)) ->
    waits_for_unsuback y pid f outcome ->
    sys_step y (run_task t (_unsubscribe_unsuback pid observed outcome) unsubscribing_task ∅ y)
| sy_resubscribed t pid f requests u outcome :
    y_tasks y !! t = Some (Unsubscribing (AwaitsSuback pid f requests u)) ->
    waits_for_suback y pid f outcome ->
    sys_step y (run_task t (_unsubscribe_suback pid requests u outcome) unsubscribing_task
      (granted requests outcome) y)
| sy_add_observer t topic :
    may_run y t [topic] ->
    sys_step y (run_task t (_add_response_observer topic)
      (fun w => (fun x => AddingObserver topic x.1 x.2) <$> w) ∅ y)
| sy_add_observer_end t topic pid f outcome :
    y_tasks y !! t = Some (AddingObserver topic pid f) -> waits_for_suback y pid f outcome ->
    sys_step y (run_task t (_add_response_observer_end topic pid outcome) (fun _ => None)
      (granted [observer_request topic] outcome) y)
| sy_remove_observer t topic :
    may_run y t [topic] ->
    sys_step y (run_task t (_remove_response_observer topic)
      (fun w => (fun x => RemovingObserver x.1 x.2) <$> w) ∅ y)
| sy_remove_observer_end t pid f outcome :
    y_tasks y !! t = Some (RemovingObserver pid f) -> waits_for_unsuback y pid f outcome ->
    sys_step y (run_task t (_remove_response_observer_end pid outcome) (fun _ => None) ∅ y).

Definition new_system (v : MQTTVersion) (max_qos : QoS) (prefixes : list str) : System :=
  mkSystem new_guards (mkRegistry (new_engine v max_qos) prefixes 0) ∅ ∅.

Definition sys_reachable (v : MQTTVersion) (max_qos : QoS) (prefixes : list str)
    : System -> Prop := rtc sys_step (new_system v max_qos prefixes).

(** ** The invariant *)

(** The broker has not confirmed the filter to the task that wants it. *)
Definition wants (f : str) (k : task) : Prop :=
  match k with
  | Subscribing _ new _ _ => f ∈ new.*1
  | _ => False
  end.

Definition wants_observed (f : str) (k : task) : Prop :=
  match k with AddingObserver topic _ _ => f = topic | _ => False end.

Definition waiting (P : task -> Prop) (y : System) (f : str) : Prop :=
  exists t k h, y_tasks y !! t = Some k /\ P k /\ g_holds (y_guards y) !! t = Some h /\
    in_body h = true /\ uses f h.

Record sys_ok (prefixes : list str) (y : System) : Prop := {
  sk_guards : guards_reachable (y_guards y);
  sk_engine : engine_ok (engine_of y);
  sk_index : index_ok (index_of y);
  sk_prefixes : _stripped_prefixes (y_registry y) = prefixes;
  sk_valid : Forall (valid_entry prefixes) (_entries (index_of y));
  sk_requests t fs new pid f : y_tasks y !! t = Some (Subscribing fs new pid f) ->
    forall k, k ∈ new.*1 -> k ∈ sr_topic_filter <$> fs;
  sk_entries f : contains (index_of y) f = true ->
    f ∈ y_broker y \/ waiting (wants f) y f;
  sk_observers f : f ∈ _response_observers (index_of y) ->
    f ∈ y_broker y \/ waiting (wants_observed f) y f;
}.

(** ** Frames *)

(** What is written between the two states unsubscribes filters of [X] only. *)
Definition loses (X : gset str) (e e' : Engine) : Prop :=
  e_version e' = e_version e /\
  exists l, e_wire e' = e_wire e ++ l /\
    forall data, data ∈ l -> unsubscribe_filters (e_version e) data ⊆ X.

Lemma loses_unsubscribed X e e' : loses X e e' -> unsubscribed e e' ⊆ X.
Proof.
  intros (_ & l & Hw & Hl). unfold unsubscribed. rewrite Hw, drop_app_length.
  intros g (Y & HY & Hg)%elem_of_union_list. apply list_elem_of_fmap in HY as (data & -> & Hd).
  by apply (Hl data).
Qed.

Lemma loses_nothing X e e' : e_version e' = e_version e -> e_wire e' = e_wire e -> loses X e e'.
Proof.
  intros Hv Hw. split; [done|]. exists []. rewrite app_nil_r. split; [done|].
  by intros data ?%elem_of_nil.
Qed.

Lemma loses_trans X e e' e'' : loses X e e' -> loses X e' e'' -> loses X e e''.
Proof.
  intros (Hv & l & Hw & Hl) (Hv' & l' & Hw' & Hl'). split; [congruence|].
  exists (l ++ l'). split; [by rewrite Hw', Hw, app_assoc|]. rewrite Hv in Hl'.
  intros data [?|?]%elem_of_app; auto.
Qed.

Lemma loses_write X e e' data :
  e_version e' = e_version e -> e_wire e' = e_wire e ++ [data] ->
  unsubscribe_filters (e_version e) data ⊆ X -> loses X e e'.
Proof.
  intros Hv Hw Hd. split; [done|]. exists [data]. split; [done|].
  by intros d ->%list_elem_of_singleton.
Qed.

(** The bytes of a packet unsubscribe what the packet says. *)
Lemma unsubscribe_filters_encode p v data :
  encode p v = Ok data ->
  unsubscribe_filters v data =
    match p with PUnsubscribe u => list_to_set (us_topic_filters u) | _ => ∅ end.
Proof.
  intros He%(decode_encode _ _ _ []). rewrite app_nil_r in He. unfold unsubscribe_filters.
  rewrite He. by destruct p.
Qed.

Lemma subscribe_begin_loses X fs sid e :
  engine_ok e -> loses X e (_send_subscribe_begin fs sid e).2.
Proof.
  intros He. pose proof (step_version _ _ (step_subscribe e fs sid)) as Hv.
  destruct (e_dead e) eqn:Hd.
  { unfold _send_subscribe_begin. rewrite dead_refuses by done. by apply loses_nothing. }
  pose proof (request_spec KSub ins_sub drop_sub (fun pid => PSubscribe (mkSubscribe pid fs
    ((fun i => mkSubscribeProperties (Some i) []) <$> sid))) e inserts_sub closes_sub He) as HS.
  cbv beta in HS. rewrite <- subscribe_begin_eq in HS by done.
  destruct (_send_subscribe_begin fs sid e) as [[[pid f]|x] e1]; cbn [snd] in *.
  - destruct HS as (_ & _ & _ & data & Hd1 & Hw). eapply loses_write; [done..|].
    by rewrite (unsubscribe_filters_encode _ _ _ Hd1).
  - apply loses_nothing; [done|apply HS].
Qed.

Lemma unsubscribe_begin_loses X fs e :
  engine_ok e -> list_to_set fs ⊆ X -> loses X e (_send_unsubscribe_begin fs e).2.
Proof.
  intros He HX. pose proof (step_version _ _ (step_unsubscribe e fs)) as Hv.
  destruct (e_dead e) eqn:Hd.
  { unfold _send_unsubscribe_begin. rewrite dead_refuses by done. by apply loses_nothing. }
  pose proof (request_spec KUnsub ins_unsub drop_unsub (fun pid => PUnsubscribe (mkUnsubscribe pid fs
    None)) e inserts_unsub closes_unsub He) as HS.
  assert (Heq : _send_unsubscribe_begin fs e = ('(pid, future) ← open_exchange ins_unsub;
    finally_on_error (data ← _encode (PUnsubscribe (mkUnsubscribe pid fs None)); _ ← _send data;
      mret (pid, future)) (upd_session (drop_unsub pid))) e).
  { unfold _send_unsubscribe_begin. rewrite run_bind, ensure_alive_eq, Hd.
    by rewrite (open_exchange_bind ins_unsub). }
  cbv beta in HS. rewrite <- Heq in HS. destruct (_send_unsubscribe_begin fs e) as [[[pid f]|x] e1]; cbn [snd] in *.
  - destruct HS as (_ & _ & _ & data & Hd1 & Hw). eapply loses_write; [done..|].
    by rewrite (unsubscribe_filters_encode _ _ _ Hd1).
  - apply loses_nothing; [done|apply HS].
Qed.

Lemma subscribe_end_loses X fs pid outcome e : loses X e (_send_subscribe_end fs pid outcome e).2.
Proof. rewrite subscribe_end_eq. by apply loses_nothing. Qed.

Lemma unsubscribe_end_loses X pid outcome e : loses X e (_send_unsubscribe_end pid outcome e).2.
Proof. apply loses_nothing; reflexivity. Qed.

Lemma alive_loses X e : loses X e (_ensure_alive e).2.
Proof. rewrite ensure_alive_eq. destruct (e_dead e); by apply loses_nothing. Qed.

(** The engine stays well formed, the prefixes are configuration, and only filters of
    [X] are unsubscribed. *)
Definition sound_after (X : gset str) (r r' : Registry) : Prop :=
  engine_ok (r_engine r') /\ _stripped_prefixes r' = _stripped_prefixes r /\
  loses X (r_engine r) (r_engine r').

Definition sound (X : gset str) {A} (m : G A) : Prop :=
  forall r, engine_ok (r_engine r) -> sound_after X r (m r).2.

Lemma sound_after_trans X r r' r'' :
  sound_after X r r' -> sound_after X r' r'' -> sound_after X r r''.
Proof.
  intros (H1 & H2 & H3) (H4 & H5 & H6). split_and!; [done|by etrans|by eapply loses_trans].
Qed.

Lemma sound_after_refl X r : engine_ok (r_engine r) -> sound_after X r r.
Proof. intros He. split_and!; [done..|]. by apply loses_nothing. Qed.

Lemma sound_bind X {A B} (m : G A) (f : A -> G B) :
  sound X m -> (forall a, sound X (f a)) -> sound X (m ≫= f).
Proof.
  intros Hm Hf r He. rewrite run_bind. pose proof (Hm r He) as H1.
  destruct (m r) as [[a|x] r1]; [|done]. eapply sound_after_trans; [exact H1|]. apply Hf, H1.
Qed.

Lemma sound_ret X {A} (a : A) : sound X (mret a).
Proof. intros r. apply sound_after_refl. Qed.

Lemma sound_gets X {A} (f : Registry -> A) : sound X (gets f).
Proof. intros r. apply sound_after_refl. Qed.

Lemma sound_lift X {A} (x : result A) : sound X (lift x).
Proof. intros r. apply sound_after_refl. Qed.

Lemma sound_new_ref X : sound X new_entry_ref.
Proof. intros r He. split_and!; [done..|]. by apply loses_nothing. Qed.

Lemma sound_on_engine X {A} (m : ST Engine A) :
  preserves m -> (forall e, engine_ok e -> loses X e (m e).2) -> sound X (on_engine m).
Proof. intros Hm Hl r He. rewrite on_engine_eq. split_and!; [by apply Hm|done|by apply Hl]. Qed.

Lemma sound_subscribe_exchange X fs sid : sound X (on_engine (_send_subscribe_begin fs sid)).
Proof. apply sound_on_engine; [apply subscribe_begin_preserves|]. intros. by apply subscribe_begin_loses. Qed.

Lemma sound_unsubscribe_exchange X fs :
  list_to_set fs ⊆ X -> sound X (on_engine (_send_unsubscribe_begin fs)).
Proof.
  intros HX. apply sound_on_engine; [apply unsubscribe_begin_preserves|].
  intros. by apply unsubscribe_begin_loses.
Qed.

Lemma sound_alive X : sound X (on_engine _ensure_alive).
Proof. apply sound_on_engine; [apply quiet_preserves, quiet_alive|]. intros. apply alive_loses. Qed.

Lemma set_index_sound X ix r : engine_ok (r_engine r) -> sound_after X r (set_index ix r).
Proof.
  intros He. split_and!; [|done|by apply loses_nothing]. set (e := r_engine r).
  pose proof (inbound_effect_ok (inflight_qos2_in (e_session e)) (pending_ack_qos2_in (e_session e))
    ix [] (e_link e) e He) as H. unfold inbound_effect in H. rewrite app_nil_r in H. exact H.
Qed.

Lemma sound_set_index X (f : Registry -> SubscriptionIndex) :
  sound X (modify (fun r => set_index (f r) r)).
Proof. intros r He. by apply set_index_sound. Qed.

Lemma sound_change_index X {A} (f : SubscriptionIndex -> A * SubscriptionIndex) :
  sound X (change_index f).
Proof. intros r He. unfold change_index. destruct (f (index r)) as [a ix]. by apply set_index_sound. Qed.

(** A clean-up that only changes the index *)
Lemma finally_sound X {A} (m : G A) (f : Registry -> SubscriptionIndex) r :
  sound_after X r (m r).2 -> sound_after X r (finally_on_error m (fun r => set_index (f r) r) r).2.
Proof.
  intros H1. rewrite finally_run. destruct (m r) as [[a|x] r1]; [done|].
  eapply sound_after_trans; [exact H1|]. apply set_index_sound, H1.
Qed.

Lemma sound_finally X {A} (m : G A) (f : Registry -> SubscriptionIndex) :
  sound X m -> sound X (finally_on_error m (fun r => set_index (f r) r)).
Proof. intros Hm r He. by apply finally_sound, Hm. Qed.

Create HintDb sound.
#[export] Hint Resolve sound_ret sound_gets sound_lift sound_new_ref sound_set_index sound_change_index sound_subscribe_exchange sound_alive : sound.
#[export] Hint Extern 2 (sound _ (_ ≫= _)) => (apply sound_bind; [|intros ?]) : sound.
#[export] Hint Extern 2 (sound _ (finally_on_error _ _)) => apply sound_finally : sound.
#[export] Hint Extern 2 (sound _ (match ?x with _ => _ end)) => destruct x : sound.

Lemma sound_new_entries X fs q auto sid acc : sound X (new_entries fs q auto sid acc).
Proof.
  revert acc; induction fs as [|req fs IH]; intros acc; cbn [new_entries]; auto 10 with sound.
Qed.
#[export] Hint Resolve sound_new_entries : sound.

Lemma sound_subscribe_begin fs q auto sid : sound ∅ (_subscribe_begin fs q auto sid).
Proof. unfold _subscribe_begin, forget. auto 10 with sound. Qed.

Lemma sound_resubscribe X observed u : sound X (resubscribe observed u).
Proof. unfold resubscribe. destruct observed; auto 10 with sound. Qed.
#[export] Hint Resolve sound_resubscribe : sound.

(** The filters of the UNSUBSCRIBE that [_unsubscribe] sends, and of the one of
    [_remove_response_observer] *)
Definition unsubscribed_by (fs : list str) (r : Registry) : gset str :=
  if e_dead (r_engine r) then ∅ else list_to_set (unobserved r fs).

Definition released_by (t : str) (r : Registry) : gset str :=
  if has_response_observer (index r) t && negb (contains (index r) t)
     && negb (e_dead (r_engine r))
  then {[t]} else ∅.


Lemma sound_unsubscribe fs r :
  engine_ok (r_engine r) -> sound_after (unsubscribed_by fs r) r (_unsubscribe fs r).2.
Proof.
  intros He. unfold _unsubscribe, unsubscribed_by. rewrite run_bind, on_engine_eq, ensure_alive_eq.
  cbn [fst snd]. destruct (e_dead (r_engine r)) eqn:Hd;
    [split_and!; [done..|by apply loses_nothing]|].
  cbn [fst snd]. replace (set_r_engine (r_engine r) r) with r by (by destruct r). run.
  set (X := list_to_set (unobserved r fs) : gset str).
  match goal with |- context [set_index ?ix ?r0] => set (r1 := set_index ix r0) end.
  assert (H1 : sound_after X r r1) by (by apply set_index_sound).
  match goal with |- context [filter ?P fs] =>
    assert (HX : forall l, l = filter P fs -> list_to_set l ⊆ X) end.
  { intros l ->. intros g [Hno Hg]%elem_of_list_to_set%list_elem_of_filter.
    apply elem_of_list_to_set. unfold unobserved. apply list_elem_of_filter. split; [|done].
    intros Ho. apply Hno. apply list_elem_of_filter. split; [|done].
    by apply bool_decide_eq_true. }
  eapply sound_after_trans; [exact H1|].
  destruct (filter _ fs) as [|f0 fs0]; [apply sound_resubscribe, H1|].
  apply (sound_bind X); [|intros; apply sound_ret|apply H1].
  apply sound_unsubscribe_exchange. by apply HX.
Qed.

Lemma sound_add_observer t : sound ∅ (_add_response_observer t).
Proof. unfold _add_response_observer, drop_observer. auto 20 with sound. Qed.

Lemma sound_remove_observer t r :
  engine_ok (r_engine r) -> sound_after (released_by t r) r (_remove_response_observer t r).2.
Proof.
  intros He. unfold _remove_response_observer, released_by. rewrite run_bind. unfold change_index at 1.
  destruct (remove_observer_index (index r) t) as [(Hk & _ & _) Hb].
  destruct (remove_response_observer (index r) t) as [removed ix] eqn:Hr. cbn [fst snd] in *.
  subst removed. destruct (has_response_observer (index r) t); simpl (negb _); cbn iota;
    [|by apply set_index_sound]. run.
  assert (Hc : contains (index (set_index ix r)) t = contains (index r) t).
  { rewrite index_set_index. unfold contains. by rewrite Hk. }
  rewrite Hc. change (e_dead (r_engine (set_index ix r))) with (e_dead (r_engine r)).
  destruct (contains (index r) t); [by apply set_index_sound|].
  destruct (e_dead (r_engine r)); [by apply set_index_sound|]. simpl (_ && _). cbn [orb].
  eapply sound_after_trans; [by apply (set_index_sound _ ix)|].
  apply (sound_bind {[t]}); [|intros; apply sound_ret|by apply (set_index_sound ∅ ix)].
  apply sound_unsubscribe_exchange. set_solver.
Qed.

(** The end of an exchange that is open *)
Lemma sound_end X {A B} (m : ST Engine A) (f : A -> G B) r :
  engine_ok (m (r_engine r)).2 -> loses X (r_engine r) (m (r_engine r)).2 ->
  (forall a, sound X (f a)) -> sound_after X r ((on_engine m ≫= f) r).2.
Proof.
  intros He Hl Hf. rewrite run_bind, on_engine_eq.
  destruct (m (r_engine r)) as [[a|x] e]; [|by split_and!].
  eapply sound_after_trans; [|by apply (Hf a (set_r_engine e r))]. by split_and!.
Qed.

(** A SUBACK that the client accepts grants every filter. *)
Lemma rejected_none filters codes :
  rejected_filters filters codes = [] -> not_failed filters codes = sr_topic_filter <$> filters.
Proof.
  unfold rejected_filters.
  assert (Hf : forall l d, foldl (fun d p =>
      if 0x80 <=? p.2 then dict_set d (sr_topic_filter p.1) p.2 else d) d l = [] -> d = []).
  { induction l as [|p l IH]; intros d; [done|]. cbn [foldl]. intros Hd%IH.
    destruct (0x80 <=? p.2); [|done]. apply (f_equal (fmap fst)) in Hd.
    rewrite dict_set_keys in Hd. case_decide as Hin; [by rewrite Hd in Hin; apply elem_of_nil in Hin|].
    by destruct (d.*1). }
  revert codes. induction filters as [|req filters IH]; intros [|code codes] Hr; [done|done|..]; cbn in *.
  - f_equal. apply IH. by destruct filters.
  - destruct (0x80 <=? code).
    + by apply Hf in Hr.
    + f_equal. by apply IH.
Qed.

Lemma accepted_granted requests suback f :
  _raise_on_rejected_filters requests suback = Ok tt -> f ∈ sr_topic_filter <$> requests ->
  f ∈ granted requests (Ok suback).
Proof.
  unfold _raise_on_rejected_filters. destruct (rejected_filters _ _) eqn:Hr; [|done]. intros _ Hf.
  simpl. by rewrite rejected_none, elem_of_list_to_set.
Qed.

Lemma observer_end_accepted topic pid outcome r :
  match (_add_response_observer_end topic pid outcome r).1 with
  | Ok _ => exists a, outcome = Ok a /\ _raise_on_rejected_filters [observer_request topic] a = Ok tt
  | Err _ => True
  end.
Proof.
  unfold _add_response_observer_end. rewrite finally_run, run_bind, on_engine_eq, subscribe_end_eq.
  cbn [fst snd]. destruct outcome as [a|x]; [|done].
  destruct (_raise_on_rejected_filters _ a) as [[]|x] eqn:Hr; [|done]. by exists a.
Qed.

(** ** Preservation *)

Lemma waiting_other P y t f k' r B :
  waiting P y f -> (forall k, y_tasks y !! t = Some k -> ~ P k) ->
  waiting P (mkSystem (y_guards y) r (set_task t k' (y_tasks y)) B) f.
Proof.
  intros (t' & k & h & Ht & Hp & Hh) Hn. exists t', k, h. split; [|by split]. simpl.
  assert (t <> t') by (intros ->; by apply (Hn k)).
  destruct k' as [k'|]; simpl; [by rewrite lookup_insert_ne|by rewrite lookup_delete_ne].
Qed.

(** What confirms a filter stays or is replaced. *)
Lemma confirmed_other P y t f k' r B :
  f ∈ y_broker y \/ waiting P y f -> (f ∈ y_broker y -> f ∈ B) ->
  (forall k, y_tasks y !! t = Some k -> P k -> f ∈ B) ->
  f ∈ B \/ waiting P (mkSystem (y_guards y) r (set_task t k' (y_tasks y)) B) f.
Proof.
  intros [Hf|Hw] HB Ht; [by left; apply HB|]. destruct (decide (f ∈ B)) as [|Hn]; [by left|].
  right. apply waiting_other; [done|]. intros k Hk Hp. by apply Hn, (Ht k).
Qed.

Lemma waiting_now (P : task -> Prop) y t f k r B h :
  P k -> g_holds (y_guards y) !! t = Some h -> in_body h = true -> uses f h ->
  waiting P (mkSystem (y_guards y) r (<[t := k]> (y_tasks y)) B) f.
Proof. intros Hp Hh Hb Hu. exists t, k, h. split; [apply lookup_insert_eq|done]. Qed.

(** The task after a run, and the broker *)
Definition task_after {A} (res : result A) (next : A -> option task) : option task :=
  match res with Ok a => next a | Err _ => None end.

Definition broker_after (gained lost : gset str) (y : System) : gset str :=
  (y_broker y ∖ lost) ∪ gained.

Lemma run_task_eq {A} t (m : G A) next gained y :
  run_task t m next gained y =
    mkSystem (y_guards y) (m (y_registry y)).2
      (set_task t (task_after (m (y_registry y)).1 next) (y_tasks y))
      (broker_after gained
         (unsubscribed (engine_of y) (r_engine (m (y_registry y)).2)) y).
Proof. unfold run_task. by destruct (m (y_registry y)) as [[a|x] r]. Qed.

Section preservation.
Context (ps : list str) (y : System) (Hok : sys_ok ps y).

(** A filter that a task in the body handles is not handled by another one. *)
Lemma alone t h f P :
  g_holds (y_guards y) !! t = Some h -> in_body h = true -> uses f h -> y_tasks y !! t = None ->
  ~ waiting P y f.
Proof.
  intros Hh Hb Hu Ht (t' & k & h' & Ht' & _ & Hh' & Hb' & Hu').
  pose proof (sk_guards _ _ Hok) as Hg%reachable_guards_inv.
  assert (t' = t) as -> by (by eapply body_unique). congruence.
Qed.

(** The new state of a system after a run, from what the run did to the registry; [X]
    bounds what it unsubscribed. *)
Lemma run_ok {A} t (m : G A) next gained X :
  let r := (m (y_registry y)).2 in
  let B := broker_after gained X y in
  let k' := task_after (m (y_registry y)).1 next in
  let y' := mkSystem (y_guards y) r (set_task t k' (y_tasks y)) B in
  sound_after X (y_registry y) r ->
  index_ok (index r) -> Forall (valid_entry ps) (_entries (index r)) ->
  (forall fs new pid f, k' = Some (Subscribing fs new pid f) ->
     forall k, k ∈ new.*1 -> k ∈ sr_topic_filter <$> fs) ->
  (forall f, contains (index r) f = true -> f ∈ B \/ waiting (wants f) y' f) ->
  (forall f, f ∈ _response_observers (index r) -> f ∈ B \/ waiting (wants_observed f) y' f) ->
  sys_ok ps (run_task t m next gained y).
Proof.
  cbv zeta. intros (He & Hp & Hl%loses_unsubscribed) Hi Hv Hr Hc Ho. rewrite run_task_eq.
  fold (engine_of y) in Hl.
  assert (HB : forall f, f ∈ broker_after gained X y ->
    f ∈ broker_after gained
          (unsubscribed (engine_of y) (r_engine (m (y_registry y)).2)) y).
  { intros f. unfold broker_after. set_solver. }
  split; simpl; try done.
  - apply Hok.
  - by rewrite Hp, (sk_prefixes _ _ Hok).
  - intros t' fs new pid f Ht'. destruct (decide (t' = t)) as [->|Hne].
    + apply Hr with pid f. destruct (task_after _ next) as [k'|]; simpl in Ht';
        [by rewrite lookup_insert_eq in Ht'|by rewrite lookup_delete_eq in Ht'].
    + apply (sk_requests _ _ Hok t' fs new pid f).
      destruct (task_after _ next) as [k'|]; simpl in Ht';
        [by rewrite lookup_insert_ne in Ht'|by rewrite lookup_delete_ne in Ht'].
  - intros f [Hf|Hw]%Hc; [by left; apply HB|by right].
  - intros f [Hf|Hw]%Ho; [by left; apply HB|by right].
Qed.

(** A run that leaves the index alone and ends what the task wanted *)
Lemma run_ok_same {A} t (m : G A) next gained :
  let r := (m (y_registry y)).2 in
  sound_after ∅ (y_registry y) r ->
  index r = index_of y ->
  (forall fs new pid f, task_after (m (y_registry y)).1 next <> Some (Subscribing fs new pid f)) ->
  (forall f k, y_tasks y !! t = Some k -> wants f k \/ wants_observed f k ->
     f ∈ broker_after gained ∅ y) ->
  sys_ok ps (run_task t m next gained y).
Proof.
  cbv zeta. intros He Hi Hn Hw.
  assert (HB : y_broker y ⊆ broker_after gained ∅ y).
  { unfold broker_after. set_solver. }
  apply (run_ok _ _ _ _ ∅); [exact He| | | | |].
  - rewrite Hi. apply Hok.
  - rewrite Hi. apply Hok.
  - intros fs new pid f Hk. by destruct (Hn _ _ _ _ Hk).
  - intros f. rewrite Hi. intros Hc. apply confirmed_other; [by apply (sk_entries _ _ Hok)|auto|].
    intros k Hk Hp. apply (Hw f k); auto.
  - intros f. rewrite Hi. intros Hc. apply confirmed_other; [by apply (sk_observers _ _ Hok)|auto|].
    intros k Hk Hp. apply (Hw f k); auto.
Qed.

Lemma guards_step_ok g :
  guards_step (y_guards y) g ->
  (forall t h, is_Some (y_tasks y !! t) -> g_holds (y_guards y) !! t = Some h ->
     g_holds g !! t = Some h) ->
  sys_ok ps (mkSystem g (y_registry y) (y_tasks y) (y_broker y)).
Proof.
  intros Hg Hh.
  assert (Hw : forall P f, waiting P y f -> waiting P (mkSystem g (y_registry y) (y_tasks y) (y_broker y)) f).
  { intros P f (t & k & h & Ht & Hp & Hg' & Hb). exists t, k, h. split_and!; [done|done| |apply Hb..].
    apply Hh; [|done]. by eexists. }
  split; try apply Hok.
  - eapply rtc_r; [apply Hok|done].
  - intros f Hf. destruct (sk_entries _ _ Hok f Hf); [by left|right; auto].
  - intros f Hf. destruct (sk_observers _ _ Hok f Hf); [by left|right; auto].
Qed.

Lemma engine_step_ok e :
  step (engine_of y) e -> subscriptions (e_session e) = index_of y ->
  sys_ok ps (mkSystem (y_guards y) (set_r_engine e (y_registry y)) (y_tasks y) (y_broker y)).
Proof.
  intros He Hi.
  assert (Hi' : forall tasks, index_of (mkSystem (y_guards y) (set_r_engine e (y_registry y)) tasks (y_broker y)) = index_of y)
    by (intros; exact Hi).
  split; rewrite ?Hi'; try apply Hok. apply (step_ok (engine_of y)); [done|apply Hok].
Qed.

(** The registry of a run that subscribes *)
Lemma subscribe_ok t fs q auto sid :
  may_run y t (sr_topic_filter <$> fs) ->
  Forall (fun req => validate_subscribe_topic (sr_topic_filter req) = Ok tt) fs ->
  sys_ok ps (run_task t (_subscribe_begin fs q auto sid)
    (fun a => Some (Subscribing fs a.2 a.1.1 a.1.2)) ∅ y).
Proof.
  intros (Ht & h & Hh & Hb & Hu) Hv.
  destruct (subscribe_begin_index fs q auto sid (y_registry y) (sk_index _ _ Hok))
    as (new & Hn & Hr & Hi & Ho & Hp).
  assert (Hs : forall f, f ∈ new.*1 -> f ∈ sr_topic_filter <$> fs)
    by (intros f Hf; by apply (nw_keys _ _ _ _ _ _ Hn)).
  assert (Hnt : forall P f k, y_tasks y !! t = Some k -> P k -> f ∈ y_broker y)
    by (intros; congruence).
  pose proof (sound_subscribe_begin fs q auto sid (y_registry y) (sk_engine _ _ Hok)) as Hsd.
  apply (run_ok _ _ _ _ ∅); [exact Hsd|exact Hi|..].
  - pose proof (sk_valid _ _ Hok) as Hval.
    destruct (_subscribe_begin _ _ _ _ _) as [[[x new']|x] r1]; cbn [fst snd] in *;
      [|by rewrite Hr]. destruct Hr as [-> ->]. apply Forall_app. split; [done|].
    apply Forall_forall. intros it Hit. split.
    + assert (it.1 ∈ sr_topic_filter <$> fs) as (req & -> & Hreq)%list_elem_of_fmap
        by (by apply Hs, list_elem_of_fmap_2).
      rewrite Forall_forall in Hv. by apply Hv.
    + pose proof (nw_entries _ _ _ _ _ _ Hn) as He. rewrite Forall_forall in He.
      destruct (He it Hit) as (_ & _ & _ & Ha). by rewrite (sk_prefixes _ _ Hok) in Ha.
  - destruct (_subscribe_begin _ _ _ _ _) as [[[x new']|x] r1]; cbn [fst snd task_after] in *;
      [|done]. destruct Hr as [-> _]. intros fs' new' pid f [= <- <- <- <-]. exact Hs.
  - intros f Hc.
    destruct (_subscribe_begin _ _ _ _ _) as [[[x new']|x] r1]; cbn [fst snd task_after] in *; unfold broker_after in *.
    + destruct Hr as [-> Hr]. apply contains_keys in Hc. rewrite Hr, fmap_app in Hc.
      apply elem_of_app in Hc as [Hc|Hc].
      * apply contains_keys in Hc.
        apply confirmed_other; [by apply (sk_entries _ _ Hok)|set_solver|congruence].
      * right. eapply waiting_now; [exact Hc|done|done|]. by apply Hu, Hs.
    + apply contains_keys in Hc. rewrite Hr in Hc. apply contains_keys in Hc.
      apply confirmed_other; [by apply (sk_entries _ _ Hok)|set_solver|congruence].
  - intros f Hf. rewrite Ho in Hf.
    apply confirmed_other; [by apply (sk_observers _ _ Hok)|set_solver|congruence].
Qed.

Lemma subscribe_end_sound fs new pid f outcome r :
  engine_ok (r_engine r) -> pending_subs (e_session (r_engine r)) !! pid = Some f ->
  sound_after ∅ r (_subscribe_end fs new pid outcome r).2.
Proof.
  intros He Hf. apply (finally_sound _ _ (fun r => remove_all new.*1 (index r))).
  apply sound_end; [by eapply subscribe_end_ok|apply subscribe_end_loses|]. intros. apply sound_ret.
Qed.

Lemma Forall_keys (P : item -> Prop) (d : dict str SubscriptionEntry) (ks : list str) :
  Forall P d -> Forall P (filter (fun it => it.1 ∉ ks) d).
Proof.
  rewrite !Forall_forall. intros Hd it [_ Hit]%list_elem_of_filter. auto.
Qed.

Lemma keys_filter (d : dict str SubscriptionEntry) (ks : list str) f :
  f ∈ (filter (fun it => it.1 ∉ ks) d).*1 <-> f ∈ d.*1 /\ f ∉ ks.
Proof.
  rewrite !list_elem_of_fmap. split.
  - intros (it & -> & [Hn Hit]%list_elem_of_filter). split; [by exists it|done].
  - intros [(it & -> & Hit) Hn]. exists it. split; [done|]. by apply list_elem_of_filter.
Qed.

Lemma subscribe_end_step t fs new pid f outcome :
  y_tasks y !! t = Some (Subscribing fs new pid f) -> waits_for_suback y pid f outcome ->
  sys_ok ps (run_task t (_subscribe_end fs new pid outcome) (fun _ => None)
      (granted fs outcome) y).
Proof.
  intros Ht [Hf _].
  pose proof (subscribe_end_sound fs new pid f outcome (y_registry y) (sk_engine _ _ Hok) Hf) as Hs.
  pose proof (subscribe_end_index fs new pid outcome (y_registry y)) as Hr.
  destruct (_subscribe_end fs new pid outcome (y_registry y)) as [[[a qs]|x] r1] eqn:E; cbn [snd] in *.
  - apply run_ok_same; rewrite ?E; cbn [fst snd task_after] in *; unfold broker_after in *; [done|by apply Hr|done|].
    intros k' k Hk [Hw|Hw]; rewrite Ht in Hk; injection Hk as <-; [|done]. simpl in Hw.
    destruct Hr as (-> & Hrej & _). apply elem_of_union. right. eapply accepted_granted; [done|].
    by apply (sk_requests _ _ Hok t fs new pid f).
  - destruct Hr as (He & Ho & Hi).
    apply (run_ok _ _ _ _ ∅); rewrite ?E; cbn [fst snd task_after] in *; unfold broker_after in *; [done| | |done| |].
    + apply Hi, Hok.
    + rewrite He. apply Forall_keys, Hok.
    + intros g. rewrite contains_keys, He, keys_filter. intros [Hg Hn]. apply contains_keys in Hg.
      apply confirmed_other; [by apply (sk_entries _ _ Hok)|set_solver|].
      intros k Hk Hw. rewrite Ht in Hk. injection Hk as <-. done.
    + intros g. rewrite Ho. intros Hg.
      apply confirmed_other; [by apply (sk_observers _ _ Hok)|set_solver|].
      intros k Hk Hw. rewrite Ht in Hk. by injection Hk as <-.
Qed.

Lemma unsubscribe_ok t fs :
  may_run y t fs ->
  sys_ok ps (run_task t (_unsubscribe fs) unsubscribing_task ∅ y).
Proof.
  intros (Ht & _). pose proof (unsubscribe_index fs (y_registry y)) as Hi.
  pose proof (remove_all_spec fs (index_of y)) as (He & Ho & Hix).
  assert (Hn : forall g (P : task -> Prop) k, y_tasks y !! t = Some k -> P k ->
    g ∈ broker_after ∅ (unsubscribed_by fs (y_registry y)) y)
    by (intros; congruence).
  assert (HB : forall g, g ∉ unsubscribed_by fs (y_registry y) -> g ∈ y_broker y ->
    g ∈ broker_after ∅ (unsubscribed_by fs (y_registry y)) y).
  { intros g Hg Hin. unfold broker_after. set_solver. }
  unfold unsubscribed_by in HB. fold (engine_of y) (index_of y) in Hi, HB.
  apply (run_ok _ _ _ _ (unsubscribed_by fs (y_registry y))); [apply sound_unsubscribe, Hok|..].
  - rewrite Hi. destruct (e_dead _); [apply Hok|apply Hix, Hok].
  - rewrite Hi. destruct (e_dead _); [apply Hok|rewrite He; apply Forall_keys, Hok].
  - intros fs' new pid f Hk. unfold task_after in Hk.
    destruct (_unsubscribe fs (y_registry y)).1 as [[]|]; done.
  - intros g. rewrite Hi. intros Hg.
    assert (Hc : contains (index_of y) g = true /\ g ∉ unsubscribed_by fs (y_registry y)).
    { unfold unsubscribed_by. destruct (e_dead _); [split; [done|apply not_elem_of_empty]|].
      apply contains_keys in Hg. rewrite He, keys_filter in Hg. destruct Hg as [Hg Hnf].
      split; [by apply contains_keys|]. rewrite elem_of_list_to_set.
      by intros [_ ?]%list_elem_of_filter. }
    destruct Hc as [Hc Hl]. apply confirmed_other; [by apply (sk_entries _ _ Hok)| |by apply Hn].
    by apply HB.
  - intros g Hg.
    assert (Hc : g ∈ _response_observers (index_of y)).
    { rewrite Hi in Hg. destruct (e_dead _); [done|by rewrite Ho in Hg]. }
    apply confirmed_other; [by apply (sk_observers _ _ Hok)| |by apply Hn].
    apply HB. destruct (e_dead _); [apply not_elem_of_empty|]. rewrite elem_of_list_to_set.
    unfold unobserved. intros [Hno _]%list_elem_of_filter. done.
Qed.

Lemma unsuback_step t pid f observed outcome :
  y_tasks y !! t = Some (Unsubscribing (AwaitsUnsuback pid f observed)) ->
  waits_for_unsuback y pid f outcome ->
  sys_ok ps (run_task t (_unsubscribe_unsuback pid observed outcome) unsubscribing_task ∅ y).
Proof.
  intros Ht [Hf _]. apply run_ok_same.
  - apply sound_end; [eapply unsubscribe_end_ok; [apply Hok|exact Hf]|apply unsubscribe_end_loses|].
    intros; apply sound_resubscribe.
  - apply unsubscribe_unsuback_index.
  - intros fs' new pid' f' Hk. unfold task_after in Hk.
    destruct (_unsubscribe_unsuback pid observed outcome (y_registry y)).1 as [[]|]; done.
  - intros k' k Hk [Hw|Hw]; rewrite Ht in Hk; by injection Hk as <-.
Qed.

Lemma resubscribed_step t pid f requests u outcome :
  y_tasks y !! t = Some (Unsubscribing (AwaitsSuback pid f requests u)) ->
  waits_for_suback y pid f outcome ->
  sys_ok ps (run_task t (_unsubscribe_suback pid requests u outcome) unsubscribing_task
    (granted requests outcome) y).
Proof.
  intros Ht [Hf _]. apply run_ok_same.
  - apply sound_end; [eapply subscribe_end_ok; [apply Hok|exact Hf]|apply subscribe_end_loses|].
    intros; apply sound_ret.
  - apply unsubscribe_suback_index.
  - intros fs' new pid' f' Hk. unfold task_after in Hk.
    destruct (_unsubscribe_suback pid requests u outcome (y_registry y)).1 as [[]|]; done.
  - intros k' k Hk [Hw|Hw]; rewrite Ht in Hk; by injection Hk as <-.
Qed.

Lemma add_observer_step t topic :
  may_run y t [topic] ->
  sys_ok ps (run_task t (_add_response_observer topic)
    (fun w => (fun x => AddingObserver topic x.1 x.2) <$> w) ∅ y).
Proof.
  intros (Ht & h & Hh & Hb & Hu). assert (Huse : uses topic h) by (apply Hu; by left).
  pose proof (add_observer_index topic (y_registry y)) as Hr.
  pose proof (sound_add_observer topic (y_registry y) (sk_engine _ _ Hok)) as Hs.
  fold (index_of y) in Hr.
  destruct (_add_response_observer topic (y_registry y)) as [[w|x] r1] eqn:E; cbn [snd] in Hs.
  - destruct Hr as ((He & Ho & Hi) & Hnone & Hsome).
    apply (run_ok _ _ _ _ ∅); rewrite ?E; cbn [fst snd task_after] in *; unfold broker_after in *;
      [done|by apply Hi, Hok|..].
    + rewrite He. apply Hok.
    + by destruct w.
    + intros g Hg. apply contains_keys in Hg. rewrite He in Hg. apply contains_keys in Hg.
      apply confirmed_other; [by apply (sk_entries _ _ Hok)|set_solver|congruence].
    + intros g. rewrite Ho. intros [->%elem_of_singleton|Hg]%elem_of_union;
        [|apply confirmed_other; [by apply (sk_observers _ _ Hok)|set_solver|congruence]].
      destruct w as [[pid f]|].
      * right. by eapply waiting_now.
      * apply confirmed_other; [|set_solver|congruence]. left.
        assert (Hal : forall P, ~ waiting P y topic) by (intros P; by apply (alone t h)).
        destruct (Hnone eq_refl) as [Hob|Hc].
        -- destruct (sk_observers _ _ Hok topic Hob) as [|[]%Hal]; done.
        -- destruct (sk_entries _ _ Hok topic Hc) as [|[]%Hal]; done.
  - destruct Hr as (He & Ho & Hi).
    apply (run_ok _ _ _ _ ∅); rewrite ?E; cbn [fst snd task_after] in *; unfold broker_after in *;
      [done|by apply Hi, Hok|..].
    + rewrite He. apply Hok.
    + done.
    + intros g Hg. apply contains_keys in Hg. rewrite He in Hg. apply contains_keys in Hg.
      apply confirmed_other; [by apply (sk_entries _ _ Hok)|set_solver|congruence].
    + intros g. rewrite Ho. intros Hg.
      apply confirmed_other; [by apply (sk_observers _ _ Hok)|set_solver|congruence].
Qed.

Lemma add_observer_end_step t topic pid f outcome :
  y_tasks y !! t = Some (AddingObserver topic pid f) -> waits_for_suback y pid f outcome ->
  sys_ok ps (run_task t (_add_response_observer_end topic pid outcome) (fun _ => None)
    (granted [observer_request topic] outcome) y).
Proof.
  intros Ht [Hf _]. pose proof (add_observer_end_index topic pid outcome (y_registry y)) as Hr.
  fold (index_of y) in Hr.
  assert (Hs : sound_after ∅ (y_registry y)
    (_add_response_observer_end topic pid outcome (y_registry y)).2).
  { apply (finally_sound _ _ (fun r => (remove_response_observer (index r) topic).2)).
    apply sound_end; [eapply subscribe_end_ok; [apply Hok|exact Hf]|apply subscribe_end_loses|].
    intros. apply sound_ret. }
  pose proof (observer_end_accepted topic pid outcome (y_registry y)) as Hacc.
  destruct (_add_response_observer_end topic pid outcome (y_registry y)) as [[u|x] r1] eqn:E;
    cbn [fst snd] in Hs, Hacc.
  - apply run_ok_same; rewrite ?E; cbn [fst snd task_after] in *; unfold broker_after in *; [done..|].
    intros g k Hk [Hw|Hw]; rewrite Ht in Hk; injection Hk as <-; [done|]. simpl in Hw. subst g.
    destruct Hacc as (a & -> & Hrej). apply elem_of_union. right. eapply accepted_granted; [done|]. by left.
  - destruct Hr as (He & Ho & Hi).
    apply (run_ok _ _ _ _ ∅); rewrite ?E; cbn [fst snd task_after] in *; unfold broker_after in *;
      [done|by apply Hi, Hok|..].
    + rewrite He. apply Hok.
    + done.
    + intros g Hg. apply contains_keys in Hg. rewrite He in Hg. apply contains_keys in Hg.
      apply confirmed_other; [by apply (sk_entries _ _ Hok)|set_solver|].
      intros k Hk Hw. rewrite Ht in Hk. by injection Hk as <-.
    + intros g. rewrite Ho. intros [Hg Hn]%elem_of_difference.
      apply confirmed_other; [by apply (sk_observers _ _ Hok)|set_solver|].
      intros k Hk Hw. rewrite Ht in Hk. injection Hk as <-. simpl in Hw. set_solver.
Qed.

Lemma remove_observer_step t topic :
  may_run y t [topic] ->
  sys_ok ps (run_task t (_remove_response_observer topic)
    (fun w => (fun x => RemovingObserver x.1 x.2) <$> w) ∅ y).
Proof.
  intros (Ht & _). destruct (drop_observer_index topic (y_registry y)) as (He & Ho & Hi).
  fold (index_of y) in He, Ho, Hi.
  assert (HB : forall g, (g = topic -> contains (index_of y) topic = true) -> g ∈ y_broker y ->
    g ∈ broker_after ∅ (released_by topic (y_registry y)) y).
  { intros g Hg Hin. assert (g ∉ released_by topic (y_registry y)).
    { unfold released_by. fold (index_of y). destruct (decide (g = topic)) as [->|]; [|destruct (_ && _); set_solver].
      rewrite Hg by done. rewrite andb_false_r. set_solver. }
    unfold broker_after. set_solver. }
  apply (run_ok _ _ _ _ (released_by topic (y_registry y)));
    [apply sound_remove_observer, Hok|by apply Hi, Hok|rewrite He; apply Hok|..].
  - intros fs' new pid f Hk. unfold task_after in Hk.
    by destruct (_remove_response_observer topic (y_registry y)).1 as [[]|].
  - intros g Hg. apply contains_keys in Hg. rewrite He in Hg. apply contains_keys in Hg.
    apply confirmed_other; [by apply (sk_entries _ _ Hok)| |congruence].
    apply HB. by intros ->.
  - intros g. rewrite Ho. intros [Hg Hn]%elem_of_difference.
    apply confirmed_other; [by apply (sk_observers _ _ Hok)| |congruence].
    apply HB. intros ->. set_solver.
Qed.

Lemma remove_observer_end_step t pid f outcome :
  y_tasks y !! t = Some (RemovingObserver pid f) -> waits_for_unsuback y pid f outcome ->
  sys_ok ps (run_task t (_remove_response_observer_end pid outcome) (fun _ => None) ∅ y).
Proof.
  intros Ht [Hf _]. unfold _remove_response_observer_end. apply run_ok_same.
  - rewrite on_engine_eq. split_and!; [|done|apply unsubscribe_end_loses].
    eapply unsubscribe_end_ok; [apply Hok|exact Hf].
  - apply (index_on_engine _ (y_registry y)), oo_unsubscribe_end.
  - intros fs' new pid' f' Hk. unfold task_after in Hk.
    by destruct (on_engine _ (y_registry y)).1.
  - intros k' k Hk [Hw|Hw]; rewrite Ht in Hk; by injection Hk as <-.
Qed.

Lemma sys_step_ok y' : sys_step y y' -> sys_ok ps y'.
Proof.
  destruct 1; eauto using guards_step_ok, engine_step_ok, subscribe_ok, subscribe_end_step,
    unsubscribe_ok, unsuback_step, resubscribed_step, add_observer_step, add_observer_end_step,
    remove_observer_step, remove_observer_end_step.
Qed.

End preservation.

Lemma new_system_ok v q ps : sys_ok ps (new_system v q ps).
Proof.
  split; [constructor|apply engine_ok_new|apply index_ok_new|reflexivity|constructor|..].
  - by intros t fs new pid f Ht.
  - by intros f Hf.
  - by intros f Hf%not_elem_of_empty.
Qed.

Lemma sys_reachable_ok v q ps y : sys_reachable v q ps y -> sys_ok ps y.
Proof.
  apply (rtc_ind_r (sys_ok ps)); [apply new_system_ok|]. intros y1 y2 _ Hs Hok.
  by eapply sys_step_ok.
Qed.

(** Selection depends on the entries alone. *)
Lemma select_entries ix ix' topic :
  index_ok ix -> index_ok ix' -> valid_index ix -> _entries ix' = _entries ix ->
  select ix' topic = select ix topic.
Proof.
  intros H1 H2 Hv He. rewrite !select_scan; try done.
  - unfold matching. by rewrite He.
  - unfold valid_index in *. by rewrite He.
Qed.

Lemma sys_valid ps y : sys_ok ps y -> valid_index (index_of y).
Proof.
  intros Hok. unfold valid_index. eapply Forall_impl; [apply Hok|]. intros it. apply valid_entry_path.
Qed.

(** Removing the entries that were appended *)
Lemma drop_new (d new : dict str SubscriptionEntry) :
  (forall f, f ∈ new.*1 -> f ∉ d.*1) -> filter (fun it => it.1 ∉ new.*1) (d ++ new) = d.
Proof.
  intros Hn. rewrite filter_app, filter_all, filter_none, app_nil_r; [done| |].
  - intros it Hit Hc. by apply Hc, list_elem_of_fmap_2.
  - intros it Hit Hc. by apply (Hn _ Hc), list_elem_of_fmap_2.
Qed.

Lemma subscribe_end_wire fs new pid outcome r :
  e_wire (r_engine (_subscribe_end fs new pid outcome r).2) = e_wire (r_engine r).
Proof.
  unfold _subscribe_end. rewrite finally_run, run_bind, on_engine_eq, subscribe_end_eq.
  cbn [fst snd]. destruct outcome as [a|x]; [|done].
  by destruct (_raise_on_rejected_filters fs a).
Qed.

Lemma subscribe_begin_wire fs q auto sid r :
  index_ok (index r) -> engine_ok (r_engine r) ->
  match _subscribe_begin fs q auto sid r with
  | (Ok ((pid, _), _), r1) =>
      exists data, e_wire (r_engine r1) = e_wire (r_engine r) ++ [data] /\
        encode (PSubscribe (mkSubscribe pid fs ((fun i => mkSubscribeProperties (Some i) []) <$> sid)))
          (e_version (r_engine r)) = Ok data
  | (Err _, r1) => e_wire (r_engine r1) = e_wire (r_engine r)
  end.
Proof.
  intros Hix He. destruct (subscribe_begin_run fs q auto sid r) as (new & n & Hn & Hr).
  cbv zeta in Hr. rewrite Hr. clear Hr.
  match goal with |- context [set_index ?ix ?r0] => set (r1 := set_index ix r0) end.
  assert (He1 : engine_ok (r_engine r1)) by (by apply (set_index_sound ∅)).
  destruct (e_dead (r_engine r1)) eqn:Hd.
  { unfold _send_subscribe_begin. by rewrite dead_refuses. }
  rewrite subscribe_begin_eq by done.
  pose proof (request_spec KSub ins_sub drop_sub (fun pid => PSubscribe (mkSubscribe pid fs
    ((fun i => mkSubscribeProperties (Some i) []) <$> sid))) (r_engine r1) inserts_sub closes_sub He1) as HS.
  match type of HS with match ?run with _ => _ end => destruct run as [[[pid f]|x] e] end.
  - destruct HS as (_ & _ & _ & data & Hd1 & Hw). by exists data.
  - apply HS.
Qed.

(** ** Properties *)

(** C29: subscribing is all or nothing on the client.  A successful start appends one
    entry for each filter that was not registered, with the queue, the options and the
    actual filter of the call, and puts one SUBSCRIBE with all filters on the wire; a
    failed start changes neither the entries nor what is selected for any topic.  When
    the wait ends, only a SUBACK without a rejected filter keeps the entries; every
    other outcome removes exactly the new ones, and writes nothing. *)
Theorem subscribe_all_or_nothing v mq ps y fs q auto sid :
  sys_reachable v mq ps y ->
  Forall (fun req => validate_subscribe_topic (sr_topic_filter req) = Ok tt) fs ->
  let ix := index_of y in
  match _subscribe_begin fs q auto sid (y_registry y) with
  | (Ok ((pid, f), new), r1) =>
      _entries (index r1) = _entries ix ++ new /\
      (forall k, k ∈ new.*1 <-> k ∈ sr_topic_filter <$> fs /\ contains ix k = false) /\
      NoDup new.*1 /\ Forall (entry_for ps q auto sid) new /\
      (exists data, e_wire (r_engine r1) = e_wire (engine_of y) ++ [data] /\
        encode (PSubscribe (mkSubscribe pid fs ((fun i => mkSubscribeProperties (Some i) []) <$> sid)))
          (e_version (engine_of y)) = Ok data) /\
      forall r2 outcome,
        e_wire (r_engine (_subscribe_end fs new pid outcome r2).2) = e_wire (r_engine r2) /\
        match _subscribe_end fs new pid outcome r2 with
        | (Ok (suback, queues), r3) =>
            outcome = Ok suback /\ _raise_on_rejected_filters fs suback = Ok tt /\
            queues = (fun it => (it.1, queue it.2)) <$> new /\ index r3 = index r2
        | (Err _, r3) =>
            _entries (index r3) = filter (fun it => it.1 ∉ new.*1) (_entries (index r2)) /\
            (index r2 = index r1 -> forall topic, select (index r3) topic = select ix topic)
        end
  | (Err _, r1) =>
      _entries (index r1) = _entries ix /\ e_wire (r_engine r1) = e_wire (engine_of y) /\
      forall topic, select (index r1) topic = select ix topic
  end.
Proof.
  intros Hy%sys_reachable_ok Hv ix. pose proof (sk_index _ _ Hy) as Hix.
  destruct (subscribe_begin_index fs q auto sid (y_registry y) Hix) as (new & Hn & Hr & Hi & _ & _).
  pose proof (subscribe_begin_wire fs q auto sid (y_registry y) Hix (sk_engine _ _ Hy)) as Hw.
  fold (engine_of y) (index_of y) in Hr, Hw.
  destruct (_subscribe_begin fs q auto sid (y_registry y)) as [[[[pid f] new']|x] r1]; cbn [snd] in Hi.
  - destruct Hr as [-> He]. split_and!; [done|apply Hn|apply Hn| |done|].
    + rewrite <- (sk_prefixes _ _ Hy). apply Hn.
    + intros r2 outcome. split; [apply subscribe_end_wire|].
      pose proof (subscribe_end_index fs new pid outcome r2) as H2.
      destruct (_subscribe_end fs new pid outcome r2) as [[[a qs]|x] r3]; [done|].
      destruct H2 as (H2 & _ & H3). split; [done|]. intros Heq topic. rewrite Heq in H2, H3.
      apply select_entries; [done|by apply H3|by eapply sys_valid|]. rewrite H2, He. apply drop_new.
      intros k [_ Hk]%(nw_keys _ _ _ _ _ _ Hn) Hin. apply contains_keys in Hin.
      unfold ix, index_of in Hin. congruence.
  - split_and!; [done|done|]. intros topic. apply select_entries; [done..|by eapply sys_valid|done].
Qed.

(** C28: what the client routes on, the broker serves.  In every reachable state each
    filter of the index and each observed response topic is subscribed at the broker:
    a SUBACK answered it with a return code that is no failure, and no UNSUBSCRIBE for
    it was written since; or a task inside its guard is waiting for the SUBACK that
    answers it.  So when no task runs, every registered filter is subscribed, also
    after SUBACKs that rejected some or all of their filters. *)
Theorem registered_is_subscribed v mq ps y :
  sys_reachable v mq ps y ->
  (forall f, contains (index_of y) f = true -> f ∈ y_broker y \/ waiting (wants f) y f) /\
  (forall f, f ∈ _response_observers (index_of y) ->
     f ∈ y_broker y \/ waiting (wants_observed f) y f) /\
  (y_tasks y = ∅ -> forall f,
     contains (index_of y) f = true \/ f ∈ _response_observers (index_of y) -> f ∈ y_broker y).
Proof.
  intros Hy%sys_reachable_ok. split_and!; [apply Hy|apply Hy|]. intros Ht.
  assert (Hn : forall P f, ~ waiting P y f) by (intros P f (t & k & h & Hk & _); by rewrite Ht in Hk).
  intros f [Hf|Hf].
  - by destruct (sk_entries _ _ Hy f Hf) as [|[]%Hn].
  - by destruct (sk_observers _ _ Hy f Hf) as [|[]%Hn].
Qed.

(** ** A concrete run *)

Definition sample_request : SubscriptionRequest :=
  mkSubscriptionRequest (lit "a") AT_LEAST_ONCE false false SEND_ON_SUBSCRIBE.

Definition sample_in_guard : System :=
  mkSystem (hold 1 [lit "a"] new_guards) (mkRegistry (new_engine V5 EXACTLY_ONCE) [] 0) ∅ ∅.

Definition sample_sent : System :=
  run_task 1 (_subscribe_begin [sample_request] 7 true None)
    (fun a => Some (Subscribing [sample_request] a.2 a.1.1 a.1.2)) ∅ sample_in_guard.

Definition sample_suback : SubAck := mkSubAck 1 [1] None.

Definition sample_answered : System :=
  mkSystem (y_guards sample_sent)
    (set_r_engine (_handle_suback sample_suback (engine_of sample_sent)).2 (y_registry sample_sent))
    (y_tasks sample_sent) (y_broker sample_sent).

Definition sample_new : dict str SubscriptionEntry :=
  [(lit "a", mkEntry 0 7 true (lit "a") None)].

Definition sample_subscribed : System :=
  run_task 1 (_subscribe_end [sample_request] sample_new 1 (Ok sample_suback)) (fun _ => None)
    (granted [sample_request] (Ok sample_suback)) sample_answered.

Lemma sample_in_guard_reachable : sys_reachable V5 EXACTLY_ONCE [] sample_in_guard.
Proof.
  apply rtc_once. apply (sy_guards (new_system V5 EXACTLY_ONCE []) (hold 1 [lit "a"] new_guards)).
  - by apply gs_hold.
  - by intros t h [k Hk].
Qed.

Lemma sample_reachable_subscribed : sys_reachable V5 EXACTLY_ONCE [] sample_subscribed.
Proof.
  unfold sys_reachable. etrans; [exact sample_in_guard_reachable|].
  eapply rtc_l; [apply (sy_subscribe sample_in_guard 1 [sample_request] 7 true None)|].
  - split; [done|]. eexists. split; [vm_compute; reflexivity|]. split; [reflexivity|].
    intros f ->%list_elem_of_singleton. by left.
  - by repeat constructor.
  - eapply rtc_l; [apply (sy_engine sample_sent (_handle_suback sample_suback (engine_of sample_sent)).2)|].
    + apply step_suback.
    + vm_compute. reflexivity.
    + vm_compute. reflexivity.
    + apply rtc_once. apply (sy_subscribe_end sample_answered 1 _ _ 1 0); [vm_compute; reflexivity|].
      split; vm_compute; reflexivity.
Qed.

Lemma registered_is_subscribed_witness :
  contains (index_of sample_subscribed) (lit "a") = true /\ lit "a" ∈ y_broker sample_subscribed.
Proof.
  split; [vm_compute; reflexivity|].
  apply (registered_is_subscribed _ _ _ _ sample_reachable_subscribed); [vm_compute; reflexivity|].
  left. vm_compute. reflexivity.
Defined.

Lemma subscribe_all_or_nothing_witness :
  exists pid f new r1,
    _subscribe_begin [sample_request] 7 true None (y_registry sample_in_guard) = (Ok ((pid, f), new), r1) /\
    NoDup new.*1 /\
    e_wire (r_engine (_subscribe_end [sample_request] new pid (Err CancelledError) r1).2)
      = e_wire (r_engine r1).
Proof.
  pose proof (subscribe_all_or_nothing V5 EXACTLY_ONCE [] sample_in_guard [sample_request] 7 true None
    sample_in_guard_reachable) as H.
  destruct (_subscribe_begin [sample_request] 7 true None (y_registry sample_in_guard))
    as [[[[pid f] new]|x] r1] eqn:E; [|vm_compute in E; discriminate E].
  exists pid, f, new, r1. destruct H as (_ & _ & Hn & _ & _ & H); [by repeat constructor|].
  split; [reflexivity|]. split; [exact Hn|]. apply H.
Defined.

(** When the broker rejects one filter of several the client forgets them all, and
    sends no UNSUBSCRIBE for those that were granted. *)
Definition sample_pair : list SubscriptionRequest :=
  [sample_request; mkSubscriptionRequest (lit "b") AT_LEAST_ONCE false false SEND_ON_SUBSCRIBE].

Lemma partial_rejection_keeps_grants :
  match _subscribe_begin sample_pair 7 true None (y_registry sample_in_guard) with
  | (Ok ((pid, _), new), r1) =>
      match _subscribe_end sample_pair new pid (Ok (mkSubAck pid [1; 0x80] None)) r1 with
      | (r, r2) => r = Err (MQTTSubscribeError [(lit "b", 0x80)]) /\
          _entries (index r2) = [] /\ e_wire (r_engine r2) = e_wire (r_engine r1)
      end
  | _ => False
  end.
Proof. by vm_compute. Qed.
