(* ===== verification/Client.v ===== *)
(** * The client ([client.py])

    The public API above the protocol engine: the checks of its arguments, connecting
    with retries, the run loop that serves a connection and recovers it, and the life
    of a [Subscription] across connections.

    One connection of the engine is behind the interface [Handshake]: what
    [MQTTProtocol(...).connect(packet)] answers on an opened transport.  The coroutines
    are split where they suspend: [__aenter__] and the run loop have a state that says
    what they wait for, and an operation for each way the wait ends. *)

From Stdlib Require Import SpecFloat.
From S2P Require Import Prelude PyBytes Utf8 PyDict Wire PropertyRecords Packets Reader TopicMatching State Protocol Inbound InboundInv Connection Requests.
Local Open Scope Z_scope.

(** ** Numbers *)

(** A Python float is a binary64 number. *)
Definition float := spec_float.

Definition float_of_Z (n : Z) : float := binary_normalize 53 1024 n 0 false.

Definition float_mul (a b : float) : float := SFmul 53 1024 a b.

(** [min(a, b)] keeps the first argument unless the second is less. *)
Definition float_min (a b : float) : float := if SFltb b a then b else a.

Definition positive (a : float) : bool := SFltb (S754_zero false) a.

(** ** Configuration *)

Record ReconnectConfig := mkReconnectConfig {
  enabled : bool;
  initial_delay : float;
  max_delay : float;
  backoff_factor : float;
  max_attempts : option Z;
}.

(** The arguments of [MQTTClient] that the modelled code uses *)
Record ClientConfig := mkConfig {
  k_client_id : str;
  k_keepalive : Z;
  k_clean_session : bool;
  k_username : option str;
  k_password : option str;
  k_will : option Will;
  k_reconnect : ReconnectConfig;
  k_mqtt_connect_timeout : float;
  k_version : MQTTVersion;
  k_session_expiry_interval : Z;
  k_stripped_prefixes : list str;
  k_max_pending_requests : Z;
  k_session_replay_buffer_size : Z;
  k_session_replay_timeout : float;
}.

(** ** Connection information *)

Record ConnectionInfo := mkInfo {
  connection_id : Z;
  session_present : bool;
  return_code : Z;
  ci_properties : option ConnAckProperties;
  effective_client_id : str;
  effective_keepalive : Z;
  effective_session_expiry_interval : option Z;
}.

Definition from_connack (connect_packet : Connect) (connack : ConnAck) (version : MQTTVersion)
    (connection_id : Z) : ConnectionInfo :=
  let properties := ca_properties connack in
  let client_id := co_client_id connect_packet in
  let keepalive := co_keepalive connect_packet in
  let expiry :=
    match version with
    | V5 =>
        match co_properties connect_packet ≫= cnp_session_expiry_interval with
        | Some e => Some e
        | None => Some 0
        end
    | V311 => None
    end in
  match properties with
  | None =>
      mkInfo connection_id (ca_session_present connack) (ca_return_code connack) properties
        client_id keepalive expiry
  | Some p =>
      let client_id :=
        match client_id, cap_assigned_client_identifier p with
        | [], Some assigned => assigned
        | _, _ => client_id
        end in
      let keepalive :=
        match cap_server_keep_alive p with Some k => k | None => keepalive end in
      let expiry :=
        match version, cap_session_expiry_interval p with V5, Some e => Some e | _, _ => expiry end in
      mkInfo connection_id (ca_session_present connack) (ca_return_code connack) properties
        client_id keepalive expiry
  end.

(** ** Subscriptions *)

Record Subscription := mkSubscription {
  _filters : list str;
  _qos : QoS;
  _auto_ack : bool;
  _receive_buffer_size : Z;
  _no_local : bool;
  _retain_as_published : bool;
  _retain_handling : RetainHandling;
  _subscription_identifier : option Z;
  _registered_filters : list str;
}.

Definition set_registered (fs : list str) (s : Subscription) : Subscription :=
  mkSubscription (_filters s) (_qos s) (_auto_ack s) (_receive_buffer_size s) (_no_local s)
    (_retain_as_published s) (_retain_handling s) (_subscription_identifier s) fs.

(** The requests of [_do_subscribe] *)
Definition subscription_requests (s : Subscription) : list SubscriptionRequest :=
  (fun f => mkSubscriptionRequest f (_qos s) (_no_local s) (_retain_as_published s)
              (_retain_handling s)) <$> _filters s.

(** ** The client *)

(** Where [_connect_with_retry] is between two attempts *)
Record retry := mkRetry { rt_attempt : Z; rt_delay : float }.

(** What [__aenter__] or the run loop waits for.  While it recovers it keeps the
    snapshot [subs_to_restore]. *)
Inductive run_state :=
| NotRunning
| Connecting (rt : retry)
| Serving (subs_to_restore : list nat)
| Recovering (subs_to_restore : list nat) (rt : retry)
| RunReturned
| RunRaised (e : exn).

(** What the client does besides, in order *)
Inductive client_event :=
| Slept (delay : float)
| Attempted
| TransportClosed
| RecoveryFailed
| SubscribeCalled (requests : list SubscriptionRequest) (auto_ack : bool)
    (subscription_identifier : option Z)
| UnsubscribeCalled (filters : list str).

(** One connection of the engine, on an opened transport of type [T] *)
Class Handshake (T P : Type) := {
  mqtt_connect : ClientConfig -> _RequestDispatcher -> Connect -> T -> result ConnAck * P;
}.

(** What the client relies on: [connect] only returns an accepting CONNACK. *)
Class HandshakeLaws (T P : Type) `{Handshake T P} := {
  connect_accepts cfg d p t ack c : mqtt_connect cfg d p t = (Ok ack, c) -> ca_return_code ack = 0;
}.

Record Client (P : Type) := mkClient {
  k_config : ClientConfig;
  _connection_info : option ConnectionInfo;
  _connection_id : Z;
  k_protocol : option P;
  k_dispatcher : _RequestDispatcher;
  _subscriptions : list nat;
  k_objects : gmap nat Subscription;
  k_run : run_state;
  _subscription_failure : option (option exn);
  k_log : list client_event;
}.
Arguments mkClient {P}.
Arguments k_config {P}.
Arguments _connection_info {P}.
Arguments _connection_id {P}.
Arguments k_protocol {P}.
Arguments k_dispatcher {P}.
Arguments _subscriptions {P}.
Arguments k_objects {P}.
Arguments k_run {P}.
Arguments _subscription_failure {P}.
Arguments k_log {P}.

(** ** The checks of [__init__] *)

(** [_RequestDispatcher(...)] is made last. *)
Definition new_client {P} (cfg : ClientConfig) : result (Client P) :=
  if negb (positive (k_mqtt_connect_timeout cfg))
  then Err (ValueError "mqtt_connect_timeout must be positive")
  else if k_session_replay_buffer_size cfg <? 0
  then Err (ValueError "session_replay_buffer_size must be non-negative")
  else if negb (positive (k_session_replay_timeout cfg))
  then Err (ValueError "session_replay_timeout must be positive")
  else if bool_decide (is_Some (k_will cfg ≫= will_properties)) && bool_decide (k_version cfg <> V5)
  then Err (RuntimeError "will properties require MQTT 5.0")
  else
    d ← new_dispatcher (k_max_pending_requests cfg);
    Ok (mkClient cfg None 0 None d [] ∅ NotRunning None []).

(** [ReconnectConfig()] *)
Definition default_reconnect : ReconnectConfig :=
  mkReconnectConfig true (float_of_Z 1) (float_of_Z 60) (float_of_Z 2) (Some 5).

(** The arguments of [create_client] that the modelled code uses, [None] for one that is
    not given.  It has no argument for the stripped prefixes. *)
Definition create_client {P} (client_id : option str) (keepalive : option Z)
    (clean_session : option bool) (username password : option str) (will : option Will)
    (reconnect : option ReconnectConfig) (mqtt_connect_timeout : option float)
    (session_expiry_interval max_pending_requests session_replay_buffer_size : option Z)
    (session_replay_timeout : option float) (version : option MQTTVersion) : result (Client P) :=
  new_client (mkConfig (default [] client_id) (default 60 keepalive) (default true clean_session)
    username password will (default default_reconnect reconnect)
    (default (float_of_Z 30) mqtt_connect_timeout) (default V311 version)
    (default 0 session_expiry_interval) _DEFAULT_STRIPPED_PREFIXES
    (default 1000 max_pending_requests) (default 1000 session_replay_buffer_size)
    (default (float_of_Z 30) session_replay_timeout)).

Section client.
Context {T P : Type} `{Handshake T P}.

Notation C := (ST (Client P)).
Implicit Types (c : Client P).

(** *** Updates *)

Definition set_info (i : option ConnectionInfo) c : Client P :=
  mkClient (k_config c) i (_connection_id c) (k_protocol c) (k_dispatcher c) (_subscriptions c)
    (k_objects c) (k_run c) (_subscription_failure c) (k_log c).

Definition set_protocol (p : option P) c : Client P :=
  mkClient (k_config c) (_connection_info c) (_connection_id c) p (k_dispatcher c)
    (_subscriptions c) (k_objects c) (k_run c) (_subscription_failure c) (k_log c).

Definition set_dispatcher (d : _RequestDispatcher) c : Client P :=
  mkClient (k_config c) (_connection_info c) (_connection_id c) (k_protocol c) d
    (_subscriptions c) (k_objects c) (k_run c) (_subscription_failure c) (k_log c).

Definition set_subscriptions (l : list nat) c : Client P :=
  mkClient (k_config c) (_connection_info c) (_connection_id c) (k_protocol c) (k_dispatcher c) l
    (k_objects c) (k_run c) (_subscription_failure c) (k_log c).

Definition set_objects (o : gmap nat Subscription) c : Client P :=
  mkClient (k_config c) (_connection_info c) (_connection_id c) (k_protocol c) (k_dispatcher c)
    (_subscriptions c) o (k_run c) (_subscription_failure c) (k_log c).

Definition set_run (s : run_state) c : Client P :=
  mkClient (k_config c) (_connection_info c) (_connection_id c) (k_protocol c) (k_dispatcher c)
    (_subscriptions c) (k_objects c) s (_subscription_failure c) (k_log c).

Definition set_failure (f : option (option exn)) c : Client P :=
  mkClient (k_config c) (_connection_info c) (_connection_id c) (k_protocol c) (k_dispatcher c)
    (_subscriptions c) (k_objects c) (k_run c) f (k_log c).

Definition log (e : client_event) c : Client P :=
  mkClient (k_config c) (_connection_info c) (_connection_id c) (k_protocol c) (k_dispatcher c)
    (_subscriptions c) (k_objects c) (k_run c) (_subscription_failure c) (k_log c ++ [e]).

(** A successful handshake *)
Definition set_connected (p : P) (i : ConnectionInfo) c : Client P :=
  mkClient (k_config c) (Some i) (connection_id i) (Some p)
    (bind (Z.to_nat (connection_id i)) (k_dispatcher c)) (_subscriptions c) (k_objects c) (k_run c)
    (_subscription_failure c) (k_log c).

(** ** Connecting *)

(** The CONNECT packet of [_connect] *)
Definition connect_packet (cfg : ClientConfig) : result Connect :=
  let connect_props :=
    match k_version cfg with
    | V5 => Some (mkConnectProperties (Some (k_session_expiry_interval cfg)) None None None None
                    None None None [])
    | V311 => None
    end in
  password ← match k_password cfg with
             | Some p => Some <$> encode_utf8 p
             | None => Ok None
             end;
  Ok (mkConnect (k_client_id cfg) (k_clean_session cfg) (k_keepalive cfg) (k_username cfg) password
        (k_will cfg) connect_props).

(** [_connect] with what the transport factory did: an exception, or a transport.
    Nothing but the transport is left of a failed handshake, and it is closed. *)
Definition _connect (answer : result T) : C unit :=
  _ ← modify (log Attempted);
  transport ← lift answer;
  cfg ← gets k_config;
  d ← gets k_dispatcher;
  packet ← lift (connect_packet cfg);
  match mqtt_connect cfg d packet transport with
  | (Err x, _) => _ ← modify (log TransportClosed); raise x
  | (Ok connack, protocol) =>
      id ← gets _connection_id;
      modify (set_connected protocol (from_connack packet connack (k_version cfg) (id + 1)))
  end.

Definition next_delay (rc : ReconnectConfig) (delay : float) : float :=
  float_min (float_mul delay (backoff_factor rc)) (max_delay rc).

(** [await asyncio.sleep(delay)] and the next delay *)
Definition back_off (delay : float) : C float :=
  rc ← gets (fun c => k_reconnect (k_config c));
  _ ← modify (log (Slept delay));
  mret (next_delay rc delay).

(** [_connect_with_retry] up to its first attempt *)
Definition retry_start (wait_before_first_attempt : bool) : C retry :=
  rc ← gets (fun c => k_reconnect (k_config c));
  if wait_before_first_attempt then
    delay ← back_off (initial_delay rc);
    mret (mkRetry 0 delay)
  else mret (mkRetry 0 (initial_delay rc)).

(** [except (OSError, MQTTTimeoutError)] *)
Definition retried (x : exn) : bool :=
  match x with OSError | MQTTTimeoutError _ => true | _ => false end.

(** One turn of the loop: connected, or the state before the next attempt *)
Definition retry_once (answer : result T) (rt : retry) : C (option retry) := fun c =>
  match _connect answer c with
  | (Ok _, c') => (Ok None, c')
  | (Err x, c') =>
      if retried x then
        let rc := k_reconnect (k_config c') in
        let attempt := rt_attempt rt + 1 in
        if negb (enabled rc)
           || match max_attempts rc with Some max_a => max_a <=? attempt | None => false end
        then (Err x, c')
        else (delay ← back_off (rt_delay rt); mret (Some (mkRetry attempt delay))) c'
      else (Err x, c')
  end.

(** The loop on what the attempts meet: the answers left after the success, none when
    they are used up *)
Fixpoint connect_loop (answers : list (result T)) (rt : retry) : C (option (list (result T))) :=
  match answers with
  | [] => mret None
  | answer :: answers' =>
      r ← retry_once answer rt;
      match r with
      | None => mret (Some answers')
      | Some rt' => connect_loop answers' rt'
      end
  end.

Definition _connect_with_retry (wait_before_first_attempt : bool) (answers : list (result T))
    : C (option (list (result T))) :=
  rt ← retry_start wait_before_first_attempt;
  connect_loop answers rt.

(** ** The run loop *)

(** [_notify_subscription_failure], with the exception of the task if it has one *)
Definition _notify_subscription_failure (failure : option exn) c : Client P :=
  match failure, _subscription_failure c with
  | Some x, Some None => set_failure (Some (Some x)) (set_info None c)
  | _, _ => set_info None c
  end.

(** The run loop returns or raises, its done callback runs. *)
Definition run_ends (failure : option exn) c : Client P :=
  _notify_subscription_failure failure
    (set_run (match failure with Some x => RunRaised x | None => RunReturned end) c).

(** The head of the loop of [_run_loop]; it runs when the task starts and after each
    recovery *)
Definition run_iteration (subs_to_restore : list nat) c : Client P :=
  match k_protocol c with
  | None => run_ends (Some (RuntimeError "Not connected yet")) c
  | Some _ => set_run (Serving subs_to_restore) c
  end.

(** The [try] block ended. [except], [else] and [finally], and the loop up to its next
    wait: a lost connection is recovered from the subscriptions of this moment. *)
Definition serving_ended (outcome : result unit) c : Client P :=
  match outcome with
  | Ok _ => run_ends None (set_info None c)
  | Err x =>
      match x with
      | MQTTDisconnectedError _ | MQTTTimeoutError _ =>
          if negb (enabled (k_reconnect (k_config c)))
          then run_ends (Some x) (log RecoveryFailed (set_info None c))
          else
            let c1 := log TransportClosed (set_info None c) in
            let subs_to_restore := _subscriptions c1 in
            match retry_start true c1 with
            | (Ok rt, c2) => set_run (Recovering subs_to_restore rt) c2
            | (Err y, c2) => run_ends (Some y) c2
            end
      | _ => run_ends (Some x) (set_info None c)
      end
  end.

(** [except (MQTTConnectError, MQTTTimeoutError, OSError)] *)
Definition recovery_failure (x : exn) : bool :=
  match x with
  | MQTTConnectError _ _ _ _ | MQTTTimeoutError _ | OSError => true
  | _ => false
  end.

(** An attempt of the recovery *)
Definition recover (answer : result T) c : Client P :=
  match k_run c with
  | Recovering subs_to_restore rt =>
      match retry_once answer rt c with
      | (Ok None, c') => run_iteration subs_to_restore c'
      | (Ok (Some rt'), c') => set_run (Recovering subs_to_restore rt') c'
      | (Err x, c') =>
          run_ends (Some x) (if recovery_failure x then log RecoveryFailed c' else c')
      end
  | _ => c
  end.

(** ** Entering and leaving the client *)

(** [__aenter__] up to its first attempt, and an attempt of it *)
Definition enter_client : C unit :=
  rt ← retry_start false;
  modify (set_run (Connecting rt)).

Definition enter_attempt (answer : result T) : C bool := fun c =>
  match k_run c with
  | Connecting rt =>
      match retry_once answer rt c with
      | (Ok None, c') => (Ok true, run_iteration [] (set_failure (Some None) c'))
      | (Ok (Some rt'), c') => (Ok false, set_run (Connecting rt') c')
      | (Err x, c') => (Err x, set_run NotRunning c')
      end
  | _ => (Ok true, c)
  end.

(** [__aexit__]: the run loop is cancelled if there is one, and
    [_notify_subscription_failure] then only forgets the connection. *)
Definition exit_client c : Client P :=
  let c1 := set_dispatcher (cancel_pending (k_dispatcher c)) (set_info None c) in
  let c2 := match k_run c1 with Connecting _ => c1 | _ => set_run NotRunning c1 end in
  set_protocol None c2.

(** The property [connection_info] *)
Definition connection_info : C ConnectionInfo :=
  i ← gets _connection_info;
  match i with
  | Some i => mret i
  | None => raise (MQTTDisconnectedError "No active connection information")
  end.

(** [if self._protocol is None: raise] *)
Definition require_protocol : C P :=
  p ← gets k_protocol;
  match p with Some p => mret p | None => raise (MQTTDisconnectedError "Not connected") end.

(** ** The life of a subscription *)

(** [MQTTClient.subscribe] *)
Definition _MAX_SUBSCRIPTION_IDENTIFIER : Z := 268435455.

Fixpoint validate_filters (filters : list str) : result unit :=
  match filters with
  | [] => Ok tt
  | f :: filters' => _ ← validate_subscribe_topic f; validate_filters filters'
  end.

Definition subscribe (filters : list str) (qos : QoS) (auto_ack : bool) (receive_buffer_size : Z)
    (no_local retain_as_published : bool) (retain_handling : RetainHandling)
    (subscription_identifier : option Z) : C nat :=
  _ ← lift (validate_filters filters);
  version ← gets (fun c => k_version (k_config c));
  let uses_v5_option :=
    no_local || retain_as_published || negb (bool_decide (retain_handling = SEND_ON_SUBSCRIBE)) in
  if uses_v5_option && bool_decide (version <> V5)
  then raise (RuntimeError "no_local, retain_as_published, and retain_handling require MQTT 5.0")
  else
    _ ← (match subscription_identifier with
         | None => mret tt
         | Some i =>
             if bool_decide (version <> V5)
             then raise (RuntimeError "subscription_identifier requires MQTT 5.0")
             else if negb ((1 <=? i) && (i <=? _MAX_SUBSCRIPTION_IDENTIFIER))
             then raise (ValueError "subscription_identifier must be in 1..268435455")
             else mret tt
         end);
    objects ← gets k_objects;
    let s := fresh (dom objects) in
    _ ← modify (set_objects (<[s := mkSubscription filters qos auto_ack receive_buffer_size no_local
           retain_as_published retain_handling subscription_identifier []]> objects));
    mret s.

(** [_do_subscribe] up to its wait: the call of [protocol.subscribe] with the requests
    built from the subscription *)
Definition _do_subscribe_begin (s : nat) : C (list SubscriptionRequest) :=
  o ← gets (fun c => k_objects c !! s);
  match o with
  | Some o =>
      let reqs := subscription_requests o in
      _ ← modify (log (SubscribeCalled reqs (_auto_ack o) (_subscription_identifier o)));
      mret reqs
  | None => mret []
  end.

(** [__aenter__] up to the SUBSCRIBE: the requests for [protocol.subscribe] *)
Definition enter_subscription (s : nat) : C (list SubscriptionRequest) :=
  _ ← require_protocol;
  _ ← modify (fun c => set_subscriptions (_subscriptions c ++ [s]) c);
  _do_subscribe_begin s.

(** The rest of [_do_subscribe]: [protocol.subscribe] returned the queues by filter, or
    raised *)
Definition _do_subscribe_end (s : nat) (outcome : result (list str)) : C unit :=
  keys ← lift outcome;
  modify (fun c => set_objects (alter (set_registered keys) s (k_objects c)) c).

(** [list.remove] *)
Fixpoint list_remove (s : nat) (l : list nat) : option (list nat) :=
  match l with
  | [] => None
  | s' :: l' => if decide (s = s') then Some l' else cons s' <$> list_remove s l'
  end.

(** [__aexit__]: the filters of the UNSUBSCRIBE, whose outcome is ignored *)
Definition exit_subscription (s : nat) (being_cancelled : bool) : C (list str) :=
  l ← gets _subscriptions;
  match list_remove s l with
  | None => raise (ValueError "list.remove(x): x not in list")
  | Some l' =>
      _ ← modify (set_subscriptions l');
      o ← gets (fun c => k_objects c !! s);
      protocol ← gets k_protocol;
      let registered := match o with Some o => _registered_filters o | None => [] end in
      match being_cancelled, registered, protocol with
      | false, _ :: _, Some _ => _ ← modify (log (UnsubscribeCalled registered)); mret registered
      | _, _, _ => mret []
      end
  end.

(** A step of the restoration in the [try] block of the run loop: [_reconnect] of the
    first subscription calls [protocol.subscribe] on the new connection; it returned,
    or the block ends with its exception. *)
Definition restore_next (outcome : result (list str)) c : Client P :=
  match k_run c with
  | Serving (s :: rest) =>
      match (_ ← _do_subscribe_begin s; _do_subscribe_end s outcome) c with
      | (Ok _, c') => set_run (Serving rest) c'
      | (Err x, c') => serving_ended (Err x) c'
      end
  | _ => c
  end.

(** The [try] block ends after the restoration: [dispatcher.restore] or the connection
    did. *)
Definition serve_next (outcome : result unit) c : Client P :=
  match k_run c with Serving [] => serving_ended outcome c | _ => c end.

(** [get_message] up to its wait *)
Definition get_message : C unit :=
  failure ← gets _subscription_failure;
  match failure with Some (Some x) => raise x | _ => mret tt end.

(** The wait ended, with the message the queue gave if it did: a failure of the run
    loop comes first. *)
Definition get_message_end (message : option nat) : C (option nat) :=
  failure ← gets _subscription_failure;
  match failure with Some (Some x) => raise x | _ => mret message end.

(** ** Sending *)

(** [publish] up to [protocol.publish]: the packet.  A payload is bytes, or a string
    that is encoded. *)
Definition client_publish (topic : str) (payload : bytes + str) (qos : QoS) (retain : bool)
    (properties : option PublishProperties) : C Publish :=
  _ ← lift (validate_publish topic);
  _ ← require_protocol;
  version ← gets (fun c => k_version (k_config c));
  if bool_decide (is_Some properties) && bool_decide (version <> V5)
  then raise (RuntimeError "properties require MQTT 5.0")
  else
    payload ← lift (match payload with inl b => Ok b | inr s => encode_utf8 s end);
    mret (mkPublish topic payload qos retain false None properties).

(** [dataclasses.replace(properties, response_topic=..., correlation_data=...)] *)
Definition with_response (properties : PublishProperties) (response_topic : str)
    (correlation_data : bytes) : PublishProperties :=
  mkPublishProperties (pbp_payload_format_indicator properties)
    (pbp_message_expiry_interval properties) (pbp_topic_alias properties) (Some response_topic)
    (Some correlation_data) (pbp_subscription_identifier properties) (pbp_content_type properties)
    (pbp_user_properties properties).

Definition no_publish_properties : PublishProperties :=
  mkPublishProperties None None None None None None None [].

(** [bytes.hex()] *)
Definition hex_digit (n : Z) : Z := if n <? 10 then 48 + n else 87 + n.

Definition hex (data : bytes) : str :=
  data ≫= (fun b => [hex_digit (b2z b / 16); hex_digit (b2z b mod 16)]).

(** [request] up to the registration of its waiter.  [urandom1] and [urandom2] are the
    random bytes for the topic and the correlation data. *)
Definition request_properties (properties : option PublishProperties) (urandom1 urandom2 : bytes)
    : C ((str * bytes) * PublishProperties) :=
  version ← gets (fun c => k_version (k_config c));
  if bool_decide (version <> V5) then raise (RuntimeError "request() requires MQTT 5.0")
  else
    reply_topic ← (match properties ≫= pbp_response_topic with
                   | Some t => _ ← lift (validate_response_topic t); mret t
                   | None => mret (lit "_zmqtt/reply/" ++ hex urandom1)
                   end);
    let corr :=
      match properties ≫= pbp_correlation_data with Some d => d | None => urandom2 end in
    mret ((reply_topic, corr),
          with_response (default no_publish_properties properties) reply_topic corr).

(** [self._request_dispatcher.register(reply_topic, corr)] up to its wait *)
Definition request_register (reply_topic : str) (corr : bytes) : C (option (nat * nat)) :=
  zoom k_dispatcher set_dispatcher (register reply_topic corr).

(** [ping] and [_notify_capacity_available] up to the engine *)
Definition client_ping : C P := require_protocol.

Definition _notify_capacity_available : C (option P) := gets k_protocol.

Definition auth (method : str) (data : option bytes) : C Auth :=
  version ← gets (fun c => k_version (k_config c));
  if bool_decide (version <> V5) then raise (RuntimeError "AUTH requires MQTT 5.0")
  else
    _ ← require_protocol;
    mret (mkAuth 0x18 (Some (mkAuthProperties (Some method) data None []))).

End client.

(** ** The engine behind the interface *)

(** A transport: its reads, and the queues the application has.  The router of the new
    protocol is the dispatcher of the client. *)
Definition transport : Type := list read_event * gmap nat Queue.

Definition new_protocol (cfg : ClientConfig) (d : _RequestDispatcher) (queues : gmap nat Queue)
    : Connection _RequestDispatcher :=
  mkConnection (new_flow (k_version cfg) EXACTLY_ONCE (Some d) (k_session_replay_buffer_size cfg) queues)
    (new_buffer (k_version cfg)) false.

#[export] Instance engine_handshake : Handshake transport (Connection _RequestDispatcher) := {
  mqtt_connect cfg d p t :=
    match connect p t.1 (new_protocol cfg d t.2) with
    | (Ok (ack, _), c) => (Ok ack, c)
    | (Err x, c) => (Err x, c)
    end;
}.
