(* ===== verification/ClientFacts.v ===== *)
(** * Connecting, recovering and restoring

    The retry policy of [_connect_with_retry], the client as a transition system with
    its invariant, and what happens to subscriptions and requests across connections. *)

From Stdlib Require Import SpecFloat.
From S2P Require Import Prelude PyBytes Utf8 PyDict Wire PropertyRecords Packets Codec Reader TopicMatching State Protocol Inbound InboundInv Connection ConnectionFacts Requests RequestsFacts Client.
Local Open Scope Z_scope.

(** ** Delays *)

Lemma SFltb_irrefl a : SFltb a a = false.
Proof.
  destruct a as [z|z| |z m e]; try done; [by destruct z..|].
  unfold SFltb. simpl. destruct z; by rewrite Z.compare_refl, Pos.compare_cont_refl.
Qed.

(** A delay after the first is not above [max_delay], whatever the numbers are. *)
Lemma next_delay_bounded rc d : SFltb (max_delay rc) (next_delay rc d) = false.
Proof.
  unfold next_delay, float_min. destruct (SFltb (max_delay rc) (float_mul _ _)) eqn:E;
    [apply SFltb_irrefl|done].
Qed.

(** The delays of the back-off in order *)
Definition nth_delay (rc : ReconnectConfig) (k : nat) : float :=
  Nat.iter k (next_delay rc) (initial_delay rc).

(** [n] delays from the [k]-th on *)
Definition delays (rc : ReconnectConfig) (k n : nat) : list float :=
  nth_delay rc <$> seq k n.

Definition sleeps (l : list client_event) : list float :=
  omap (fun e => match e with Slept d => Some d | _ => None end) l.

Definition is_attempt (e : client_event) : bool := match e with Attempted => true | _ => false end.
Definition is_report (e : client_event) : bool := match e with RecoveryFailed => true | _ => false end.

Definition count (p : client_event -> bool) (l : list client_event) : nat :=
  length (filter (fun e => p e = true) l).

Lemma count_app p l k : count p (l ++ k) = (count p l + count p k)%nat.
Proof. unfold count. by rewrite filter_app, length_app. Qed.

Lemma sleeps_app l k : sleeps (l ++ k) = sleeps l ++ sleeps k.
Proof. apply omap_app. Qed.

Section client.
Context {T P : Type} `{Handshake T P}.
Implicit Types (c : Client P).

Notation C := (ST (Client P)).

(** ** One attempt *)

(** What an attempt comes to *)
Definition attempt (c : Client P) (answer : result T) : result (P * ConnAck * Connect) :=
  t ← answer;
  packet ← connect_packet (k_config c);
  match mqtt_connect (k_config c) (k_dispatcher c) packet t with
  | (Ok ack, p) => Ok (p, ack, packet)
  | (Err x, _) => Err x
  end.

Definition logged (es : list client_event) (c : Client P) : Client P :=
  mkClient (k_config c) (_connection_info c) (_connection_id c) (k_protocol c) (k_dispatcher c)
    (_subscriptions c) (k_objects c) (k_run c) (_subscription_failure c) (k_log c ++ es).

Lemma logged_logged es fs c : logged fs (logged es c) = logged (es ++ fs) c.
Proof. unfold logged. simpl. by rewrite app_assoc. Qed.

Lemma logged_nil c : logged [] c = c.
Proof. unfold logged. rewrite app_nil_r. by destruct c. Qed.

Lemma attempt_logged es c a : attempt (logged es c) a = attempt c a.
Proof. done. Qed.

(** The information a successful attempt leaves *)
Definition snapshot (c : Client P) (packet : Connect) (ack : ConnAck) : ConnectionInfo :=
  from_connack packet ack (k_version (k_config c)) (_connection_id c + 1).

Lemma attempt_eq a c :
  exists es, count is_attempt es = 1%nat /\ count is_report es = 0%nat /\ sleeps es = [] /\
  _connect a c =
    match attempt c a with
    | Ok (p, ack, packet) => (Ok tt, set_connected p (snapshot c packet ack) (logged es c))
    | Err x => (Err x, logged es c)
    end.
Proof.
  unfold _connect, attempt. run. unfold lift.
  destruct a as [t|x]; [|by exists [Attempted]]. run. simpl (Ok t ≫= _).
  change (k_config (log Attempted c)) with (k_config c).
  change (k_dispatcher (log Attempted c)) with (k_dispatcher c).
  destruct (connect_packet (k_config c)) as [packet|x]; [|by exists [Attempted]]. simpl (Ok packet ≫= _).
  run. destruct (mqtt_connect _ _ packet t) as [[ack|x] p].
  - by exists [Attempted].
  - exists [Attempted; TransportClosed]. split_and!; [done..|]. run. unfold raise, log, logged. simpl.
    by rewrite <- app_assoc.
Qed.

(** ** The retry policy *)

(** No attempt follows the [k]-th. *)
Definition exhausted (rc : ReconnectConfig) (k : Z) : bool :=
  negb (enabled rc) || match max_attempts rc with Some n => n <=? k | None => false end.

Definition reconnect_of (c : Client P) : ReconnectConfig := k_reconnect (k_config c).

Lemma retry_once_eq a rt c :
  exists es, count is_attempt es = 1%nat /\ count is_report es = 0%nat /\
  match attempt c a with
  | Ok (p, ack, packet) =>
      sleeps es = [] /\
      retry_once a rt c = (Ok None, set_connected p (snapshot c packet ack) (logged es c))
  | Err x =>
      if retried x && negb (exhausted (reconnect_of c) (rt_attempt rt + 1)) then
        sleeps es = [rt_delay rt] /\
        retry_once a rt c =
          (Ok (Some (mkRetry (rt_attempt rt + 1) (next_delay (reconnect_of c) (rt_delay rt)))),
           logged es c)
      else sleeps es = [] /\ retry_once a rt c = (Err x, logged es c)
  end.
Proof.
  destruct (attempt_eq a c) as (es & Ha & Hr & Hs & He). unfold retry_once. rewrite He. clear He.
  destruct (attempt c a) as [[[p ack] packet]|x]; [by exists es|].
  fold (exhausted (k_reconnect (k_config (logged es c))) (rt_attempt rt + 1)).
  change (k_reconnect (k_config (logged es c))) with (reconnect_of c).
  destruct (retried x); [|by exists es]. destruct (exhausted _ _); [by exists es|].
  exists (es ++ [Slept (rt_delay rt)]). rewrite !count_app, sleeps_app, Ha, Hr, Hs.
  split_and!; [done..|]. unfold back_off. run. f_equal. unfold log, logged. simpl.
  by rewrite <- app_assoc.
Qed.

(** The first [j] answers are failures after which an attempt follows; [n] attempts were
    made before. *)
Definition retried_answers (c : Client P) (n : nat) (answers : list (result T)) (j : nat) : Prop :=
  forall i a, (i < j)%nat -> answers !! i = Some a ->
    exists x, attempt c a = Err x /\ retried x = true /\
      exhausted (reconnect_of c) (Z.of_nat (n + i) + 1) = false.

(** How the loop ends after [j] failures, with these events *)
Definition loop_ends (c : Client P) (n : nat) (answers : list (result T)) (j : nat)
    (es : list client_event) (r : result (option (list (result T))) * Client P) : Prop :=
  match r with
  | (Ok None, c') => j = length answers /\ count is_attempt es = j /\ c' = logged es c
  | (Ok (Some rest), c') =>
      exists a p ack packet, answers !! j = Some a /\ attempt c a = Ok (p, ack, packet) /\
        rest = drop (S j) answers /\ count is_attempt es = S j /\
        c' = set_connected p (snapshot c packet ack) (logged es c)
  | (Err x, c') =>
      exists a, answers !! j = Some a /\ attempt c a = Err x /\
        (retried x = false \/ exhausted (reconnect_of c) (Z.of_nat (n + j) + 1) = true) /\
        count is_attempt es = S j /\ c' = logged es c
  end.

Lemma loop_ends_cons c n a answers j es1 es r :
  count is_attempt es1 = 1%nat ->
  loop_ends (logged es1 c) (S n) answers j es r ->
  loop_ends c n (a :: answers) (S j) (es1 ++ es) r.
Proof.
  intros H1. destruct r as [[[rest|]|x] c']; simpl; rewrite count_app, H1.
  - intros (a' & p & ack & packet & Ha & Hat & -> & Hc & ->). exists a', p, ack, packet.
    split_and!; try done; [lia|]. by rewrite logged_logged.
  - intros (-> & Hc & ->). split_and!; [done|lia|]. by rewrite logged_logged.
  - intros (a' & Ha & Hat & Hr & Hc & ->). exists a'. split_and!; try done; [|lia|].
    + replace (n + S j)%nat with (S n + j)%nat by lia. done.
    + by rewrite logged_logged.
Qed.

Lemma connect_loop_spec answers : forall n m c,
  exists j es, (j <= length answers)%nat /\ count is_report es = 0%nat /\
    sleeps es = delays (reconnect_of c) m j /\ retried_answers c n answers j /\
    loop_ends c n answers j es
      (connect_loop answers (mkRetry (Z.of_nat n) (nth_delay (reconnect_of c) m)) c).
Proof.
  induction answers as [|a answers IH]; intros n m c; cbn [connect_loop].
  - exists 0%nat, []. split_and!; [lia|done|done|intros i b Hi; lia|].
    split_and!; [done|done|]. by rewrite logged_nil.
  - set (rt := mkRetry _ _). rewrite run_bind.
    destruct (retry_once_eq a rt c) as (es1 & H1 & H2 & Hr).
    destruct (attempt c a) as [[[p ack] packet]|x] eqn:Ha.
    + destruct Hr as [Hs ->]. exists 0%nat, es1. split_and!; [lia|done|done|intros i b Hi; lia|].
      exists a, p, ack, packet. by split_and!.
    + destruct (retried x && negb (exhausted (reconnect_of c) (rt_attempt rt + 1))) eqn:Hgo.
      * destruct Hr as [Hs ->]. apply andb_true_iff in Hgo as [Hx Hex%negb_true_iff].
        simpl in Hex. cbn [rt_attempt rt_delay rt].
        replace (Z.of_nat n + 1) with (Z.of_nat (S n)) by lia.
        destruct (IH (S n) (S m) (logged es1 c)) as (j & es & Hj & Hrep & Hsl & Hpre & Hend).
        exists (S j), (es1 ++ es). split_and!.
        -- simpl. lia.
        -- by rewrite count_app, H2.
        -- rewrite sleeps_app, Hs, Hsl. done.
        -- intros [|i] b Hi Hb.
           ++ injection Hb as <-. exists x. rewrite Nat.add_0_r. by split_and!.
           ++ destruct (Hpre i b) as (y & Hy); [lia|done|]. exists y.
              replace (n + S i)%nat with (S n + i)%nat by lia. exact Hy.
        -- by apply loop_ends_cons.
      * destruct Hr as [Hs ->]. exists 0%nat, es1. split_and!; [simpl; lia|done|done|intros i b Hi; lia|].
        exists a. rewrite Nat.add_0_r. split_and!; try done.
        apply andb_false_iff in Hgo as [?|?%negb_false_iff]; [by left|by right].
Qed.

Lemma connect_with_retry_eq (wait : bool) answers c :
  exists j es, (j <= length answers)%nat /\ count is_report es = 0%nat /\
    sleeps es = delays (reconnect_of c) 0 ((if wait then 1 else 0) + j) /\
    retried_answers c 0 answers j /\
    loop_ends c 0 answers j es (_connect_with_retry wait answers c).
Proof.
  unfold _connect_with_retry. rewrite run_bind. unfold retry_start. run. destruct wait.
  - unfold back_off. run. fold (reconnect_of c).
    change (log (Slept (initial_delay (reconnect_of c))) c)
      with (logged [Slept (initial_delay (reconnect_of c))] c).
    destruct (connect_loop_spec answers 0 1 (logged [Slept (initial_delay (reconnect_of c))] c))
      as (j & es & Hj & Hrep & Hsl & Hpre & Hend).
    exists j, (Slept (initial_delay (reconnect_of c)) :: es). split_and!; [done| |by simpl; rewrite Hsl|done|].
    + exact Hrep.
    + revert Hend. set (r := connect_loop _ _ _). unfold loop_ends.
      destruct r as [[[rest|]|x] c']; rewrite ?logged_logged; done.
  - destruct (connect_loop_spec answers 0 0 c) as (j & es & Hj & Hrep & Hsl & Hpre & Hend).
    exists j, es. by split_and!.
Qed.

Lemma retried_answers_bound c answers j n :
  retried_answers c 0 answers j -> (j <= length answers)%nat -> 0 <= n ->
  (enabled (reconnect_of c) = false -> j = 0%nat) /\
  (max_attempts (reconnect_of c) = Some n -> Z.of_nat j <= Z.max 0 (n - 1)).
Proof.
  intros Hpre Hj Hn. destruct j as [|j]; [split; lia|].
  destruct (lookup_lt_is_Some_2 answers j) as [a Ha]; [lia|].
  destruct (Hpre j a) as (x & _ & _ & He); [lia|done|].
  apply orb_false_iff in He as [He Hm]. apply negb_false_iff in He. split; [congruence|].
  intros Hmax. rewrite Hmax in Hm. apply Z.leb_gt in Hm. simpl in Hm. lia.
Qed.

(** ** The client as a transition system *)

(** One stretch of the event loop: the client is entered or left, an attempt ends, the
    run loop goes on, the application subscribes and unsubscribes; requests change the
    dispatcher and packets the protocol. *)
Inductive client_step c : Client P -> Prop :=
| cs_enter : k_run c = NotRunning -> client_step c (enter_client c).2
| cs_enter_attempt answer : client_step c (enter_attempt answer c).2
| cs_recover answer : client_step c (recover answer c)
| cs_restore outcome : client_step c (restore_next outcome c)
| cs_serve outcome : client_step c (serve_next outcome c)
| cs_exit : client_step c (exit_client c)
| cs_subscribe fs q auto size nl rap rh sid : client_step c (subscribe fs q auto size nl rap rh sid c).2
| cs_enter_subscription s : client_step c (enter_subscription s c).2
| cs_subscribed s outcome : client_step c (_do_subscribe_end s outcome c).2
| cs_exit_subscription s b : client_step c (exit_subscription s b c).2
| cs_dispatcher d :
    Requests._protocol d = Requests._protocol (k_dispatcher c) -> client_step c (set_dispatcher d c)
| cs_protocol p : is_Some (k_protocol c) -> client_step c (set_protocol (Some p) c).

Definition client_reachable (cfg : ClientConfig) (c : Client P) : Prop :=
  exists c0, new_client cfg = Ok c0 /\ rtc client_step c0 c.

Definition serving (s : run_state) : Prop := match s with Serving _ => True | _ => False end.
Definition running (s : run_state) : Prop :=
  match s with Serving _ | Recovering _ _ => True | _ => False end.

Record info_ok c (i : ConnectionInfo) : Prop := {
  io_id : connection_id i = _connection_id c;
  io_code : return_code i = 0;
  io_protocol : is_Some (k_protocol c);
  io_bound : Requests._protocol (k_dispatcher c) = Some (Z.to_nat (_connection_id c));
}.

Record client_ok c : Prop := {
  co_info i : _connection_info c = Some i -> info_ok c i;
  co_serving : is_Some (_connection_info c) <-> serving (k_run c);
  co_running : running (k_run c) -> _subscription_failure c = Some None;
  co_raised x : k_run c = RunRaised x -> _subscription_failure c = Some (Some x);
  co_id : 0 <= _connection_id c;
}.

(** The connection number only grows by a handshake, whose information is then current;
    a failed recovery is reported by the step that ends the run loop. *)
Definition advances c c' : Prop :=
  (_connection_id c' = _connection_id c /\
     (_connection_info c' = _connection_info c \/ _connection_info c' = None) \/
   _connection_id c' = _connection_id c + 1 /\
     exists i, _connection_info c' = Some i /\ connection_id i = _connection_id c + 1) /\
  (count is_report (k_log c') = count is_report (k_log c) \/
   count is_report (k_log c') = S (count is_report (k_log c)) /\ running (k_run c) /\
     exists x, k_run c' = RunRaised x).

(** *** What keeps the invariant *)

Definition same_client c c' : Prop :=
  _connection_info c' = _connection_info c /\ _connection_id c' = _connection_id c /\
  (is_Some (k_protocol c) -> is_Some (k_protocol c')) /\
  Requests._protocol (k_dispatcher c') = Requests._protocol (k_dispatcher c) /\
  k_run c' = k_run c /\ _subscription_failure c' = _subscription_failure c /\
  count is_report (k_log c') = count is_report (k_log c).

Lemma same_client_ok c c' : same_client c c' -> client_ok c -> client_ok c' /\ advances c c'.
Proof.
  intros (H1 & H2 & H3 & H4 & H5 & H6 & H7) [I1 I2 I3 I4 I5]. split.
  - split; rewrite ?H1, ?H2, ?H5, ?H6; try done. intros i Hi. destruct (I1 i Hi) as [J1 J2 J3 J4].
    split; rewrite ?H2, ?H4; auto.
  - split; [left; rewrite H1, H2; auto|by left].
Qed.

(** The connection is forgotten and nothing runs on it. *)
Lemma forgotten_ok c c' :
  client_ok c -> _connection_info c' = None -> _connection_id c' = _connection_id c ->
  ~ serving (k_run c') -> (running (k_run c') -> _subscription_failure c' = Some None) ->
  (forall x, k_run c' = RunRaised x -> _subscription_failure c' = Some (Some x)) ->
  client_ok c' /\ (_connection_id c' = _connection_id c /\
     (_connection_info c' = _connection_info c \/ _connection_info c' = None)).
Proof.
  intros Hok H1 H2 H3 H4 H5. split; [|auto]. split; [| |done|done|].
  - intros i. by rewrite H1.
  - rewrite H1. split; [by intros []|done].
  - rewrite H2. apply Hok.
Qed.

(** The run loop ends. *)
Lemma run_ends_ok c c1 failure :
  client_ok c -> running (k_run c) -> _connection_id c1 = _connection_id c ->
  _subscription_failure c1 = _subscription_failure c ->
  (count is_report (k_log c1) = count is_report (k_log c) \/
   count is_report (k_log c1) = S (count is_report (k_log c)) /\ is_Some failure) ->
  client_ok (run_ends failure c1) /\ advances c (run_ends failure c1).
Proof.
  intros Hok Hr Hid Hf Hlog. pose proof (co_running _ Hok Hr) as Hfail.
  assert (He : run_ends failure c1 =
    match failure with
    | Some x => set_failure (Some (Some x)) (set_info None (set_run (RunRaised x) c1))
    | None => set_info None (set_run RunReturned c1)
    end).
  { unfold run_ends, _notify_subscription_failure. destruct failure; [|done]. simpl.
    by rewrite Hf, Hfail. }
  rewrite He. destruct failure as [x|].
  - destruct (forgotten_ok c (set_failure (Some (Some x)) (set_info None (set_run (RunRaised x) c1))))
      as [Hok' Hadv]; try done; [by intros []|by intros y [= <-]|].
    split; [done|]. split; [by left|]. destruct Hlog as [?|[Hc _]]; [by left|].
    right. split_and!; [done|done|by exists x].
  - destruct (forgotten_ok c (set_info None (set_run RunReturned c1))) as [Hok' Hadv]; try done;
      [by intros []|].
    split; [done|]. split; [by left|]. destruct Hlog as [?|[Hc []]]; [by left|done].
Qed.

Lemma attempt_accepts `{!HandshakeLaws T P} c a p ack packet :
  attempt c a = Ok (p, ack, packet) -> ca_return_code ack = 0.
Proof.
  unfold attempt. intros Hat. apply bind_Ok in Hat as (t & -> & Hat).
  apply bind_Ok in Hat as (pk & Hpk & Hat).
  destruct (mqtt_connect _ _ pk t) as [[ack'|x] p'] eqn:Hm; [|done]. injection Hat as <- <- <-.
  by apply connect_accepts in Hm.
Qed.

(** A handshake succeeded and the run loop serves the connection. *)
Lemma connected_ok `{!HandshakeLaws T P} c a p ack packet es subs :
  client_ok c -> attempt c a = Ok (p, ack, packet) -> count is_report es = 0%nat ->
  let c' := run_iteration subs (set_failure (Some None)
              (set_connected p (snapshot c packet ack) (logged es c))) in
  client_ok c' /\ advances c c'.
Proof.
  intros Hok Hat Hes c'. pose proof (co_id _ Hok).
  assert (Hi : connection_id (snapshot c packet ack) = _connection_id c + 1 /\
    return_code (snapshot c packet ack) = ca_return_code ack).
  { unfold snapshot, from_connack. by destruct (ca_properties ack). }
  destruct Hi as [Hi Hc]. split.
  - split.
    + intros i [= <-]. split; [done|by rewrite Hc; eapply attempt_accepts|by eexists|done].
    + split; [done|]. intros _. by eexists.
    + done.
    + done.
    + change (0 <= connection_id (snapshot c packet ack)). lia.
  - split; [right; split; [exact Hi|eexists; split; [done|exact Hi]]|]. left. simpl.
    rewrite count_app. lia.
Qed.

Lemma log_report c e : count is_report (k_log (log e c)) =
  (count is_report (k_log c) + if is_report e then 1 else 0)%nat.
Proof. simpl. rewrite count_app. by destruct e. Qed.

(** A lost connection is recovered from the subscriptions of that moment. *)
Definition lost (x : exn) : bool :=
  match x with MQTTDisconnectedError _ | MQTTTimeoutError _ => true | _ => false end.

Lemma serving_ended_eq outcome c :
  serving_ended outcome c =
    match outcome with
    | Ok _ => run_ends None (set_info None c)
    | Err x =>
        if negb (lost x) then run_ends (Some x) (set_info None c)
        else if negb (enabled (reconnect_of c))
        then run_ends (Some x) (log RecoveryFailed (set_info None c))
        else set_run (Recovering (_subscriptions c) (mkRetry 0 (nth_delay (reconnect_of c) 1)))
          (logged [TransportClosed; Slept (initial_delay (reconnect_of c))] (set_info None c))
    end.
Proof.
  unfold serving_ended, retry_start, back_off. destruct outcome as [u|x]; [done|].
  destruct x; try done; simpl; fold (reconnect_of c); destruct (enabled (reconnect_of c)); try done;
    run; unfold log, logged; simpl; by rewrite <- app_assoc.
Qed.

Lemma serving_ended_ok outcome c :
  client_ok c -> running (k_run c) ->
  client_ok (serving_ended outcome c) /\ advances c (serving_ended outcome c).
Proof.
  intros Hok Hr. rewrite serving_ended_eq. destruct outcome as [u|x].
  - apply run_ends_ok; auto.
  - destruct (lost x); cbn [negb]; [|apply run_ends_ok; auto].
    destruct (enabled (reconnect_of c)); cbn [negb].
    + match goal with |- client_ok ?c' /\ _ => destruct (forgotten_ok c c') as [Hok' Hadv] end;
        try done; try (by intros []); [intros _; exact (co_running _ Hok Hr)|].
      split; [done|]. split; [by left|]. left. simpl. rewrite count_app. apply Nat.add_0_r.
    + apply run_ends_ok; try done. right. split; [|by eexists]. simpl. rewrite count_app.
      apply Nat.add_1_r.
Qed.

Lemma retry_state_ok c es s :
  client_ok c -> ~ serving (k_run c) -> count is_report es = 0%nat ->
  ~ serving s -> (running s -> running (k_run c)) -> (forall x, s <> RunRaised x) ->
  client_ok (set_run s (logged es c)) /\ advances c (set_run s (logged es c)).
Proof.
  intros Hok Hs Hes Hns Hr Hx.
  assert (_connection_info c = None) as Hi.
  { destruct (_connection_info c) eqn:Hi; [|done]. destruct Hs. apply (co_serving _ Hok). by rewrite Hi. }
  destruct (forgotten_ok c (set_run s (logged es c))) as [Hok' Hadv]; try done.
  - intros Hs'. apply (co_running _ Hok). auto.
  - intros x. by intros ?%Hx.
  - split; [done|]. split; [by left|]. left. simpl. rewrite count_app. lia.
Qed.

Lemma recover_ok `{!HandshakeLaws T P} answer c :
  client_ok c -> client_ok (recover answer c) /\ advances c (recover answer c).
Proof.
  intros Hok. unfold recover. destruct (k_run c) as [| | |subs rt| |] eqn:Hrun;
    try by apply same_client_ok.
  assert (Hr : running (k_run c)) by by rewrite Hrun.
  pose proof (co_running _ Hok Hr) as Hfail.
  destruct (retry_once_eq answer rt c) as (es & _ & Hes & Hre).
  destruct (attempt c answer) as [[[p ack] packet]|x] eqn:Hat.
  - destruct Hre as [_ ->].
    assert (He : run_iteration subs (set_connected p (snapshot c packet ack) (logged es c)) =
      run_iteration subs (set_failure (Some None) (set_connected p (snapshot c packet ack) (logged es c)))).
    { unfold run_iteration. simpl. f_equal. unfold set_failure, set_connected, logged. simpl.
      by rewrite Hfail. }
    rewrite He. by eapply connected_ok.
  - destruct (_ && _); destruct Hre as [_ ->].
    + apply retry_state_ok; try done; rewrite ?Hrun; by intros [].
    + assert (Hc : count is_report (k_log (logged es c)) = count is_report (k_log c))
        by (simpl; rewrite count_app; lia).
      destruct (recovery_failure x).
      * apply run_ends_ok; try done. right. split; [|by eexists]. rewrite log_report, Hc. simpl. lia.
      * apply run_ends_ok; auto.
Qed.

Lemma enter_attempt_ok `{!HandshakeLaws T P} answer c :
  client_ok c -> client_ok (enter_attempt answer c).2 /\ advances c (enter_attempt answer c).2.
Proof.
  intros Hok. unfold enter_attempt. destruct (k_run c) as [|rt| | | |] eqn:Hrun;
    try by apply same_client_ok.
  destruct (retry_once_eq answer rt c) as (es & _ & Hes & Hre).
  destruct (attempt c answer) as [[[p ack] packet]|x] eqn:Hat.
  - destruct Hre as [_ ->]. by eapply connected_ok.
  - destruct (_ && _); destruct Hre as [_ ->]; apply retry_state_ok; rewrite ?Hrun; try done; by intros [].
Qed.

Lemma exit_client_eq c :
  _connection_info (exit_client c) = None /\
  _connection_id (exit_client c) = _connection_id c /\
  k_run (exit_client c) = match k_run c with Connecting rt => Connecting rt | _ => NotRunning end /\
  k_log (exit_client c) = k_log c.
Proof. unfold exit_client. simpl. by destruct (k_run c) eqn:Hr; simpl; rewrite ?Hr. Qed.

(** The call of [protocol.subscribe] for subscription [s] *)
Definition subscribe_call (objects : gmap nat Subscription) (s : nat) : list client_event :=
  match objects !! s with
  | Some o => [SubscribeCalled (subscription_requests o) (_auto_ack o) (_subscription_identifier o)]
  | None => []
  end.

Lemma subscribe_call_registered ks t objects s :
  subscribe_call (alter (set_registered ks) t objects) s = subscribe_call objects s.
Proof.
  unfold subscribe_call. destruct (decide (s = t)) as [->|Hne].
  - rewrite lookup_alter_eq. by destruct (objects !! t).
  - by rewrite lookup_alter_ne by congruence.
Qed.

Lemma do_subscribe_begin_eq s c :
  exists reqs, _do_subscribe_begin s c = (Ok reqs, logged (subscribe_call (k_objects c) s) c).
Proof.
  unfold _do_subscribe_begin, subscribe_call. run. destruct (k_objects c !! s) as [o|].
  - run. by eexists.
  - eexists. by rewrite logged_nil.
Qed.

Lemma restore_next_eq s rest outcome c :
  k_run c = Serving (s :: rest) ->
  restore_next outcome c =
    let c1 := logged (subscribe_call (k_objects c) s) c in
    match outcome with
    | Ok ks => set_run (Serving rest) (set_objects (alter (set_registered ks) s (k_objects c)) c1)
    | Err x => serving_ended (Err x) c1
    end.
Proof.
  intros Hrun. unfold restore_next. rewrite Hrun, run_bind.
  destruct (do_subscribe_begin_eq s c) as [reqs ->]. by destruct outcome.
Qed.

Lemma subscribe_call_no_report objects s : count is_report (subscribe_call objects s) = 0%nat.
Proof. unfold subscribe_call. by destruct (objects !! s). Qed.

Lemma client_step_ok `{!HandshakeLaws T P} c c' :
  client_step c c' -> client_ok c -> client_ok c' /\ advances c c'.
Proof.
  intros Hst Hok. destruct Hst as [Hrun|a|a|o|o| |fs q auto size nl rap rh sid|s|s o|s b|d Hd|p Hp].
  - pose proof (retry_state_ok c [] (Connecting (mkRetry 0 (initial_delay (reconnect_of c))))) as HR.
    rewrite logged_nil, Hrun in HR. apply HR; try done; by intros [].
  - by apply enter_attempt_ok.
  - by apply recover_ok.
  - destruct (k_run c) as [| |[|s rest]| | |] eqn:Hrun;
      try by (unfold restore_next; rewrite Hrun; apply same_client_ok).
    rewrite (restore_next_eq s rest) by done. cbv zeta.
    set (c1 := logged _ c). assert (Hn : count is_report (k_log c1) = count is_report (k_log c))
      by (simpl; rewrite count_app, subscribe_call_no_report; lia).
    destruct (same_client_ok c c1) as [Hok1 _]; [by split_and!|done|]. destruct o as [keys|x].
    + set (c' := set_run _ _). destruct Hok1 as [I1 I2 I3 I4 I5]. split.
      * split; [|by simpl in I2; rewrite Hrun in I2| |done|done].
        -- intros i Hi. destruct (I1 i Hi). by split.
        -- intros _. apply I3. simpl. by rewrite Hrun.
      * split; [left; auto|]. left. exact Hn.
    + destruct (serving_ended_ok (Err x) c1) as [Hok2 [Hi Hr]]; [done|by simpl; rewrite Hrun|].
      split; [done|]. split; [exact Hi|]. by rewrite Hn in Hr.
  - unfold serve_next. destruct (k_run c) as [| |[|s rest]| | |] eqn:Hrun; try by apply same_client_ok.
    apply serving_ended_ok; [done|by rewrite Hrun].
  - destruct (exit_client_eq c) as (E1 & E2 & E3 & E4).
    destruct (forgotten_ok c (exit_client c)) as [Hok' Hadv]; rewrite ?E3; try done;
      try (by destruct (k_run c)); [by intros x; destruct (k_run c)|].
    split; [done|]. split; [by left|]. left. by rewrite E4.
  - apply same_client_ok; [|done]. unfold subscribe. run. unfold lift. destruct (validate_filters fs); [|done].
    run. destruct (_ && _); [done|]. run.
    destruct sid as [i|]; [destruct (bool_decide _); [done|]; destruct (negb _); [done|]|]; done.
  - apply same_client_ok; [|done]. unfold enter_subscription, require_protocol. run.
    destruct (k_protocol c) eqn:Hp; [|done]. run.
    destruct (do_subscribe_begin_eq s (set_subscriptions (_subscriptions c ++ [s]) c)) as [reqs ->].
    split_and!; try done. simpl. rewrite count_app, subscribe_call_no_report. lia.
  - apply same_client_ok; [|done]. by destruct o.
  - apply same_client_ok; [|done]. unfold exit_subscription. run.
    destruct (list_remove s _) as [l'|]; [|done]. run.
    set (r := match k_objects _ !! s with Some _ => _ | None => _ end).
    change (k_protocol (set_subscriptions l' c)) with (k_protocol c).
    destruct b, r, (k_protocol c); try done; (split_and!; [done..|]); simpl; rewrite ?count_app; 
      try apply Nat.add_0_r; done.
  - apply same_client_ok; [|done]. by split_and!.
  - apply same_client_ok; [|done]. by split_and!.
Qed.

Lemma client_reachable_ok `{!HandshakeLaws T P} cfg c : client_reachable cfg c -> client_ok c.
Proof.
  intros (c0 & Hn & Hst). assert (Hok : client_ok c0).
  { unfold new_client in Hn. repeat (destruct (_ : bool) in Hn; [done|]). 
    apply bind_Ok in Hn as (d & _ & [= <-]). split; try done. split; [by intros []|done]. }
  clear Hn. induction Hst as [|c1 c2 c3 Hs _ IH]; [done|]. by apply IH, (client_step_ok c1 c2).
Qed.

(** ** Recovery and restoration *)

(** The subscriptions restored one after the other *)
Definition restore_all (keys : list (list str)) c : Client P :=
  foldl (fun c ks => restore_next (Ok ks) c) c keys.

Lemma restore_all_spec : forall subs keys c,
  k_run c = Serving subs -> NoDup subs -> length keys = length subs ->
  let c' := restore_all keys c in
  k_run c' = Serving [] /\
  (forall i s ks, subs !! i = Some s -> keys !! i = Some ks ->
     k_objects c' !! s = set_registered ks <$> k_objects c !! s) /\
  (forall s, s ∉ subs -> k_objects c' !! s = k_objects c !! s) /\
  k_log c' = k_log c ++ (subs ≫= subscribe_call (k_objects c)).
Proof.
  induction subs as [|s subs IH]; intros [|ks keys] c Hrun Hnd Hlen; try done.
  { split_and!; [done|done|done|]. by rewrite app_nil_r. }
  apply NoDup_cons in Hnd as [Hs Hnd]. cbn [restore_all foldl].
  rewrite (restore_next_eq s subs) by done. cbv zeta. set (c1 := set_run _ _).
  destruct (IH keys c1 eq_refl Hnd) as (I1 & I2 & I3 & I4); [by injection Hlen|].
  fold (restore_all keys c1). split_and!; [done| | |].
  - intros [|i] s' ks' Hi Hk; simpl in Hi, Hk.
    + injection Hi as <-. injection Hk as <-. rewrite I3 by done. by apply lookup_alter_eq.
    + rewrite (I2 i s' ks') by done. unfold c1. simpl. rewrite lookup_alter_ne; [done|]. intros ->.
      by apply Hs, (list_elem_of_lookup_2 _ i).
  - intros s' [Hne Hn]%not_elem_of_cons. rewrite I3 by done. unfold c1. simpl.
    rewrite lookup_alter_ne; done.
  - rewrite I4. unfold c1. simpl. rewrite <- app_assoc. do 2 f_equal.
    apply list_bind_ext; [|done]. intros t. apply subscribe_call_registered.
Qed.

Lemma exit_subscription_run s b c : k_run (exit_subscription s b c).2 = k_run c.
Proof.
  unfold exit_subscription. run. destruct (list_remove s _) as [l'|]; [|done]. run.
  set (r := match k_objects _ !! s with Some _ => _ | None => _ end).
  change (k_protocol (set_subscriptions l' c)) with (k_protocol c).
  by destruct b, r, (k_protocol c).
Qed.

Lemma recover_connected subs rt a c p ack packet :
  k_run c = Recovering subs rt -> attempt c a = Ok (p, ack, packet) ->
  k_run (recover a c) = Serving subs /\ _connection_info (recover a c) = Some (snapshot c packet ack) /\
  k_objects (recover a c) = k_objects c.
Proof.
  intros Hrun Hat. unfold recover. rewrite Hrun.
  destruct (retry_once_eq a rt c) as (es & _ & _ & Hre). rewrite Hat in Hre. by destruct Hre as [_ ->].
Qed.

End client.

(** ** The engine is such a connection *)

Lemma connect_returns_accepting {R} p reads (c : Connection R) ack rest c1 :
  connect p reads c = (Ok (ack, rest), c1) -> ca_return_code ack = 0.
Proof.
  rewrite connect_eq. destruct (encode _ _) as [data|]; [|done]. destruct (e_link _); [|done].
  destruct (_await_connack reads _) as [[[[ack1 rest1]|]|x] c'] eqn:Hw; [|done..].
  intros [= -> -> ->]. by apply await_accepts in Hw as [Hz _].
Qed.

#[export] Instance engine_handshake_laws : HandshakeLaws transport (Connection _RequestDispatcher).
Proof.
  split. intros cfg d p t ack c. simpl.
  destruct (connect p t.1 _) as [[[a rest]|x] c1] eqn:Hc; [|done]. intros [= <- <-].
  exact (connect_returns_accepting _ _ _ _ _ _ Hc).
Qed.
