(* ===== verification/ClientProps.v ===== *)
(** * What the client promises

    The retry policy, the connection information, recovery on every branch, the
    restoration of subscriptions, and the checks of the public calls. *)

From Stdlib Require Import SpecFloat.
From S2P Require Import Prelude PyBytes Utf8 PyDict PyStr Wire PropertyRecords Packets Codec Reader TopicMatching State Protocol Inbound InboundInv Connection ConnectionFacts Requests RequestsFacts Client ClientFacts.
Local Open Scope Z_scope.

Section client.
Context {T P : Type} `{Handshake T P}.
Implicit Types (c : Client P).










(** The connection information is current.  In every reachable state it is there
    exactly while the run loop serves a connection, its number is that of the last
    successful handshake, its return code is 0, and protocol and dispatcher are those
    of the connection; a run loop that raised has told the consumers of subscriptions.
    A step keeps the number or forgets the information, or is a handshake that counts
    one up; and a failed recovery is reported only by the step in which a running loop
    ends with an exception. *)
Theorem connection_info_current `{!HandshakeLaws T P} cfg c :
  client_reachable cfg c ->
  (forall i, _connection_info c = Some i ->
     connection_id i = _connection_id c /\ return_code i = 0 /\ is_Some (k_protocol c) /\
     Requests._protocol (k_dispatcher c) = Some (Z.to_nat (_connection_id c))) /\
  (is_Some (_connection_info c) <-> serving (k_run c)) /\
  (forall x, k_run c = RunRaised x ->
     _connection_info c = None /\ get_message c = (Err x, c)) /\
  forall c', client_step c c' -> advances c c'.
Proof.
  intros Hok%client_reachable_ok. split_and!.
  - intros i Hi. by destruct (co_info _ Hok i Hi).
  - apply Hok.
  - intros x Hx. split.
    + destruct (_connection_info c) eqn:Hi; [|done].
      assert (serving (k_run c)) as Hs by (apply (co_serving _ Hok); by rewrite Hi).
      by rewrite Hx in Hs.
    + unfold get_message. run. by rewrite (co_raised _ Hok x Hx).
  - intros c' Hst. by apply (client_step_ok c c').
Qed.






(** C39: what a lost connection restores.  The snapshot is the list of subscriptions of
    that moment; after a successful recovery each of its members is subscribed again on
    the new connection, in order, before the client serves on, with one call of
    [protocol.subscribe] for its own filters, options, [auto_ack] and subscription
    identifier, and takes the filters of that call.  The snapshot is not revised: a subscription that leaves the client while
    it recovers is subscribed all the same, and one whose SUBSCRIBE was rejected stays
    in the list that the next snapshot copies. *)
Theorem subscriptions_restored c l x :
  k_run c = Serving l -> lost x = true -> enabled (reconnect_of c) = true ->
  NoDup (_subscriptions c) ->
  let c1 := serving_ended (Err x) c in
  (exists rt, k_run c1 = Recovering (_subscriptions c) rt) /\
  (forall a p ack packet keys,
     attempt c1 a = Ok (p, ack, packet) -> length keys = length (_subscriptions c) ->
     let c2 := restore_all keys (recover a c1) in
     k_run c2 = Serving [] /\
     (forall i s ks, _subscriptions c !! i = Some s -> keys !! i = Some ks ->
       k_objects c2 !! s = set_registered ks <$> k_objects c !! s) /\
     k_log c2 = k_log (recover a c1) ++ (_subscriptions c ≫= fun s =>
       match k_objects c !! s with
       | Some o => [SubscribeCalled
           ((fun f => mkSubscriptionRequest f (_qos o) (_no_local o) (_retain_as_published o)
                        (_retain_handling o)) <$> _filters o)
           (_auto_ack o) (_subscription_identifier o)]
       | None => []
       end)) /\
  (forall s b a p ack packet, let c2 := (exit_subscription s b c1).2 in
     attempt c2 a = Ok (p, ack, packet) -> k_run (recover a c2) = Serving (_subscriptions c)) /\
  (forall s y reqs c2, enter_subscription s c = (Ok reqs, c2) ->
     _do_subscribe_end s (Err y) c2 = (Err y, c2) /\ s ∈ _subscriptions c2 /\
     exists rt, k_run (serving_ended (Err x) c2) = Recovering (_subscriptions c2) rt).
Proof.
  intros Hrun Hx He Hnd c1.
  assert (Hl : forall c0, reconnect_of c0 = reconnect_of c -> serving_ended (Err x) c0 =
    set_run (Recovering (_subscriptions c0) (mkRetry 0 (nth_delay (reconnect_of c0) 1)))
      (logged [TransportClosed; Slept (initial_delay (reconnect_of c0))] (set_info None c0))).
  { intros c0 Hc0. by rewrite serving_ended_eq, Hx, Hc0, He. }
  assert (H1 : k_run c1 = Recovering (_subscriptions c) (mkRetry 0 (nth_delay (reconnect_of c) 1)))
    by (unfold c1; by rewrite Hl).
  split_and!.
  - by eexists.
  - intros a p ack packet keys Hat Hlen c2.
    destruct (recover_connected _ _ a c1 p ack packet H1 Hat) as (Hr & _ & Ho).
    destruct (restore_all_spec _ keys _ Hr Hnd Hlen) as (R1 & R2 & _ & R4).
    assert (Hobj : k_objects (recover a c1) = k_objects c) by (rewrite Ho; unfold c1; by rewrite Hl).
    rewrite Hobj in R2, R4. split_and!; [done..|exact R4].
  - intros s b a p ack packet c2 Hat.
    exact (proj1 (recover_connected _ _ a c2 p ack packet
      (eq_trans (exit_subscription_run s b c1) H1) Hat)).
  - intros s y reqs c2 Hent. split; [done|].
    unfold enter_subscription, require_protocol in Hent. revert Hent. run.
    destruct (k_protocol c); [|done]. run.
    destruct (do_subscribe_begin_eq s (set_subscriptions (_subscriptions c ++ [s]) c)) as [r ->].
    intros [= _ <-]. split.
    + simpl. apply elem_of_app. right. by left.
    + rewrite Hl by done. by eexists.
Qed.

End client.

(** ** The public calls *)

Section calls.
Context {T P : Type} `{Handshake T P}.
Implicit Types (c : Client P).

Lemma validate_filters_spec fs :
  match validate_filters fs with
  | Ok _ => Forall valid_filter fs
  | Err x => exists f msg, f ∈ fs /\ ~ valid_filter f /\ x = MQTTInvalidTopicError msg
  end.
Proof.
  induction fs as [|f fs IH]; simpl; [constructor|].
  destruct (validate_subscribe_topic f) as [[]|x] eqn:Hf; simpl.
  - apply validate_subscribe_spec in Hf.
    destruct (validate_filters fs) as [u|x]; [by constructor|].
    destruct IH as (g & msg & Hg & Hn & ->). exists g, msg. split_and!; [by right|done..].
  - exists f. destruct (validate_subscribe_err f x Hf) as [msg ->]. exists msg.
    split_and!; [by left| |done]. rewrite <- validate_subscribe_spec. congruence.
Qed.

(** The options that need MQTT 5.0 *)
Definition plain_options (o : Subscription) : Prop :=
  _no_local o = false /\ _retain_as_published o = false /\
  _retain_handling o = SEND_ON_SUBSCRIBE /\ _subscription_identifier o = None.

(** The checks of the public calls.  [subscribe] makes a subscription object only
    of filters in the grammar, of an identifier in its range, and, on MQTT 3.1.1, of no
    option of MQTT 5.0; [publish] hands over a packet only for a topic that may be
    published to, and no properties on MQTT 3.1.1; [request] and [auth] refuse MQTT
    3.1.1.  A call that raises changes nothing. *)
Theorem public_calls_checked c :
  (forall fs q auto size nl rap rh sid,
     match subscribe fs q auto size nl rap rh sid c with
     | (Ok s, c') =>
         let o := mkSubscription fs q auto size nl rap rh sid [] in
         c' = set_objects (<[s := o]> (k_objects c)) c /\ k_objects c !! s = None /\
         Forall valid_filter fs /\
         (k_version (k_config c) = V311 -> plain_options o) /\
         (forall i, sid = Some i -> 1 <= i <= _MAX_MQTT_VARINT)
     | (Err x, c') => c' = c
     end) /\
  (forall topic payload q retain props,
     match client_publish topic payload q retain props c with
     | (Ok p, c') =>
         c' = c /\ is_Some (k_protocol c) /\ pb_topic p = topic /\ pb_properties p = props /\
         topic <> [] /\ plain topic /\ (k_version (k_config c) = V311 -> props = None)
     | (Err x, c') => c' = c
     end) /\
  (k_version (k_config c) = V311 ->
     (forall props r1 r2, request_properties props r1 r2 c
        = (Err (RuntimeError "request() requires MQTT 5.0"), c)) /\
     (forall method data, auth method data c = (Err (RuntimeError "AUTH requires MQTT 5.0"), c))).
Proof.
  split_and!.
  - intros fs q auto size nl rap rh sid. pose proof (validate_filters_spec fs) as Hv.
    unfold subscribe. run. unfold lift. destruct (validate_filters fs) as [u|x]; [|done]. run.
    destruct (_ && bool_decide _) eqn:Hopt; [done|]. run.
    assert (Hm : (k_version (k_config c) = V311 -> nl = false /\ rap = false /\ rh = SEND_ON_SUBSCRIBE)).
    { intros Hver. rewrite Hver, andb_true_r in Hopt. apply orb_false_iff in Hopt as [[-> ->]%orb_false_iff Hr].
      apply negb_false_iff, bool_decide_eq_true in Hr. done. }
    destruct sid as [i|].
    + destruct (bool_decide (k_version (k_config c) <> V5)) eqn:Hver; [done|].
      apply bool_decide_eq_false in Hver.
      destruct ((1 <=? i) && (i <=? _MAX_SUBSCRIPTION_IDENTIFIER)) eqn:Hi; [|done]. run.
      apply andb_true_iff in Hi as [H1%Z.leb_le H2%Z.leb_le].
      split_and!; [done|apply not_elem_of_dom, is_fresh|done| |].
      * intros Hv3. rewrite Hv3 in Hver. by destruct Hver.
      * intros i' [= <-]. unfold _MAX_MQTT_VARINT. unfold _MAX_SUBSCRIPTION_IDENTIFIER in H2. lia.
    + run. split_and!; [done|apply not_elem_of_dom, is_fresh|done| |done].
      intros Hv3. destruct (Hm Hv3) as (-> & -> & ->). by split_and!.
  - intros topic payload q retain props. unfold client_publish. run. unfold lift at 1.
    destruct (validate_publish topic) as [[]|x] eqn:Hv; [|done]. unfold require_protocol. run.
    destruct (k_protocol c) as [p|]; [|done]. run.
    destruct (_ && _) eqn:Hp; [done|]. run. unfold lift.
    destruct payload as [b|s]; [|destruct (encode_utf8 s) as [b|x]; [|done]]; run;
      apply validate_publish_spec in Hv as (H1 & H2 & _);
      (split_and!; [done|by eexists|done|done|done|done|]); intros Hver; rewrite Hver, andb_true_r in Hp;
      apply bool_decide_eq_false in Hp; by destruct props; [destruct Hp|].
  - intros Hver. split.
    + intros props r1 r2. unfold request_properties. run. by rewrite Hver.
    + intros m d. unfold auth. run. by rewrite Hver.
Qed.

(** *** Requests *)

Lemma hex_digit_plain n : 0 <= n < 16 -> 48 <= hex_digit n <= 57 \/ 97 <= hex_digit n <= 102.
Proof. unfold hex_digit. intros Hn. destruct (Z.ltb_spec n 10); lia. Qed.

Lemma hex_chars data ch : ch ∈ hex data -> 48 <= ch <= 57 \/ 97 <= ch <= 102.
Proof.
  unfold hex. intros [b [Hch _]]%list_elem_of_bind. pose proof (b2z_range b).
  apply elem_of_cons in Hch as [-> | ->%list_elem_of_singleton]; apply hex_digit_plain; zdiv_lia.
Qed.

(** A generated reply topic may be published to. *)
Lemma reply_topic_valid data : validate_publish (lit "_zmqtt/reply/" ++ hex data) = Ok tt.
Proof.
  apply validate_publish_spec. split; [done|].
  assert (Hn : forall ch, ch < 48 -> ch ∉ lit "_zmqtt/reply/" -> ch ∉ lit "_zmqtt/reply/" ++ hex data).
  { intros ch Hlt Hn [?|Hx%hex_chars]%elem_of_app; [done|lia]. }
  assert (Hlit : (hash_char ∉ lit "_zmqtt/reply/") /\ (plus_char ∉ lit "_zmqtt/reply/") /\
    (dollar ∉ lit "_zmqtt/reply/")).
  { split_and!; by apply (bool_decide_unpack _). }
  destruct Hlit as (H1 & H2 & H3). split; [split|].
  - by apply Hn.
  - by apply Hn.
  - intros Hin. assert (dollar ∈ lit "_zmqtt/reply/" ++ hex data) as Hd.
    { rewrite <- (take_drop 1). apply elem_of_app. by right. }
    by apply Hn in Hd.
Qed.

Lemma ensure_ready_connected t i d :
  is_Some (Requests._protocol d) ->
  exists task d', _ensure_topic_ready t i d = (Ok task, d') /\ _pending d' = _pending d /\
    d_requests d' = d_requests d.
Proof.
  intros [pr Hp]. unfold _ensure_topic_ready, _require_protocol. run.
  destruct (d_interests d !! i ≫= ready) as [task|]; [by exists task, d|].
  run. rewrite Hp. run. eexists _, _. split; [reflexivity|]. done.
Qed.

Lemma register_connected topic corr d :
  0 < _capacity d -> is_Some (Requests._protocol d) -> _pending d !! (topic, corr) = None ->
  exists w task d', register topic corr d = (Ok (Some (w, task)), d') /\
    _pending d' !! (topic, corr) = Some w /\
    d_requests d' !! w = Some (mkPending Waiting (topic, corr) false false).
Proof.
  intros Hc [pr Hp] Hn. unfold register. run.
  destruct (Z.leb_spec (_capacity d) 0); [lia|]. run. unfold finally_on_error. run.
  change (_pending (set_capacity _ d)) with (_pending d). rewrite Hn. simpl (bool_decide _).
  unfold _require_protocol. run. change (Requests._protocol (set_capacity _ d)) with (Requests._protocol d).
  rewrite Hp. run. change (_topics (set_capacity _ d)) with (_topics d).
  destruct (_topics d !! topic) as [it|]; run;
    match goal with |- context [_ensure_topic_ready ?t ?i ?d1] =>
      destruct (ensure_ready_connected t i d1) as (task & d' & He & Hq & Hr); [by exists pr|] end;
    rewrite He; run; eexists _, task, d'; (split; [reflexivity|]); rewrite Hq, Hr; simpl;
    by rewrite !lookup_insert_eq.
Qed.

(** The request that is sent is the one that is waited for.  On MQTT 5.0 the
    properties of [request] carry the reply topic and the correlation data under which
    its waiter is registered, taken from the caller where given; the other properties
    are the caller's; the reply topic may be published to, also a generated one; and on
    a connected client with capacity the registration puts exactly this key into the
    table of the dispatcher. *)
Theorem request_registered_as_sent c props r1 r2 :
  k_version (k_config c) = V5 ->
  match request_properties props r1 r2 c with
  | (Ok ((topic, corr), sent), c') =>
      c' = c /\ validate_publish topic = Ok tt /\
      pbp_response_topic sent = Some topic /\ pbp_correlation_data sent = Some corr /\
      (forall t, props ≫= pbp_response_topic = Some t -> topic = t) /\
      (forall d, props ≫= pbp_correlation_data = Some d -> corr = d) /\
      (forall p, props = Some p ->
         pbp_user_properties sent = pbp_user_properties p /\
         pbp_content_type sent = pbp_content_type p /\
         pbp_message_expiry_interval sent = pbp_message_expiry_interval p /\
         pbp_payload_format_indicator sent = pbp_payload_format_indicator p /\
         pbp_topic_alias sent = pbp_topic_alias p /\
         pbp_subscription_identifier sent = pbp_subscription_identifier p) /\
      (0 < _capacity (k_dispatcher c) -> is_Some (Requests._protocol (k_dispatcher c)) ->
       _pending (k_dispatcher c) !! (topic, corr) = None ->
       exists w task c'', request_register topic corr c = (Ok (Some (w, task)), c'') /\
         _pending (k_dispatcher c'') !! (topic, corr) = Some w /\
         (d_requests (k_dispatcher c'') !! w) = Some (mkPending Waiting (topic, corr) false false))
  | (Err x, c') =>
      c' = c /\ exists t, props ≫= pbp_response_topic = Some t /\ validate_publish t = Err x
  end.
Proof.
  intros Hver. unfold request_properties. run. rewrite Hver, bool_decide_eq_false_2 by (intros Hn; by destruct Hn).
  assert (Hreg : forall topic corr,
    0 < _capacity (k_dispatcher c) -> is_Some (Requests._protocol (k_dispatcher c)) ->
    _pending (k_dispatcher c) !! (topic, corr) = None ->
    exists w task c'', request_register topic corr c = (Ok (Some (w, task)), c'') /\
      _pending (k_dispatcher c'') !! (topic, corr) = Some w /\
      (d_requests (k_dispatcher c'') !! w) = Some (mkPending Waiting (topic, corr) false false)).
  { intros topic corr H1 H2 H3.
    destruct (register_connected topic corr (k_dispatcher c) H1 H2 H3) as (w & task & d' & Hr & Hp & Hq).
    eexists w, task, _. unfold request_register, zoom. rewrite Hr. by split_and!. }
  unfold validate_response_topic.
  destruct (props ≫= pbp_response_topic) as [t|] eqn:Ht; run.
  - unfold lift. destruct (validate_publish t) as [[]|x] eqn:Hv; run; [|split; [done|by exists t]].
    split_and!; [done|done|done|done|by intros ? [= <-]|by intros d ->|by intros p ->|apply Hreg].
  - split_and!; [done|apply reply_topic_valid|done|done|done|by intros d ->|by intros p ->|apply Hreg].
Qed.

End calls.

(** A client of [create_client] strips the default prefixes, whatever its arguments, and
    the arguments have defaults that the constructor accepts. *)
Theorem create_client_prefixes {P} :
  (forall cid ka cs un pw w rc t sei mpr sz rt v (c : Client P),
     create_client cid ka cs un pw w rc t sei mpr sz rt v = Ok c ->
     k_stripped_prefixes (k_config c) = _DEFAULT_STRIPPED_PREFIXES) /\
  is_Ok (create_client (P := P) None None None None None None None None None None None None None).
Proof.
  split; [|done]. intros cid ka cs un pw w rc t sei mpr sz rt v c. unfold create_client, new_client.
  repeat case_match; try done. destruct (new_dispatcher _); [|done]. by intros [= <-].
Qed.

(** ** A concrete client *)

Definition sample_config : ClientConfig :=
  mkConfig (lit "c") 60 true None None None
    (mkReconnectConfig true (float_of_Z 1) (float_of_Z 60) (float_of_Z 2) (Some 5))
    (float_of_Z 30) V5 0 [] 10 1000 (float_of_Z 30).

Notation EngineClient := (Client (Connection _RequestDispatcher)) (only parsing).

Definition sample_dispatcher : _RequestDispatcher :=
  match new_dispatcher 10 with Ok d => d | Err _ => mkDispatcher 0 ∅ ∅ None 0 ∅ ∅ ∅ ∅ 0 [] end.

Definition client0 : EngineClient := mkClient sample_config None 0 None sample_dispatcher [] ∅ NotRunning None [].
Definition client1 : EngineClient := (enter_client client0).2.
Definition accepting : result transport := Ok ([Data [x20; x03; x00; x00; x00]], ∅).
Definition client2 : EngineClient := (enter_attempt accepting client1).2.

(** It subscribes to a topic and loses its connection. *)
Definition client3 : EngineClient :=
  (subscribe [lit "a"] AT_LEAST_ONCE true 10 false false SEND_ON_SUBSCRIBE None client2).2.
Definition client4 : EngineClient := (enter_subscription 0 client3).2.
Definition connection_lost : exn := MQTTDisconnectedError "Connection lost".
Definition client5 : EngineClient := serving_ended (Err connection_lost) client4.

Lemma client2_reachable : client_reachable sample_config client2.
Proof.
  exists client0. split; [vm_compute; reflexivity|].
  eapply rtc_l; [by apply (cs_enter client0)|]. apply rtc_once, (cs_enter_attempt client1 accepting).
Qed.

Lemma connection_info_current_witness :
  exists i, _connection_info client2 = Some i /\ connection_id i = 1 /\ return_code i = 0.
Proof.
  destruct (connection_info_current sample_config client2 client2_reachable) as (H1 & _ & _ & _).
  destruct (_connection_info client2) as [i|] eqn:Hi; [|vm_compute in Hi; discriminate Hi].
  exists i. destruct (H1 i eq_refl) as (Hid & Hc & _). split; [reflexivity|]. split; [|exact Hc].
  rewrite Hid. vm_compute. reflexivity.
Defined.


Lemma subscriptions_restored_witness :
  (exists rt, k_run client5 = Recovering [0%nat] rt) /\
  k_run (restore_all [[lit "a"]] (recover accepting client5)) = Serving [].
Proof.
  assert (Hs : _subscriptions client4 = [0%nat]) by (vm_compute; reflexivity).
  destruct (subscriptions_restored client4 [] connection_lost) as (H1 & H2 & _);
    [vm_compute; reflexivity|reflexivity|reflexivity|rewrite Hs; apply NoDup_singleton|].
  rewrite Hs in H1, H2. split; [exact H1|].
  destruct (attempt client5 accepting) as [[[p ack] packet]|x] eqn:Ha;
    [|vm_compute in Ha; discriminate Ha].
  exact (proj1 (H2 accepting p ack packet [[lit "a"]] Ha eq_refl)).
Defined.

Lemma request_registered_as_sent_witness :
  exists topic corr sent w task c'',
    request_properties None [x00; xff] [x01] client2 = (Ok ((topic, corr), sent), client2) /\
    topic = lit "_zmqtt/reply/00ff" /\
    request_register topic corr client2 = (Ok (Some (w, task)), c'').
Proof.
  pose proof (request_registered_as_sent client2 None [x00; xff] [x01] eq_refl) as HR.
  destruct (request_properties None [x00; xff] [x01] client2) as [[[[topic corr] sent]|x] c'] eqn:Hq;
    [|vm_compute in Hq; discriminate Hq].
  destruct HR as (-> & _ & _ & _ & _ & _ & _ & Hreg).
  destruct Hreg as (w & task & c'' & Hr & _);
    [vm_compute; reflexivity|vm_compute; eexists; reflexivity|vm_compute; reflexivity|].
  exists topic, corr, sent, w, task, c''. split; [reflexivity|]. split; [|exact Hr].
  apply (f_equal fst) in Hq. vm_compute in Hq. injection Hq as <- _ _. vm_compute. reflexivity.
Defined.
