(* ===== verification/RequestCalls.v ===== *)
(** * Calls of [request] ([client.py], [request_response.py])

    A whole call: the properties of the request, the registration of its waiter, the
    publication, the wait for the response and the [finally] that closes the waiter.
    Any number of calls run beside each other and beside the connection.

    A call is split where it suspends; a wait ends with an outcome, and an exception is
    whatever ends it: an error of the engine, the timeout, a cancellation of the task.
    The timeout of the wait for the response is a timer of the event loop: it is armed
    when the wait begins and gone when it fires or the wait ends; the clock passes an
    armed timer by [latency] at most, and nothing else holds it back. *)

From S2P Require Import Prelude PyBytes Utf8 PropertyRecords Packets State Routing Requests RequestsFacts Client.
Local Open Scope Z_scope.

(** ** The coroutine *)

(** What a call waits for; [p] is its waiter. *)
Inductive call_state :=
| RqAcquiring
| RqSubscribing (p task : nat)
| RqWithdrawing (p : nat) (x : exn)
| RqPublishing (p : nat) (packet : Publish)
| RqWaiting (p : nat)
| RqClosing (p : nat) (outcome : result nat)
| RqDone (outcome : result nat).

Record request_call := mkCall {
  rq_topic : str;
  rq_payload : bytes + str;
  rq_qos : QoS;
  rq_timeout : Z;
  rq_key : request_key;
  rq_properties : PublishProperties;
  rq_state : call_state;
}.

Definition set_state (s : call_state) (a : request_call) : request_call :=
  mkCall (rq_topic a) (rq_payload a) (rq_qos a) (rq_timeout a) (rq_key a)
    (rq_properties a) s.

(** What [await future] gives *)
Definition future_outcome (s : response_state) : option (result nat) :=
  match s with
  | Waiting => None
  | Response m => Some (Ok m)
  | ResponseFailed e => Some (Err e)
  | ResponseCancelled => Some (Err CancelledError)
  end.

Section calls.
Context {P : Type}.

Notation C := (ST (Client P)).
Implicit Types (c : Client P) (a : request_call).

Definition on_dispatcher {A} (m : D A) : C A := zoom k_dispatcher set_dispatcher m.

(** An exception that leaves the coroutine ends the call. *)
Definition caught (m : C call_state) c : call_state * Client P :=
  match m c with
  | (Ok s, c') => (s, c')
  | (Err x, c') => (RqDone (Err x), c')
  end.

Definition settled (m : C call_state) : C call_state := fun c =>
  let (s, c') := caught m c in (Ok s, c').

Definition request_acquire (key : request_key) : C call_state :=
  r ← request_register key.1 key.2;
  mret (match r with Some (p, task) => RqSubscribing p task | None => RqAcquiring end).

(** [request] up to its first wait *)
Definition request (topic : str) (payload : bytes + str) (qos : QoS) (timeout : Z)
    (properties : option PublishProperties) (urandom1 urandom2 : bytes) : C request_call :=
  '(key, props) ← request_properties properties urandom1 urandom2;
  s ← settled (request_acquire key);
  mret (mkCall topic payload qos timeout key props s).

(** [finally: await pending.close()] *)
Definition request_close (p : nat) (outcome : result nat) : C call_state :=
  finished ← on_dispatcher (close p);
  mret (if finished : bool then RqDone outcome else RqClosing p outcome).

(** [await self.publish(...)] up to its wait *)
Definition request_publish a (p : nat) : C call_state := fun c =>
  match client_publish (rq_topic a) (rq_payload a) (rq_qos a) false (Some (rq_properties a)) c with
  | (Ok packet, c') => (Ok (RqPublishing p packet), c')
  | (Err x, c') => request_close p (Err x) c'
  end.

(** What the call waits for ended. *)
Definition request_wake (outcome : result unit) a : C call_state :=
  match rq_state a with
  | RqAcquiring => _ ← lift outcome; request_acquire (rq_key a)
  | RqSubscribing p _ =>
      r ← on_dispatcher (register_end (rq_key a) p outcome);
      match r, outcome with
      | Some p, _ => request_publish a p
      | None, Err x => mret (RqWithdrawing p x)
      | None, Ok _ => mret (rq_state a)
      end
  | RqWithdrawing p x =>
      finished ← on_dispatcher (unregister_wake p outcome);
      if finished : bool then raise x else mret (RqWithdrawing p x)
  | RqPublishing p _ =>
      match outcome with
      | Ok _ => mret (RqWaiting p)
      | Err x => request_close p (Err x)
      end
  | RqWaiting p =>
      match outcome with
      | Ok _ =>
          r ← gets (fun c => d_requests (k_dispatcher c) !! p);
          match r ≫= (fun r => future_outcome (pr_future r)) with
          | Some o => request_close p o
          | None => mret (RqWaiting p)
          end
      | Err x =>
          _ ← on_dispatcher (modify (cancel_future p));
          request_close p (Err x)
      end
  | RqClosing p o =>
      finished ← on_dispatcher (unregister_wake p outcome);
      if finished : bool then mret (RqDone o) else mret (RqClosing p o)
  | RqDone o => mret (RqDone o)
  end.

(** ** Many calls *)

Record requests := mkRequests { rs_client : Client P; rs_calls : gmap nat request_call }.

(** What a connection does to the dispatcher *)
Inductive connection_step : _RequestDispatcher -> _RequestDispatcher -> Prop :=
| cs_bind protocol d : connection_step d (bind protocol d)
| cs_restore topic i d r d' : restore_topic topic i d = (r, d') -> connection_step d d'
| cs_claim m msg d o d' : claim_response m msg d = (o, d') -> connection_step d d'
| cs_complete o d : connection_step d (complete o d)
| cs_cancel d : connection_step d (cancel_pending d).

Inductive requests_step : requests -> requests -> Prop :=
| rs_begin i topic payload qos timeout props r1 r2 c calls a c' :
    calls !! i = None -> request topic payload qos timeout props r1 r2 c = (Ok a, c') ->
    requests_step (mkRequests c calls) (mkRequests c' (<[i := a]> calls))
| rs_wake i outcome a s c calls c' :
    calls !! i = Some a -> caught (request_wake outcome a) c = (s, c') ->
    requests_step (mkRequests c calls) (mkRequests c' (<[i := set_state s a]> calls))
| rs_other c c' calls :
    connection_step (k_dispatcher c) (k_dispatcher c') \/ k_dispatcher c' = k_dispatcher c ->
    requests_step (mkRequests c calls) (mkRequests c' calls).

Definition requests_reachable (cfg : ClientConfig) (y : requests) : Prop :=
  exists c, new_client cfg = Ok c /\ rtc requests_step (mkRequests c ∅) y.

(** ** Time *)

(** [tm_timers] holds when the timer of the [wait_for] of a call is due, if it is
    armed. *)
Record timed_requests := mkTimed {
  tm_requests : requests;
  tm_now : Z;
  tm_timers : gmap nat Z;
}.

Definition waits_for_response (s : call_state) : bool :=
  match s with RqWaiting _ => true | _ => false end.

(** [asyncio.wait_for(pending.future, timeout=timeout)]: the call [i] goes on to [s].
    The timer is armed when it begins to wait, due at once for a timeout that is not
    positive, and cancelled when it waits no longer. *)
Definition rearm (i : nat) a (s : call_state) (now : Z) (timers : gmap nat Z) : gmap nat Z :=
  if waits_for_response s then
    if waits_for_response (rq_state a) then timers
    else <[i := now + Z.max 0 (rq_timeout a)]> timers
  else delete i timers.

(** Time passes, a timer fires, or a step of the calls happens. *)
Inductive timed_step (latency : Z) : timed_requests -> timed_requests -> Prop :=
| ts_tick d y now timers :
    0 < d -> (forall i u, timers !! i = Some u -> now + d <= u + latency) ->
    timed_step latency (mkTimed y now timers) (mkTimed y (now + d) timers)
| ts_begin i topic payload qos timeout props r1 r2 c calls a c' now timers :
    calls !! i = None -> request topic payload qos timeout props r1 r2 c = (Ok a, c') ->
    timed_step latency (mkTimed (mkRequests c calls) now timers)
      (mkTimed (mkRequests c' (<[i := a]> calls)) now timers)
| ts_wake i outcome a s c calls c' now timers :
    calls !! i = Some a -> caught (request_wake outcome a) c = (s, c') ->
    timed_step latency (mkTimed (mkRequests c calls) now timers)
      (mkTimed (mkRequests c' (<[i := set_state s a]> calls)) now (rearm i a s now timers))
| ts_expire i u a s c calls c' now timers :
    timers !! i = Some u -> u <= now ->
    calls !! i = Some a -> caught (request_wake (Err TimeoutError) a) c = (s, c') ->
    timed_step latency (mkTimed (mkRequests c calls) now timers)
      (mkTimed (mkRequests c' (<[i := set_state s a]> calls)) now
         (rearm i a s now (delete i timers)))
| ts_other c c' calls now timers :
    connection_step (k_dispatcher c) (k_dispatcher c') \/ k_dispatcher c' = k_dispatcher c ->
    timed_step latency (mkTimed (mkRequests c calls) now timers)
      (mkTimed (mkRequests c' calls) now timers).

Definition timed_reachable (cfg : ClientConfig) (latency : Z) (y : timed_requests) : Prop :=
  exists c start, new_client cfg = Ok c /\
    rtc (timed_step latency) (mkTimed (mkRequests c ∅) start ∅) y.

End calls.
