(* ===== verification/RequestCallsFacts.v ===== *)
(** * Correctness of the calls of [request]

    Every call gives back what it took, however it ends and whatever runs beside it;
    a call that returns a message returns the response to what it published; and a call
    goes through its states as its code says, waiting for its response no longer than
    its timeout. *)

From S2P Require Import Prelude PyBytes Utf8 PropertyRecords Packets TopicMatching State Routing Requests RequestsFacts Connection Client ClientProps RequestCalls.
Local Open Scope Z_scope.
Implicit Types (key : request_key) (d : _RequestDispatcher).

(** ** What an operation on one waiter leaves alone *)

(** The waiters and suspended removals other than that of [o] *)
Record others_kept (o : option nat) d d' : Prop := {
  ok_pending : forall key q, _pending d' !! key = Some q -> Some q <> o -> _pending d !! key = Some q;
  ok_closing : forall q, Some q <> o -> d_closing d' !! q = d_closing d !! q;
  ok_closed : forall q r r', d_requests d !! q = Some r -> d_requests d' !! q = Some r' ->
    Some q <> o -> pr_closed r' = pr_closed r;
}.

Record acts (o : option nat) d d' : Prop := {
  ac_steps : rtc dispatcher_step d d';
  ac_others : others_kept o d d';
}.

Lemma others_kept_same o d d' :
  _pending d' = _pending d -> d_closing d' = d_closing d -> d_requests d' = d_requests d ->
  others_kept o d d'.
Proof. intros E1 E2 E3. split; rewrite ?E1, ?E2, ?E3; try done. congruence. Qed.

(** One waiter is rewritten, or all of them without closing any. *)
Lemma others_kept_alter f p d d' :
  _pending d' = _pending d -> d_closing d' = d_closing d -> d_requests d' = alter f p (d_requests d) ->
  others_kept (Some p) d d'.
Proof.
  intros E1 E2 E3. split; rewrite ?E1, ?E2, ?E3; try done.
  intros q r r' Hr Hr' Hne. rewrite lookup_alter_ne in Hr' by congruence. congruence.
Qed.

Lemma others_kept_map (f : nat -> _PendingRequest -> _PendingRequest) d d' :
  (forall p r, pr_closed (f p r) = pr_closed r) ->
  _pending d' ⊆ _pending d -> d_closing d' = d_closing d ->
  d_requests d' = map_imap (fun p r => Some (f p r)) (d_requests d) ->
  others_kept None d d'.
Proof.
  intros Hf E1 E2 E3. split; rewrite ?E2, ?E3; try done.
  - intros key q Hq _. by eapply lookup_weaken.
  - intros q r r' Hr. rewrite map_lookup_imap, Hr. intros [= <-] _. apply Hf.
Qed.

Lemma others_kept_weaken o d d' : others_kept None d d' -> others_kept o d d'.
Proof. intros [A1 A2 A3]. split; eauto. Qed.

Lemma others_kept_trans o d1 d2 d3 :
  (forall q r, d_requests d1 !! q = Some r -> is_Some (d_requests d2 !! q)) ->
  others_kept o d1 d2 -> others_kept o d2 d3 -> others_kept o d1 d3.
Proof.
  intros Hgrow [A1 A2 A3] [B1 B2 B3]. split.
  - eauto.
  - intros q Hq. by rewrite B2, A2.
  - intros q r r'' Hr Hr'' Hq. destruct (Hgrow q r Hr) as [r' Hr'].
    rewrite (B3 q r' r'') by done. by eapply A3.
Qed.

Lemma acts_weaken o d d' : acts None d d' -> acts o d d'.
Proof. intros [A1 A2]. split; [done|by apply others_kept_weaken]. Qed.

Lemma acts_refl o d : acts o d d.
Proof. split; [done|by apply others_kept_same]. Qed.

Lemma acts_trans o d1 d2 d3 : acts o d1 d2 -> acts o d2 d3 -> acts o d1 d3.
Proof.
  intros [A1 A2] [B1 B2]. split; [by etrans|]. eapply others_kept_trans; [|exact A2|exact B2].
  intros q r Hr. destruct (pg_requests _ _ (steps_progress _ _ A1) q r Hr) as (r' & Hr' & _). by eexists.
Qed.

Lemma acts_once o d d' : dispatcher_step d d' -> others_kept o d d' -> acts o d d'.
Proof. intros Hs Ho. split; [by apply rtc_once|done]. Qed.

(** ** The operations *)

(** A waiter that its call may remove *)
Definition removable key (p : nat) d : Prop :=
  pr_key <$> d_requests d !! p = Some key /\ d_closing d !! p = None.

(** What the removal of the waiter [p] leaves of it *)
Definition removed (p : nat) (finished : bool) d' : Prop :=
  (forall key, _pending d' !! key <> Some p) /\ (finished = true -> d_closing d' !! p = None).

Lemma unregister_removes max key p d r d' :
  dispatcher_ok max d -> removable key p d -> unregister key p d = (r, d') ->
  exists b, r = Ok b /\ removed p b d' /\ others_kept (Some p) d d'.
Proof.
  intros Hok [Hkey Hcl]. destruct (decide (_pending d !! key = Some p)) as [Hk|Hk].
  2: { rewrite unregister_stranger by done. intros [= <- <-]. exists true. split; [done|].
       split; [|by apply others_kept_same]. split; [|done]. intros key' Hk'. apply Hk.
       destruct (do_key _ _ Hok _ _ Hk') as [Hkey' _]. congruence. }
  destruct (do_topic _ _ Hok _ _ Hk) as [interest Ht].
  rewrite (unregister_eq key p interest) by done. cbv zeta.
  set (d1 := without_waiter d key p interest).
  assert (Hfin : forall d', _pending d' = _pending d1 -> d_requests d' = d_requests d1 ->
    forall b, (forall q, q <> p -> d_closing d' !! q = d_closing d !! q) ->
    (b = true -> d_closing d' !! p = None) ->
    removed p b d' /\ others_kept (Some p) d d').
  { intros d2 E1 E2 b Hc Hb. split; [split; [|done]|].
    - intros key'. rewrite E1. by eapply without_waiter_absent.
    - split; rewrite ?E1, ?E2.
      + intros key' q. unfold d1, without_waiter. simpl. by intros [_ ?]%lookup_delete_Some.
      + intros q Hq. apply Hc. congruence.
      + intros q r0 r1 Hr0. unfold d1, without_waiter. simpl. intros Hr1 Hq.
        rewrite lookup_alter_ne in Hr1 by congruence. congruence. }
  destruct (0 <? _).
  { intros [= <- <-]. exists true. split; [done|]. by apply Hfin. }
  destruct (_ ≫= ready) as [task|].
  - intros [= <- <-]. exists false. split; [done|]. apply Hfin; [done..| |done].
    intros q Hq. simpl. by rewrite lookup_insert_ne.
  - intros [= <- <-]. exists true. split; [done|]. apply Hfin; by case_bool_decide.
Qed.

(** [close] by the call that owns the waiter *)
Lemma close_removes max key p r0 d r d' :
  dispatcher_ok max d -> d_requests d !! p = Some r0 -> pr_closed r0 = false ->
  removable key p d -> close p d = (r, d') ->
  exists b, r = Ok b /\ removed p b d' /\ acts (Some p) d d'.
Proof.
  intros Hok Hr0 Hcl [Hkey Hnc] Hrun. pose proof (step_close _ _ _ _ Hrun) as Hstep. revert Hrun.
  unfold close. run. rewrite Hr0, Hcl. run. rewrite Hr0 in Hkey. injection Hkey as Hkey. rewrite Hkey.
  intros Hrun. destruct (unregister_removes max key p _ r d' (set_closed_ok max p d Hok)) as (b & Hb & Hrem & Hk);
    [|exact Hrun|].
  - split; [|done]. simpl. rewrite lookup_alter_eq, Hr0. simpl. by rewrite Hkey.
  - exists b. split; [done|]. split; [done|]. apply acts_once; [done|].
    eapply (others_kept_trans _ _ (set_requests (alter set_closed p (d_requests d)) d));
      [|by apply (others_kept_alter set_closed)|exact Hk].
    intros q r1 Hq. simpl. apply lookup_alter_is_Some. by eexists.
Qed.

(** [register_end] with an exception *)
Lemma register_end_removes max key p x d r d' :
  dispatcher_ok max d -> removable key p d -> register_end key p (Err x) d = (r, d') ->
  exists b, removed p b d' /\ acts (Some p) d d' /\ r = (if b : bool then Err x else Ok None).
Proof.
  intros Hok Hrem Hrun. pose proof (step_register_end _ _ _ _ _ _ Hrun) as Hstep. revert Hrun.
  unfold register_end. run. destruct (unregister key p d) as [r1 d1] eqn:Hu.
  destruct (unregister_removes max key p d r1 d1) as (b & -> & H1 & H2); [done..|].
  exists b. destruct b; injection Hrun as <- <-; (split; [done|]); (split; [by apply acts_once|done]).
Qed.

(** A suspended removal goes on. *)
Lemma wake_removes p outcome d r d' :
  unregister_wake p outcome d = (r, d') ->
  acts (Some p) d d' /\ _pending d' = _pending d /\
  (r <> Ok false -> d_closing d' !! p = None).
Proof.
  unfold unregister_wake. run. destruct (d_closing d !! p) as [[t i [task|]]|] eqn:Hc.
  - intros Hrun. pose proof (step_resume _ _ _ _ _ Hrun) as Hstep. revert Hrun.
    unfold unregister_resume. run. rewrite Hc.
    assert (Hkeep : forall f (d2 : _RequestDispatcher), (f = delete p \/ exists cg, f = <[p := cg]>) ->
      _pending d2 = _pending d -> d_requests d2 = d_requests d -> d_closing d2 = f (d_closing d) ->
      others_kept (Some p) d d2).
    { intros f d2 Hf E1 E2 E3. split; rewrite ?E1, ?E2, ?E3; try done; [|congruence].
      intros q Hq. destruct Hf as [->|[cg ->]];
        [by rewrite lookup_delete_ne by congruence|by rewrite lookup_insert_ne by congruence]. }
    destruct (_ && _); run; [destruct outcome as [[]|x]; [destruct (_protocol d)|]|destruct outcome];
      run; unfold lift; intros [= <- <-];
      (split; [apply acts_once; [done|eapply Hkeep; [|done..]; by eauto]|]);
      (split; [done|]); intros Hne; simpl; try apply lookup_delete_eq; done.
  - run. rewrite unregister_finish_eq, Hc. intros Hrun.
    assert (Hd' : d' = release_capacity (set_closing (delete p (d_closing d)) d)) by (by destruct outcome; injection Hrun as <- <-).
    subst d'. split; [|split; [done|intros _; apply lookup_delete_eq]].
    apply acts_once; [eapply (step_finish p outcome d); by rewrite unregister_finish_eq, Hc|].
    split; [done| |simpl; congruence]. intros q Hq. simpl. by rewrite lookup_delete_ne by congruence.
  - unfold unregister_resume. run. rewrite Hc. run. intros [= <- <-]. split; [apply acts_refl|done].
Qed.

Lemma register_acts max topic data d r d' :
  dispatcher_ok max d -> register topic data d = (r, d') ->
  match r with
  | Ok (Some (p, _)) => acts (Some p) d d' /\ d_requests d !! p = None /\ d_closing d' !! p = None /\
      d_requests d' !! p = Some (mkPending Waiting (topic, data) false false)
  | _ => acts None d d'
  end.
Proof.
  intros Hok Hrun. pose proof (step_register _ _ _ _ _ Hrun) as Hstep. revert Hrun. rewrite register_eq.
  destruct (Z.leb_spec (_capacity d) 0); [intros [= <- <-]; apply acts_refl|].
  cbv zeta. case_bool_decide as Hfree; [intros [= <- <-]; apply acts_once; [done|by apply others_kept_same]|].
  destruct (_protocol d) as [pr|] eqn:Hpr;
    [|intros [= <- <-]; apply acts_once; [done|by apply others_kept_same]].
  apply eq_None_not_Some in Hfree. destruct (with_fresh_waiter _ _) as [[i p] d1] eqn:Hw.
  destruct (register_waiter max topic data d i p d1 Hok ltac:(lia) Hfree Hw)
    as (_ & Hpr1 & Hp & E1 & E2 & _).
  assert (Hcl : d_closing d1 = d_closing d).
  { revert Hw. unfold with_fresh_waiter, topic_interest. simpl.
    destruct (_topics d !! topic); by intros [= <- <- <-]. }
  destruct (_ensure_topic_ready topic i d1) as [r2 d2] eqn:He.
  destruct (ensure_ready_effect _ _ _ _ _ He) as (F1 & _ & F2 & _ & F3 & _ & _ & _ & _ & Hr).
  rewrite Hpr1, Hpr in Hr. destruct r2 as [task|]; [|by destruct Hr]. intros [= <- <-].
  assert (Hnc : d_closing d !! p = None).
  { destruct (d_closing d !! p) as [cg|] eqn:Hcg; [|done].
    destruct (do_closing _ _ Hok _ _ Hcg) as [r0 Hr0]. by rewrite Hp in Hr0. }
  split_and!; [|done|by rewrite F3, Hcl|by rewrite F1, E1, lookup_insert_eq].
  apply acts_once; [done|]. split; rewrite ?F1, ?F2, ?F3, ?E1, ?E2, ?Hcl; try done.
  - intros key q Hq Hne. apply lookup_insert_Some in Hq as [[_ ->]|[_ Hq]]; done.
  - intros q r0 r1 Hr0 Hr1 Hne. rewrite lookup_insert_ne in Hr1 by congruence. congruence.
Qed.

Lemma cancel_future_acts p d : acts (Some p) d (cancel_future p d).
Proof. apply acts_once; [apply step_give_up|]. by eapply others_kept_alter. Qed.

Lemma connection_acts d d' : connection_step d d' -> acts None d d'.
Proof.
  intros Hc. destruct Hc as [protocol d|t i d r d' H|m msg d o d' H|o d|d].
  - apply acts_once; [apply step_bind|]. apply (others_kept_map (fun p r =>
      if decide (_pending d !! pr_key r = Some p) then set_claimed false r else r)); [|done..].
    intros p r. by case_decide.
  - apply acts_once; [by eapply step_restore|]. revert H. unfold restore_topic. run.
    destruct (0 <? _); run; [|intros [= <- <-]; by apply others_kept_same].
    destruct (_ensure_topic_ready t i d) as [r1 d1] eqn:He.
    destruct (ensure_ready_effect _ _ _ _ _ He) as (F1 & _ & F2 & _ & F3 & _).
    destruct r1; intros [= <- <-]; by apply others_kept_same.
  - apply acts_once; [by eapply step_claim|]. destruct o as [c|].
    + apply claim_spec in H as (data & p & r & _ & _ & Hr & _ & _ & _ & ->). split; try done.
      intros q r0 r1 Hr0. simpl. rewrite lookup_insert. case_decide; [subst|congruence].
      assert (r0 = r) as -> by congruence. by intros [= <-].
    + revert H. unfold claim_response. repeat case_match; intros [= <-]; by apply others_kept_same.
  - apply acts_once; [apply step_complete|].
    destruct (complete_cases o d) as [->|(cl & r & _ & Hr & ->)]; [by apply others_kept_same|].
    split; try done. intros q r0 r1 Hr0. simpl. rewrite lookup_insert. case_decide; [subst|congruence].
    assert (r0 = r) as -> by congruence. by intros [= <-].
  - apply acts_once; [apply step_cancel|]. apply (others_kept_map (fun p r =>
      if decide (_pending d !! pr_key r = Some p) then
        if response_done (pr_future r) then r
        else set_future (ResponseFailed (MQTTDisconnectedError "Client disconnected")) r
      else r)); [|apply map_empty_subseteq|done|done].
    intros p r. case_decide; [|done]. by destruct (response_done _).
Qed.

(** ** What a call holds *)

Definition waiter (s : call_state) : option nat :=
  match s with
  | RqSubscribing p _ | RqWithdrawing p _ | RqPublishing p _ | RqWaiting p | RqClosing p _ => Some p
  | RqAcquiring | RqDone _ => None
  end.

(** The waiter is registered, or its removal is suspended. *)
Definition registered (s : call_state) : bool :=
  match s with RqSubscribing _ _ | RqPublishing _ _ | RqWaiting _ => true | _ => false end.

(** [m] is a response to the request [key]: it was claimed for it, and has its topic and
    correlation data. *)
Definition responds (key : request_key) (m : nat) d : Prop :=
  exists c cl, d_claims d !! c = Some cl /\ cl_message cl = m /\
    pr_key <$> d_requests d !! cl_pending cl = Some key /\
    msg_topic (cl_content cl) = key.1 /\
    msg_properties (cl_content cl) ≫= pbp_correlation_data = Some key.2.

Definition outcome_ok key (o : result nat) d : Prop :=
  match o with Ok m => responds key m d | Err _ => True end.

Definition holds key (p : nat) (is_closed : bool) d : Prop :=
  exists r, d_requests d !! p = Some r /\ pr_key r = key /\ (is_closed = false -> pr_closed r = false).

(** The packet that is published carries the key under which the waiter is registered. *)
Definition call_ok (a : request_call) d : Prop :=
  pbp_response_topic (rq_properties a) = Some (rq_key a).1 /\
  pbp_correlation_data (rq_properties a) = Some (rq_key a).2 /\
  match rq_state a with
  | RqAcquiring => True
  | RqSubscribing p _ | RqWaiting p => holds (rq_key a) p false d /\ d_closing d !! p = None
  | RqPublishing p packet =>
      holds (rq_key a) p false d /\ d_closing d !! p = None /\
      pb_topic packet = rq_topic a /\ pb_properties packet = Some (rq_properties a)
  | RqWithdrawing p _ => holds (rq_key a) p true d
  | RqClosing p o => holds (rq_key a) p true d /\ outcome_ok (rq_key a) o d
  | RqDone o => outcome_ok (rq_key a) o d
  end.

Lemma responds_later key m d d' : progresses d d' -> responds key m d -> responds key m d'.
Proof.
  intros [_ Hc Hr] (c & cl & H1 & H2 & H3 & H4). exists c, cl.
  split; [by eapply lookup_weaken|]. split; [done|]. split; [|done].
  destruct (d_requests d !! cl_pending cl) as [r|] eqn:Hq; [|done].
  destruct (Hr _ _ Hq) as (r' & -> & [Hk _]). simpl in *. congruence.
Qed.

Lemma outcome_later key o d d' : progresses d d' -> outcome_ok key o d -> outcome_ok key o d'.
Proof. destruct o; [by apply responds_later|done]. Qed.

(** A future with a response was resolved for the key of its waiter. *)
Lemma response_responds max p r m d :
  dispatcher_ok max d -> d_requests d !! p = Some r -> pr_future r = Response m ->
  responds (pr_key r) m d.
Proof.
  intros Hok Hr Hf. destruct (do_response _ _ Hok _ _ _ Hr Hf) as (c & cl & Hc & Hp & Hm).
  destruct (do_claim _ _ Hok _ _ Hc) as (H1 & H2 & H3). exists c, cl. rewrite H1.
  assert (Hk : cl_key cl = pr_key r) by (rewrite Hp, Hr in H1; by injection H1).
  rewrite Hk in *. by split_and!.
Qed.

Lemma holds_later key p closed o d d' :
  acts o d d' -> closed = true \/ o <> Some p -> holds key p closed d -> holds key p closed d'.
Proof.
  intros [Hs Ho] Hor (r & Hr & Hk & Hc).
  destruct (pg_requests _ _ (steps_progress _ _ Hs) _ _ Hr) as (r' & Hr' & [Hk' _]).
  exists r'. split; [done|]. split; [congruence|]. intros ->.
  destruct Hor as [|Hne]; [done|]. rewrite (ok_closed _ _ _ Ho p r r' Hr Hr') by congruence. by apply Hc.
Qed.

Lemma call_ok_others a o d d' : acts o d d' -> waiter (rq_state a) <> o \/ o = None -> call_ok a d -> call_ok a d'.
Proof.
  intros Ha Hne (H1 & H2 & H3). split; [done|]. split; [done|].
  pose proof (steps_progress _ _ (ac_steps _ _ _ Ha)) as Hp. pose proof (ac_others _ _ _ Ha) as Ho.
  assert (Hw : forall p, waiter (rq_state a) = Some p -> o <> Some p).
  { intros p Hp' ->. destruct Hne; congruence. }
  assert (Hc : forall p, waiter (rq_state a) = Some p -> d_closing d' !! p = d_closing d !! p).
  { intros p Hp'. apply (ok_closing _ _ _ Ho). by specialize (Hw p Hp'). }
  destruct (rq_state a) as [|p t|p x|p pk|p|p oc|oc]; try done;
    try specialize (Hw p eq_refl); try specialize (Hc p eq_refl); rewrite ?Hc.
  - destruct H3 as [H3 H4]. split; [|done]. eapply holds_later; [done|by right|done].
  - eapply holds_later; [done|by right|done].
  - destruct H3 as [H3 H4]. split; [|done]. eapply holds_later; [done|by right|done].
  - destruct H3 as [H3 H4]. split; [|done]. eapply holds_later; [done|by right|done].
  - destruct H3 as [H3 H4]. split; [eapply holds_later; [done|by right|done]|by eapply outcome_later].
  - by eapply outcome_later.
Qed.

(** ** All calls *)

(** Every registered waiter and every suspended removal belongs to one call. *)
Record calls_inv (max : Z) d (calls : gmap nat request_call) : Prop := {
  ci_dispatcher : dispatcher_inv max d;
  ci_ok : forall i a, calls !! i = Some a -> call_ok a d;
  ci_owner : forall i j a b p, calls !! i = Some a -> calls !! j = Some b ->
    waiter (rq_state a) = Some p -> waiter (rq_state b) = Some p -> i = j;
  ci_pending : forall key p, _pending d !! key = Some p ->
    exists i a, calls !! i = Some a /\ waiter (rq_state a) = Some p /\ registered (rq_state a) = true;
  ci_closing : forall p cg, d_closing d !! p = Some cg ->
    exists i a, calls !! i = Some a /\ waiter (rq_state a) = Some p /\ registered (rq_state a) = false;
}.

(** A step of a call that works on the waiter [o] *)
Record moves (o : option nat) d d' (a : request_call) : Prop := {
  mv_acts : acts o d d';
  mv_ok : call_ok a d';
  mv_waiter : waiter (rq_state a) = None \/ waiter (rq_state a) = o;
  mv_pending : forall key p, _pending d' !! key = Some p -> Some p = o ->
    waiter (rq_state a) = Some p /\ registered (rq_state a) = true;
  mv_closing : forall p, is_Some (d_closing d' !! p) -> Some p = o ->
    waiter (rq_state a) = Some p /\ registered (rq_state a) = false;
}.

Lemma moves_after o d d1 d2 a : acts o d d1 -> moves o d1 d2 a -> moves o d d2 a.
Proof. intros Ha [M1 M2 M3 M4 M5]. split; try done. by eapply acts_trans. Qed.

Section many.
Context (max : Z) (d : _RequestDispatcher) (calls : gmap nat request_call).
Context (Hinv : calls_inv max d calls).

Lemma moves_keep_inv i o d' a' :
  (forall a p, calls !! i = Some a -> waiter (rq_state a) = Some p -> o = Some p) ->
  (forall j b p, j <> i -> calls !! j = Some b -> waiter (rq_state b) = Some p -> o <> Some p) ->
  moves o d d' a' -> calls_inv max d' (<[i := a']> calls).
Proof.
  intros Hold Hother [M1 M2 M3 M4 M5]. destruct Hinv as [I1 I2 I3 I4 I5].
  pose proof (ac_others _ _ _ M1) as Ho.
  (* the owner of a waiter other than [o] is another call and stays *)
  assert (Hstay : forall p b, Some p <> o -> (exists j a, calls !! j = Some a /\
      waiter (rq_state a) = Some p /\ registered (rq_state a) = b) ->
    exists j a, <[i := a']> calls !! j = Some a /\ waiter (rq_state a) = Some p /\
      registered (rq_state a) = b).
  { intros p b Hp (j & a & Ha & Hw & Hb). exists j, a. split; [|done].
    rewrite lookup_insert_ne; [done|]. intros <-. apply Hp. symmetry. by eapply Hold. }
  assert (Hmine : forall p b, Some p = o -> waiter (rq_state a') = Some p /\ registered (rq_state a') = b ->
    exists j a, <[i := a']> calls !! j = Some a /\ waiter (rq_state a) = Some p /\
      registered (rq_state a) = b).
  { intros p b _ [Hw Hb]. exists i, a'. by rewrite lookup_insert_eq. }
  split.
  - by eapply steps_keep_inv; [apply M1|].
  - intros j b. rewrite lookup_insert. case_decide as Hj; [by intros [= <-]|]. intros Hb.
    eapply call_ok_others; [exact M1| |by eapply I2]. destruct o as [p|]; [left|by right].
    intros Hw. by eapply (Hother j b p).
  - assert (Hne : forall j b p, j <> i -> calls !! j = Some b -> waiter (rq_state b) = Some p ->
      waiter (rq_state a') <> Some p).
    { intros j b p Hj Hb Hw Hw'. eapply Hother; [done..|]. destruct M3; congruence. }
    intros j k a b p. rewrite !lookup_insert. case_decide as Hj; case_decide as Hk; subst; [done|..].
    + intros [= <-] Hb Hw Hw'. exfalso. by eapply Hne.
    + intros Ha [= <-] Hw Hw'. exfalso. by eapply Hne.
    + by apply I3.
  - intros key p Hp. destruct (decide (Some p = o)) as [He|He]; [by eapply Hmine, M4|].
    apply Hstay; [done|]. by eapply I4, (ok_pending _ _ _ Ho).
  - intros p cg Hp. destruct (decide (Some p = o)) as [He|He]; [by apply Hmine, M5|].
    apply Hstay; [done|]. eapply I5. by rewrite <- (ok_closing _ _ _ Ho).
Qed.

End many.

Section calls.
Context {P : Type}.
Implicit Types (c : Client P) (a : request_call).

Notation disp := k_dispatcher.

Lemma on_dispatcher_eq {A} (m : D A) c :
  on_dispatcher m c = ((m (disp c)).1, set_dispatcher (m (disp c)).2 c).
Proof. unfold on_dispatcher, zoom. by destruct (m (disp c)). Qed.

(** The [finally] of a call that owns the registered waiter [p] *)
Lemma close_moves max a p o c r c' :
  dispatcher_ok max (disp c) -> call_ok a (disp c) -> holds (rq_key a) p false (disp c) ->
  d_closing (disp c) !! p = None -> outcome_ok (rq_key a) o (disp c) ->
  request_close p o c = (r, c') ->
  exists s, r = Ok s /\ moves (Some p) (disp c) (disp c') (set_state s a).
Proof.
  intros Hok (Ha1 & Ha2 & _) (r0 & Hr0 & Hk & Hcl) Hnc Hoc. unfold request_close.
  rewrite run_bind, on_dispatcher_eq. destruct (close p (disp c)) as [r1 d1] eqn:Hrun. cbn [fst snd].
  destruct (close_removes max (rq_key a) p r0 (disp c) r1 d1) as (b & -> & [Hp1 Hc1] & Hacts);
    [done|done|by apply Hcl|split; [by rewrite Hr0, <- Hk|done]|done|].
  intros [= <- <-]. eexists. split; [done|]. cbn [k_dispatcher set_dispatcher].
  pose proof (steps_progress _ _ (ac_steps _ _ _ Hacts)) as Hpr.
  assert (Hh : holds (rq_key a) p true d1).
  { eapply holds_later; [exact Hacts|by left|]. by exists r0. }
  pose proof (outcome_later _ _ _ _ Hpr Hoc) as Hoc1. split.
  - done.
  - by destruct b.
  - destruct b; [by left|by right].
  - intros key q Hq [= ->]. by apply Hp1 in Hq.
  - intros q [cg Hq] [= ->]. destruct b; [by rewrite Hc1 in Hq|done].
Qed.

(** A suspended removal that the call waits for *)
Lemma wake_moves a p outcome c r c' s :
  call_ok a (disp c) -> waiter (rq_state a) = Some p -> registered (rq_state a) = false ->
  (forall key, _pending (disp c) !! key <> Some p) ->
  on_dispatcher (unregister_wake p outcome) c = (r, c') ->
  call_ok (set_state s a) (disp c') ->
  s = rq_state a \/ waiter s = None /\ r <> Ok false ->
  moves (Some p) (disp c) (disp c') (set_state s a).
Proof.
  intros Ha Hw Hreg Hnp. rewrite on_dispatcher_eq.
  destruct (unregister_wake p outcome (disp c)) as [r1 d1] eqn:Hrun. cbn [fst snd]. intros [= <- <-].
  apply wake_removes in Hrun as (Hacts & Hp & Hcl). cbn [k_dispatcher set_dispatcher].
  intros Hok Hs. split.
  - done.
  - done.
  - destruct Hs as [->|[Hs _]]; [by right|by left].
  - intros key q Hq [= ->]. rewrite Hp in Hq. by apply Hnp in Hq.
  - intros q [cg Hq] [= ->]. destruct Hs as [->|[_ Hs]]; [done|]. by rewrite Hcl in Hq.
Qed.

(** A step that leaves the dispatcher alone *)
Lemma same_moves max d calls i a s :
  calls_inv max d calls -> calls !! i = Some a -> call_ok (set_state s a) d ->
  waiter s = waiter (rq_state a) -> registered s = registered (rq_state a) ->
  moves (waiter (rq_state a)) d d (set_state s a).
Proof.
  intros [I1 I2 I3 I4 I5] Ha Hok Hw Hr. split.
  - apply acts_refl.
  - done.
  - by right.
  - intros key p Hp Hp'. cbn [set_state rq_state]. rewrite Hw, Hr. split; [done|].
    destruct (I4 key p Hp) as (j & b & Hb & Hwb & Hrb). assert (j = i) as -> by by eapply I3.
    by assert (b = a) as -> by congruence.
  - intros p [cg Hp] Hp'. cbn [set_state rq_state]. rewrite Hw, Hr. split; [done|].
    destruct (I5 p cg Hp) as (j & b & Hb & Hwb & Hrb). assert (j = i) as -> by by eapply I3.
    by assert (b = a) as -> by congruence.
Qed.

(** [register] by a call that has no waiter *)
Lemma acquire_moves max a c r c' :
  dispatcher_ok max (disp c) -> call_ok a (disp c) -> request_acquire (rq_key a) c = (r, c') ->
  exists o, moves o (disp c) (disp c')
      (set_state (match r with Ok s => s | Err x => RqDone (Err x) end) a) /\
    forall p, o = Some p -> d_requests (disp c) !! p = None.
Proof.
  intros Hok (Ha1 & Ha2 & _). unfold request_acquire, request_register. rewrite run_bind.
  change (zoom k_dispatcher set_dispatcher) with (@on_dispatcher P (option (nat * nat))).
  rewrite on_dispatcher_eq.
  destruct (register (rq_key a).1 (rq_key a).2 (disp c)) as [r1 d1] eqn:Hrun. cbn [fst snd].
  apply (register_acts max) in Hrun; [|done]. cbn [k_dispatcher set_dispatcher].
  assert (Hnone : forall s, waiter s = None -> call_ok (set_state s a) d1 ->
    acts None (disp c) d1 -> exists o, moves o (disp c) d1 (set_state s a) /\
      forall p, o = Some p -> d_requests (disp c) !! p = None).
  { intros s Hs Hc Hacts. exists None. split; [|done]. split; try done. by left. }
  destruct r1 as [[[p task]|]|x]; intros [= <- <-]; cbn [k_dispatcher set_dispatcher];
    [|by apply Hnone..].
  destruct Hrun as (Hacts & Hfresh & Hnc & Hr). rewrite <- surjective_pairing in Hr. exists (Some p).
  split; [|by intros q [= <-]]. split.
  - done.
  - split; [done|]. split; [done|]. split; [|done]. by eexists.
  - by right.
  - by intros key q _ [= ->].
  - intros q [cg Hq] [= ->]. by rewrite Hnc in Hq.
Qed.

Lemma waiter_known a p d : call_ok a d -> waiter (rq_state a) = Some p -> is_Some (d_requests d !! p).
Proof.
  intros (_ & _ & Ha) Hw. unfold holds in Ha. destruct (rq_state a); simplify_eq/=;
    repeat match goal with H : _ /\ _ |- _ => destruct H | H : exists _, _ |- _ => destruct H end; by eexists.
Qed.

(** A registered call publishes, or closes its waiter after the check that failed. *)
Lemma publish_moves max a p c r c' :
  dispatcher_ok max (disp c) -> call_ok a (disp c) -> holds (rq_key a) p false (disp c) ->
  d_closing (disp c) !! p = None ->
  (forall key q, _pending (disp c) !! key = Some q -> Some q = Some p -> waiter (rq_state a) = Some p) ->
  request_publish a p c = (r, c') ->
  exists s, r = Ok s /\ moves (Some p) (disp c) (disp c') (set_state s a).
Proof.
  intros Hok Ha Hh Hnc Hp. unfold request_publish.
  assert (Hpub : match client_publish (rq_topic a) (rq_payload a) (rq_qos a) false (Some (rq_properties a)) c with
    | (Ok pk, c1) => c1 = c /\ pb_topic pk = rq_topic a /\ pb_properties pk = Some (rq_properties a)
    | (Err _, c1) => c1 = c
    end).
  { unfold client_publish, require_protocol, lift. run. destruct (validate_publish _); [|done]. run.
    destruct (k_protocol c); [|done]. run. destruct (_ && _); [done|]. run.
    destruct (match rq_payload a with inl b => Ok b | inr s0 => encode_utf8 s0 end); done. }
  destruct (client_publish _ _ _ _ _ c) as [[pk|x] c1].
  - destruct Hpub as (-> & Ht & Hprops). intros [= <- <-]. eexists. split; [done|].
    destruct Ha as (Ha1 & Ha2 & _). split.
    + apply acts_refl.
    + by split_and!.
    + by right.
    + by intros key q _ [= ->].
    + intros q [cg Hq] [= ->]. by rewrite Hnc in Hq.
  - subst c1. by eapply close_moves.
Qed.

(** The waiter of a call whose removal is suspended is not in the table. *)
Lemma unregistered_absent max d calls i a p key :
  calls_inv max d calls -> calls !! i = Some a -> waiter (rq_state a) = Some p ->
  registered (rq_state a) = false -> _pending d !! key <> Some p.
Proof.
  intros Hinv Ha Hw Hr Hp. destruct (ci_pending _ _ _ Hinv key p Hp) as (j & b & Hb & Hwb & Hrb).
  assert (j = i) as -> by by eapply (ci_owner _ _ _ Hinv). congruence.
Qed.

(** The call [a] goes on to [s]; the waiter it works on is its own or new. *)
Definition advances a (s : call_state) d d' : Prop :=
  exists o, moves o d d' (set_state s a) /\
    (forall p, waiter (rq_state a) = Some p -> o = Some p) /\
    (forall p, o = Some p -> waiter (rq_state a) = Some p \/ d_requests d !! p = None).

Lemma moves_advances a s p d d' :
  waiter (rq_state a) = Some p -> moves (Some p) d d' (set_state s a) -> advances a s d d'.
Proof.
  intros Hw Hm. exists (Some p). split; [done|]. rewrite Hw. split; [done|]. intros q [= ->]. by left.
Qed.

Lemma same_advances max d calls i a s :
  calls_inv max d calls -> calls !! i = Some a -> call_ok (set_state s a) d ->
  waiter s = waiter (rq_state a) -> registered s = registered (rq_state a) -> advances a s d d.
Proof.
  intros Hinv Hi Hok Hw Hr. exists (waiter (rq_state a)). split; [by eapply same_moves|].
  split; [done|by left].
Qed.

Lemma close_advances max a p o c s c' :
  dispatcher_ok max (disp c) -> call_ok a (disp c) -> waiter (rq_state a) = Some p ->
  holds (rq_key a) p false (disp c) -> d_closing (disp c) !! p = None ->
  outcome_ok (rq_key a) o (disp c) -> caught (request_close p o) c = (s, c') ->
  advances a s (disp c) (disp c').
Proof.
  intros Hok Ha Hw Hh Hnc Ho. unfold caught. destruct (request_close p o c) as [r c1] eqn:Hrun.
  destruct (close_moves max a p o c r c1) as (s1 & -> & Hm); [done..|]. intros [= <- <-].
  by eapply moves_advances.
Qed.

(** A wait for the removal of the waiter, and what follows it *)
Lemma removal_advances max calls i a p outcome c s c' st (m : ST (Client P) call_state) :
  calls_inv max (disp c) calls -> calls !! i = Some a -> rq_state a = st -> waiter st = Some p ->
  registered st = false ->
  (forall c1, exists o, caught m c1 = (RqDone o, c1) /\
     (progresses (disp c) (disp c1) -> outcome_ok (rq_key a) o (disp c1))) ->
  caught (finished ← on_dispatcher (unregister_wake p outcome);
          if finished : bool then m else mret st) c = (s, c') ->
  advances a s (disp c) (disp c').
Proof.
  intros Hinv Hi <- Hw Hreg Hm. pose proof (ci_ok _ _ _ Hinv i a Hi) as Ha.
  unfold caught at 1. rewrite run_bind.
  destruct (on_dispatcher (unregister_wake p outcome) c) as [r c1] eqn:Hrun.
  pose proof Hrun as Hacts. rewrite on_dispatcher_eq in Hacts.
  destruct (unregister_wake p outcome (disp c)) as [r1 d1] eqn:Hd. injection Hacts as <- Hc1.
  assert (acts (Some p) (disp c) (disp c1)) as Hacts.
  { rewrite <- Hc1. by apply wake_removes in Hd as [Hd _]. }
  pose proof (steps_progress _ _ (ac_steps _ _ _ Hacts)) as Hpr.
  assert (Hgo : forall s1, (s1 = rq_state a \/ waiter s1 = None /\ r1 <> Ok false) ->
    call_ok (set_state s1 a) (disp c1) -> advances a s1 (disp c) (disp c1)).
  { intros s1 Hs1 Hok1. eapply moves_advances; [done|]. eapply wake_moves; try done.
    intros key. by eapply unregistered_absent. }
  destruct Ha as (Ha1 & Ha2 & Ha3). destruct r1 as [[]|x].
  - destruct (Hm c1) as (o & Hmo & Ho). unfold caught in Hmo.
    destruct (m c1) as [[s1|x1] c2]; injection Hmo as Hs ->; intros [= <- <-].
    + rewrite Hs. apply Hgo; [by right|]. split; [done|]. split; [done|]. cbn [set_state rq_state rq_key].
      by apply Ho.
    + apply Hgo; [by right|]. done.
  - intros [= <- <-]. apply Hgo; [by left|]. split; [done|]. split; [done|].
    cbn [set_state rq_state rq_key]. destruct (rq_state a); try done.
    + eapply holds_later; [exact Hacts|by left|done].
    + destruct Ha3 as [Hh Hoc]. split; [eapply holds_later; [exact Hacts|by left|done]|].
      by eapply outcome_later.
  - intros [= <- <-]. apply Hgo; [by right|]. done.
Qed.

Lemma advances_after a s p d d1 d2 :
  acts (Some p) d d1 -> waiter (rq_state a) = Some p -> advances a s d1 d2 -> advances a s d d2.
Proof.
  intros Ha Hw (o & Hm & H1 & H2). specialize (H1 p Hw). subst o. exists (Some p).
  split; [by eapply moves_after|]. rewrite Hw. split; [done|]. intros q [= ->]. by left.
Qed.

Lemma cancel_future_holds key p d : holds key p false d -> holds key p false (cancel_future p d).
Proof.
  intros (r & Hr & Hk & Hc). eexists. split; [simpl; by rewrite lookup_alter_eq, Hr|].
  by destruct (response_done (pr_future r)).
Qed.

Lemma set_dispatcher_same c : set_dispatcher (disp c) c = c.
Proof. by destruct c. Qed.

Lemma wake_advances max calls i a outcome c s c' :
  calls_inv max (disp c) calls -> calls !! i = Some a ->
  caught (request_wake outcome a) c = (s, c') -> advances a s (disp c) (disp c').
Proof.
  intros Hinv Hi. pose proof (ci_ok _ _ _ Hinv i a Hi) as Ha. pose proof Ha as (Ha1 & Ha2 & Ha3).
  pose proof (di_ok _ _ (ci_dispatcher _ _ _ Hinv)) as Hok.
  destruct a as [topic payload qos timeout key props st]. cbn [rq_state rq_key rq_properties] in *.
  unfold request_wake. cbn [rq_state rq_key].
  destruct st as [|p task|p x|p pk|p|p o|o]; cbn [rq_state] in *.
  - destruct outcome as [u|x]; unfold lift, caught; run.
    + destruct (request_acquire key c) as [r c1] eqn:Hrun. intros Hr.
      destruct (acquire_moves max (mkCall topic payload qos timeout key props RqAcquiring) c r c1) as (o & Hm & Hp);
        [done..|]. exists o.
      destruct r; injection Hr as <- <-; (split; [done|]); (split; [done|]); intros p Ho; right; by apply Hp.
    + intros [= <- <-]. by eapply same_advances.
  - destruct Ha3 as [Hh Hnc]. unfold caught. rewrite run_bind, on_dispatcher_eq.
    destruct outcome as [u|x].
    + cbn [register_end fst snd]. rewrite run_ret. cbn [fst snd].
      rewrite set_dispatcher_same.
      destruct (request_publish _ p c) as [r c1] eqn:Hrun.
      eapply (publish_moves max) in Hrun as (s1 & -> & Hm); [|done..|by intros key' q _ [= ->]].
      intros [= <- <-]. by eapply moves_advances.
    + destruct (register_end key p (Err x) (disp c)) as [r d1] eqn:Hrun. cbn [fst snd].
      destruct (register_end_removes max key p x (disp c) r d1) as (b & Hrem & Hacts & ->); [done| |done|].
      { destruct Hh as (r0 & Hr0 & Hk & _). unfold removable. by rewrite Hr0, <- Hk. }
      assert (Hh1 : holds key p true d1) by (by eapply holds_later; [exact Hacts|left|destruct Hh as (r0 & ? & ? & _); exists r0]).
      destruct Hrem as [Hp Hc].
      destruct b; intros [= <- <-]; (eapply moves_advances; [done|]); (split; [done|by split_and!|..]);
        cbn [set_state rq_state waiter registered k_dispatcher set_dispatcher]; try by auto.
      * intros key' q Hq [= ->]. by apply Hp in Hq.
      * intros q [cg Hq] [= ->]. by rewrite Hc in Hq.
      * intros key' q Hq [= ->]. by apply Hp in Hq.
  - eapply removal_advances; [done..|]. intros c1. by exists (Err x).
  - destruct Ha3 as (Hh & Hnc & _). destruct outcome as [u|x].
    + unfold caught. run. intros [= <- <-]. by eapply same_advances.
    + by eapply close_advances.
  - destruct Ha3 as (Hh & Hnc). destruct outcome as [u|x].
    + destruct Hh as (r & Hr & Hk & Hcl). unfold caught at 1. run. rewrite Hr. cbn [mbind option_bind].
      destruct (future_outcome (pr_future r)) as [o|] eqn:Hf.
      * apply (close_advances max); [done..|by exists r|done|].
        destruct o as [m|x]; [|done]. cbn [rq_key]. rewrite <- Hk. eapply response_responds; [done|done|].
        by destruct (pr_future r); simplify_eq/=.
      * intros [= <- <-]. by eapply same_advances.
    + unfold caught. rewrite run_bind, on_dispatcher_eq. cbn [fst snd modify].
      set (c1 := set_dispatcher (cancel_future p (disp c)) c). intros Hrun.
      pose proof (cancel_future_holds key p (disp c) Hh) as Hh1.
      apply (advances_after _ _ p (disp c) (disp c1)); [apply cancel_future_acts|done|].
      eapply (close_advances max _ p (Err x) c1); try done; by apply cancel_future_ok.
  - destruct Ha3 as [Hh Ho]. eapply removal_advances; [done..|]. intros c1. exists o.
    split; [done|]. intros Hp. by eapply outcome_later.
  - unfold caught. run. intros [= <- <-]. by eapply same_advances.
Qed.

(** ** The system *)

Lemma request_properties_spec props r1 r2 c key props' c1 :
  request_properties props r1 r2 c = (Ok (key, props'), c1) ->
  c1 = c /\ pbp_response_topic props' = Some key.1 /\ pbp_correlation_data props' = Some key.2.
Proof.
  unfold request_properties, lift. run. destruct (bool_decide _); [done|]. run.
  destruct (props ≫= pbp_response_topic); run; [destruct (validate_response_topic _); [|done]; run|];
    by intros [= <- <- <-].
Qed.

Lemma begin_advances max topic payload qos timeout props r1 r2 c a c' :
  dispatcher_ok max (disp c) -> request topic payload qos timeout props r1 r2 c = (Ok a, c') ->
  exists o, moves o (disp c) (disp c') a /\ forall p, o = Some p -> d_requests (disp c) !! p = None.
Proof.
  intros Hok. unfold request. rewrite run_bind.
  destruct (request_properties props r1 r2 c) as [[[key props']|x] c0] eqn:Hp; [|done].
  apply request_properties_spec in Hp as (-> & Ht & Hc). run. unfold settled, caught. run.
  destruct (request_acquire key c) as [r c1] eqn:Hrun. intros Hr.
  destruct (acquire_moves max (mkCall topic payload qos timeout key props' RqAcquiring) c r c1) as (o & Hm & Hfr);
    [done|by split_and!|done|].
  exists o. split; [|done]. by destruct r; injection Hr as <- <-.
Qed.

Lemma step_keeps_calls max (y y' : requests (P := P)) :
  requests_step y y' -> calls_inv max (disp (rs_client y)) (rs_calls y) ->
  calls_inv max (disp (rs_client y')) (rs_calls y').
Proof.
  intros Hs Hinv. pose proof (di_ok _ _ (ci_dispatcher _ _ _ Hinv)) as Hok.
  assert (Hfresh : forall j b p, rs_calls y !! j = Some b -> waiter (rq_state b) = Some p ->
    d_requests (disp (rs_client y)) !! p <> None).
  { intros j b p Hb Hw. destruct (waiter_known b p _ (ci_ok _ _ _ Hinv j b Hb) Hw) as [r Hr]. by rewrite Hr. }
  destruct Hs as [i topic payload qos timeout props r1 r2 c calls a c' Hi Hrun|i outcome a s c calls c' Hi Hrun
    |c c' calls Hc]; cbn [rs_client rs_calls] in *.
  - apply (begin_advances max) in Hrun as (o & Hm & Hnew); [|done].
    eapply moves_keep_inv; [exact Hinv| | |exact Hm]; [by rewrite Hi|].
    intros j b p _ Hb Hw ->. by eapply Hfresh, Hnew.
  - apply (wake_advances max calls i) in Hrun as (o & Hm & Hmine & Hnew); [|done..].
    eapply moves_keep_inv; [exact Hinv| | |exact Hm].
    + intros a0 p. rewrite Hi. intros [= <-]. apply Hmine.
    + intros j b p Hj Hb Hw ->. destruct (Hnew p eq_refl) as [Hwa|Hn]; [|by eapply Hfresh].
      apply Hj. by eapply (ci_owner _ _ _ Hinv).
  - destruct Hc as [Hc| ->]; [|done]. apply connection_acts in Hc. destruct Hinv as [I1 I2 I3 I4 I5].
    pose proof (ac_others _ _ _ Hc) as Ho. split; [by eapply steps_keep_inv; [apply Hc|]| |done|..].
    + intros i a Ha. eapply call_ok_others; [exact Hc|by right|by eapply I2].
    + intros key p Hp. by eapply I4, (ok_pending _ _ _ Ho).
    + intros p cg Hp. eapply I5. by rewrite <- (ok_closing _ _ _ Ho).
Qed.

Lemma requests_reachable_inv cfg (y : requests (P := P)) :
  requests_reachable cfg y -> calls_inv (k_max_pending_requests cfg) (disp (rs_client y)) (rs_calls y).
Proof.
  intros (c & Hnew & Hsteps).
  assert (H0 : calls_inv (k_max_pending_requests cfg) (disp c) ∅).
  { revert Hnew. unfold new_client.
    destruct (negb (positive (k_mqtt_connect_timeout cfg))); [done|].
    destruct (_ <? 0); [done|]. destruct (negb _); [done|]. destruct (_ && _); [done|].
    destruct (new_dispatcher (k_max_pending_requests cfg)) as [d|x] eqn:Hd; [|done].
    intros [= <-]. cbn [k_dispatcher]. split; [by apply new_dispatcher_inv|done|done|..];
      revert Hd; unfold new_dispatcher; (destruct (_ <=? 0); [done|]); by intros [= <-]. }
  change (calls_inv (k_max_pending_requests cfg) (disp (rs_client (mkRequests c ∅)))
    (rs_calls (mkRequests c ∅))) in H0.
  clear Hnew. induction Hsteps as [|y1 y2 y3 Hs _ IH]; [done|]. by eapply IH, step_keeps_calls.
Qed.

(** ** Termination *)

(** How far a call is from its end *)
Definition rank d (s : call_state) : nat :=
  match s with
  | RqAcquiring => 6
  | RqSubscribing _ _ => 5
  | RqPublishing _ _ => 4
  | RqWaiting _ => 3
  | RqWithdrawing p _ | RqClosing p _ =>
      match d_closing d !! p with Some (mkClosing _ _ (WaitsReady _)) => 2 | _ => 1 end
  | RqDone _ => 0
  end.

(** The two waits that may go on when they are woken: for a permit, and for the
    response *)
Definition goes_on_waiting d (s : call_state) : Prop :=
  match s with
  | RqAcquiring => _capacity d <= 0
  | RqWaiting p => forall r, d_requests d !! p = Some r -> pr_future r = Waiting
  | _ => False
  end.

Lemma rank_closing d p o : (rank d (RqClosing p o) <= 2)%nat.
Proof. simpl. destruct (d_closing d !! p) as [[? ? []]|]; lia. Qed.

Lemma wake_phase p outcome d d' :
  unregister_wake p outcome d = (Ok false, d') ->
  (exists t i task, d_closing d !! p = Some (mkClosing t i (WaitsReady task))) /\
  exists t i, d_closing d' !! p = Some (mkClosing t i WaitsRemoval).
Proof.
  unfold unregister_wake. run. destruct (d_closing d !! p) as [[t i [task|]]|] eqn:Hc.
  - unfold unregister_resume. run. rewrite Hc.
    destruct (_ && _); run; [destruct outcome as [[]|x]; [destruct (_protocol d)|]|destruct outcome];
      run; unfold lift; intros [= <-]. split; [by eauto|]. simpl. rewrite lookup_insert_eq. by eauto.
  - run. rewrite unregister_finish_eq, Hc. by destruct outcome.
  - unfold unregister_resume. run. by rewrite Hc.
Qed.

Lemma close_rank p o c s c' :
  caught (request_close p o) c = (s, c') -> (rank (disp c') s <= 2)%nat.
Proof.
  unfold caught, request_close. rewrite run_bind, on_dispatcher_eq. destruct (close p (disp c)).1 as [[]|x];
    intros [= <- <-]; [simpl; lia|apply rank_closing|simpl; lia].
Qed.

Lemma removal_rank p outcome c s c' st (m : ST (Client P) call_state) :
  (forall c1, exists o, caught m c1 = (RqDone o, c1)) ->
  (exists x, st = RqWithdrawing p x) \/ (exists o, st = RqClosing p o) ->
  caught (finished ← on_dispatcher (unregister_wake p outcome);
          if finished : bool then m else mret st) c = (s, c') ->
  (rank (disp c') s < rank (disp c) st)%nat.
Proof.
  intros Hm Hst. assert (Hr : forall d, rank d st = match d_closing d !! p with
      Some (mkClosing _ _ (WaitsReady _)) => 2%nat | _ => 1%nat end) by (by destruct Hst as [[x ->]|[o ->]]).
  rewrite Hr. unfold caught at 1. rewrite run_bind, on_dispatcher_eq.
  assert (Hdone : forall o d, (rank d (RqDone o) < match d_closing (disp c) !! p with
      Some (mkClosing _ _ (WaitsReady _)) => 2 | _ => 1 end)%nat).
  { intros o d. simpl. destruct (d_closing (disp c) !! p) as [[? ? []]|]; lia. }
  destruct (unregister_wake p outcome (disp c)) as [[[]|x] d1] eqn:Hd; cbn [fst snd].
  - destruct (Hm (set_dispatcher d1 c)) as (o & Hmo). unfold caught in Hmo.
    destruct (m (set_dispatcher d1 c)) as [[s1|x1] c2]; injection Hmo as Hs ->; intros [= <- <-].
    + rewrite Hs. apply Hdone.
    + apply Hdone.
  - apply wake_phase in Hd as [(t & i & task & H1) (t' & i' & H2)]. intros [= <- <-].
    rewrite Hr, H1. cbn [k_dispatcher set_dispatcher]. rewrite H2. lia.
  - intros [= <- <-]. apply Hdone.
Qed.

Lemma acquire_rank key c s c' :
  caught (request_acquire key) c = (s, c') ->
  (rank (disp c') s < 6)%nat \/ (s = RqAcquiring /\ _capacity (disp c) <= 0).
Proof.
  unfold caught, request_acquire, request_register. rewrite run_bind.
  change (zoom k_dispatcher set_dispatcher) with (@on_dispatcher P (option (nat * nat))).
  rewrite on_dispatcher_eq, register_eq. destruct (Z.leb_spec (_capacity (disp c)) 0).
  { intros [= <- <-]. by right. }
  cbv zeta. destruct (bool_decide _); [intros [= <- <-]; left; simpl; lia|].
  destruct (_protocol (disp c)); [|intros [= <- <-]; left; simpl; lia].
  destruct (with_fresh_waiter _ _) as [[i p] d1].
  destruct (_ensure_topic_ready _ _ _) as [[task|x] d2]; intros [= <- <-]; left; simpl; lia.
Qed.

Lemma publish_rank a p c s c' :
  caught (request_publish a p) c = (s, c') -> (rank (disp c') s <= 4)%nat.
Proof.
  unfold caught, request_publish. destruct (client_publish _ _ _ _ _ c) as [[pk|x] c1].
  - intros [= <- <-]. simpl. lia.
  - intros Hrun. pose proof (close_rank p (Err x) c1 s c' Hrun). lia.
Qed.

(** A wait that ends brings the call nearer to its end, or nothing has changed. *)
Lemma wake_rank a outcome c s c' :
  caught (request_wake outcome a) c = (s, c') ->
  (rank (disp c') s < rank (disp c) (rq_state a))%nat \/
  s = rq_state a /\ (rank (disp c') s <= rank (disp c) s)%nat /\
    ((exists o, rq_state a = RqDone o) \/ outcome = Ok tt /\ goes_on_waiting (disp c) (rq_state a)).
Proof.
  unfold request_wake. destruct (rq_state a) as [|p task|p x|p pk|p|p o|o] eqn:Hst.
  - unfold lift. destruct outcome as [[]|x]; unfold caught; run.
    + intros [Hr|[-> Hc]]%acquire_rank; [by left|right].
      split; [done|]. split; [done|by right].
    + intros [= <- <-]. left. simpl. lia.
  - unfold caught. rewrite run_bind, on_dispatcher_eq. destruct outcome as [u|x].
    + cbn [register_end fst snd]. rewrite run_ret. cbn [fst snd]. rewrite set_dispatcher_same.
      intros Hrun%publish_rank. left. simpl. lia.
    + destruct (register_end _ p (Err x) (disp c)) as [[[q|]|y] d1] eqn:Hend; cbn [fst snd].
      * unfold register_end in Hend. revert Hend. run.
        destruct (unregister _ p (disp c)) as [[[]|y] d2]; discriminate.
      * intros [= <- <-]. left. cbn [rank]. pose proof (rank_closing (disp (set_dispatcher d1 c)) p (Err x)).
        simpl in *. lia.
      * intros [= <- <-]. left. simpl. lia.
  - intros Hrun. left. eapply removal_rank; [|by eauto|exact Hrun]. intros c1. by exists (Err x).
  - destruct outcome as [u|x].
    + unfold caught. run. intros [= <- <-]. left. simpl. lia.
    + intros Hrun%close_rank. left. simpl. lia.
  - destruct outcome as [[]|x].
    + unfold caught at 1. run. destruct (d_requests (disp c) !! p ≫= _) as [o|] eqn:Hf.
      * intros Hrun%close_rank. left. simpl. lia.
      * intros [= <- <-]. right. split; [done|]. split; [done|]. right. split; [done|]. intros r Hr.
        rewrite Hr in Hf. simpl in Hf. by destruct (pr_future r).
    + unfold caught at 1. rewrite run_bind, on_dispatcher_eq. intros Hrun%close_rank. left. simpl. lia.
  - intros Hrun. left. eapply removal_rank; [|by eauto|exact Hrun]. intros c1. by exists o.
  - unfold caught. run. intros [= <- <-]. right. split; [done|]. split; [done|]. left. by exists o.
Qed.

Lemma rank_others d d' s o :
  others_kept o d d' -> (forall p, waiter s = Some p -> o <> Some p) -> rank d' s = rank d s.
Proof.
  intros Ho Hw. destruct s as [|p t|p x|p pk|p|p oc|oc]; try done; cbn [rank waiter] in *;
    rewrite (ok_closing _ _ _ Ho); [done| |done|]; intros Hp; by eapply Hw.
Qed.

Lemma step_rank max (y y' : requests (P := P)) i a a' :
  calls_inv max (disp (rs_client y)) (rs_calls y) -> requests_step y y' ->
  rs_calls y !! i = Some a -> rs_calls y' !! i = Some a' ->
  (rank (disp (rs_client y')) (rq_state a') <= rank (disp (rs_client y)) (rq_state a))%nat.
Proof.
  intros Hinv Hs Ha. pose proof (di_ok _ _ (ci_dispatcher _ _ _ Hinv)) as Hok.
  destruct Hs as [j topic payload qos timeout props r1 r2 c calls b c' Hj Hrun|j outcome b s c calls c' Hj Hrun
    |c c' calls Hc]; cbn [rs_client rs_calls] in *; rewrite ?lookup_insert.
  - case_decide as Hij; [congruence|]. rewrite Ha. intros [= <-].
    apply (begin_advances max) in Hrun as (o & Hm & Hnew); [|done].
    rewrite (rank_others _ _ _ o (ac_others _ _ _ (mv_acts _ _ _ _ Hm))); [done|]. intros p Hw ->.
    destruct (waiter_known a p _ (ci_ok _ _ _ Hinv i a Ha) Hw) as [r Hr].
    by rewrite (Hnew p eq_refl) in Hr.
  - case_decide as Hij; [subst j|].
    + assert (b = a) as -> by congruence. intros [= <-]. cbn [set_state rq_state].
      destruct (wake_rank a outcome c s c' Hrun) as [Hlt|[-> [Hle _]]]; [lia|exact Hle].
    + rewrite Ha. intros [= <-].
      apply (wake_advances max calls j) in Hrun as (o & Hm & Hmine & Hnew); [|done..].
      rewrite (rank_others _ _ _ o (ac_others _ _ _ (mv_acts _ _ _ _ Hm))); [done|]. intros p Hw ->.
      destruct (Hnew p eq_refl) as [Hwb|Hn].
      * apply Hij. symmetry. by eapply (ci_owner _ _ _ Hinv).
      * destruct (waiter_known a p _ (ci_ok _ _ _ Hinv i a Ha) Hw) as [r Hr]. by rewrite Hn in Hr.
  - rewrite Ha. intros [= <-]. destruct Hc as [Hc| ->]; [|done]. apply connection_acts in Hc.
    by rewrite (rank_others _ _ _ None (ac_others _ _ _ Hc)).
Qed.

(** *** The states of a call *)

(** The [finally] of [request]: the waiter is closed, at once or after a removal. *)
Definition ends (p : nat) (o : result nat) (s : call_state) : Prop :=
  s = RqClosing p o \/ s = RqDone o.

(** What may become of a call whose wait ended, read off [client.request] *)
Inductive call_goes d : call_state -> result unit -> call_state -> Prop :=
| cg_no_permit : _capacity d <= 0 -> call_goes d RqAcquiring (Ok tt) RqAcquiring
| cg_registered p task : d_requests d !! p = None ->
    call_goes d RqAcquiring (Ok tt) (RqSubscribing p task)
| cg_not_registered x : call_goes d RqAcquiring (Ok tt) (RqDone (Err x))
| cg_acquire_fails x : call_goes d RqAcquiring (Err x) (RqDone (Err x))
| cg_subscribed p task packet : call_goes d (RqSubscribing p task) (Ok tt) (RqPublishing p packet)
| cg_not_publishable p task x s : ends p (Err x) s -> call_goes d (RqSubscribing p task) (Ok tt) s
| cg_subscribe_fails p task x s : s = RqWithdrawing p x \/ s = RqDone (Err x) ->
    call_goes d (RqSubscribing p task) (Err x) s
| cg_withdraws p x : call_goes d (RqWithdrawing p x) (Ok tt) (RqWithdrawing p x)
| cg_withdrawn p x outcome y : y = x \/ outcome = Err y ->
    call_goes d (RqWithdrawing p x) outcome (RqDone (Err y))
| cg_published p packet : call_goes d (RqPublishing p packet) (Ok tt) (RqWaiting p)
| cg_publish_fails p packet x s : ends p (Err x) s -> call_goes d (RqPublishing p packet) (Err x) s
| cg_no_response p : (forall r, d_requests d !! p = Some r -> pr_future r = Waiting) ->
    call_goes d (RqWaiting p) (Ok tt) (RqWaiting p)
| cg_response p r o s : d_requests d !! p = Some r -> future_outcome (pr_future r) = Some o ->
    ends p o s -> call_goes d (RqWaiting p) (Ok tt) s
| cg_wait_fails p x s : ends p (Err x) s -> call_goes d (RqWaiting p) (Err x) s
| cg_closes p o : call_goes d (RqClosing p o) (Ok tt) (RqClosing p o)
| cg_closed p o outcome o' : o' = o \/ (exists x, outcome = Err x /\ o' = Err x) ->
    call_goes d (RqClosing p o) outcome (RqDone o')
| cg_done o outcome : call_goes d (RqDone o) outcome (RqDone o).

Lemma close_ends max key p o c s c' :
  dispatcher_ok max (disp c) -> holds key p false (disp c) -> d_closing (disp c) !! p = None ->
  caught (request_close p o) c = (s, c') -> ends p o s.
Proof.
  intros Hok (r0 & Hr0 & Hk & Hcl) Hnc. unfold caught, request_close.
  rewrite run_bind, on_dispatcher_eq. destruct (close p (disp c)) as [r1 d1] eqn:Hrun. cbn [fst snd].
  destruct (close_removes max key p r0 (disp c) r1 d1) as (b & -> & _ & _);
    [done|done|by apply Hcl|split; [by rewrite Hr0, <- Hk|done]|done|].
  destruct b; intros [= <- <-]; [by right|by left].
Qed.

Lemma publish_goes max key a p c s c' :
  dispatcher_ok max (disp c) -> holds key p false (disp c) -> d_closing (disp c) !! p = None ->
  caught (request_publish a p) c = (s, c') ->
  (exists packet, s = RqPublishing p packet) \/ exists x, ends p (Err x) s.
Proof.
  intros Hok Hh Hnc. unfold caught, request_publish.
  assert (Hc : forall x c1, client_publish (rq_topic a) (rq_payload a) (rq_qos a) false
    (Some (rq_properties a)) c = (Err x, c1) -> c1 = c).
  { intros x c1. unfold client_publish, require_protocol, lift. run.
    destruct (validate_publish _); [|by intros [= _ <-]]. run.
    destruct (k_protocol c); [|by intros [= _ <-]]. run. destruct (_ && _); [by intros [= _ <-]|]. run.
    by destruct (match rq_payload a with inl b => Ok b | inr s0 => encode_utf8 s0 end); intros [= _ <-]. }
  destruct (client_publish _ _ _ _ _ c) as [[pk|x] c1].
  - intros [= <- <-]. left. by exists pk.
  - rewrite (Hc x c1 eq_refl). intros Hrun. right. exists x. by eapply close_ends.
Qed.

Lemma wake_outcome p outcome d r d' :
  unregister_wake p outcome d = (r, d') ->
  match r with
  | Ok true => True
  | Ok false => outcome = Ok tt
  | Err x => outcome = Err x
  end.
Proof.
  destruct (d_closing d !! p) as [cg|] eqn:Hc; intros Hrun.
  - destruct (wake_permit p cg outcome d r d' Hc Hrun) as (_ & Hr & _).
    destruct r as [[]|x]; [done|apply Hr|exact Hr].
  - revert Hrun. unfold unregister_wake. run. rewrite Hc. unfold unregister_resume. run. rewrite Hc.
    by intros [= <- <-].
Qed.

Lemma acquire_goes key c s c' :
  caught (request_acquire key) c = (s, c') -> call_goes (disp c) RqAcquiring (Ok tt) s.
Proof.
  unfold caught, request_acquire, request_register. rewrite run_bind.
  change (zoom k_dispatcher set_dispatcher) with (@on_dispatcher P (option (nat * nat))).
  rewrite on_dispatcher_eq, register_eq. destruct (Z.leb_spec (_capacity (disp c)) 0).
  { intros [= <- <-]. by apply cg_no_permit. }
  cbv zeta. destruct (bool_decide _); [intros [= <- <-]; apply cg_not_registered|].
  destruct (_protocol (disp c)); [|intros [= <- <-]; apply cg_not_registered].
  destruct (with_fresh_waiter _ _) as [[i p] d1] eqn:Hw.
  assert (Hp : d_requests (disp c) !! p = None).
  { revert Hw. unfold with_fresh_waiter, topic_interest. simpl.
    destruct (_topics (disp c) !! _); intros [= _ <- _]; simpl; apply not_elem_of_dom, is_fresh. }
  destruct (_ensure_topic_ready _ _ _) as [[task|x] d2]; intros [= <- <-];
    [by apply cg_registered|apply cg_not_registered].
Qed.

Lemma wake_goes max calls i a outcome c s c' :
  calls_inv max (disp c) calls -> calls !! i = Some a ->
  caught (request_wake outcome a) c = (s, c') -> call_goes (disp c) (rq_state a) outcome s.
Proof.
  intros Hinv Hi. pose proof (ci_ok _ _ _ Hinv i a Hi) as (_ & _ & Ha).
  pose proof (di_ok _ _ (ci_dispatcher _ _ _ Hinv)) as Hok. unfold request_wake.
  destruct (rq_state a) as [|p task|p x|p pk|p|p o|o] eqn:Hst.
  - unfold lift. destruct outcome as [[]|x]; unfold caught; run; [apply acquire_goes|].
    intros [= <- <-]. apply cg_acquire_fails.
  - destruct Ha as [Hh Hnc]. unfold caught. rewrite run_bind, on_dispatcher_eq. destruct outcome as [[]|x].
    + cbn [register_end fst snd]. rewrite run_ret. cbn [fst snd]. rewrite set_dispatcher_same.
      intros Hrun. destruct (publish_goes max (rq_key a) a p c s c') as [[packet ->]|[x Hx]];
        [done..|apply cg_subscribed|by eapply cg_not_publishable].
    + destruct (register_end (rq_key a) p (Err x) (disp c)) as [r d1] eqn:Hrun. cbn [fst snd].
      destruct (register_end_removes max (rq_key a) p x (disp c) r d1) as (b & _ & _ & ->); [done| |done|].
      { destruct Hh as (r0 & Hr0 & Hk & _). unfold removable. by rewrite Hr0, <- Hk. }
      destruct b; intros [= <- <-]; apply cg_subscribe_fails; [by right|by left].
  - unfold caught. rewrite run_bind, on_dispatcher_eq.
    destruct (unregister_wake p outcome (disp c)) as [r d1] eqn:Hrun. apply wake_outcome in Hrun.
    destruct r as [[]|y]; cbn [fst snd]; intros [= <- <-].
    + apply cg_withdrawn. by left.
    + subst outcome. apply cg_withdraws.
    + apply cg_withdrawn. by right.
  - destruct Ha as (Hh & Hnc & _). destruct outcome as [[]|x].
    + unfold caught. run. intros [= <- <-]. apply cg_published.
    + intros Hrun. apply cg_publish_fails. by eapply close_ends.
  - destruct Ha as [Hh Hnc]. destruct outcome as [[]|x].
    + unfold caught at 1. run. destruct (d_requests (disp c) !! p) as [r|] eqn:Hr; cbn [mbind option_bind].
      * destruct (future_outcome (pr_future r)) as [o|] eqn:Hf.
        -- intros Hrun. eapply cg_response; [done|done|]. by eapply close_ends.
        -- intros [= <- <-]. apply cg_no_response. intros r'. rewrite Hr. intros [= <-].
           by destruct (pr_future r).
      * intros [= <- <-]. apply cg_no_response. congruence.
    + unfold caught at 1. rewrite run_bind, on_dispatcher_eq. cbn [fst snd modify].
      intros Hrun. apply cg_wait_fails. eapply close_ends; [| | |exact Hrun].
      * by apply cancel_future_ok.
      * by apply (cancel_future_holds (rq_key a)).
      * done.
  - unfold caught. rewrite run_bind, on_dispatcher_eq.
    destruct (unregister_wake p outcome (disp c)) as [r d1] eqn:Hrun. apply wake_outcome in Hrun.
    destruct r as [[]|y]; cbn [fst snd]; intros [= <- <-].
    + apply cg_closed. by left.
    + subst outcome. apply cg_closes.
    + apply cg_closed. right. by exists y.
  - unfold caught. run. intros [= <- <-]. apply cg_done.
Qed.

(** *** The timer of the response *)

Notation calls_of y := (rs_calls (tm_requests y)).
Notation disp_of y := (disp (rs_client (tm_requests y))).

Section timed.
Context (latency : Z) (Hlat : 0 <= latency).
Implicit Types (y : timed_requests (P := P)).

(** A timer is armed exactly for the calls that wait for their response. *)
Record timers_ok y : Prop := {
  ti_waits i a p : calls_of y !! i = Some a -> rq_state a = RqWaiting p ->
    exists u, tm_timers y !! i = Some u /\ u <= tm_now y + Z.max 0 (rq_timeout a);
  ti_timer i u : tm_timers y !! i = Some u -> tm_now y <= u + latency /\
    exists a p, calls_of y !! i = Some a /\ rq_state a = RqWaiting p;
}.

Lemma waits_for_response_spec s : waits_for_response s = true <-> exists p, s = RqWaiting p.
Proof. split; [destruct s; try done; by eexists|by intros [p ->]]. Qed.

Lemma rearm_ok c c' calls now timers i a s :
  timers_ok (mkTimed (mkRequests c calls) now timers) -> calls !! i = Some a ->
  timers_ok (mkTimed (mkRequests c' (<[i := set_state s a]> calls)) now (rearm i a s now timers)).
Proof.
  intros [T1 T2] Hi. unfold rearm. split; cbn [tm_requests tm_now tm_timers rs_calls] in *.
  - intros j b p. rewrite lookup_insert. case_decide as Hij; [subst j|].
    + intros [= <-]. cbn [set_state rq_state rq_timeout]. intros ->. cbn [waits_for_response].
      destruct (waits_for_response (rq_state a)) eqn:Hw.
      * apply waits_for_response_spec in Hw as [q Hq]. by eapply T1.
      * eexists. split; [by rewrite lookup_insert_eq|lia].
    + intros Hb Hp. destruct (T1 j b p Hb Hp) as (u & Hu & Hle). exists u. split; [|done].
      destruct (waits_for_response s); [destruct (waits_for_response (rq_state a)); [done|]|];
        [by rewrite lookup_insert_ne|by rewrite lookup_delete_ne].
  - intros j u. destruct (decide (j = i)) as [->|Hij].
    + destruct (waits_for_response s) eqn:Hw; [|by rewrite lookup_delete_eq].
      apply waits_for_response_spec in Hw as [p ->].
      intros Hu. split; [|by exists (set_state (RqWaiting p) a), p; rewrite lookup_insert_eq].
      destruct (waits_for_response (rq_state a)); [by destruct (T2 i u Hu)|].
      rewrite lookup_insert_eq in Hu. injection Hu as <-. lia.
    + intros Hu. assert (Hu' : timers !! j = Some u).
      { destruct (waits_for_response s); [destruct (waits_for_response (rq_state a)); [done|]|];
          [by rewrite lookup_insert_ne in Hu|by rewrite lookup_delete_ne in Hu]. }
      destruct (T2 j u Hu') as (Hle & b & p & Hb & Hp). split; [done|]. exists b, p.
      by rewrite lookup_insert_ne.
Qed.

Lemma begin_not_waiting topic payload qos timeout props r1 r2 c a c' :
  request topic payload qos timeout props r1 r2 c = (Ok a, c') -> waits_for_response (rq_state a) = false.
Proof.
  unfold request. rewrite run_bind.
  destruct (request_properties props r1 r2 c) as [[[key props']|x] c0]; [|done].
  run. unfold settled, caught. run. destruct (request_acquire key c0) as [r c1] eqn:Hrun.
  revert Hrun. unfold request_acquire. rewrite run_bind.
  destruct (request_register key.1 key.2 c0) as [[[[p task]|]|x] c2]; run;
    intros [= <- <-] [= <- <-]; done.
Qed.

(** The call whose timer fires waits no longer. *)
Lemma expired_not_waiting max c calls i a s c' :
  calls_inv max (disp c) calls -> calls !! i = Some a -> waits_for_response (rq_state a) = true ->
  caught (request_wake (Err TimeoutError) a) c = (s, c') -> waits_for_response s = false.
Proof.
  intros Hinv Hi [p Hp]%waits_for_response_spec Hrun.
  pose proof (wake_goes max calls i a _ c s c' Hinv Hi Hrun) as Hg. rewrite Hp in Hg.
  inversion Hg as [| | | | | | | | | | | | |? ? ? He| | |]; subst. by destruct He as [-> | ->].
Qed.

Lemma timed_step_ok max y y' :
  timed_step latency y y' -> calls_inv max (disp_of y) (calls_of y) -> timers_ok y -> timers_ok y'.
Proof.
  intros Hs Hinv Hok. destruct Hs as [d y now timers Hd Hdue|i topic payload qos timeout props r1 r2 c calls a c' now timers Hi Hrun
    |i outcome a s c calls c' now timers Hi Hrun|i u a s c calls c' now timers Hu Hdue Hi Hrun|c c' calls now timers Hc].
  - destruct Hok as [T1 T2]. split; cbn in *.
    + intros i a p Ha Hp. destruct (T1 i a p Ha Hp) as (u & Hu & Hle). exists u. split; [done|lia].
    + intros i u Hu. split; [by apply Hdue in Hu|]. apply (T2 i u Hu).
  - destruct Hok as [T1 T2]. apply begin_not_waiting in Hrun. split; cbn in *.
    + intros j b p. rewrite lookup_insert. case_decide; [intros [= <-] Hp; by rewrite Hp in Hrun|apply T1].
    + intros j u Hu. destruct (T2 j u Hu) as (Hle & b & p & Hb & Hp). split; [done|]. exists b, p.
      rewrite lookup_insert_ne; [done|]. congruence.
  - by eapply rearm_ok.
  - destruct (ti_timer _ Hok i u Hu) as (_ & b & p & Hb & Hp). cbn in Hb.
    assert (b = a) as -> by congruence.
    assert (Hns : waits_for_response s = false).
    { eapply expired_not_waiting; [exact Hinv|exact Hi| |exact Hrun]. by rewrite Hp. }
    pose proof (rearm_ok c c' calls now timers i a s Hok Hi) as H1. unfold rearm in *.
    rewrite Hns in *. by rewrite delete_delete_eq.
  - destruct Hok as [T1 T2]. by split.
Qed.

Lemma timed_projects y y' : timed_step latency y y' -> rtc requests_step (tm_requests y) (tm_requests y').
Proof.
  intros []; cbn [tm_requests]; [done|apply rtc_once..]; [by eapply rs_begin|by eapply rs_wake..|by apply rs_other].
Qed.

Lemma timed_step_calls max y y' :
  timed_step latency y y' -> calls_inv max (disp_of y) (calls_of y) ->
  calls_inv max (disp_of y') (calls_of y').
Proof.
  intros Hs%timed_projects Hinv.
  induction Hs as [|z1 z2 z3 Hz _ IH]; [done|]. by eapply IH, step_keeps_calls.
Qed.

Lemma timed_reachable_inv cfg y :
  timed_reachable cfg latency y ->
  calls_inv (k_max_pending_requests cfg) (disp_of y) (calls_of y) /\ timers_ok y.
Proof.
  intros (c & start & Hnew & Hsteps).
  assert (H0 : requests_reachable cfg (mkRequests c (∅ : gmap nat request_call))) by (by exists c).
  apply requests_reachable_inv in H0.
  revert y Hsteps. apply (rtc_ind_r (fun y => calls_inv (k_max_pending_requests cfg) (disp_of y) (calls_of y) /\
    timers_ok y)).
  - split; [exact H0|]. by split; cbn.
  - intros y1 y2 _ Hs [I1 I2]. split; [by eapply timed_step_calls|by eapply timed_step_ok].
Qed.

(** A call that waits before and after a step has the same timer. *)
Lemma timer_stays max y y' i a a' :
  timed_step latency y y' -> calls_inv max (disp_of y) (calls_of y) ->
  calls_of y !! i = Some a -> waits_for_response (rq_state a) = true ->
  calls_of y' !! i = Some a' -> waits_for_response (rq_state a') = true ->
  tm_timers y' !! i = tm_timers y !! i /\ rq_timeout a' = rq_timeout a.
Proof.
  intros Hs Hinv Ha Hw Ha' Hw'.
  destruct Hs as [d y now timers Hd Hdue|j topic payload qos timeout props r1 r2 c calls b c' now timers Hj Hrun
    |j outcome b s c calls c' now timers Hj Hrun|j u b s c calls c' now timers Hu Hdue Hj Hrun|c c' calls now timers Hc];
    cbn [tm_requests tm_timers rs_calls] in *; try (split; congruence).
  - rewrite lookup_insert in Ha'. case_decide as Hij; [congruence|]. split; congruence.
  - rewrite lookup_insert in Ha'. unfold rearm. case_decide as Hij; [subst j|].
    + injection Ha' as <-. assert (b = a) as -> by congruence. cbn [set_state rq_state] in Hw'.
      by rewrite Hw, Hw'.
    + split; [|congruence]. destruct (waits_for_response s); [destruct (waits_for_response (rq_state b)); [done|]|];
        [by rewrite lookup_insert_ne|by rewrite lookup_delete_ne].
  - rewrite lookup_insert in Ha'. unfold rearm. case_decide as Hij; [subst j|].
    + injection Ha' as <-. assert (b = a) as -> by congruence. cbn [set_state rq_state] in Hw'.
      rewrite (expired_not_waiting max c calls i a s c') in Hw'; done.
    + split; [|congruence]. destruct (waits_for_response s);
        [destruct (waits_for_response (rq_state b)); [by rewrite lookup_delete_ne|]|];
        rewrite ?lookup_insert_ne, ?lookup_delete_ne by done; done.
Qed.

Lemma timed_step_rank max y y' i a :
  timed_step latency y y' -> calls_inv max (disp_of y) (calls_of y) -> calls_of y !! i = Some a ->
  exists a', calls_of y' !! i = Some a' /\
    (rank (disp_of y') (rq_state a') <= rank (disp_of y) (rq_state a))%nat.
Proof.
  intros Hs%timed_projects Hinv Ha. remember (tm_requests y) as z1 eqn:H1. remember (tm_requests y') as z2 eqn:H2.
  clear H1 H2. revert a Ha. induction Hs as [z|z1 z2 z3 Hz _ IH]; intros a Ha; [by exists a|].
  assert (Hex : exists a2, rs_calls z2 !! i = Some a2).
  { destruct Hz; cbn [rs_calls] in *; try (by exists a); rewrite lookup_insert; case_decide; by eexists. }
  destruct Hex as [a2 Ha2]. pose proof (step_rank max z1 z2 i a a2 Hinv Hz Ha Ha2) as Hle.
  destruct (IH (step_keeps_calls _ _ _ Hz Hinv) a2 Ha2) as (a3 & Ha3 & Hle3). exists a3. split; [done|lia].
Qed.

(** A step moves a call as its code says, or not at all. *)
Lemma timed_step_goes max y y' i a a' :
  timed_step latency y y' -> calls_inv max (disp_of y) (calls_of y) ->
  calls_of y !! i = Some a -> calls_of y' !! i = Some a' ->
  rq_state a' = rq_state a \/
  exists outcome, call_goes (disp_of y) (rq_state a) outcome (rq_state a').
Proof.
  intros Hs Hinv Ha Ha'.
  destruct Hs as [d y now timers Hd Hdue|j topic payload qos timeout props r1 r2 c calls b c' now timers Hj Hrun
    |j outcome b s c calls c' now timers Hj Hrun|j u b s c calls c' now timers Hu Hdue Hj Hrun|c c' calls now timers Hc];
    cbn [tm_requests rs_calls rs_client] in *; try (left; congruence).
  - rewrite lookup_insert in Ha'. case_decide; [congruence|]. left. congruence.
  - rewrite lookup_insert in Ha'. case_decide; [subst j|left; congruence]. right. exists outcome.
    injection Ha' as <-. assert (b = a) as -> by congruence. by eapply wake_goes.
  - rewrite lookup_insert in Ha'. case_decide; [subst j|left; congruence]. right. exists (Err TimeoutError).
    injection Ha' as <-. assert (b = a) as -> by congruence. by eapply wake_goes.
Qed.

Lemma rank_waiting d s : rank d s = 3%nat <-> waits_for_response s = true.
Proof. destruct s; simpl; try (split; done); destruct (d_closing d !! p) as [[? ? []]|]; split; done. Qed.

Lemma timed_rank max y y' :
  rtc (timed_step latency) y y' -> calls_inv max (disp_of y) (calls_of y) ->
  forall i a a', calls_of y !! i = Some a -> calls_of y' !! i = Some a' ->
    (rank (disp_of y') (rq_state a') <= rank (disp_of y) (rq_state a))%nat.
Proof.
  induction 1 as [z|z1 z2 z3 Hs _ IH]; intros Hinv i a a' Ha Ha'; [by assert (a' = a) as -> by congruence|].
  destruct (timed_step_rank max z1 z2 i a Hs Hinv Ha) as (a2 & Ha2 & Hle).
  specialize (IH (timed_step_calls _ _ _ Hs Hinv) i a2 a' Ha2 Ha'). lia.
Qed.

(** The timer of a wait stays armed until the wait is over. *)
Lemma timer_kept max y y' :
  rtc (timed_step latency) y y' -> calls_inv max (disp_of y) (calls_of y) ->
  forall i a a', calls_of y !! i = Some a -> waits_for_response (rq_state a) = true ->
    calls_of y' !! i = Some a' -> waits_for_response (rq_state a') = true ->
    tm_timers y' !! i = tm_timers y !! i.
Proof.
  induction 1 as [y|y1 y2 y3 Hs Hrest IH]; intros Hinv i a a' Ha Hw Ha' Hw'; [done|].
  destruct (timed_step_rank max y1 y2 i a Hs Hinv Ha) as (a2 & Ha2 & Hle).
  pose proof (timed_step_calls _ _ _ Hs Hinv) as Hinv2.
  pose proof (timed_rank max y2 y3 Hrest Hinv2 i a2 a' Ha2 Ha') as Hle2.
  apply (rank_waiting (disp_of y1)) in Hw as Hr1. apply (rank_waiting (disp_of y3)) in Hw' as Hr3.
  assert (Hw2 : waits_for_response (rq_state a2) = true) by (apply (rank_waiting (disp_of y2)); lia).
  rewrite (IH Hinv2 i a2 a') by done. by eapply timer_stays.
Qed.

End timed.

(** ** Properties *)

(** C24: a call of [request] gives back what it took.  Whatever calls run beside each
    other and beside the connection, and however each of their waits ends: two calls
    never share a waiter; the packet a call publishes carries the response topic and
    the correlation data under which its waiter is registered; a call that returns a
    message returns one that was claimed for exactly that key; and once no call is under
    way, every permit is back, and no waiter, no suspended removal and no interest in a
    topic is left. *)
Theorem request_calls_settle cfg (y : requests (P := P)) :
  requests_reachable cfg y ->
  let d := disp (rs_client y) in
  (forall i j a b p, rs_calls y !! i = Some a -> rs_calls y !! j = Some b ->
     waiter (rq_state a) = Some p -> waiter (rq_state b) = Some p -> i = j) /\
  (forall i a p packet, rs_calls y !! i = Some a -> rq_state a = RqPublishing p packet ->
     exists props topic data, pb_properties packet = Some props /\
       pbp_response_topic props = Some topic /\ pbp_correlation_data props = Some data /\
       pr_key <$> d_requests d !! p = Some (topic, data)) /\
  (forall i a m, rs_calls y !! i = Some a -> rq_state a = RqDone (Ok m) -> responds (rq_key a) m d) /\
  ((forall i a, rs_calls y !! i = Some a -> waiter (rq_state a) = None) ->
     _capacity d = k_max_pending_requests cfg /\ _pending d = ∅ /\ d_closing d = ∅ /\ _topics d = ∅).
Proof.
  intros Hinv%requests_reachable_inv d. split_and!.
  - apply Hinv.
  - intros i a p packet Ha Hst. destruct (ci_ok _ _ _ Hinv i a Ha) as (H1 & H2 & H3).
    rewrite Hst in H3. destruct H3 as ((r & Hr & Hk & _) & _ & _ & Hp).
    exists (rq_properties a), (rq_key a).1, (rq_key a).2. split_and!; [done..|]. unfold d. rewrite Hr.
    simpl. by rewrite Hk, <- surjective_pairing.
  - intros i a m Ha Hst. destruct (ci_ok _ _ _ Hinv i a Ha) as (_ & _ & H3). by rewrite Hst in H3.
  - intros Hidle. assert (Hp : _pending d = ∅).
    { apply map_empty. intros key. destruct (_pending d !! key) as [p|] eqn:Hp; [|done].
      destruct (ci_pending _ _ _ Hinv key p Hp) as (i & a & Ha & Hw & _). by rewrite (Hidle i a Ha) in Hw. }
    assert (Hc : d_closing d = ∅).
    { apply map_empty. intros p. destruct (d_closing d !! p) as [cg|] eqn:Hp'; [|done].
      destruct (ci_closing _ _ _ Hinv p cg Hp') as (i & a & Ha & Hw & _). by rewrite (Hidle i a Ha) in Hw. }
    destruct (idle_dispatcher _ _ (ci_dispatcher _ _ _ Hinv) Hp Hc) as [H1 H2]. by split_and!.
Qed.

(** C25: a call of [request] ends.  When what it waits for ends, with a result or with
    an exception, the call goes on exactly as its code says: an exception while it
    waits for its permit, for the subscription, for the publication or for the response
    never leads back into a wait but the removal of its waiter, with that exception as
    its outcome; a call that published waits for its response, and one whose response is
    there closes with it.  No step of anything else moves the call; each wait that ends
    brings it nearer to its end, except that it may go on waiting for a permit or for
    its response; there are six waits at most.  A call that waits for its response has
    an armed timer; however the steps interleave, it waits no longer than its timeout
    and the lateness of the timer, and when the timer fires the call ends, at once or
    after the removal of its waiter, with [TimeoutError]. *)
Theorem request_call_ends cfg latency (y : timed_requests (P := P)) i a :
  0 <= latency -> timed_reachable cfg latency y -> calls_of y !! i = Some a ->
  let c := rs_client (tm_requests y) in
  (rank (disp c) (rq_state a) <= 6)%nat /\
  (rank (disp c) (rq_state a) = 0%nat <-> exists o, rq_state a = RqDone o) /\
  (forall outcome s c', caught (request_wake outcome a) c = (s, c') ->
     call_goes (disp c) (rq_state a) outcome s /\
     ((exists o, rq_state a = RqDone o) \/ (rank (disp c') s < rank (disp c) (rq_state a))%nat \/
      s = rq_state a /\ outcome = Ok tt /\ goes_on_waiting (disp c) s)) /\
  (forall y' a', timed_step latency y y' -> calls_of y' !! i = Some a' ->
     (rq_state a' = rq_state a \/
      exists outcome, call_goes (disp c) (rq_state a) outcome (rq_state a')) /\
     (rank (disp_of y') (rq_state a') <= rank (disp c) (rq_state a))%nat) /\
  (forall p, rq_state a = RqWaiting p ->
     (exists u, tm_timers y !! i = Some u /\ tm_now y <= u + latency) /\
     (forall s c', caught (request_wake (Err TimeoutError) a) c = (s, c') ->
        s = RqClosing p (Err TimeoutError) \/ s = RqDone (Err TimeoutError)) /\
     (forall y' a' p', rtc (timed_step latency) y y' -> calls_of y' !! i = Some a' ->
        rq_state a' = RqWaiting p' -> tm_now y' <= tm_now y + Z.max 0 (rq_timeout a) + latency)).
Proof.
  intros Hlat Hy Ha c. pose proof (timed_reachable_inv latency Hlat cfg y Hy) as [Hinv Hti].
  split_and!.
  - destruct (rq_state a) as [|p t|p x|p pk|p|p o|o]; cbn [rank]; try lia;
      destruct (d_closing _ !! p) as [[? ? []]|]; lia.
  - split; [|by intros [o ->]]. destruct (rq_state a) as [|p t|p x|p pk|p|p o|o]; cbn [rank]; try done;
      [destruct (d_closing _ !! p) as [[? ? []]|]; lia..|by eexists].
  - intros outcome s c' Hrun. split; [by eapply wake_goes|].
    destruct (wake_rank a outcome c s c' Hrun) as [Hlt|(-> & _ & [Ho|[-> Hw]])]; auto.
  - intros y' a' Hs Ha'. split; [by eapply timed_step_goes|].
    destruct (timed_step_rank latency _ y y' i a Hs Hinv Ha) as (a2 & Ha2 & Hle).
    by assert (a' = a2) as -> by congruence.
  - intros p Hp. destruct (ti_waits _ _ Hti i a p Ha Hp) as (u & Hu & Hle). split_and!.
    + exists u. split; [done|]. by apply (ti_timer _ _ Hti i u).
    + intros s c' Hrun. pose proof (wake_goes _ _ i a _ c s c' Hinv Ha Hrun) as Hg. rewrite Hp in Hg.
      by inversion Hg.
    + intros y' a' p' Hr Ha' Hp'.
      assert (Hy' : timed_reachable cfg latency y').
      { destruct Hy as (c0 & start & Hnew & Hsteps). exists c0, start. split; [done|by etrans]. }
      pose proof (timed_reachable_inv latency Hlat cfg y' Hy') as [_ Hti'].
      assert (Hk : tm_timers y' !! i = Some u).
      { rewrite <- Hu. eapply timer_kept; [exact Hr|exact Hinv|exact Ha| |exact Ha'|]; by rewrite ?Hp, ?Hp'. }
      destruct (ti_timer _ _ Hti' i u Hk) as [Hnow _]. lia.
Qed.
(** The removal of the response topic has the last word.  A call that has its
    outcome and was the last one on its topic waits for the UNSUBSCRIBE, for as long as
    that takes; if the removal raises, the call raises that exception, even when the
    response had arrived.  The waiter is gone and the permit is back in any case. *)
Theorem release_failure_outcome a (c : Client P) p o t i :
  rq_state a = RqClosing p o -> d_closing (disp c) !! p = Some (mkClosing t i WaitsRemoval) ->
  forall outcome,
    (caught (request_wake outcome a) c).1 = RqDone (match outcome with Ok _ => o | Err x => Err x end) /\
    let d := disp (caught (request_wake outcome a) c).2 in
    d_closing d !! p = None /\ _capacity d = _capacity (disp c) + 1.
Proof.
  intros Hst Hc outcome. unfold request_wake, caught. rewrite Hst, run_bind, on_dispatcher_eq.
  unfold unregister_wake. run. rewrite Hc. run. rewrite unregister_finish_eq, Hc.
  destruct outcome; simpl; (split; [done|]); (split; [apply lookup_delete_eq|done]).
Qed.

End calls.

(** ** A concrete call *)

Section runs.
Context {P : Type}.
Implicit Types (y : requests (P := P)).

(** The steps as functions *)
Definition begin_call (i : nat) topic payload qos timeout props r1 r2 y : requests :=
  match rs_calls y !! i, request topic payload qos timeout props r1 r2 (rs_client y) with
  | None, (Ok a, c') => mkRequests c' (<[i := a]> (rs_calls y))
  | _, _ => y
  end.

Definition wake_call (outcome : result unit) (i : nat) y : requests :=
  match rs_calls y !! i with
  | Some a =>
      let (s, c') := caught (request_wake outcome a) (rs_client y) in
      mkRequests c' (<[i := set_state s a]> (rs_calls y))
  | None => y
  end.

Definition on_connection (f : _RequestDispatcher -> _RequestDispatcher) y : requests :=
  mkRequests (set_dispatcher (f (k_dispatcher (rs_client y))) (rs_client y)) (rs_calls y).

Lemma begin_call_step i topic payload qos timeout props r1 r2 y :
  rtc requests_step y (begin_call i topic payload qos timeout props r1 r2 y).
Proof.
  unfold begin_call. destruct y as [c calls]. cbn [rs_client rs_calls].
  destruct (calls !! i) eqn:Hi; [done|].
  destruct (request _ _ _ _ _ _ _ _) as [[a|x] c'] eqn:Hr; [|done]. apply rtc_once. by eapply rs_begin.
Qed.

Lemma wake_call_step outcome i y : rtc requests_step y (wake_call outcome i y).
Proof.
  unfold wake_call. destruct y as [c calls]. cbn [rs_client rs_calls].
  destruct (calls !! i) eqn:Hi; [|done]. destruct (caught _ _) as [s c'] eqn:Hr.
  apply rtc_once. by eapply rs_wake.
Qed.

Lemma on_connection_step f y :
  (forall d, connection_step d (f d)) -> requests_step y (on_connection f y).
Proof. intros Hf. destruct y as [c calls]. apply rs_other. left. apply Hf. Qed.

End runs.

(** A request is made, published and answered. *)
Definition calls1 : requests := mkRequests client2 ∅.

Definition calls2 : requests :=
  begin_call 0 (lit "ask") (inl [x01]) AT_MOST_ONCE 30 None [x00; xff] [x01] calls1.

Definition calls3 : requests := wake_call (Ok tt) 0 calls2.

Definition reply : Message :=
  mkMessage (lit "_zmqtt/reply/00ff") [x02] AT_MOST_ONCE false
    (Some (mkPublishProperties None None None None (Some [x01]) None None [])).

Definition calls4 : requests :=
  on_connection (complete 0) (on_connection (fun d => (claim_response 7 reply d).2) (wake_call (Ok tt) 0 calls3)).

(** The call has its response and gives up its interest in the topic. *)
Definition calls5 : requests := wake_call (Ok tt) 0 (wake_call (Ok tt) 0 calls4).
Definition calls6 : requests := wake_call (Ok tt) 0 calls5.

Lemma calls1_reachable : requests_reachable sample_config calls1.
Proof.
  exists client0. split; [vm_compute; reflexivity|]. apply rtc_once, (rs_other client0 client2).
  left. replace (k_dispatcher client2) with (bind 1 (k_dispatcher client0)); [constructor|vm_compute; reflexivity].
Qed.

Lemma reachable_after cfg (y y' : requests (P := Connection _RequestDispatcher)) :
  requests_reachable cfg y -> rtc requests_step y y' -> requests_reachable cfg y'.
Proof. intros (c & Hc & Hs) Hs'. exists c. split; [done|by etrans]. Qed.

Lemma calls3_reachable : requests_reachable sample_config calls3.
Proof.
  eapply reachable_after; [|apply wake_call_step]. eapply reachable_after; [|apply begin_call_step].
  exact calls1_reachable.
Qed.

Lemma calls5_reachable : requests_reachable sample_config calls5.
Proof.
  do 2 (eapply reachable_after; [|apply wake_call_step]).
  eapply reachable_after; [|apply rtc_once, on_connection_step; intros d; apply cs_complete].
  eapply reachable_after; [|apply rtc_once, on_connection_step; intros d; eapply cs_claim; apply surjective_pairing].
  eapply reachable_after; [|apply wake_call_step]. exact calls3_reachable.
Qed.

Lemma calls6_reachable : requests_reachable sample_config calls6.
Proof. eapply reachable_after; [exact calls5_reachable|apply wake_call_step]. Qed.

Lemma request_calls_settle_witness :
  (exists a, rs_calls calls6 !! 0%nat = Some a /\ rq_state a = RqDone (Ok 7%nat) /\
     responds (rq_key a) 7 (k_dispatcher (rs_client calls6))) /\
  _capacity (k_dispatcher (rs_client calls6)) = 10 /\ _topics (k_dispatcher (rs_client calls6)) = ∅.
Proof.
  destruct (request_calls_settle sample_config calls6 calls6_reachable) as (_ & _ & H3 & H4).
  destruct (rs_calls calls6 !! 0%nat) as [a|] eqn:Ha; [|vm_compute in Ha; discriminate Ha].
  assert (Hst : rq_state a = RqDone (Ok 7%nat)).
  { vm_compute in Ha. injection Ha as <-. reflexivity. }
  assert (Hdom : dom (rs_calls calls6) = {[0%nat]}) by (vm_compute; reflexivity).
  split.
  - exists a. split; [reflexivity|]. split; [exact Hst|]. exact (H3 0%nat a 7%nat Ha Hst).
  - destruct H4 as (H4 & _ & _ & H5); [|split; [exact H4|exact H5]].
    intros i b Hb. assert (Hi : i ∈ dom (rs_calls calls6)) by (apply elem_of_dom; exists b; exact Hb).
    rewrite Hdom in Hi. apply elem_of_singleton in Hi as ->.
    assert (b = a) as -> by congruence. rewrite Hst. reflexivity.
Defined.

(** The same call with its timer: it waits for its response from the start on, which
    is due within 30 ticks. *)
Definition timed_wake (outcome : result unit) (i : nat) (y : timed_requests (P := Connection _RequestDispatcher))
    : timed_requests :=
  match rs_calls (tm_requests y) !! i with
  | Some a =>
      let (s, c') := caught (request_wake outcome a) (rs_client (tm_requests y)) in
      mkTimed (mkRequests c' (<[i := set_state s a]> (rs_calls (tm_requests y)))) (tm_now y)
        (rearm i a s (tm_now y) (tm_timers y))
  | None => y
  end.

Lemma timed_wake_step latency outcome i y : rtc (timed_step latency) y (timed_wake outcome i y).
Proof.
  unfold timed_wake. destruct y as [[c calls] now timers]. cbn [tm_requests rs_calls rs_client].
  destruct (calls !! i) eqn:Hi; [|done]. destruct (caught _ _) as [s c'] eqn:Hr.
  apply rtc_once. by eapply ts_wake.
Qed.

Definition timed2 : timed_requests := mkTimed calls2 5 ∅.
Definition timed4 : timed_requests := timed_wake (Ok tt) 0 (timed_wake (Ok tt) 0 timed2).

Lemma timed4_reachable : timed_reachable sample_config 1 timed4.
Proof.
  exists client0, 5. split; [vm_compute; reflexivity|].
  etrans; [|eapply timed_wake_step]. etrans; [|eapply timed_wake_step].
  eapply rtc_l; [apply (ts_other 1 client0 client2)|].
  - left. replace (k_dispatcher client2) with (bind 1 (k_dispatcher client0));
      [constructor|vm_compute; reflexivity].
  - destruct (request (lit "ask") (inl [x01]) AT_MOST_ONCE 30 None [x00; xff] [x01] client2)
      as [[a|x] c'] eqn:Hr; [|apply (f_equal (fun r => is_Ok r.1)) in Hr; vm_compute in Hr; discriminate Hr].
    unfold timed2, calls2, begin_call, calls1. cbn [rs_calls rs_client]. rewrite lookup_empty, Hr.
    apply rtc_once. by eapply ts_begin.
Qed.

Lemma request_call_ends_witness :
  exists a, rs_calls (tm_requests timed4) !! 0%nat = Some a /\ rq_state a = RqWaiting 0 /\
    tm_timers timed4 !! 0%nat = Some 35 /\
    forall y' a' p', rtc (timed_step 1) timed4 y' -> rs_calls (tm_requests y') !! 0%nat = Some a' ->
      rq_state a' = RqWaiting p' -> tm_now y' <= 36.
Proof.
  destruct (rs_calls (tm_requests timed4) !! 0%nat) as [a|] eqn:Ha; [|vm_compute in Ha; discriminate Ha].
  assert (Hst : rq_state a = RqWaiting 0 /\ rq_timeout a = 30)
    by (vm_compute in Ha; injection Ha as <-; split; reflexivity).
  destruct Hst as [Hst Hto].
  exists a. split; [reflexivity|]. split; [exact Hst|]. split; [vm_compute; reflexivity|].
  intros y' a' p' Hr Ha' Hp'.
  destruct (request_call_ends sample_config 1 timed4 0 a ltac:(lia) timed4_reachable Ha)
    as (_ & _ & _ & _ & H).
  destruct (H 0%nat Hst) as (_ & _ & Hb). specialize (Hb y' a' p' Hr Ha' Hp').
  rewrite Hto in Hb. exact Hb.
Defined.

Lemma release_failure_outcome_witness :
  exists a, rs_calls calls5 !! 0%nat = Some a /\ rq_state a = RqClosing 0 (Ok 7%nat) /\
    (caught (request_wake (Err connection_lost) a) (rs_client calls5)).1 = RqDone (Err connection_lost).
Proof.
  destruct (rs_calls calls5 !! 0%nat) as [a|] eqn:Ha; [|vm_compute in Ha; discriminate Ha].
  assert (Hst : rq_state a = RqClosing 0 (Ok 7%nat)).
  { vm_compute in Ha. injection Ha as <-. reflexivity. }
  exists a. split; [reflexivity|]. split; [exact Hst|].
  destruct (d_closing (k_dispatcher (rs_client calls5)) !! 0%nat) as [[t i [task|]]|] eqn:Hc;
    try (vm_compute in Hc; discriminate Hc).
  exact (proj1 (release_failure_outcome a (rs_client calls5) 0 (Ok 7%nat) t i Hst Hc (Err connection_lost))).
Defined.
