(* ===== verification/Lifetime.v ===== *)
(** * A served connection and the client above it

    The run loop of the client awaits the [run] of the connection it serves: which ends
    of a connection the client recovers from, and which end the client. *)

From S2P Require Import Prelude PyBytes Utf8 Packets Codec Reader SubscriptionIndex State Routing Protocol ProtocolFacts Inbound InboundFacts InboundInv Pings Connection ConnectionFacts Keepalive KeepaliveFacts Requests RequestsFacts Client ClientFacts ClientProps.
Local Open Scope Z_scope.

Section lifetime.
Context {T P : Type} `{Handshake T P} {R : Type} `{RequestRouter R}.
Implicit Types (c : Client P) (s : RunningProtocol R).

(** [await protocol_run_task], once the subscriptions are restored *)
Definition served s c : Client P :=
  match sv_outcome s with Some x => serve_next (Err x) c | None => c end.

(** The client goes on: it closed the transport, slept, and tries to connect again. *)
Definition goes_on c c' : Prop :=
  (exists rt, k_run c' = Recovering (_subscriptions c) rt) /\
  count is_report (k_log c') = count is_report (k_log c) /\
  get_message c' = (Ok tt, c').

(** The client stops: its run loop raised, whoever waits for a message gets the
    exception, and [on_connection_recovery_failed] was not called. *)
Definition stops (x : exn) c c' : Prop :=
  k_run c' = RunRaised x /\ count is_report (k_log c') = count is_report (k_log c) /\
  get_message c' = (Err x, c').

Lemma served_outcome c s x :
  k_run c = Serving [] -> _subscription_failure c = Some None -> enabled (reconnect_of c) = true ->
  sv_outcome s = Some x -> if lost x then goes_on c (served s c) else stops x c (served s c).
Proof.
  intros Hrun Hf He Hx. unfold served, serve_next. rewrite Hx, Hrun, serving_ended_eq, He.
  destruct (lost x); cbn [negb].
  - split_and!; [by eexists| |].
    + simpl. rewrite count_app. apply Nat.add_0_r.
    + unfold get_message. run. simpl. by rewrite Hf.
  - unfold run_ends, _notify_subscription_failure, stops, get_message. simpl. rewrite Hf. done.
Qed.

(** The read loop of a connection with no complete packet in its buffer *)
Lemma read_idle s ev conn :
  dispatch_all (sv_conn s) = (Ok true, conn) -> c_disconnecting conn = false ->
  sv_outcome (run_reads [ev] s) =
    match ev with
    | Closed => Some (MQTTDisconnectedError "Connection closed by remote")
    | Broken => Some OSError
    | Data _ => sv_outcome (run_reads [ev] s)
    end.
Proof.
  intros Hd Hc. destruct ev as [data| |]; [done|..]; unfold run_reads;
    cbn [_read_loop]; rewrite run_bind, Hd; [|done]. simpl. run. by rewrite Hc.
Qed.

(** C36: which ends of a connection the client survives.  With reconnecting enabled, a
    connection that the remote closes, or whose ping times out, is recovered.  A
    connection that breaks with an [OSError] (a reset), one whose ping is answered in
    the very turn in which it times out, and one on which the read loop raises anything
    but [MQTTDisconnectedError] or [MQTTTimeoutError] end the run loop of the client
    for good, without a report. *)
Theorem connection_loss_outcome c s conn :
  k_run c = Serving [] -> _subscription_failure c = Some None -> enabled (reconnect_of c) = true ->
  dispatch_all (sv_conn s) = (Ok true, conn) -> c_disconnecting conn = false ->
  goes_on c (served (run_reads [Closed] s) c) /\
  stops OSError c (served (run_reads [Broken] s) c) /\
  (forall f, if decide (f ∈ e_ping_waiters (serving_engine s))
     then goes_on c (served (ping_expires f s) c)
     else stops (ValueError "list.remove(x): x not in list") c (served (ping_expires f s) c)) /\
  (forall reads x conn', _read_loop reads (sv_conn s) = (Err x, conn') ->
     if lost x then goes_on c (served (run_reads reads s) c)
     else stops x c (served (run_reads reads s) c)).
Proof.
  intros Hrun Hf He Hd Hc. pose proof (served_outcome c) as HS. split_and!.
  - apply (HS _ (MQTTDisconnectedError "Connection closed by remote")); try done.
    by rewrite (read_idle s Closed conn).
  - apply (HS _ OSError); try done. by rewrite (read_idle s Broken conn).
  - intros f. case_decide as Hin;
      [apply (HS _ (MQTTTimeoutError "PINGRESP not received within timeout"))
      |apply (HS _ (ValueError "list.remove(x): x not in list"))]; try done;
      unfold ping_expires; rewrite run_engine_eq, ping_timeout_eq; by case_decide.
  - intros reads x conn' Hr. apply HS; try done. unfold run_reads. by rewrite Hr.
Qed.

End lifetime.

(** The client of the examples, on a connection that is reset *)
Definition idle_serving : RunningProtocol _RequestDispatcher :=
  match k_protocol client2 with
  | Some conn => run_start 60 conn 0
  | None => run_start 60 (new_protocol sample_config sample_dispatcher ∅) 0
  end.

Lemma connection_loss_outcome_witness :
  k_run (served (run_reads [Broken] idle_serving) client2) = RunRaised OSError /\
  exists rt, k_run (served (run_reads [Closed] idle_serving) client2) = Recovering [] rt.
Proof.
  destruct (connection_loss_outcome client2 idle_serving (sv_conn idle_serving))
    as ((H1 & _) & (H2 & _) & _).
  - vm_compute. reflexivity.
  - vm_compute. reflexivity.
  - vm_compute. reflexivity.
  - vm_compute. reflexivity.
  - vm_compute. reflexivity.
  - split; [exact H2|exact H1].
Defined.
